(* ===== verification/_CoqProject ===== *)
-Q . S2P
Prelude.v
GoLib.v
Float64.v
Calendar.v
Models.v
Circuit.v
Catalog.v
Router.v
Http.v
Limiter.v
Json.v
Body.v
Streaming.v
Active.v
Handler.v
Sql.v
Store.v
Retention.v
Stats.v
Metrics.v
Health.v
Access.v
Reports.v
QueryWorker.v
Migrate.v
Reply.v
Admin.v
AdminConfig.v
Onboard.v
AdminApi.v
AdminKeys.v
Gateway.v
StoreApi.v
Billing.v
Server.v
Delivery.v
Ledger.v
Process.v
