(* ===== verification/Prelude.v ===== *)
(** * LLMate: a verification development of the gateway

    LLMate is a reverse proxy for language-model backends, written in Go.  A
    client sends OpenAI-style requests under a model name; the gateway checks
    the API key, finds the backends that offer the name, tries up to three of
    them, passes the answer on (whole or as a stream of server-sent events),
    and records what it cost.  Providers, models, aliases, keys, logs and
    settings live in SQLite and are edited through an admin API; a snapshot of
    the routing tables is kept in memory, and background goroutines reload it,
    check the health of the backends, write the logs and purge old bodies.

    This library translates the code under [src/internal] and
    [src/cmd/gateway] into executable definitions, and proves what they do.  A theorem whose comment opens with an id is
    one of the principal claims; the others are lemmas or further facts.

    ** How the parts interact

    A request of a client passes the middlewares ([Access]), the key check and
    the rate limiter ([Limiter]) and reaches a proxy handler ([Handler]).  The
    handler reads the body ([Body], on [Json]), registers the request in the
    registry of in-flight requests ([Active]), and asks the router ([Router])
    for a backend.  The router resolves the name in the catalog's snapshot
    ([Catalog]), drops candidates whose circuit breaker refuses ([Circuit]) or
    whose endpoint is not enabled, and draws one by weight.  The handler sends
    the request, reports the outcome to the breaker, and copies the answer to
    the client ([Streaming] for a stream).  Its log goes through the bounded
    channel of the collector ([Metrics]) to be priced, counted in memory
    ([Stats]) and stored ([Store]).  A call of the admin API ([Admin],
    [AdminConfig], [Onboard], behind the access key in [AdminApi]) runs store
    operations, answers, and calls a hook that asks the catalog to reload or
    the settings to be read again.

    A few files put these parts together.  [Gateway] is the way of a change of
    the tables to the routes: tables, admin API, health checks, reload worker
    and router.  [Server] is the way of a request: middlewares, key wrapper,
    limiter, route and handler, next to admin calls that change the keys and
    settings it is held to; [Delivery] joins the two ways.  [Ledger] adds the
    collector behind the requests and the end of [main].  [Process] is its
    start: the database is opened, copied and migrated, and the tables it
    serves are read.

    ** Files

    - [Prelude], [GoLib], [Float64], [Calendar]: scope and notations, the
      state and outcome types, tactics, list lemmas; what the code uses of
      Go's language and library: [int] at 64 bits with its wrap-around,
      durations and instants in nanoseconds, byte strings, sorting ([SortSlice]:
      any sort of the given order), [float64] as binary64 (the Standard
      Library's [SpecFloat]), and the calendar behind two layouts.
    - [Models]: the records of [internal/models].
    - [Circuit], [Catalog], [Router]: [internal/proxy/circuit.go],
      [catalog.go] (with [internal/db/sqlite_routing.go]), [router.go].
    - [Http]: headers, requests and response writers of [net/http].
    - [Limiter]: [internal/proxy/auth.go].
    - [Json], [Body]: the use of [encoding/json], and the body helpers of
      [internal/proxy/handler.go] and [streaming.go].
    - [Streaming], [Active], [Handler]: [streaming.go], [active.go],
      [handler.go] of [internal/proxy].
    - [Sql], [Store], [Reports], [Migrate]: [internal/db]: tables,
      constraints, statements and transactions; the store's operations; the
      aggregate queries; the start of the database.
    - [Retention], [Stats], [Metrics], [Health]: [internal/logretention],
      [internal/pricing] and [internal/stats], [internal/metrics],
      [internal/health] with its ticker.
    - [Access]: [internal/auth], [internal/middleware], [internal/config],
      [internal/proxy/config_cache.go]; the middlewares work on any state with
      a response writer, a clock and a logger (the classes [Writer] and
      [Ambient]).
    - [QueryWorker], [Reply], [Admin], [AdminConfig], [Onboard], [AdminApi],
      [AdminKeys]: [internal/admin]: the goroutine for log queries, the monad
      of the handlers, the handlers, the routes, and what holds of all calls.
    - [StoreApi]: [internal/db/store.go]: the methods of the store as data
      and as the class [StoreI]; the step on the tables that each promises
      ([promised], the class [Promises]), which is a specification of this
      development and not text of the interface; the SQLite store as an
      instance of both, and the programs of its clients.
    - [Billing]: what the proxy handlers record and send, panics included.
    - [Gateway], [Server], [Delivery], [Ledger], [Process]: the compositions;
      [cmd/gateway/main.go], [frontend.go], [internal/httpx], and [openDB] and
      [NewStore] of [internal/db].

    A component's state is a [Record] ([CircuitBreaker], [RoutingCatalog],
    [SmartRouter], [KeyLimiter], [StreamingBuffer], [Accumulator], [Collector],
    [DB] with [Conn], ...); each method is a definition of the method's name
    from the state (and what it reads of the outside) to the result and the
    state after it.  Methods that hold a mutex are atomic; concurrency is the
    order of such steps, and where goroutines share more than one step (the
    catalog's worker, the collector, the health checks, the query worker, the
    admin calls of [Gateway], the requests of [Server] and [Ledger]) the steps
    are interleaved by an event list the theorems quantify over.  In [Server]
    and [Ledger] a request is one step: what it shares with others it reads
    and writes in the key wrapper, under the limiter's mutex; where requests
    meet inside a handler (router, registry), the theorems of the handlers
    hold of any state the others leave.

    ** What is taken from outside

    Code that is not under [src] is an argument: the clock, random numbers and
    identifiers, the backends' answers ([HandlerEnv], [client]), [time.Parse],
    the hash of a key, [strings.ToLower], SQLite's sum of reals, and which
    statements, writes or flushes fail (a fault plan over their number).  Laws
    are assumed of few of them and named where they are: that [rand.Intn] is
    in range ([RandOk]), that a sort sorts ([SortSlice]), and that a migration
    leaves the [_migrations] table alone ([EngineLaws]); each has an instance
    in the file that uses it.  The SQL texts are read as functions on the
    tables, with the constraints, foreign keys and cascades the migrations
    declare.

    ** What the theorems show

    - Proxying: requests follow the failover protocol, whole and streamed;
      on every endpoint a request goes to the URL of one provider with that
      provider's credential ([Delivery]); the reply is passed on faithfully;
      a stream is forwarded line by line and what is logged of it is bounded;
      tracking is balanced also under panics.
    - Routing: the breaker refines the documented state machine, the snapshot
      says what the rows say, a route is admissible, of top priority, and drawn
      in proportion to its weight; and, of the whole, that routes follow the
      tables as the admin API last left them, and that what a request of a
      client sends reaches a backend they offer, under its key.
    - Limits and keys: no key exceeds its limit beyond two windows, and what
      it sends to backends is bounded by six times its limit a minute; what
      becomes of a request is what tables, settings and limiter say; settings
      are in force as soon as they are saved; key names stay distinct, a
      created key authenticates and is kept only as its hash.
    - Accounts: a request is recorded at most once, under the key it was let
      in with; the rows of a key grow by at most the requests let in under it;
      the process can always be brought to its end, and loses no accepted log
      doing so.
    - Data: whatever fails, a program over the store sees each call make its
      whole change or none, and the tables stay well formed; what is stored is read back, pages cover the
      logs, migrations apply once, a store that opens is migrated, purges
      clear exactly the old bodies.
    - Statistics: the dashboard in memory and the one of the database count
      the logs of their window, the SQL prices agree with the Go prices, the
      series have a point per bucket, a backfill ends and counts each log once.
    - Background work: the worker of the catalog catches up, accepted logs are
      processed in order, every provider gets its verdict, a query reaches its
      client.
    - Admin API: every call answers once, needs the access key unless its
      route is open, changes only its tables, changes nothing when it refuses,
      and announces what it changed; settings are updated all or nothing, and
      a refusal names the setting; confirmation stores the selection; discovery
      reports the backend.

    ** Bounds and fuel

    Loops are structural where they can be.  The JSON scanner recurses with
    fuel given by the length of its input, which [Json] proves sufficient for
    what the printer writes; the loops over buckets of [Stats] and [Reports]
    and the pages of the backfill take a fuel argument, and their theorems say
    how much is enough (one more than the buckets, or pages) and that the
    result is then complete.  The worker of the catalog needs at most eleven
    steps.  Counters that Go keeps in [int] wrap around at 64 bits; the
    theorems say where a bound is needed for them to be exact.  SQLite's integer
    sums are an error when they overflow.

    ** Not modelled

    - Log lines written with [slog], but for those of a request and of a panic
      ([Access]).
    - [net/http] itself (transports, connections, [http.FileServer]), [chi] and
      the embedded files: a request arrives with its route.
    - A request that outlives the 30 seconds [main] gives the server to shut
      down: it finds the collector's channel closed ([Metrics.enqueue] panics).
    - The backfill of the statistics runs next to the collector; [Stats] has
      it alone.
    - The text of a stored time.  Columns of times hold instants, and a
      comparison of times in a query compares instants, which is what SQLite
      does with texts of one time zone; a bound that a client sends with
      another offset is compared as if it had been converted to UTC.
    - The order of rows that [ORDER BY] leaves open, which SQLite may choose
      for each query anew: one sort serves all queries of a run, so that logs
      of one instant keep their order from page to page ([query_logs]).
    - Timeouts and cancellation, except as errors of the call they end. *)
From Stdlib Require Export Ascii.
From stdpp Require Export base option list gmap strings sorting.
From Stdlib Require Export ZArith Lia.

(** * Scope and notations of the development *)

Declare Scope go_scope.
Delimit Scope go_scope with go.

(** ** Outcomes of a Go call

    A Go function that can fail returns a value or an error; one that indexes
    out of range, divides by zero or calls [rand.Intn] with a non-positive
    bound panics.  The three outcomes are kept apart. *)
Inductive Outcome (E A : Type) : Type :=
| Ok (a : A)
| Err (e : E)
| Panic (msg : string).
Arguments Ok {E A} a.
Arguments Err {E A} e.
Arguments Panic {E A} msg.

(** ** State passing

    Stateful code is modelled as a function from the state before to the
    result and the state after. *)
Definition ST (S A : Type) : Type := S -> A * S.

Definition ret {S A : Type} (a : A) : ST S A := fun s => (a, s).

Definition bind {S A B : Type} (m : ST S A) (k : A -> ST S B) : ST S B :=
  fun s => let '(a, s') := m s in k a s'.

Definition get {S : Type} : ST S S := fun s => (s, s).

Definition gets {S A : Type} (f : S -> A) : ST S A := fun s => (f s, s).

Definition modify {S : Type} (f : S -> S) : ST S unit := fun s => (tt, f s).

Notation "'let!' x ':=' m 'in' k" := (bind m (fun x => k))
  (at level 10, x pattern, m at level 200, k at level 200) : go_scope.

Notation "m ';;!' k" := (bind m (fun _ => k))
  (at level 100, right associativity) : go_scope.

Create HintDb go_state.
Create HintDb go_lists.

#[export] Hint Unfold ret bind get gets modify : go_state.

(** * Tactics *)

(** Splits the innermost [match] or [if] of the goal or of a hypothesis. *)
Ltac split_match :=
  match goal with
  | |- context [match ?x with _ => _ end] =>
      lazymatch x with
      | context [match _ with _ => _ end] => fail
      | _ => destruct x eqn:?
      end
  | H : context [match ?x with _ => _ end] |- _ =>
      lazymatch x with
      | context [match _ with _ => _ end] => fail
      | _ => destruct x eqn:?
      end
  end.

Ltac split_matches := repeat (split_match; simplify_eq/=).

(** Turns boolean comparisons on [Z] and on [nat] in the context into
    propositions that [lia] reads. *)
Ltac bool_to_prop :=
  repeat match goal with
  | H : (_ <? _)%Z = true |- _ => apply Z.ltb_lt in H
  | H : (_ <? _)%Z = false |- _ => apply Z.ltb_ge in H
  | H : (_ <=? _)%Z = true |- _ => apply Z.leb_le in H
  | H : (_ <=? _)%Z = false |- _ => apply Z.leb_gt in H
  | H : (_ =? _)%Z = true |- _ => apply Z.eqb_eq in H
  | H : (_ =? _)%Z = false |- _ => apply Z.eqb_neq in H
  | H : (_ && _)%bool = true |- _ => apply andb_true_iff in H; destruct H
  | H : (_ || _)%bool = false |- _ => apply orb_false_iff in H; destruct H
  | H : negb _ = true |- _ => apply negb_true_iff in H
  | H : negb _ = false |- _ => apply negb_false_iff in H
  | H : String.eqb _ _ = true |- _ => apply String.eqb_eq in H
  | H : String.eqb _ _ = false |- _ => apply String.eqb_neq in H
  end.

Ltac blia := bool_to_prop; lia.

(** * Generic lemmas shared by the components *)

Section Lists.
Context {A B : Type}.

(** Go's [for _, x := range l { if p(x) { out = append(out, x) } }] written
    over a bool-valued test. *)
Definition keep (p : A -> bool) (l : list A) : list A := List.filter p l.

Lemma keep_spec (p : A -> bool) (l : list A) (x : A) :
  x ∈ keep p l <-> x ∈ l /\ p x = true.
Proof. unfold keep. by rewrite !list_elem_of_In, filter_In. Qed.

Lemma keep_length (p : A -> bool) (l : list A) : length (keep p l) <= length l.
Proof. apply List.filter_length_le. Qed.

Lemma keep_Forall (P : A -> Prop) (p : A -> bool) (l : list A) :
  Forall P l -> Forall P (keep p l).
Proof. rewrite !Forall_forall. intros H x [Hx _]%keep_spec. by apply H. Qed.

Lemma keep_app (p : A -> bool) (l1 l2 : list A) :
  keep p (l1 ++ l2) = keep p l1 ++ keep p l2.
Proof. apply List.filter_app. Qed.

Lemma keep_all (p : A -> bool) (l : list A) :
  Forall (fun x => p x = true) l -> keep p l = l.
Proof. induction 1 as [|x l Hx _ IH]; [done|]. unfold keep in *; simpl. by rewrite Hx, IH. Qed.

Lemma keep_none (p : A -> bool) (l : list A) :
  Forall (fun x => p x = false) l -> keep p l = [].
Proof. induction 1 as [|x l Hx _ IH]; [done|]. unfold keep in *; simpl. by rewrite Hx. Qed.

Lemma keep_ext (p q : A -> bool) (l : list A) :
  (forall x, x ∈ l -> p x = q x) -> keep p l = keep q l.
Proof.
  induction l as [|x l IH]; intros H; [done|]. unfold keep in *. simpl.
  rewrite (H x) by constructor. rewrite IH; [done|]. intros y Hy. apply H. by constructor.
Qed.

Lemma keep_perm (p : A -> bool) (l1 l2 : list A) :
  Permutation l1 l2 -> Permutation (keep p l1) (keep p l2).
Proof.
  unfold keep. induction 1; simpl; repeat case_match; eauto using Permutation.
Qed.

Lemma keep_nodup (p : A -> bool) (l : list A) : NoDup l -> NoDup (keep p l).
Proof. rewrite !NoDup_ListNoDup. apply List.NoDup_filter. Qed.

(** One row more: what holds of some row of a list extended at the end. *)
Lemma ex_snoc (P : A -> Prop) (l : list A) (x : A) :
  (exists y, y ∈ l ++ [x] /\ P y) <-> (exists y, y ∈ l /\ P y) \/ P x.
Proof.
  setoid_rewrite elem_of_app. setoid_rewrite list_elem_of_singleton. split.
  - intros (y & [Hy| ->] & HP); [left; by exists y|by right].
  - intros [(y & Hy & HP)|HP]; [exists y; by auto|exists x; by auto].
Qed.

Lemma omap_snoc (f : A -> option B) (l : list A) (x : A) :
  omap f (l ++ [x]) = omap f l ++ option_list (f x).
Proof. rewrite omap_app. simpl. by destruct (f x). Qed.

(** Runs an operation on every element from left to right. *)
Fixpoint for_each {S : Type} (f : A -> ST S unit) (l : list A) : ST S unit :=
  match l with
  | [] => ret tt
  | x :: l' => bind (f x) (fun _ => for_each f l')
  end.

End Lists.

(** Sublists. *)
Lemma keep_sublist {A} (f : A -> bool) l1 l2 : l1 `sublist_of` l2 -> (length (keep f l1) <= length (keep f l2))%nat.
Proof. induction 1 as [|x l1 l2 _ IH|x l1 l2 _ IH]; unfold keep in *; simpl; [lia|..]; destruct (f x); simpl; lia. Qed.

Lemma Forall_sublist {A} (P : A -> Prop) l1 l2 : l1 `sublist_of` l2 -> Forall P l2 -> Forall P l1.
Proof. induction 1; rewrite ?Forall_cons; naive_solver. Qed.

Lemma sublist_full {A} (l1 l2 : list A) : l1 `sublist_of` l2 -> Permutation l1 l2 -> l1 = l2.
Proof.
  intros H Hp%Permutation_length. induction H as [|x l1 l2 _ IH|x l1 l2 H IH]; simpl in Hp; [done|f_equal; apply IH; lia|].
  apply sublist_length in H. lia.
Qed.

(** Filling a map row by row: with unique keys, its entries are the rows. *)
Lemma fold_insert_spec {A V : Type} (key : A -> string) (val : A -> V) (l : list A) (k : string) (v : V) :
  NoDup (key <$> l) ->
  fold_left (fun m x => <[key x := val x]> m) l (∅ : gmap string V) !! k = Some v <->
  exists x, x ∈ l /\ key x = k /\ val x = v.
Proof.
  induction l as [|y l IH] using rev_ind; intros Hnd.
  { split; [done|]. intros (x & Hx & _). by apply elem_of_nil in Hx. }
  rewrite fmap_app in Hnd. apply NoDup_app in Hnd as (Hnd & Hdis & _). specialize (IH Hnd).
  rewrite fold_left_app, ex_snoc, <- IH. simpl. destruct (decide (key y = k)) as [<-|Hne].
  - rewrite lookup_insert_eq. split; [intros [= <-]; by right|].
    intros [Hin|[_ ->]]; [|done]. apply IH in Hin as (x & Hx & Hk & _). exfalso.
    apply (Hdis (key x)); [by apply list_elem_of_fmap_2|]. rewrite Hk. set_solver.
  - rewrite lookup_insert_ne by done. tauto.
Qed.

#[export] Hint Resolve keep_Forall : go_lists.
