(* ===== verification/GoLib.v ===== *)
(** The part of Go's language and standard library the gateway relies on:
    64-bit integers, instants and durations, byte strings ([strings],
    [strconv]) and [sort]. *)
From Stdlib Require OrdersEx.
From Stdlib Require Import DecimalString DecimalZ DecimalFacts DecimalPos.
From stdpp Require Import pretty.
From S2P Require Import Prelude.
Local Open Scope Z_scope.

(** * Integers *)

(** Go's [int] and [int64] on the 64-bit platforms the gateway is built for. *)
Definition min_int64 : Z := - 2 ^ 63.
Definition max_int64 : Z := 2 ^ 63 - 1.

(** Two's-complement wrap-around of an exact result. *)
Definition wrap64 (z : Z) : Z := (z + 2 ^ 63) mod 2 ^ 64 - 2 ^ 63.

Definition in_int64 (z : Z) : Prop := min_int64 <= z <= max_int64.

(** * Instants and durations

    An instant is a count of nanoseconds since the Unix epoch (UTC); a
    duration is an [int64] count of nanoseconds. *)
Definition Second : Z := 1000000000.
Definition Millisecond : Z := 1000000.
Definition Minute : Z := 60 * Second.
Definition Hour : Z := 60 * Minute.

(** [time.Time{}]: January 1, year 1, 00:00:00 UTC. *)
Definition time_zero : Z := - 62135596800 * Second.
Definition time_is_zero (t : Z) : bool := t =? time_zero.

(** [t.Sub(u)] saturates at the ends of [Duration]. *)
Definition time_sub (t u : Z) : Z := Z.max min_int64 (Z.min max_int64 (t - u)).
Definition time_add (t d : Z) : Z := t + d.
Definition time_after (t u : Z) : bool := u <? t.
Definition time_before (t u : Z) : bool := t <? u.

(** [time.Duration(n) * unit]: a multiplication of [int64]s. *)
Definition dur_mul (n unit : Z) : Z := wrap64 (n * unit).

(** [d.Milliseconds()]: integer division truncated towards zero. *)
Definition milliseconds (d : Z) : Z := Z.quot d Millisecond.

(** [t.Truncate(d)] for a positive [d]: rounds down to a multiple of [d] since
    the zero time. *)
Definition time_truncate (t d : Z) : Z := t - (t - time_zero) mod d.

(** * Byte strings *)

Definition slash : ascii := "/"%char.
Definition cr : ascii := "013"%char.
Definition lf : ascii := "010"%char.
Definition dquote : ascii := "034"%char.

Definition nl : string := String lf EmptyString.

Definition slen (s : string) : Z := Z.of_nat (String.length s).

Definition str_empty (s : string) : bool := String.eqb s EmptyString.

Fixpoint str_rev_onto (s acc : string) : string :=
  match s with
  | EmptyString => acc
  | String c s' => str_rev_onto s' (String c acc)
  end.

Definition str_rev (s : string) : string := str_rev_onto s EmptyString.

(** [strings.TrimLeft(s, c)] and [strings.TrimRight(s, c)] for a one-byte
    cutset. *)
Fixpoint trim_left (c : ascii) (s : string) : string :=
  match s with
  | String d s' => if Ascii.eqb c d then trim_left c s' else s
  | EmptyString => EmptyString
  end.

Fixpoint trim_right (c : ascii) (s : string) : string :=
  match s with
  | EmptyString => EmptyString
  | String d s' =>
      let r := trim_right c s' in
      if str_empty r && Ascii.eqb c d then EmptyString else String d r
  end.

(** [strings.HasPrefix(s, p)]. *)
Definition has_prefix (s p : string) : bool := String.prefix p s.

(** [s[n:]] for [n] at most [len(s)]. *)
Fixpoint str_drop (n : nat) (s : string) : string :=
  match n, s with
  | S n', String _ s' => str_drop n' s'
  | _, _ => s
  end.

(** [s[:n]]. *)
Fixpoint str_take (n : nat) (s : string) : string :=
  match n, s with
  | S n', String c s' => String c (str_take n' s')
  | _, _ => EmptyString
  end.

(** [strings.TrimPrefix(s, p)]. *)
Definition trim_prefix (s p : string) : string :=
  if has_prefix s p then str_drop (String.length p) s else s.

(** [strings.HasSuffix(s, p)] and [strings.TrimSuffix(s, p)]. *)
Definition has_suffix (s p : string) : bool :=
  String.prefix (str_rev p) (str_rev s).

Definition trim_suffix (s p : string) : string :=
  if has_suffix s p then str_take (String.length s - String.length p) s else s.

Definition byte_lower (c : ascii) : ascii :=
  let n := Ascii.nat_of_ascii c in
  if (Nat.leb 65 n && Nat.leb n 90)%bool then Ascii.ascii_of_nat (n + 32) else c.

Definition byte_upper (c : ascii) : ascii :=
  let n := Ascii.nat_of_ascii c in
  if (Nat.leb 97 n && Nat.leb n 122)%bool then Ascii.ascii_of_nat (n - 32) else c.

Fixpoint str_map (f : ascii -> ascii) (s : string) : string :=
  match s with
  | EmptyString => EmptyString
  | String c s' => String (f c) (str_map f s')
  end.

(** [strings.ToLower] on ASCII text; the bytes of other runes are kept. *)
Definition to_lower (s : string) : string := str_map byte_lower s.

(** The UTF-8 encodings of the runes [unicode.IsSpace] accepts. *)
Definition space_runes : list string :=
  let b n := String (Ascii.ascii_of_nat n) EmptyString in
  [b 9%nat; b 10%nat; b 11%nat; b 12%nat; b 13%nat; b 32%nat;
   b 194 +:+ b 133; b 194 +:+ b 160; b 225 +:+ b 154 +:+ b 128;
   b 226 +:+ b 128 +:+ b 128; b 226 +:+ b 128 +:+ b 129; b 226 +:+ b 128 +:+ b 130;
   b 226 +:+ b 128 +:+ b 131; b 226 +:+ b 128 +:+ b 132; b 226 +:+ b 128 +:+ b 133;
   b 226 +:+ b 128 +:+ b 134; b 226 +:+ b 128 +:+ b 135; b 226 +:+ b 128 +:+ b 136;
   b 226 +:+ b 128 +:+ b 137; b 226 +:+ b 128 +:+ b 138; b 226 +:+ b 128 +:+ b 168;
   b 226 +:+ b 128 +:+ b 169; b 226 +:+ b 128 +:+ b 175; b 226 +:+ b 129 +:+ b 159;
   b 227 +:+ b 128 +:+ b 128]%nat.

(** One pass of trimming drops one of the given prefixes; the fuel is the
    length of the string, which bounds the number of runes. *)
Fixpoint trim_prefixes (fuel : nat) (ps : list string) (s : string) : string :=
  match fuel with
  | O => s
  | S fuel' =>
      match List.find (fun p => String.prefix p s) ps with
      | Some p => trim_prefixes fuel' ps (str_drop (String.length p) s)
      | None => s
      end
  end.

(** [strings.TrimSpace]. *)
Definition trim_space (s : string) : string :=
  let l := trim_prefixes (String.length s) space_runes s in
  str_rev (trim_prefixes (String.length l) (map str_rev space_runes) (str_rev l)).

(** [strings.SplitN(s, c, 2)[0]]. *)
Fixpoint before_byte (c : ascii) (s : string) : string :=
  match s with
  | EmptyString => EmptyString
  | String d s' => if Ascii.eqb c d then EmptyString else String d (before_byte c s')
  end.

(** [strconv.Itoa] / [strconv.FormatInt(z, 10)]. *)
Definition itoa (z : Z) : string := NilZero.string_of_int (Z.to_int z).

(** [strconv.Atoi] / [strconv.ParseInt(s, 10, 64)]: an optional sign, then
    decimal digits, in the range of [int64]. *)
Definition atoi (s : string) : option Z :=
  let digits (neg : bool) (t : string) :=
    match NilZero.uint_of_string t with
    | None => None
    | Some u =>
        let n := Z.of_uint u in
        let v := if neg then - n else n in
        if (min_int64 <=? v) && (v <=? max_int64) then Some v else None
    end in
  match s with
  | String "+"%char t => digits false t
  | String "-"%char t => digits true t
  | _ => digits false s
  end.

(** [strconv.FormatBool]. *)
Definition format_bool (b : bool) : string := if b then "true" else "false".

(** * Sorting

    [sort.Slice] promises a permutation of the slice ordered by [less]; it
    does not promise to keep equal elements in their order.  A client is
    verified against the promise, for every implementation of it. *)
Class StrictWeak {A : Type} (less : A -> A -> bool) : Prop := {
  sw_irrefl : forall x, less x x = false;
  sw_trans : forall x y z, less x y = true -> less y z = true -> less x z = true;
  sw_neg_trans : forall x y z, less x y = false -> less y z = false -> less x z = false;
}.

Class SortSlice := {
  sort_slice : forall {A : Type}, (A -> A -> bool) -> list A -> list A;
  sort_slice_perm : forall {A : Type} (less : A -> A -> bool) (l : list A),
      Permutation (sort_slice less l) l;
  sort_slice_sorted : forall {A : Type} (less : A -> A -> bool) (l : list A),
      StrictWeak less -> StronglySorted (fun x y => less y x = false) (sort_slice less l);
}.

(** Insertion sort, what Go runs on slices of up to 12 elements. *)
Fixpoint insert_sorted {A : Type} (less : A -> A -> bool) (x : A) (l : list A) : list A :=
  match l with
  | [] => [x]
  | y :: l' => if less x y then x :: l else y :: insert_sorted less x l'
  end.

Definition insertion_sort {A : Type} (less : A -> A -> bool) (l : list A) : list A :=
  fold_left (fun acc x => insert_sorted less x acc) l [].

Definition string_ltb (s t : string) : bool :=
  match String.compare s t with Lt => true | _ => false end.

(** [sort.Strings]: bytewise order; equal strings are interchangeable, so the
    result does not depend on the algorithm. *)
Definition sort_strings (l : list string) : list string := insertion_sort string_ltb l.

(** * Lemmas *)

(** ** Integers and instants *)

Lemma wrap64_id (z : Z) : in_int64 z -> wrap64 z = z.
Proof.
  unfold in_int64, min_int64, max_int64, wrap64. intros H.
  rewrite Z.mod_small by lia. lia.
Qed.

Lemma wrap64_range (z : Z) : in_int64 (wrap64 z).
Proof.
  unfold in_int64, min_int64, max_int64, wrap64.
  pose proof (Z.mod_pos_bound (z + 2 ^ 63) (2 ^ 64) ltac:(lia)). lia.
Qed.

(** A sum that leaves the range by less than one turn wraps to a negative one. *)
Lemma wrap64_over (z : Z) : max_int64 < z <= max_int64 + 2 ^ 64 -> wrap64 z = z - 2 ^ 64.
Proof.
  unfold max_int64, wrap64. intros H.
  replace (z + 2 ^ 63) with (z - 2 ^ 63 + 1 * 2 ^ 64) by lia.
  rewrite Z.mod_add, Z.mod_small by lia. lia.
Qed.

Lemma time_sub_exact (t u : Z) : in_int64 (t - u) -> time_sub t u = t - u.
Proof. unfold in_int64, time_sub. lia. Qed.

(** A duration test on [t.Sub(u)] is not disturbed by the saturation. *)
Lemma time_sub_geb (t u d : Z) :
  min_int64 < d <= max_int64 -> (d <=? time_sub t u) = (d <=? t - u).
Proof. unfold time_sub. intros H. destruct (Z.leb_spec d (t - u)); blia. Qed.

(** ** Sorting *)

Section InsertionSort.
Context {A : Type} (less : A -> A -> bool).

Lemma insert_sorted_perm (x : A) (l : list A) : Permutation (insert_sorted less x l) (x :: l).
Proof.
  induction l as [|y l IH]; simpl; [done|].
  destruct (less x y); [done|]. rewrite IH. constructor.
Qed.

Lemma fold_insert_perm (l acc : list A) :
  Permutation (fold_left (fun a x => insert_sorted less x a) l acc) (l ++ acc).
Proof.
  revert acc. induction l as [|x l IH]; intros acc; simpl; [done|].
  rewrite IH, insert_sorted_perm. symmetry. apply Permutation_middle.
Qed.

Lemma insertion_sort_perm (l : list A) : Permutation (insertion_sort less l) l.
Proof. unfold insertion_sort. by rewrite fold_insert_perm, app_nil_r. Qed.

Context `{SW : !StrictWeak less}.

Lemma insert_sorted_sorted (x : A) (l : list A) :
  StronglySorted (fun a b => less b a = false) l ->
  StronglySorted (fun a b => less b a = false) (insert_sorted less x l).
Proof.
  induction 1 as [|y l Hl IH Hy]; simpl; [by repeat constructor|].
  destruct (less x y) eqn:E.
  - assert (less y x = false) as Hyx.
    { destruct (less y x) eqn:E'; [|done].
      pose proof (sw_trans _ _ _ E E') as H. by rewrite sw_irrefl in H. }
    constructor; [by constructor|]. constructor; [done|].
    revert Hy. rewrite !Forall_forall. intros Hy z Hz. by apply (sw_neg_trans z y x); [apply Hy|].
  - constructor; [done|]. rewrite Forall_forall. intros z Hz.
    rewrite insert_sorted_perm in Hz. apply elem_of_cons in Hz as [->|Hz]; [done|].
    rewrite Forall_forall in Hy. by apply Hy.
Qed.

Lemma insertion_sort_sorted (l : list A) :
  StronglySorted (fun a b => less b a = false) (insertion_sort less l).
Proof.
  unfold insertion_sort. generalize (@nil A), (SSorted_nil (fun a b => less b a = false)).
  induction l as [|x l IH]; intros acc Hacc; simpl; [done|].
  apply IH. by apply insert_sorted_sorted.
Qed.

End InsertionSort.

(** The insertion sort keeps the promise of [sort.Slice]. *)
#[export] Instance insertion_SortSlice : SortSlice := {|
  sort_slice A less l := insertion_sort less l;
  sort_slice_perm A less l := insertion_sort_perm less l;
  sort_slice_sorted A less l SW := insertion_sort_sorted less l;
|}.

Lemma string_compare_lt_trans (a b c : string) :
  String.compare a b = Lt -> String.compare b c = Lt -> String.compare a c = Lt.
Proof. exact (StrictOrder_Transitive (R:=OrdersEx.String_as_OT.lt) a b c). Qed.

#[export] Instance string_ltb_StrictWeak : StrictWeak string_ltb.
Proof.
  unfold string_ltb. split.
  - intros x. pose proof (String.compare_antisym x x) as H. by destruct (String.compare x x).
  - intros x y z. destruct (String.compare x y) eqn:E1, (String.compare y z) eqn:E2; try done.
    by rewrite (string_compare_lt_trans _ _ _ E1 E2).
  - intros x y z. intros H1 H2. destruct (String.compare x z) eqn:E; try done.
    destruct (String.compare x y) eqn:E1; try done.
    + apply String.compare_eq_iff in E1 as ->. by rewrite E in H2.
    + rewrite String.compare_antisym in E1.
      assert (String.compare y x = Lt) as E1' by (by destruct (String.compare y x)).
      by rewrite (string_compare_lt_trans _ _ _ E1' E) in H2.
Qed.

Lemma sort_strings_perm (l : list string) : Permutation (sort_strings l) l.
Proof. apply insertion_sort_perm. Qed.

Lemma sort_strings_sorted (l : list string) :
  StronglySorted (fun a b => string_ltb b a = false) (sort_strings l).
Proof. apply insertion_sort_sorted, _. Qed.

Lemma elem_of_sort_strings (x : string) (l : list string) : x ∈ sort_strings l <-> x ∈ l.
Proof. by rewrite sort_strings_perm. Qed.

(** ** Decimal text *)

(** A string of digits starts with no sign. *)
Lemma uint_of_string_no_sign (c : ascii) (t : string) (u : Decimal.uint) :
  NilZero.uint_of_string (String c t) = Some u -> c <> "+"%char /\ c <> "-"%char.
Proof.
  unfold NilZero.uint_of_string. simpl. intros H.
  split; intros ->; by destruct (NilEmpty.uint_of_string t).
Qed.

Lemma atoi_unsigned (t : string) (u : Decimal.uint) :
  NilZero.uint_of_string t = Some u -> Z.of_uint u <= max_int64 -> atoi t = Some (Z.of_uint u).
Proof.
  intros Hu Hr. assert (0 <= Z.of_uint u) by apply N2Z.is_nonneg || (unfold Z.of_uint; lia).
  unfold atoi. destruct t as [|c t]; [done|].
  destruct (uint_of_string_no_sign _ _ _ Hu) as [Hp Hm].
  destruct c as [[] [] [] [] [] [] [] []]; try done; rewrite Hu;
    (rewrite (proj2 (Z.leb_le min_int64 _)) by (unfold min_int64; lia));
    by rewrite (proj2 (Z.leb_le _ max_int64)) by lia.
Qed.

(** [strconv.Atoi(strconv.Itoa(z))] is [z] for every [int]. *)
Lemma atoi_itoa (z : Z) : in_int64 z -> atoi (itoa z) = Some z.
Proof.
  intros [Hl Hh]. unfold itoa. pose proof (DecimalZ.of_to z) as Hz.
  destruct (Z.to_int z) as [u|u] eqn:E; simpl in *.
  - rewrite <- Hz. apply atoi_unsigned; [|by rewrite Hz].
    apply NilZero.usu. intros ->. by destruct z.
  - unfold atoi. rewrite NilZero.usu by (intros ->; by destruct z).
    unfold Z.of_int in Hz. rewrite Hz.
    rewrite (proj2 (Z.leb_le min_int64 _)) by lia. by rewrite (proj2 (Z.leb_le _ max_int64)) by lia.
Qed.

(** Whatever [strconv.Atoi] accepts is an [int]. *)
Lemma atoi_range (s : string) (z : Z) : atoi s = Some z -> in_int64 z.
Proof.
  unfold atoi, in_int64. intros H.
  repeat (split_match; try discriminate); simplify_eq; blia.
Qed.
