(* ===== verification/Float64.v ===== *)
(** Go's [float64]: IEEE 754 binary64 with rounding to nearest even, as the
    executable specification of the Standard Library defines it.  The lemmas
    give the two facts the gateway's arithmetic rests on: results of
    non-negative operands are never negative, and the quotient of two counts
    is correctly rounded, so that comparing it with 0.5 and with 1 is exact. *)
From Stdlib Require Export Floats.SpecFloat.
From S2P Require Import Prelude GoLib.
Local Open Scope Z_scope.

Definition f64 : Type := spec_float.

Definition f64_add (x y : f64) : f64 := SFadd 53 1024 x y.
Definition f64_sub (x y : f64) : f64 := SFsub 53 1024 x y.
Definition f64_mul (x y : f64) : f64 := SFmul 53 1024 x y.
Definition f64_div (x y : f64) : f64 := SFdiv 53 1024 x y.
Definition f64_ltb (x y : f64) : bool := SFltb x y.
Definition f64_leb (x y : f64) : bool := SFleb x y.
Definition f64_eqb (x y : f64) : bool := SFeqb x y.

(** [float64(n)] for an integer [n]. *)
Definition f64_of_Z (n : Z) : f64 := binary_normalize 53 1024 n 0 false.

Definition f64_zero : f64 := S754_zero false.
Definition f64_half : f64 := S754_finite false 4503599627370496 (-53).
Definition f64_one : f64 := S754_finite false 4503599627370496 (-52).
(** [1e6]. *)
Definition f64_million : f64 := f64_of_Z 1000000.

(** The sign bit is clear, or the value is not a number. *)
Definition f64_not_neg (x : f64) : Prop :=
  match x with S754_finite true _ _ | S754_infinity true | S754_zero true => False | _ => True end.

#[export] Instance f64_eq_dec : EqDecision f64.
Proof. solve_decision. Defined.

(** * Signs *)

Lemma round_aux_not_neg (m e : Z) (l : location) :
  f64_not_neg (binary_round_aux 53 1024 false m e l).
Proof.
  unfold binary_round_aux. destruct (shr_fexp _ _ _ _ _) as [mrs e'].
  destruct (shr_fexp _ _ _ _ _) as [mrs' e'']. destruct (shr_m mrs'); simpl; try done.
  by destruct (Z.leb _ _).
Qed.

Lemma f64_of_Z_not_neg (n : Z) : 0 <= n -> f64_not_neg (f64_of_Z n).
Proof.
  intros Hn. unfold f64_of_Z, binary_normalize, binary_round.
  destruct n as [|p|p]; [done| |lia].
  destruct (shl_align _ _ _) as [mz ez]. apply round_aux_not_neg.
Qed.

Lemma f64_mul_not_neg (x y : f64) :
  f64_not_neg x -> f64_not_neg y -> f64_not_neg (f64_mul x y).
Proof.
  unfold f64_mul. destruct x as [[]|[]| |[] mx ex], y as [[]|[]| |[] my ey]; simpl; try done.
  intros _ _. apply round_aux_not_neg.
Qed.

Lemma f64_div_not_neg (x y : f64) :
  f64_not_neg x -> f64_not_neg y -> f64_not_neg (f64_div x y).
Proof.
  unfold f64_div. destruct x as [[]|[]| |[] mx ex], y as [[]|[]| |[] my ey]; try done.
  intros _ _. unfold SFdiv. destruct (SFdiv_core_binary _ _ _ _ _ _) as [[mz ez] lz].
  apply round_aux_not_neg.
Qed.

Lemma f64_add_not_neg (x y : f64) :
  f64_not_neg x -> f64_not_neg y -> f64_not_neg (f64_add x y).
Proof.
  unfold f64_add. destruct x as [[]|[]| |[] mx ex], y as [[]|[]| |[] my ey]; simpl; try done.
  intros _ _. unfold binary_round. destruct (shl_align _ _ (fexp _ _ _)) as [mz ez].
  apply round_aux_not_neg.
Qed.

Create HintDb go_float.
#[export] Hint Resolve f64_of_Z_not_neg f64_mul_not_neg f64_div_not_neg f64_add_not_neg : go_float.

(** * Rounding of mantissas *)

Lemma Zdigits2_log2 (p : positive) : Zdigits2 (Zpos p) = Z.log2 (Zpos p) + 1.
Proof.
  induction p as [p IH|p IH|]; [| |done]; cbn [Zdigits2 digits2_pos] in *.
  - rewrite (Pos2Z.inj_xI p), Z.log2_succ_double by lia. lia.
  - rewrite (Pos2Z.inj_xO p), Z.log2_double by lia. lia.
Qed.

Lemma digits_of_range (q k : Z) : 0 <= k -> 2 ^ k <= q < 2 ^ (k + 1) -> Zdigits2 q = k + 1.
Proof.
  intros Hk Hq. pose proof (Z.pow_pos_nonneg 2 k ltac:(lia) Hk).
  destruct q as [|p|p]; [lia| |lia]. rewrite Zdigits2_log2. f_equal.
  by apply Z.log2_unique.
Qed.

Lemma loc_of_record_of_loc (m : Z) (l : location) :
  loc_of_shr_record (shr_record_of_loc m l) = l.
Proof. by destruct l as [|[]]. Qed.

Lemma shr_m_record_of_loc (m : Z) (l : location) : shr_m (shr_record_of_loc m l) = m.
Proof. by destruct l as [|[]]. Qed.

Lemma fexp_53 (e : Z) : -1021 <= e -> fexp 53 1024 e = e - 53.
Proof. unfold fexp, emin. lia. Qed.

(** Normalising a mantissa that may have just reached [2 ^ 53]. *)
Definition carry (m e : Z) : f64 :=
  if m =? 2 ^ 53 then S754_finite false 4503599627370496 (e + 1)
  else S754_finite false (Z.to_pos m) e.

Lemma round_finish (m e : Z) :
  -1000 <= e <= 900 -> 2 ^ 52 <= m <= 2 ^ 53 ->
  (let '(mrs, e'') := shr_fexp 53 1024 m e loc_Exact in
   match shr_m mrs with
   | Z0 => S754_zero false
   | Zpos m => if Z.leb e'' (Z.sub 1024 53) then S754_finite false m e'' else S754_infinity false
   | _ => S754_nan
   end) = carry m e.
Proof.
  intros He Hm. unfold carry. destruct (Z.eqb_spec m (2 ^ 53)) as [->|Hne].
  - unfold shr_fexp. rewrite (digits_of_range _ 53) by lia. rewrite fexp_53 by lia.
    replace (53 + 1 + e - 53 - e) with 1 by lia. simpl.
    rewrite (proj2 (Z.leb_le _ _)) by lia. done.
  - unfold shr_fexp. rewrite (digits_of_range _ 52) by lia. rewrite fexp_53 by lia.
    replace (52 + 1 + e - 53 - e) with 0 by lia. simpl.
    destruct m as [|p|p]; [lia| |lia]. simpl. by rewrite (proj2 (Z.leb_le _ _)) by lia.
Qed.

Lemma round_even_bounds (q : Z) (l : location) :
  q <= round_nearest_even q l <= q + 1.
Proof. destruct l as [|[]]; simpl; try lia. destruct (Z.even q); lia. Qed.

Lemma round_aux_53 (q e : Z) (l : location) :
  -1000 <= e <= 900 -> 2 ^ 52 <= q < 2 ^ 53 ->
  binary_round_aux 53 1024 false q e l = carry (round_nearest_even q l) e.
Proof.
  intros He Hq. unfold binary_round_aux at 1. unfold shr_fexp at 1.
  rewrite (digits_of_range _ 52), fexp_53 by lia.
  replace (52 + 1 + e - 53 - e) with 0 by lia. cbn [shr].
  rewrite shr_m_record_of_loc, loc_of_record_of_loc.
  pose proof (round_even_bounds q l). apply round_finish; lia.
Qed.

Definition shifted_loc (q : Z) (l : location) : location :=
  loc_of_shr_record (shr_1 (shr_record_of_loc q l)).

Lemma shr_1_half (q : Z) (l : location) :
  0 < q -> shr_m (shr_1 (shr_record_of_loc q l)) = q / 2.
Proof.
  intros Hq. rewrite <- Z.div2_div. destruct l as [|[]], q as [|[p|p|]|p]; simpl; done || lia.
Qed.

Lemma round_aux_54 (q e : Z) (l : location) :
  -1000 <= e <= 800 -> 2 ^ 53 <= q < 2 ^ 54 ->
  binary_round_aux 53 1024 false q e l =
  carry (round_nearest_even (q / 2) (shifted_loc q l)) (e + 1).
Proof.
  intros He Hq. unfold binary_round_aux at 1. unfold shr_fexp at 1.
  rewrite (digits_of_range _ 53), fexp_53 by lia.
  replace (53 + 1 + e - 53 - e) with 1 by lia.
  unfold shr at 1, iter_pos. rewrite shr_1_half by lia.
  pose proof (round_even_bounds (q / 2) (shifted_loc q l)).
  assert (2 ^ 52 <= q / 2 < 2 ^ 53) by (split; [apply Z.div_le_lower_bound|apply Z.div_lt_upper_bound]; lia).
  apply round_finish; lia.
Qed.

(** * Quotients of counts *)

(** The 53-bit mantissa and the exponent of a positive integer. *)
Definition norm_m (n : Z) : Z := n * 2 ^ (52 - Z.log2 n).
Definition norm_e (n : Z) : Z := Z.log2 n - 52.

Lemma log2_count (n : Z) : 0 < n < 2 ^ 53 -> 0 <= Z.log2 n <= 52.
Proof.
  intros H. split; [apply Z.log2_nonneg|].
  assert (Z.log2 n < 53); [|lia]. apply Z.log2_lt_pow2; lia.
Qed.

Lemma norm_m_range (n : Z) : 0 < n < 2 ^ 53 -> 2 ^ 52 <= norm_m n < 2 ^ 53.
Proof.
  intros H. pose proof (log2_count n H). destruct (Z.log2_spec n ltac:(lia)) as [Hl Hh].
  unfold norm_m. set (k := Z.log2 n) in *.
  assert (2 ^ 52 = 2 ^ k * 2 ^ (52 - k)) as E1 by (rewrite <- Z.pow_add_r by lia; f_equal; lia).
  assert (2 ^ 53 = 2 ^ Z.succ k * 2 ^ (52 - k)) as E2 by (rewrite <- Z.pow_add_r by lia; f_equal; lia).
  rewrite E1, E2. pose proof (Z.pow_pos_nonneg 2 (52 - k) ltac:(lia) ltac:(lia)). nia.
Qed.

Lemma iter_xO (p d : positive) : Zpos (Pos.iter xO p d) = Zpos p * 2 ^ Zpos d.
Proof.
  revert p. induction d as [|d IH] using Pos.peano_ind; intros p.
  - simpl. rewrite (Pos2Z.inj_xO p). lia.
  - rewrite Pos.iter_succ, (Pos2Z.inj_xO (Pos.iter _ _ _)), IH, Pos2Z.inj_succ, Z.pow_succ_r by lia. lia.
Qed.

Lemma f64_of_count (n : Z) :
  0 < n < 2 ^ 53 -> f64_of_Z n = S754_finite false (Z.to_pos (norm_m n)) (norm_e n).
Proof.
  intros H. pose proof (log2_count n H). pose proof (norm_m_range n H) as Hm.
  destruct n as [|p|p]; [lia| |lia].
  unfold f64_of_Z, binary_normalize, binary_round, shl_align.
  change (Zpos (digits2_pos p)) with (Zdigits2 (Zpos p)).
  rewrite Zdigits2_log2, fexp_53 by lia.
  replace (Z.log2 (Zpos p) + 1 + 0 - 53 - 0) with (norm_e (Zpos p)) by (unfold norm_e; lia).
  replace (Z.log2 (Zpos p) + 1 + 0 - 53) with (norm_e (Zpos p)) by (unfold norm_e; lia).
  assert (forall m e, e = norm_e (Zpos p) -> Zpos m = norm_m (Zpos p) ->
    binary_round_aux 53 1024 false (Zpos m) e loc_Exact =
    S754_finite false (Z.to_pos (norm_m (Zpos p))) (norm_e (Zpos p))) as Hr.
  { intros m e -> E. rewrite E, round_aux_53 by (unfold norm_e in *; lia). simpl.
    unfold carry. by rewrite (proj2 (Z.eqb_neq _ _)) by lia. }
  unfold norm_m in *. destruct (norm_e (Zpos p)) as [|d|d] eqn:E; unfold norm_e in E.
  - apply Hr; [done|]. replace (52 - Z.log2 (Zpos p)) with 0 by lia. lia.
  - lia.
  - apply Hr; [done|]. rewrite iter_xO. do 2 f_equal. lia.
Qed.

(** [l] says where the remainder [r] of a division by [d] lies. *)
Definition loc_matches (l : location) (r d : Z) : Prop :=
  match l with
  | loc_Exact => r = 0
  | loc_Inexact Lt => 0 < r /\ 2 * r < d
  | loc_Inexact Eq => 0 < r /\ 2 * r = d
  | loc_Inexact Gt => 0 < r /\ d < 2 * r
  end.

Lemma new_location_matches (d r : Z) : 0 <= r < d -> loc_matches (new_location d r) r d.
Proof.
  intros H. unfold new_location, new_location_even, new_location_odd.
  destruct (Z.even d) eqn:Ev, (Z.eqb_spec r 0) as [->|Hr]; simpl; try lia.
  - destruct (Z.compare_spec (2 * r) d); simpl; lia.
  - assert (Z.odd d = true) as Ho by (by rewrite <- Z.negb_even, Ev).
    apply Z.odd_spec in Ho as [k ->].
    destruct (Z.compare_spec (2 * r + 1) (2 * k + 1)); simpl; lia.
Qed.

(** Rounding is within half a unit, before and after dropping a bit. *)
Lemma round_half (q r d : Z) (l : location) :
  0 <= r < d -> loc_matches l r d ->
  let m := round_nearest_even q l in
  2 * m * d - d <= 2 * (q * d + r) <= 2 * m * d + d.
Proof.
  intros Hd Hl. destruct l as [|[]]; cbn [round_nearest_even loc_matches] in *;
    try destruct (Z.even q); nia.
Qed.

Lemma shifted_loc_cases (q : Z) (l : location) :
  0 < q ->
  shifted_loc q l =
  match l, Z.odd q with
  | loc_Exact, false => loc_Exact
  | loc_Exact, true => loc_Inexact Eq
  | loc_Inexact _, false => loc_Inexact Lt
  | loc_Inexact _, true => loc_Inexact Gt
  end.
Proof. intros Hq. destruct q as [|[p|p|]|p]; try lia; by destruct l as [|[]]. Qed.

Lemma round_half_shifted (q r d : Z) (l : location) :
  0 <= r < d -> 0 < q -> loc_matches l r d ->
  let m := round_nearest_even (q / 2) (shifted_loc q l) in
  2 * m * d - d <= q * d + r <= 2 * m * d + d.
Proof.
  intros Hr Hq Hl. rewrite shifted_loc_cases by done.
  pose proof (Z.div_mod q 2 ltac:(lia)) as E. rewrite (Zmod_odd q) in E.
  set (h := q / 2) in *.
  destruct (Z.odd q) eqn:Ho, l as [|[]]; cbn [round_nearest_even loc_matches] in *;
    try destruct (Z.even h); nia.
Qed.

(** ** The quotient of two counts is within half a unit of the exact value *)

(** The result for [a / b] is [M * 2 ^ (norm_e a - norm_e b - 54 + k)]; the
    exact value is [V = norm_m a * 2 ^ 54 / norm_m b] units of
    [2 ^ (norm_e a - norm_e b - 54)]. *)
Definition quotient_spec (m1 m2 d : Z) (x : f64) : Prop :=
  exists M k, x = S754_finite false (Z.to_pos M) (d - 54 + k) /\
    1 <= k <= 3 /\ 2 ^ 52 <= M < 2 ^ 53 /\
    (2 * M - 1) * 2 ^ k * m2 <= 2 * (m1 * 2 ^ 54) <= (2 * M + 1) * 2 ^ k * m2.

Lemma carry_spec (m k m1 m2 d : Z) :
  1 <= k <= 2 -> 0 < m2 -> 2 ^ 52 <= m <= 2 ^ 53 ->
  (2 * m - 1) * 2 ^ k * m2 <= 2 * (m1 * 2 ^ 54) <= (2 * m + 1) * 2 ^ k * m2 ->
  quotient_spec m1 m2 d (carry m (d - 54 + k)).
Proof.
  intros Hk Hm2 Hm Hb. unfold carry. destruct (Z.eqb_spec m (2 ^ 53)) as [->|Hne].
  - exists (2 ^ 52), (k + 1). split; [f_equal; lia|]. split; [lia|]. split; [lia|].
    rewrite Z.pow_add_r by lia. pose proof (Z.pow_pos_nonneg 2 k ltac:(lia) ltac:(lia)). nia.
  - exists m, k. repeat split; lia.
Qed.

Lemma f64_div_counts (a b : Z) :
  0 < a < 2 ^ 53 -> 0 < b < 2 ^ 53 ->
  quotient_spec (norm_m a) (norm_m b) (norm_e a - norm_e b) (f64_div (f64_of_Z a) (f64_of_Z b)).
Proof.
  intros Ha Hb. rewrite !f64_of_count by done.
  pose proof (norm_m_range a Ha) as Hm1. pose proof (norm_m_range b Hb) as Hm2.
  pose proof (log2_count a Ha). pose proof (log2_count b Hb).
  assert (-52 <= norm_e a - norm_e b <= 52) as Hd by (unfold norm_e; lia).
  unfold f64_div, SFdiv, SFdiv_core_binary. rewrite !Z2Pos.id by lia.
  rewrite !(digits_of_range _ 52) by lia.
  set (m1 := norm_m a) in *. set (m2 := norm_m b) in *.
  set (e1 := norm_e a) in *. set (e2 := norm_e b) in *.
  rewrite fexp_53 by lia. rewrite Z.min_l by lia.
  replace (e1 - e2 - (52 + 1 + e1 - (52 + 1 + e2) - 53)) with 53 by lia.
  replace (52 + 1 + e1 - (52 + 1 + e2) - 53) with (e1 - e2 - 53) by lia.
  rewrite Z.shiftl_mul_pow2 by lia.
  pose proof (Z.div_mod (m1 * 2 ^ 53) m2 ltac:(lia)) as E.
  pose proof (Z.mod_pos_bound (m1 * 2 ^ 53) m2 ltac:(lia)) as Hr.
  unfold Z.div, Z.modulo in E, Hr. destruct (Z.div_eucl (m1 * 2 ^ 53) m2) as [q r].
  pose proof (new_location_matches m2 r Hr) as Hl. set (l := new_location m2 r) in *.
  assert (2 ^ 52 <= q < 2 ^ 54) as Hq by nia. simpl xorb.
  destruct (Z.lt_ge_cases q (2 ^ 53)).
  - rewrite round_aux_53 by lia. pose proof (round_even_bounds q l).
    pose proof (round_half q r m2 l Hr Hl) as Hb'. cbv zeta in Hb'.
    replace (e1 - e2 - 53) with (e1 - e2 - 54 + 1) by lia.
    apply carry_spec; nia || lia.
  - rewrite round_aux_54 by lia.
    pose proof (round_even_bounds (q / 2) (shifted_loc q l)).
    assert (2 ^ 52 <= q / 2 < 2 ^ 53)
      by (split; [apply Z.div_le_lower_bound|apply Z.div_lt_upper_bound]; lia).
    pose proof (round_half_shifted q r m2 l Hr ltac:(lia) Hl) as Hb'. cbv zeta in Hb'.
    replace (e1 - e2 - 53 + 1) with (e1 - e2 - 54 + 2) by lia.
    apply carry_spec; nia || lia.
Qed.

(** ** Comparing a quotient with 0.5 and with 1 *)

Lemma count_of_norm (a : Z) : 0 < a < 2 ^ 53 -> norm_m a * 2 ^ Z.log2 a = a * 2 ^ 52.
Proof.
  intros H. pose proof (log2_count a H). unfold norm_m.
  rewrite <- Z.mul_assoc, <- Z.pow_add_r by lia. do 2 f_equal. lia.
Qed.

(** The order of two counts, read off mantissas and exponents. *)
Lemma count_lt_scaled (a b c : Z) :
  0 < a < 2 ^ 53 -> 0 < b < 2 ^ 53 -> Z.log2 a <= Z.log2 b ->
  (b <? c * a) = (norm_m b * 2 ^ (Z.log2 b - Z.log2 a) <? c * norm_m a).
Proof.
  intros Ha Hb Hl. pose proof (count_of_norm a Ha) as Ea. pose proof (count_of_norm b Hb) as Eb.
  pose proof (log2_count a Ha).
  replace (Z.log2 b) with (Z.log2 b - Z.log2 a + Z.log2 a) in Eb by lia.
  rewrite Z.pow_add_r in Eb by lia.
  set (n := 2 ^ (Z.log2 b - Z.log2 a)) in *.
  pose proof (Z.pow_pos_nonneg 2 (Z.log2 a) ltac:(lia) ltac:(lia)) as Hp.
  set (p := 2 ^ Z.log2 a) in *. set (m1 := norm_m a) in *. set (m2 := norm_m b) in *.
  destruct (Z.ltb_spec b (c * a)), (Z.ltb_spec (m2 * n) (c * m1)); try done; exfalso.
  - assert (b * 2 ^ 52 < c * a * 2 ^ 52) by lia.
    assert (c * m1 * p <= m2 * n * p) by (apply Z.mul_le_mono_nonneg_r; lia). nia.
  - assert (c * a * 2 ^ 52 <= b * 2 ^ 52) by lia.
    assert (m2 * n * p < c * m1 * p) by (apply Z.mul_lt_mono_pos_r; lia). nia.
Qed.

Lemma ltb_finite (m1 m2 : positive) (e1 e2 : Z) :
  f64_ltb (S754_finite false m1 e1) (S754_finite false m2 e2) =
  (e1 <? e2) || ((e1 =? e2) && (Zpos m1 <? Zpos m2)).
Proof.
  unfold f64_ltb, SFltb, SFcompare.
  change (Pos.compare_cont Eq m1 m2) with (Pos.compare m1 m2).
  destruct (Z.compare_spec e1 e2) as [->|H|H].
  - rewrite Z.ltb_irrefl, Z.eqb_refl. simpl. unfold Z.ltb. simpl. by destruct (Pos.compare m1 m2).
  - by rewrite (proj2 (Z.ltb_lt _ _)).
  - rewrite (proj2 (Z.ltb_ge _ _)), (proj2 (Z.eqb_neq _ _)) by lia. done.
Qed.

(** [float64(a) / float64(b) > 0.5] is exactly [2 * a > b]. *)
Lemma f64_half_lt_quotient (a b : Z) :
  0 < a -> a <= b -> b < 2 ^ 53 ->
  f64_ltb f64_half (f64_div (f64_of_Z a) (f64_of_Z b)) = (b <? 2 * a).
Proof.
  intros Ha Hab Hb. pose proof (Z.log2_le_mono a b Hab) as Hl.
  pose proof (norm_m_range a ltac:(lia)) as Hm1. pose proof (norm_m_range b ltac:(lia)) as Hm2.
  rewrite count_lt_scaled by lia.
  destruct (f64_div_counts a b ltac:(lia) ltac:(lia)) as (M & k & -> & Hk & HM & Hlo & Hhi).
  unfold f64_half. rewrite ltb_finite, Z2Pos.id by lia. unfold norm_e.
  set (m1 := norm_m a) in *. set (m2 := norm_m b) in *.
  replace (Z.log2 a - 52 - (Z.log2 b - 52) - 54 + k) with (k - 54 - (Z.log2 b - Z.log2 a)) by lia.
  assert (0 <= Z.log2 b - Z.log2 a) as Hn by lia.
  set (n := Z.log2 b - Z.log2 a) in *. clearbody n m1 m2. clear Hl Ha Hab Hb a b.
  assert (n = 0 \/ n = 1 \/ 2 <= n) as [-> | [-> | H2]] by lia;
    (assert (k = 1 \/ k = 2 \/ k = 3) as [-> | [-> | ->]] by lia); simpl in Hlo, Hhi.
  all: try (assert (4 <= 2 ^ n) by (apply (Z.pow_le_mono_r 2 2); lia)).
  all: match goal with |- _ = ?r => destruct r eqn:E end; bool_to_prop.
  all: apply orb_true_iff || apply orb_false_iff.
  all: rewrite ?andb_true_iff, ?andb_false_iff, ?Z.ltb_lt, ?Z.ltb_ge, ?Z.eqb_eq, ?Z.eqb_neq.
  all: first [lia | nia | idtac].
Qed.

(** [float64(a) / float64(b) > 1] never holds for [a <= b]. *)
Lemma f64_one_lt_quotient (a b : Z) :
  0 < a -> a <= b -> b < 2 ^ 53 ->
  f64_ltb f64_one (f64_div (f64_of_Z a) (f64_of_Z b)) = false.
Proof.
  intros Ha Hab Hb. pose proof (Z.log2_le_mono a b Hab) as Hl.
  pose proof (norm_m_range a ltac:(lia)) as Hm1. pose proof (norm_m_range b ltac:(lia)) as Hm2.
  assert (Z.log2 a = Z.log2 b -> norm_m a <= norm_m b) as Heq.
  { intros E. unfold norm_m. rewrite E. apply Z.mul_le_mono_nonneg_r; [|done].
    apply Z.pow_nonneg. lia. }
  destruct (f64_div_counts a b ltac:(lia) ltac:(lia)) as (M & k & -> & Hk & HM & Hlo & Hhi).
  unfold f64_one. rewrite ltb_finite, Z2Pos.id by lia. unfold norm_e.
  set (m1 := norm_m a) in *. set (m2 := norm_m b) in *.
  replace (Z.log2 a - 52 - (Z.log2 b - 52) - 54 + k) with (k - 54 - (Z.log2 b - Z.log2 a)) by lia.
  assert (0 <= Z.log2 b - Z.log2 a) as Hn by lia.
  assert (Z.log2 b - Z.log2 a = 0 -> m1 <= m2) as Heq' by (intros; apply Heq; lia).
  set (n := Z.log2 b - Z.log2 a) in *. clearbody n m1 m2. clear Hl Ha Hab Hb Heq a b.
  assert (n = 0 \/ n = 1 \/ 2 <= n) as [-> | [-> | H2]] by lia;
    (assert (k = 1 \/ k = 2 \/ k = 3) as [-> | [-> | ->]] by lia); simpl in Hlo, Hhi.
  all: apply orb_false_iff; rewrite ?andb_false_iff, ?Z.ltb_ge, ?Z.eqb_neq.
  all: first [lia | nia].
Qed.
