(* ===== verification/Calendar.v ===== *)
(** The part of Go's [time] package that writes and reads bucket names: the
    proleptic Gregorian calendar in UTC, and [Format] and [Parse] for the
    layouts [2006-01-02T15:00:00] and [2006-01-02]. *)
From S2P Require Import Prelude GoLib.
Local Open Scope Z_scope.

Definition Day : Z := 24 * Hour.

(** * The calendar

    Years are counted from March, so that the leap day is the last of a year;
    [doe] is the day of the era of 400 years, [doy] the day of the year. *)
Definition doe_year (doe : Z) : Z := (doe - doe / 1460 + doe / 36524 - doe / 146096) / 365.
Definition year_start (yoe : Z) : Z := 365 * yoe + yoe / 4 - yoe / 100.

Record Date := mkDate { d_Year : Z; d_Month : Z; d_Day : Z }.

#[export] Instance Date_eq_dec : EqDecision Date.
Proof. solve_decision. Defined.

(** The date of the [n]-th day since January 1, 1970. *)
Definition date_of_day (n : Z) : Date :=
  let z := n + 719468 in
  let era := z / 146097 in
  let doe := z mod 146097 in
  let yoe := doe_year doe in
  let doy := doe - year_start yoe in
  let mp := (5 * doy + 2) / 153 in
  let m := if mp <? 10 then mp + 3 else mp - 9 in
  mkDate (yoe + era * 400 + (if m <=? 2 then 1 else 0)) m (doy - (153 * mp + 2) / 5 + 1).

(** The day of a date; out of range months and days are carried over. *)
Definition day_of_date (d : Date) : Z :=
  let y := d_Year d - (if d_Month d <=? 2 then 1 else 0) in
  let era := y / 400 in
  let yoe := y mod 400 in
  let mp := if 2 <? d_Month d then d_Month d - 3 else d_Month d + 9 in
  let doy := (153 * mp + 2) / 5 + d_Day d - 1 in
  era * 146097 + year_start yoe + doy - 719468.

(** [t.Date()], [t.Hour()]. *)
Definition time_date (t : Z) : Date := date_of_day (t / Day).
Definition time_hour (t : Z) : Z := t mod Day / Hour.

(** * Digits *)

Definition digit (z : Z) : ascii := Ascii.ascii_of_nat (48 + Z.to_nat z).

Definition digit_value (c : ascii) : option Z :=
  let n := Ascii.nat_of_ascii c in
  if (Nat.leb 48 n && Nat.leb n 57)%bool then Some (Z.of_nat n - 48) else None.

Definition pad2 (z : Z) (k : string) : string := String (digit (z / 10)) (String (digit (z mod 10)) k).

(** [appendInt(b, year, 4)]. *)
Definition pad4 (z : Z) (k : string) : string := pad2 (z / 100) (pad2 (z mod 100) k).
Definition format_year (y : Z) (k : string) : string :=
  if (0 <=? y) && (y <=? 9999) then pad4 y k
  else if (y <? 0) && (-9999 <=? y) then String "-" (pad4 (- y) k) else itoa y +:+ k.

(** Two digits, as a number. *)
Definition read2 (s : string) : option (Z * string) :=
  match s with
  | String a (String b s') =>
      match digit_value a, digit_value b with
      | Some x, Some y => Some (10 * x + y, s')
      | _, _ => None
      end
  | _ => None
  end.

(** [getnum(s, false)]: one digit, or two. *)
Definition read12 (s : string) : option (Z * string) :=
  match read2 s with
  | Some r => Some r
  | None =>
      match s with
      | String a s' => (fun x => (x, s')) <$> digit_value a
      | EmptyString => None
      end
  end.

Definition read4 (s : string) : option (Z * string) :=
  match read2 s with
  | Some (x, s') => match read2 s' with Some (y, s'') => Some (100 * x + y, s'') | None => None end
  | None => None
  end.

Definition read_char (c : ascii) (s : string) : option string :=
  match s with
  | String d s' => if Ascii.eqb c d then Some s' else None
  | EmptyString => None
  end.

(** * Layouts *)

(** [t.Format("2006-01-02")], followed by a text. *)
Definition format_date (d : Date) (k : string) : string :=
  format_year (d_Year d) (String "-" (pad2 (d_Month d) (String "-" (pad2 (d_Day d) k)))).

Definition format_day (t : Z) : string := format_date (time_date t) EmptyString.

(** [t.Format("2006-01-02T15:00:00")]: the minutes and seconds are literal. *)
Definition format_hour (t : Z) : string :=
  format_date (time_date t) (String "T" (pad2 (time_hour t) ":00:00")).

(** [time.Parse("2006-01-02T15:00:00", s)]; a day outside its month is an
    error. *)
Definition parse_hour (s : string) : option Z :=
  '(y, s) ← read4 s; s ← read_char "-" s;
  '(m, s) ← read2 s; s ← read_char "-" s;
  '(d, s) ← read2 s; s ← read_char "T" s;
  '(h, s) ← read12 s;
  let date := mkDate y m d in
  if String.eqb s ":00:00" && (h <? 24) && bool_decide (date_of_day (day_of_date date) = date)
  then Some (day_of_date date * Day + h * Hour) else None.

Example format_leap : format_hour (1709209800 * Second) = "2024-02-29T12:00:00".
Proof. vm_compute. reflexivity. Qed.

Example parse_leap : parse_hour "2024-02-29T12:00:00" = Some (1709208000 * Second).
Proof. vm_compute. reflexivity. Qed.

Example parse_no_leap : parse_hour "2023-02-29T12:00:00" = None.
Proof. vm_compute. reflexivity. Qed.

(** * Lemmas *)

Lemma doe_year_range (doe : Z) : 0 <= doe < 146097 ->
  0 <= doe_year doe <= 399 /\ 0 <= doe - year_start (doe_year doe) <= 365.
Proof.
  unfold doe_year, year_start. intros H.
  Z.to_euclidean_division_equations. lia.
Qed.

(** The day of the date of a day. *)
Lemma day_of_date_of_day (n : Z) : day_of_date (date_of_day n) = n.
Proof.
  unfold day_of_date, date_of_day. simpl.
  set (z := n + 719468). set (doe := z mod 146097).
  destruct (doe_year_range doe) as [Hy Hd]; [apply Z.mod_pos_bound; lia|].
  set (yoe := doe_year doe) in *. set (doy := doe - year_start yoe) in *.
  set (mp := (5 * doy + 2) / 153).
  assert (Hmp : 0 <= mp <= 11) by (unfold mp; Z.to_euclidean_division_equations; lia).
  assert (Hz : z = 146097 * (z / 146097) + doe) by (apply Z.div_mod; lia).
  set (m := if mp <? 10 then mp + 3 else mp - 9).
  assert (Hmm : (if 2 <? m then m - 3 else m + 9) = mp).
  { unfold m. destruct (Z.ltb_spec mp 10); case_match; blia. }
  rewrite Hmm.
  replace (yoe + z / 146097 * 400 + (if m <=? 2 then 1 else 0) - (if m <=? 2 then 1 else 0))
    with (yoe + z / 146097 * 400) by lia.
  rewrite Z.div_add, Z.mod_add, (Z.div_small yoe), (Z.mod_small yoe) by lia. unfold doy. lia.
Qed.

(** Months and days of a date have two digits. *)
Lemma date_of_day_range (n : Z) :
  1 <= d_Month (date_of_day n) <= 12 /\ 1 <= d_Day (date_of_day n) <= 31.
Proof.
  unfold date_of_day. simpl. set (doe := (n + 719468) mod 146097).
  destruct (doe_year_range doe) as [_ Hd]; [apply Z.mod_pos_bound; lia|].
  set (doy := doe - _) in *.
  assert (Hmp : 0 <= (5 * doy + 2) / 153 <= 11) by (Z.to_euclidean_division_equations; lia).
  split.
  - destruct (Z.ltb_spec ((5 * doy + 2) / 153) 10); lia.
  - Z.to_euclidean_division_equations; lia.
Qed.

Lemma digit_value_digit (z : Z) : 0 <= z < 10 -> digit_value (digit z) = Some z.
Proof.
  intros H. assert (Hz : z ∈ [0; 1; 2; 3; 4; 5; 6; 7; 8; 9]).
  { assert (z = 0 \/ z = 1 \/ z = 2 \/ z = 3 \/ z = 4 \/ z = 5 \/ z = 6 \/ z = 7 \/ z = 8 \/ z = 9) by lia.
    set_solver. }
  clear H. revert z Hz. by apply Forall_forall; repeat constructor.
Qed.

Lemma read2_pad2 (z : Z) (k : string) : 0 <= z < 100 -> read2 (pad2 z k) = Some (z, k).
Proof.
  intros H. unfold pad2, read2. pose proof (Z.mod_pos_bound z 10 ltac:(lia)).
  rewrite !digit_value_digit by (try (split; [apply Z.div_pos|apply Z.div_lt_upper_bound]); lia).
  by rewrite <- Z.div_mod by lia.
Qed.

Lemma read12_pad2 (z : Z) (k : string) : 0 <= z < 100 -> read12 (pad2 z k) = Some (z, k).
Proof. intros H. unfold read12. by rewrite read2_pad2. Qed.

Lemma read4_pad4 (z : Z) (k : string) : 0 <= z <= 9999 -> read4 (pad4 z k) = Some (z, k).
Proof.
  intros H. unfold read4, pad4. pose proof (Z.mod_pos_bound z 100 ltac:(lia)).
  rewrite !read2_pad2 by (try (split; [apply Z.div_pos|apply Z.div_lt_upper_bound]); lia).
  by rewrite <- Z.div_mod by lia.
Qed.

Lemma read_char_same (c : ascii) (k : string) : read_char c (String c k) = Some k.
Proof. unfold read_char. by rewrite Ascii.eqb_refl. Qed.

(** The years [Format] writes with four digits. *)
Definition four_digits (t : Z) : bool := (0 <=? d_Year (time_date t)) && (d_Year (time_date t) <=? 9999).

Lemma time_hour_range (t : Z) : 0 <= time_hour t < 24.
Proof.
  unfold time_hour, Day. pose proof (Z.mod_pos_bound t (24 * Hour) ltac:(done)).
  split; [apply Z.div_pos|apply Z.div_lt_upper_bound]; try done; lia.
Qed.

(** The instant a day and an hour of it begin. *)
Lemma hour_start (t : Z) : t / Day * Day + time_hour t * Hour = time_truncate t Hour.
Proof.
  assert (H0 : 0 < Hour) by done. unfold time_truncate, time_hour, Day.
  replace (t - time_zero) with (t + 17259888 * Hour) by (unfold time_zero, Hour, Minute, Second; lia).
  rewrite Z.mod_add, (Z.mul_comm 24 Hour), Z.rem_mul_r, <- Z.div_div by lia.
  rewrite (Z.mul_comm Hour (_ mod 24)), Z.div_add, (Z.div_small (t mod Hour)) by (try apply Z.mod_pos_bound; lia).
  pose proof (Z.div_mod t Hour ltac:(lia)) as Ht. pose proof (Z.div_mod (t / Hour) 24 ltac:(lia)) as Hq.
  set (q := t / Hour) in *. set (r := t mod Hour) in *. transitivity (Hour * q); [rewrite Hq at 3; ring|lia].
Qed.

(** The name of an hour reads back as the beginning of that hour. *)
Lemma parse_format_hour (t : Z) : four_digits t = true -> parse_hour (format_hour t) = Some (time_truncate t Hour).
Proof.
  intros Hy. pose proof (date_of_day_range (t / Day)) as [Hm Hd]. pose proof (time_hour_range t) as Hh.
  unfold four_digits in Hy. unfold parse_hour, format_hour, format_date, format_year. rewrite Hy.
  apply andb_true_iff in Hy as [Hy1 Hy2]. bool_to_prop. change (date_of_day (t / Day)) with (time_date t) in *.
  rewrite read4_pad4 by lia. cbn [mbind option_bind]. rewrite read_char_same. cbn [mbind option_bind].
  rewrite read2_pad2 by lia. cbn [mbind option_bind]. rewrite read_char_same. cbn [mbind option_bind].
  rewrite read2_pad2 by lia. cbn [mbind option_bind]. rewrite read_char_same. cbn [mbind option_bind].
  rewrite read12_pad2 by lia. cbn [mbind option_bind]. cbv zeta.
  replace (mkDate _ _ _) with (time_date t) by by destruct (time_date t).
  assert (Hday : day_of_date (time_date t) = t / Day) by apply day_of_date_of_day.
  rewrite Hday, String.eqb_refl, (proj2 (Z.ltb_lt (time_hour t) 24)) by lia.
  rewrite bool_decide_eq_true_2 by done. cbn [andb]. by rewrite hour_start.
Qed.

(** The first ten bytes of the name of an hour are the name of its day. *)
Lemma format_hour_day (t : Z) : four_digits t = true -> str_take 10 (format_hour t) = format_day t.
Proof.
  intros Hy. unfold format_hour, format_day, format_date, format_year. unfold four_digits in Hy. by rewrite Hy.
Qed.

(** Two hours with one name are the same hour. *)
Lemma format_hour_inj (t u : Z) : four_digits t = true -> four_digits u = true ->
  format_hour t = format_hour u -> time_truncate t Hour = time_truncate u Hour.
Proof.
  intros Ht Hu H. apply parse_format_hour in Ht, Hu. congruence.
Qed.

(** The instant a day begins. *)
Lemma day_start (t : Z) : t / Day * Day = time_truncate t Day.
Proof.
  unfold time_truncate. replace (t - time_zero) with (t + 719162 * Day) by (unfold time_zero, Day, Hour, Minute, Second; lia).
  rewrite Z.mod_add by done. pose proof (Z.div_mod t Day ltac:(done)). lia.
Qed.

Lemma day_of_start (t : Z) : time_date (t / Day * Day) = time_date t /\ time_hour (t / Day * Day) = 0.
Proof.
  unfold time_date, time_hour. rewrite Z.div_mul by done. split; [done|]. by rewrite Z.mod_mul.
Qed.

(** Two days with one name are the same day. *)
Lemma format_day_inj (t u : Z) : four_digits t = true -> four_digits u = true ->
  format_day t = format_day u -> time_truncate t Day = time_truncate u Day.
Proof.
  assert (Hname : forall t, four_digits t = true -> format_hour (t / Day * Day) = format_day t +:+ "T00:00:00").
  { intros x Hx. unfold format_hour, format_day. destruct (day_of_start x) as [-> ->].
    unfold format_date, format_year. unfold four_digits in Hx. by rewrite Hx. }
  assert (Htrunc : forall t, time_truncate (t / Day * Day) Hour = time_truncate t Day).
  { intros x. rewrite <- hour_start, (proj2 (day_of_start x)), Z.div_mul by done. rewrite day_start. lia. }
  intros Ht Hu E. rewrite <- !Htrunc. apply format_hour_inj.
  - unfold four_digits in *. by rewrite (proj1 (day_of_start t)).
  - unfold four_digits in *. by rewrite (proj1 (day_of_start u)).
  - by rewrite !Hname, E.
Qed.
