(* ===== verification/Models.v ===== *)
(** The domain types of [internal/models]: providers, endpoints, models,
    aliases, API keys, request and streaming logs, the run-time configuration,
    with the validation helpers that package defines. *)
From S2P Require Import Prelude GoLib Float64.
Local Open Scope Z_scope.

(** * Providers, endpoints, models, aliases *)

(** [models.Provider] *)
Record Provider := mkProvider {
  p_ID : string;
  p_Name : string;
  p_BaseURL : string;
  p_APIKey : string;
  p_IsHealthy : bool;
  p_HealthCheckedAt : option Z;
  p_CreatedAt : Z;
  p_UpdatedAt : Z;
  p_CircuitBreakerEnabled : bool;
  p_CircuitBreakerErrorThreshold : f64;
  p_CircuitBreakerWindowSeconds : Z;
  p_CircuitBreakerCooldownSeconds : Z;
}.

Definition set_p_Name (v : string) (r : Provider) : Provider :=
  mkProvider (p_ID r) v (p_BaseURL r) (p_APIKey r) (p_IsHealthy r) (p_HealthCheckedAt r) (p_CreatedAt r) (p_UpdatedAt r) (p_CircuitBreakerEnabled r) (p_CircuitBreakerErrorThreshold r) (p_CircuitBreakerWindowSeconds r) (p_CircuitBreakerCooldownSeconds r).
Definition set_p_BaseURL (v : string) (r : Provider) : Provider :=
  mkProvider (p_ID r) (p_Name r) v (p_APIKey r) (p_IsHealthy r) (p_HealthCheckedAt r) (p_CreatedAt r) (p_UpdatedAt r) (p_CircuitBreakerEnabled r) (p_CircuitBreakerErrorThreshold r) (p_CircuitBreakerWindowSeconds r) (p_CircuitBreakerCooldownSeconds r).
Definition set_p_APIKey (v : string) (r : Provider) : Provider :=
  mkProvider (p_ID r) (p_Name r) (p_BaseURL r) v (p_IsHealthy r) (p_HealthCheckedAt r) (p_CreatedAt r) (p_UpdatedAt r) (p_CircuitBreakerEnabled r) (p_CircuitBreakerErrorThreshold r) (p_CircuitBreakerWindowSeconds r) (p_CircuitBreakerCooldownSeconds r).
Definition set_p_IsHealthy (v : bool) (r : Provider) : Provider :=
  mkProvider (p_ID r) (p_Name r) (p_BaseURL r) (p_APIKey r) v (p_HealthCheckedAt r) (p_CreatedAt r) (p_UpdatedAt r) (p_CircuitBreakerEnabled r) (p_CircuitBreakerErrorThreshold r) (p_CircuitBreakerWindowSeconds r) (p_CircuitBreakerCooldownSeconds r).
Definition set_p_HealthCheckedAt (v : option Z) (r : Provider) : Provider :=
  mkProvider (p_ID r) (p_Name r) (p_BaseURL r) (p_APIKey r) (p_IsHealthy r) v (p_CreatedAt r) (p_UpdatedAt r) (p_CircuitBreakerEnabled r) (p_CircuitBreakerErrorThreshold r) (p_CircuitBreakerWindowSeconds r) (p_CircuitBreakerCooldownSeconds r).
Definition set_p_UpdatedAt (v : Z) (r : Provider) : Provider :=
  mkProvider (p_ID r) (p_Name r) (p_BaseURL r) (p_APIKey r) (p_IsHealthy r) (p_HealthCheckedAt r) (p_CreatedAt r) v (p_CircuitBreakerEnabled r) (p_CircuitBreakerErrorThreshold r) (p_CircuitBreakerWindowSeconds r) (p_CircuitBreakerCooldownSeconds r).
Definition set_p_CircuitBreakerEnabled (v : bool) (r : Provider) : Provider :=
  mkProvider (p_ID r) (p_Name r) (p_BaseURL r) (p_APIKey r) (p_IsHealthy r) (p_HealthCheckedAt r) (p_CreatedAt r) (p_UpdatedAt r) v (p_CircuitBreakerErrorThreshold r) (p_CircuitBreakerWindowSeconds r) (p_CircuitBreakerCooldownSeconds r).
Definition set_p_CircuitBreakerErrorThreshold (v : f64) (r : Provider) : Provider :=
  mkProvider (p_ID r) (p_Name r) (p_BaseURL r) (p_APIKey r) (p_IsHealthy r) (p_HealthCheckedAt r) (p_CreatedAt r) (p_UpdatedAt r) (p_CircuitBreakerEnabled r) v (p_CircuitBreakerWindowSeconds r) (p_CircuitBreakerCooldownSeconds r).
Definition set_p_CircuitBreakerWindowSeconds (v : Z) (r : Provider) : Provider :=
  mkProvider (p_ID r) (p_Name r) (p_BaseURL r) (p_APIKey r) (p_IsHealthy r) (p_HealthCheckedAt r) (p_CreatedAt r) (p_UpdatedAt r) (p_CircuitBreakerEnabled r) (p_CircuitBreakerErrorThreshold r) v (p_CircuitBreakerCooldownSeconds r).
Definition set_p_CircuitBreakerCooldownSeconds (v : Z) (r : Provider) : Provider :=
  mkProvider (p_ID r) (p_Name r) (p_BaseURL r) (p_APIKey r) (p_IsHealthy r) (p_HealthCheckedAt r) (p_CreatedAt r) (p_UpdatedAt r) (p_CircuitBreakerEnabled r) (p_CircuitBreakerErrorThreshold r) (p_CircuitBreakerWindowSeconds r) v.

Definition DefaultCircuitBreakerErrorThreshold : f64 := f64_half.
Definition DefaultCircuitBreakerWindowSeconds : Z := 60.
Definition DefaultCircuitBreakerCooldownSeconds : Z := 30.

(** [models.NormalizeCircuitBreaker]. *)
Definition NormalizeCircuitBreaker (p : Provider) : Provider :=
  let p :=
    if f64_leb (p_CircuitBreakerErrorThreshold p) f64_zero ||
       f64_ltb f64_one (p_CircuitBreakerErrorThreshold p)
    then set_p_CircuitBreakerErrorThreshold DefaultCircuitBreakerErrorThreshold p else p in
  let p :=
    if p_CircuitBreakerWindowSeconds p <=? 0
    then set_p_CircuitBreakerWindowSeconds DefaultCircuitBreakerWindowSeconds p else p in
  if p_CircuitBreakerCooldownSeconds p <=? 0
  then set_p_CircuitBreakerCooldownSeconds DefaultCircuitBreakerCooldownSeconds p else p.

(** [models.ProviderEndpoint] *)
Record ProviderEndpoint := mkEndpoint {
  ep_ID : string;
  ep_ProviderID : string;
  ep_Path : string;
  ep_Method : string;
  ep_IsSupported : bool;
  ep_IsEnabled : bool;
  ep_CreatedAt : Z;
}.

Definition set_ep_IsSupported (v : bool) (r : ProviderEndpoint) : ProviderEndpoint :=
  mkEndpoint (ep_ID r) (ep_ProviderID r) (ep_Path r) (ep_Method r) v (ep_IsEnabled r) (ep_CreatedAt r).
Definition set_ep_IsEnabled (v : bool) (r : ProviderEndpoint) : ProviderEndpoint :=
  mkEndpoint (ep_ID r) (ep_ProviderID r) (ep_Path r) (ep_Method r) (ep_IsSupported r) v (ep_CreatedAt r).

(** [models.ProviderModel]; an absent price or context size is [None] *)
Record ProviderModel := mkModel {
  pm_ID : string;
  pm_ProviderID : string;
  pm_ModelID : string;
  pm_CreatedAt : Z;
  pm_IsAvailable : bool;
  pm_CostPerMillionInput : option f64;
  pm_CostPerMillionOutput : option f64;
  pm_CostPerMillionCacheRead : option f64;
  pm_CostPerMillionCacheWrite : option f64;
  pm_MaxContext : option Z;
}.

Definition set_pm_IsAvailable (v : bool) (r : ProviderModel) : ProviderModel :=
  mkModel (pm_ID r) (pm_ProviderID r) (pm_ModelID r) (pm_CreatedAt r) v (pm_CostPerMillionInput r) (pm_CostPerMillionOutput r) (pm_CostPerMillionCacheRead r) (pm_CostPerMillionCacheWrite r) (pm_MaxContext r).
Definition set_pm_CostPerMillionInput (v : option f64) (r : ProviderModel) : ProviderModel :=
  mkModel (pm_ID r) (pm_ProviderID r) (pm_ModelID r) (pm_CreatedAt r) (pm_IsAvailable r) v (pm_CostPerMillionOutput r) (pm_CostPerMillionCacheRead r) (pm_CostPerMillionCacheWrite r) (pm_MaxContext r).
Definition set_pm_CostPerMillionOutput (v : option f64) (r : ProviderModel) : ProviderModel :=
  mkModel (pm_ID r) (pm_ProviderID r) (pm_ModelID r) (pm_CreatedAt r) (pm_IsAvailable r) (pm_CostPerMillionInput r) v (pm_CostPerMillionCacheRead r) (pm_CostPerMillionCacheWrite r) (pm_MaxContext r).
Definition set_pm_CostPerMillionCacheRead (v : option f64) (r : ProviderModel) : ProviderModel :=
  mkModel (pm_ID r) (pm_ProviderID r) (pm_ModelID r) (pm_CreatedAt r) (pm_IsAvailable r) (pm_CostPerMillionInput r) (pm_CostPerMillionOutput r) v (pm_CostPerMillionCacheWrite r) (pm_MaxContext r).
Definition set_pm_CostPerMillionCacheWrite (v : option f64) (r : ProviderModel) : ProviderModel :=
  mkModel (pm_ID r) (pm_ProviderID r) (pm_ModelID r) (pm_CreatedAt r) (pm_IsAvailable r) (pm_CostPerMillionInput r) (pm_CostPerMillionOutput r) (pm_CostPerMillionCacheRead r) v (pm_MaxContext r).
Definition set_pm_MaxContext (v : option Z) (r : ProviderModel) : ProviderModel :=
  mkModel (pm_ID r) (pm_ProviderID r) (pm_ModelID r) (pm_CreatedAt r) (pm_IsAvailable r) (pm_CostPerMillionInput r) (pm_CostPerMillionOutput r) (pm_CostPerMillionCacheRead r) (pm_CostPerMillionCacheWrite r) v.

(** [models.ModelAlias] *)
Record ModelAlias := mkAlias {
  a_ID : string;
  a_Alias : string;
  a_ProviderID : string;
  a_ModelID : string;
  a_Weight : Z;
  a_Priority : Z;
  a_IsEnabled : bool;
  a_CreatedAt : Z;
  a_UpdatedAt : Z;
}.

(** [models.RoutingData]: the rows the routing catalog is built from. *)
Record RoutingData := mkRoutingData {
  rd_Providers : list Provider;
  rd_Models : list ProviderModel;
  rd_Aliases : list ModelAlias;
  rd_Endpoints : list ProviderEndpoint;
}.

(** * API keys *)

(** [models.APIKey] *)
Record APIKey := mkAPIKey {
  k_ID : string;
  k_KeyHash : string;
  k_Name : string;
  k_IsActive : bool;
  k_RateLimitRPM : option Z;
  k_RateLimitTPM : option Z;
  k_CreatedAt : Z;
  k_LastUsedAt : option Z;
}.

Definition set_k_Name (v : string) (r : APIKey) : APIKey :=
  mkAPIKey (k_ID r) (k_KeyHash r) v (k_IsActive r) (k_RateLimitRPM r) (k_RateLimitTPM r) (k_CreatedAt r) (k_LastUsedAt r).
Definition set_k_IsActive (v : bool) (r : APIKey) : APIKey :=
  mkAPIKey (k_ID r) (k_KeyHash r) (k_Name r) v (k_RateLimitRPM r) (k_RateLimitTPM r) (k_CreatedAt r) (k_LastUsedAt r).
Definition set_k_RateLimitRPM (v : option Z) (r : APIKey) : APIKey :=
  mkAPIKey (k_ID r) (k_KeyHash r) (k_Name r) (k_IsActive r) v (k_RateLimitTPM r) (k_CreatedAt r) (k_LastUsedAt r).
Definition set_k_RateLimitTPM (v : option Z) (r : APIKey) : APIKey :=
  mkAPIKey (k_ID r) (k_KeyHash r) (k_Name r) (k_IsActive r) (k_RateLimitRPM r) v (k_CreatedAt r) (k_LastUsedAt r).
Definition set_k_LastUsedAt (v : option Z) (r : APIKey) : APIKey :=
  mkAPIKey (k_ID r) (k_KeyHash r) (k_Name r) (k_IsActive r) (k_RateLimitRPM r) (k_RateLimitTPM r) (k_CreatedAt r) v.

(** * Logs *)

(** [models.RequestLog]; [CostBreakdown] is filled only in admin replies and never stored *)
Record RequestLog := mkLog {
  log_ID : string;
  log_Timestamp : Z;
  log_ClientIP : string;
  log_Method : string;
  log_Path : string;
  log_RequestedModel : string;
  log_ResolvedModel : string;
  log_ProviderID : string;
  log_ProviderName : string;
  log_StatusCode : Z;
  log_IsStreamed : bool;
  log_TTFTMs : option Z;
  log_TotalTimeMs : Z;
  log_PromptTokens : option Z;
  log_CompletionTokens : option Z;
  log_TotalTokens : option Z;
  log_CachedTokens : option Z;
  log_ErrorMessage : string;
  log_CreatedAt : Z;
  log_APIKeyID : string;
  log_APIKeyName : string;
  log_EstimatedCostUSD : option f64;
  log_RequestBody : string;
  log_ResponseBody : string;
}.

Definition set_log_ID (v : string) (r : RequestLog) : RequestLog :=
  mkLog v (log_Timestamp r) (log_ClientIP r) (log_Method r) (log_Path r) (log_RequestedModel r) (log_ResolvedModel r) (log_ProviderID r) (log_ProviderName r) (log_StatusCode r) (log_IsStreamed r) (log_TTFTMs r) (log_TotalTimeMs r) (log_PromptTokens r) (log_CompletionTokens r) (log_TotalTokens r) (log_CachedTokens r) (log_ErrorMessage r) (log_CreatedAt r) (log_APIKeyID r) (log_APIKeyName r) (log_EstimatedCostUSD r) (log_RequestBody r) (log_ResponseBody r).
Definition set_log_ResolvedModel (v : string) (r : RequestLog) : RequestLog :=
  mkLog (log_ID r) (log_Timestamp r) (log_ClientIP r) (log_Method r) (log_Path r) (log_RequestedModel r) v (log_ProviderID r) (log_ProviderName r) (log_StatusCode r) (log_IsStreamed r) (log_TTFTMs r) (log_TotalTimeMs r) (log_PromptTokens r) (log_CompletionTokens r) (log_TotalTokens r) (log_CachedTokens r) (log_ErrorMessage r) (log_CreatedAt r) (log_APIKeyID r) (log_APIKeyName r) (log_EstimatedCostUSD r) (log_RequestBody r) (log_ResponseBody r).
Definition set_log_ProviderID (v : string) (r : RequestLog) : RequestLog :=
  mkLog (log_ID r) (log_Timestamp r) (log_ClientIP r) (log_Method r) (log_Path r) (log_RequestedModel r) (log_ResolvedModel r) v (log_ProviderName r) (log_StatusCode r) (log_IsStreamed r) (log_TTFTMs r) (log_TotalTimeMs r) (log_PromptTokens r) (log_CompletionTokens r) (log_TotalTokens r) (log_CachedTokens r) (log_ErrorMessage r) (log_CreatedAt r) (log_APIKeyID r) (log_APIKeyName r) (log_EstimatedCostUSD r) (log_RequestBody r) (log_ResponseBody r).
Definition set_log_ProviderName (v : string) (r : RequestLog) : RequestLog :=
  mkLog (log_ID r) (log_Timestamp r) (log_ClientIP r) (log_Method r) (log_Path r) (log_RequestedModel r) (log_ResolvedModel r) (log_ProviderID r) v (log_StatusCode r) (log_IsStreamed r) (log_TTFTMs r) (log_TotalTimeMs r) (log_PromptTokens r) (log_CompletionTokens r) (log_TotalTokens r) (log_CachedTokens r) (log_ErrorMessage r) (log_CreatedAt r) (log_APIKeyID r) (log_APIKeyName r) (log_EstimatedCostUSD r) (log_RequestBody r) (log_ResponseBody r).
Definition set_log_StatusCode (v : Z) (r : RequestLog) : RequestLog :=
  mkLog (log_ID r) (log_Timestamp r) (log_ClientIP r) (log_Method r) (log_Path r) (log_RequestedModel r) (log_ResolvedModel r) (log_ProviderID r) (log_ProviderName r) v (log_IsStreamed r) (log_TTFTMs r) (log_TotalTimeMs r) (log_PromptTokens r) (log_CompletionTokens r) (log_TotalTokens r) (log_CachedTokens r) (log_ErrorMessage r) (log_CreatedAt r) (log_APIKeyID r) (log_APIKeyName r) (log_EstimatedCostUSD r) (log_RequestBody r) (log_ResponseBody r).
Definition set_log_TTFTMs (v : option Z) (r : RequestLog) : RequestLog :=
  mkLog (log_ID r) (log_Timestamp r) (log_ClientIP r) (log_Method r) (log_Path r) (log_RequestedModel r) (log_ResolvedModel r) (log_ProviderID r) (log_ProviderName r) (log_StatusCode r) (log_IsStreamed r) v (log_TotalTimeMs r) (log_PromptTokens r) (log_CompletionTokens r) (log_TotalTokens r) (log_CachedTokens r) (log_ErrorMessage r) (log_CreatedAt r) (log_APIKeyID r) (log_APIKeyName r) (log_EstimatedCostUSD r) (log_RequestBody r) (log_ResponseBody r).
Definition set_log_TotalTimeMs (v : Z) (r : RequestLog) : RequestLog :=
  mkLog (log_ID r) (log_Timestamp r) (log_ClientIP r) (log_Method r) (log_Path r) (log_RequestedModel r) (log_ResolvedModel r) (log_ProviderID r) (log_ProviderName r) (log_StatusCode r) (log_IsStreamed r) (log_TTFTMs r) v (log_PromptTokens r) (log_CompletionTokens r) (log_TotalTokens r) (log_CachedTokens r) (log_ErrorMessage r) (log_CreatedAt r) (log_APIKeyID r) (log_APIKeyName r) (log_EstimatedCostUSD r) (log_RequestBody r) (log_ResponseBody r).
Definition set_log_PromptTokens (v : option Z) (r : RequestLog) : RequestLog :=
  mkLog (log_ID r) (log_Timestamp r) (log_ClientIP r) (log_Method r) (log_Path r) (log_RequestedModel r) (log_ResolvedModel r) (log_ProviderID r) (log_ProviderName r) (log_StatusCode r) (log_IsStreamed r) (log_TTFTMs r) (log_TotalTimeMs r) v (log_CompletionTokens r) (log_TotalTokens r) (log_CachedTokens r) (log_ErrorMessage r) (log_CreatedAt r) (log_APIKeyID r) (log_APIKeyName r) (log_EstimatedCostUSD r) (log_RequestBody r) (log_ResponseBody r).
Definition set_log_CompletionTokens (v : option Z) (r : RequestLog) : RequestLog :=
  mkLog (log_ID r) (log_Timestamp r) (log_ClientIP r) (log_Method r) (log_Path r) (log_RequestedModel r) (log_ResolvedModel r) (log_ProviderID r) (log_ProviderName r) (log_StatusCode r) (log_IsStreamed r) (log_TTFTMs r) (log_TotalTimeMs r) (log_PromptTokens r) v (log_TotalTokens r) (log_CachedTokens r) (log_ErrorMessage r) (log_CreatedAt r) (log_APIKeyID r) (log_APIKeyName r) (log_EstimatedCostUSD r) (log_RequestBody r) (log_ResponseBody r).
Definition set_log_TotalTokens (v : option Z) (r : RequestLog) : RequestLog :=
  mkLog (log_ID r) (log_Timestamp r) (log_ClientIP r) (log_Method r) (log_Path r) (log_RequestedModel r) (log_ResolvedModel r) (log_ProviderID r) (log_ProviderName r) (log_StatusCode r) (log_IsStreamed r) (log_TTFTMs r) (log_TotalTimeMs r) (log_PromptTokens r) (log_CompletionTokens r) v (log_CachedTokens r) (log_ErrorMessage r) (log_CreatedAt r) (log_APIKeyID r) (log_APIKeyName r) (log_EstimatedCostUSD r) (log_RequestBody r) (log_ResponseBody r).
Definition set_log_CachedTokens (v : option Z) (r : RequestLog) : RequestLog :=
  mkLog (log_ID r) (log_Timestamp r) (log_ClientIP r) (log_Method r) (log_Path r) (log_RequestedModel r) (log_ResolvedModel r) (log_ProviderID r) (log_ProviderName r) (log_StatusCode r) (log_IsStreamed r) (log_TTFTMs r) (log_TotalTimeMs r) (log_PromptTokens r) (log_CompletionTokens r) (log_TotalTokens r) v (log_ErrorMessage r) (log_CreatedAt r) (log_APIKeyID r) (log_APIKeyName r) (log_EstimatedCostUSD r) (log_RequestBody r) (log_ResponseBody r).
Definition set_log_ErrorMessage (v : string) (r : RequestLog) : RequestLog :=
  mkLog (log_ID r) (log_Timestamp r) (log_ClientIP r) (log_Method r) (log_Path r) (log_RequestedModel r) (log_ResolvedModel r) (log_ProviderID r) (log_ProviderName r) (log_StatusCode r) (log_IsStreamed r) (log_TTFTMs r) (log_TotalTimeMs r) (log_PromptTokens r) (log_CompletionTokens r) (log_TotalTokens r) (log_CachedTokens r) v (log_CreatedAt r) (log_APIKeyID r) (log_APIKeyName r) (log_EstimatedCostUSD r) (log_RequestBody r) (log_ResponseBody r).
Definition set_log_APIKeyID (v : string) (r : RequestLog) : RequestLog :=
  mkLog (log_ID r) (log_Timestamp r) (log_ClientIP r) (log_Method r) (log_Path r) (log_RequestedModel r) (log_ResolvedModel r) (log_ProviderID r) (log_ProviderName r) (log_StatusCode r) (log_IsStreamed r) (log_TTFTMs r) (log_TotalTimeMs r) (log_PromptTokens r) (log_CompletionTokens r) (log_TotalTokens r) (log_CachedTokens r) (log_ErrorMessage r) (log_CreatedAt r) v (log_APIKeyName r) (log_EstimatedCostUSD r) (log_RequestBody r) (log_ResponseBody r).
Definition set_log_APIKeyName (v : string) (r : RequestLog) : RequestLog :=
  mkLog (log_ID r) (log_Timestamp r) (log_ClientIP r) (log_Method r) (log_Path r) (log_RequestedModel r) (log_ResolvedModel r) (log_ProviderID r) (log_ProviderName r) (log_StatusCode r) (log_IsStreamed r) (log_TTFTMs r) (log_TotalTimeMs r) (log_PromptTokens r) (log_CompletionTokens r) (log_TotalTokens r) (log_CachedTokens r) (log_ErrorMessage r) (log_CreatedAt r) (log_APIKeyID r) v (log_EstimatedCostUSD r) (log_RequestBody r) (log_ResponseBody r).
Definition set_log_EstimatedCostUSD (v : option f64) (r : RequestLog) : RequestLog :=
  mkLog (log_ID r) (log_Timestamp r) (log_ClientIP r) (log_Method r) (log_Path r) (log_RequestedModel r) (log_ResolvedModel r) (log_ProviderID r) (log_ProviderName r) (log_StatusCode r) (log_IsStreamed r) (log_TTFTMs r) (log_TotalTimeMs r) (log_PromptTokens r) (log_CompletionTokens r) (log_TotalTokens r) (log_CachedTokens r) (log_ErrorMessage r) (log_CreatedAt r) (log_APIKeyID r) (log_APIKeyName r) v (log_RequestBody r) (log_ResponseBody r).
Definition set_log_RequestBody (v : string) (r : RequestLog) : RequestLog :=
  mkLog (log_ID r) (log_Timestamp r) (log_ClientIP r) (log_Method r) (log_Path r) (log_RequestedModel r) (log_ResolvedModel r) (log_ProviderID r) (log_ProviderName r) (log_StatusCode r) (log_IsStreamed r) (log_TTFTMs r) (log_TotalTimeMs r) (log_PromptTokens r) (log_CompletionTokens r) (log_TotalTokens r) (log_CachedTokens r) (log_ErrorMessage r) (log_CreatedAt r) (log_APIKeyID r) (log_APIKeyName r) (log_EstimatedCostUSD r) v (log_ResponseBody r).
Definition set_log_ResponseBody (v : string) (r : RequestLog) : RequestLog :=
  mkLog (log_ID r) (log_Timestamp r) (log_ClientIP r) (log_Method r) (log_Path r) (log_RequestedModel r) (log_ResolvedModel r) (log_ProviderID r) (log_ProviderName r) (log_StatusCode r) (log_IsStreamed r) (log_TTFTMs r) (log_TotalTimeMs r) (log_PromptTokens r) (log_CompletionTokens r) (log_TotalTokens r) (log_CachedTokens r) (log_ErrorMessage r) (log_CreatedAt r) (log_APIKeyID r) (log_APIKeyName r) (log_EstimatedCostUSD r) (log_RequestBody r) v.

(** [models.StreamingLog]; [CumulativeBody] is filled only in admin replies *)
Record StreamingLog := mkStreamingLog {
  sl_ID : string;
  sl_RequestLogID : string;
  sl_ChunkIndex : Z;
  sl_Data : string;
  sl_ContentDelta : string;
  sl_BodyPurged : bool;
  sl_IsTruncated : bool;
  sl_Timestamp : Z;
  sl_CreatedAt : Z;
}.

Definition set_sl_ID (v : string) (r : StreamingLog) : StreamingLog :=
  mkStreamingLog v (sl_RequestLogID r) (sl_ChunkIndex r) (sl_Data r) (sl_ContentDelta r) (sl_BodyPurged r) (sl_IsTruncated r) (sl_Timestamp r) (sl_CreatedAt r).
Definition set_sl_Data (v : string) (r : StreamingLog) : StreamingLog :=
  mkStreamingLog (sl_ID r) (sl_RequestLogID r) (sl_ChunkIndex r) v (sl_ContentDelta r) (sl_BodyPurged r) (sl_IsTruncated r) (sl_Timestamp r) (sl_CreatedAt r).
Definition set_sl_ContentDelta (v : string) (r : StreamingLog) : StreamingLog :=
  mkStreamingLog (sl_ID r) (sl_RequestLogID r) (sl_ChunkIndex r) (sl_Data r) v (sl_BodyPurged r) (sl_IsTruncated r) (sl_Timestamp r) (sl_CreatedAt r).
Definition set_sl_BodyPurged (v : bool) (r : StreamingLog) : StreamingLog :=
  mkStreamingLog (sl_ID r) (sl_RequestLogID r) (sl_ChunkIndex r) (sl_Data r) (sl_ContentDelta r) v (sl_IsTruncated r) (sl_Timestamp r) (sl_CreatedAt r).
Definition set_sl_Timestamp (v : Z) (r : StreamingLog) : StreamingLog :=
  mkStreamingLog (sl_ID r) (sl_RequestLogID r) (sl_ChunkIndex r) (sl_Data r) (sl_ContentDelta r) (sl_BodyPurged r) (sl_IsTruncated r) v (sl_CreatedAt r).
Definition set_sl_CreatedAt (v : Z) (r : StreamingLog) : StreamingLog :=
  mkStreamingLog (sl_ID r) (sl_RequestLogID r) (sl_ChunkIndex r) (sl_Data r) (sl_ContentDelta r) (sl_BodyPurged r) (sl_IsTruncated r) (sl_Timestamp r) v.

(** * Run-time configuration *)

Definition DefaultRequestBodyMaxBytes : Z := 51200.
Definition DefaultResponseBodyMaxBytes : Z := 51200.
Definition DefaultTrackStreaming : bool := false.
Definition DefaultStreamingBufferSize : Z := 10240.
Definition MaxBodyMaxBytes : Z := 1073741824.
Definition MinStreamingBufferSize : Z := 1024.
Definition MaxStreamingBufferSize : Z := 1048576.
Definition DefaultHTTPIdleConnTimeoutSeconds : Z := 90.
Definition MinHTTPIdleConnTimeoutSeconds : Z := 10.
Definition MaxHTTPIdleConnTimeoutSeconds : Z := 86400.
Definition DefaultStreamingLogBodyRetentionDays : Z := 30.
Definition DefaultRequestLogBodyRetentionDays : Z := 30.
Definition DefaultResponseLogBodyRetentionDays : Z := 30.
Definition DefaultRequireAPIKeys : bool := false.
Definition MinStreamingLogBodyRetentionDays : Z := 1.
Definition MaxStreamingLogBodyRetentionDays : Z := 3650.

(** [models.Configuration] *)
Record Configuration := mkConfiguration {
  cfg_RequestBodyMaxBytes : Z;
  cfg_ResponseBodyMaxBytes : Z;
  cfg_TrackStreaming : bool;
  cfg_StreamingBufferSize : Z;
  cfg_HTTPIdleConnTimeoutSeconds : Z;
  cfg_StreamingLogBodyRetentionDays : Z;
  cfg_RequestLogBodyRetentionDays : Z;
  cfg_ResponseLogBodyRetentionDays : Z;
  cfg_RequireAPIKeys : bool;
}.

Definition set_cfg_RequestBodyMaxBytes (v : Z) (r : Configuration) : Configuration :=
  mkConfiguration v (cfg_ResponseBodyMaxBytes r) (cfg_TrackStreaming r) (cfg_StreamingBufferSize r) (cfg_HTTPIdleConnTimeoutSeconds r) (cfg_StreamingLogBodyRetentionDays r) (cfg_RequestLogBodyRetentionDays r) (cfg_ResponseLogBodyRetentionDays r) (cfg_RequireAPIKeys r).
Definition set_cfg_ResponseBodyMaxBytes (v : Z) (r : Configuration) : Configuration :=
  mkConfiguration (cfg_RequestBodyMaxBytes r) v (cfg_TrackStreaming r) (cfg_StreamingBufferSize r) (cfg_HTTPIdleConnTimeoutSeconds r) (cfg_StreamingLogBodyRetentionDays r) (cfg_RequestLogBodyRetentionDays r) (cfg_ResponseLogBodyRetentionDays r) (cfg_RequireAPIKeys r).
Definition set_cfg_TrackStreaming (v : bool) (r : Configuration) : Configuration :=
  mkConfiguration (cfg_RequestBodyMaxBytes r) (cfg_ResponseBodyMaxBytes r) v (cfg_StreamingBufferSize r) (cfg_HTTPIdleConnTimeoutSeconds r) (cfg_StreamingLogBodyRetentionDays r) (cfg_RequestLogBodyRetentionDays r) (cfg_ResponseLogBodyRetentionDays r) (cfg_RequireAPIKeys r).
Definition set_cfg_StreamingBufferSize (v : Z) (r : Configuration) : Configuration :=
  mkConfiguration (cfg_RequestBodyMaxBytes r) (cfg_ResponseBodyMaxBytes r) (cfg_TrackStreaming r) v (cfg_HTTPIdleConnTimeoutSeconds r) (cfg_StreamingLogBodyRetentionDays r) (cfg_RequestLogBodyRetentionDays r) (cfg_ResponseLogBodyRetentionDays r) (cfg_RequireAPIKeys r).
Definition set_cfg_HTTPIdleConnTimeoutSeconds (v : Z) (r : Configuration) : Configuration :=
  mkConfiguration (cfg_RequestBodyMaxBytes r) (cfg_ResponseBodyMaxBytes r) (cfg_TrackStreaming r) (cfg_StreamingBufferSize r) v (cfg_StreamingLogBodyRetentionDays r) (cfg_RequestLogBodyRetentionDays r) (cfg_ResponseLogBodyRetentionDays r) (cfg_RequireAPIKeys r).
Definition set_cfg_StreamingLogBodyRetentionDays (v : Z) (r : Configuration) : Configuration :=
  mkConfiguration (cfg_RequestBodyMaxBytes r) (cfg_ResponseBodyMaxBytes r) (cfg_TrackStreaming r) (cfg_StreamingBufferSize r) (cfg_HTTPIdleConnTimeoutSeconds r) v (cfg_RequestLogBodyRetentionDays r) (cfg_ResponseLogBodyRetentionDays r) (cfg_RequireAPIKeys r).
Definition set_cfg_RequestLogBodyRetentionDays (v : Z) (r : Configuration) : Configuration :=
  mkConfiguration (cfg_RequestBodyMaxBytes r) (cfg_ResponseBodyMaxBytes r) (cfg_TrackStreaming r) (cfg_StreamingBufferSize r) (cfg_HTTPIdleConnTimeoutSeconds r) (cfg_StreamingLogBodyRetentionDays r) v (cfg_ResponseLogBodyRetentionDays r) (cfg_RequireAPIKeys r).
Definition set_cfg_ResponseLogBodyRetentionDays (v : Z) (r : Configuration) : Configuration :=
  mkConfiguration (cfg_RequestBodyMaxBytes r) (cfg_ResponseBodyMaxBytes r) (cfg_TrackStreaming r) (cfg_StreamingBufferSize r) (cfg_HTTPIdleConnTimeoutSeconds r) (cfg_StreamingLogBodyRetentionDays r) (cfg_RequestLogBodyRetentionDays r) v (cfg_RequireAPIKeys r).
Definition set_cfg_RequireAPIKeys (v : bool) (r : Configuration) : Configuration :=
  mkConfiguration (cfg_RequestBodyMaxBytes r) (cfg_ResponseBodyMaxBytes r) (cfg_TrackStreaming r) (cfg_StreamingBufferSize r) (cfg_HTTPIdleConnTimeoutSeconds r) (cfg_StreamingLogBodyRetentionDays r) (cfg_RequestLogBodyRetentionDays r) (cfg_ResponseLogBodyRetentionDays r) v.

(** [models.DefaultConfiguration]. *)
Definition DefaultConfiguration : Configuration := {|
  cfg_RequestBodyMaxBytes := DefaultRequestBodyMaxBytes;
  cfg_ResponseBodyMaxBytes := DefaultResponseBodyMaxBytes;
  cfg_TrackStreaming := DefaultTrackStreaming;
  cfg_StreamingBufferSize := DefaultStreamingBufferSize;
  cfg_HTTPIdleConnTimeoutSeconds := DefaultHTTPIdleConnTimeoutSeconds;
  cfg_StreamingLogBodyRetentionDays := DefaultStreamingLogBodyRetentionDays;
  cfg_RequestLogBodyRetentionDays := DefaultRequestLogBodyRetentionDays;
  cfg_ResponseLogBodyRetentionDays := DefaultResponseLogBodyRetentionDays;
  cfg_RequireAPIKeys := DefaultRequireAPIKeys;
|}.

(** [models.ClampHTTPIdleConnTimeoutSeconds]. *)
Definition ClampHTTPIdleConnTimeoutSeconds (v : Z) : Z :=
  if v <? MinHTTPIdleConnTimeoutSeconds then MinHTTPIdleConnTimeoutSeconds
  else if MaxHTTPIdleConnTimeoutSeconds <? v then MaxHTTPIdleConnTimeoutSeconds
  else v.

(** [models.HTTPIdleConnTimeoutSecondsFromConfig]; a nil map has no keys. *)
Definition HTTPIdleConnTimeoutSecondsFromConfig (m : gmap string string) : Z :=
  match m !! "http_idle_conn_timeout_seconds" with
  | None => DefaultHTTPIdleConnTimeoutSeconds
  | Some raw =>
      match atoi raw with
      | None => DefaultHTTPIdleConnTimeoutSeconds
      | Some v => ClampHTTPIdleConnTimeoutSeconds v
      end
  end.

(** * Decidable equality *)

#[export] Instance Provider_eq_dec : EqDecision Provider.
Proof. solve_decision. Defined.

#[export] Instance ProviderEndpoint_eq_dec : EqDecision ProviderEndpoint.
Proof. solve_decision. Defined.

#[export] Instance ProviderModel_eq_dec : EqDecision ProviderModel.
Proof. solve_decision. Defined.

#[export] Instance ModelAlias_eq_dec : EqDecision ModelAlias.
Proof. solve_decision. Defined.

#[export] Instance APIKey_eq_dec : EqDecision APIKey.
Proof. solve_decision. Defined.

#[export] Instance RequestLog_eq_dec : EqDecision RequestLog.
Proof. solve_decision. Defined.

#[export] Instance StreamingLog_eq_dec : EqDecision StreamingLog.
Proof. solve_decision. Defined.

#[export] Instance Configuration_eq_dec : EqDecision Configuration.
Proof. solve_decision. Defined.

(** * Lemmas *)

(** A threshold is usable when it lies in (0, 1]; a count when it is positive. *)
Definition threshold_ok (t : f64) : bool := f64_ltb f64_zero t && f64_leb t f64_one.

Lemma f64_cases (x y : f64) :
  f64_ltb x y = true \/ f64_leb y x = true \/ x = S754_nan \/ y = S754_nan.
Proof.
  unfold f64_ltb, f64_leb, SFltb, SFleb, SFcompare.
  destruct x as [[]|[]| |[] mx ex], y as [[]|[]| |[] my ey]; auto.
  - rewrite (Z.compare_antisym ex ey). change (Pos.compare_cont Eq) with Pos.compare.
    rewrite (Pos.compare_antisym mx my).
    destruct (Z.compare ex ey), (Pos.compare mx my); simpl; auto.
  - rewrite (Z.compare_antisym ex ey). change (Pos.compare_cont Eq) with Pos.compare.
    rewrite (Pos.compare_antisym mx my).
    destruct (Z.compare ex ey), (Pos.compare mx my); simpl; auto.
Qed.

Lemma clamp_range (v : Z) :
  MinHTTPIdleConnTimeoutSeconds <= ClampHTTPIdleConnTimeoutSeconds v <= MaxHTTPIdleConnTimeoutSeconds.
Proof.
  unfold ClampHTTPIdleConnTimeoutSeconds, MinHTTPIdleConnTimeoutSeconds, MaxHTTPIdleConnTimeoutSeconds.
  repeat split_match; blia.
Qed.
