(* ===== verification/Circuit.v ===== *)
(** The circuit breaker of [internal/proxy/circuit.go]: its state, one
    definition per method, the events a breaker sees and their runs.

    The mutex makes every method atomic, so a breaker shared by concurrent
    requests sees a sequence of events; a run is such a sequence.  Each
    reading of [time.Now] is an argument. *)
From S2P Require Import Prelude GoLib Float64 Models.
Local Open Scope Z_scope.

Inductive CircuitBreakerState := StateClosed | StateOpen | StateHalfOpen.

#[export] Instance CircuitBreakerState_eq_dec : EqDecision CircuitBreakerState.
Proof. solve_decision. Defined.

Record CircuitBreaker := mkCB {
  cb_state : CircuitBreakerState;
  cb_failures : list Z;
  cb_successes : list Z;
  cb_lastStateChange : Z;
  cb_errorThreshold : f64;
  cb_windowSize : Z;
  cb_cooldownPeriod : Z;
}.

#[export] Instance CircuitBreaker_eq_dec : EqDecision CircuitBreaker.
Proof. solve_decision. Defined.

Definition set_state (st : CircuitBreakerState) (at_ : Z) (cb : CircuitBreaker) : CircuitBreaker :=
  mkCB st (cb_failures cb) (cb_successes cb) at_
    (cb_errorThreshold cb) (cb_windowSize cb) (cb_cooldownPeriod cb).

Definition set_failures (l : list Z) (cb : CircuitBreaker) : CircuitBreaker :=
  mkCB (cb_state cb) l (cb_successes cb) (cb_lastStateChange cb)
    (cb_errorThreshold cb) (cb_windowSize cb) (cb_cooldownPeriod cb).

Definition set_successes (l : list Z) (cb : CircuitBreaker) : CircuitBreaker :=
  mkCB (cb_state cb) (cb_failures cb) l (cb_lastStateChange cb)
    (cb_errorThreshold cb) (cb_windowSize cb) (cb_cooldownPeriod cb).

(** [NewCircuitBreaker()]. *)
Definition NewCircuitBreaker (now : Z) : CircuitBreaker :=
  mkCB StateClosed [] [] now f64_half (60 * Second) (30 * Second).

(** [cb.Configure(errorThreshold, windowSize, cooldownPeriod)]. *)
Definition Configure (errorThreshold : f64) (windowSize cooldownPeriod : Z)
    (cb : CircuitBreaker) : CircuitBreaker :=
  mkCB (cb_state cb) (cb_failures cb) (cb_successes cb) (cb_lastStateChange cb)
    (if f64_ltb f64_zero errorThreshold && f64_leb errorThreshold f64_one
     then errorThreshold else cb_errorThreshold cb)
    (if 0 <? windowSize then windowSize else cb_windowSize cb)
    (if 0 <? cooldownPeriod then cooldownPeriod else cb_cooldownPeriod cb).

(** [cb.prune(now)]. *)
Definition prune (now : Z) (cb : CircuitBreaker) : CircuitBreaker :=
  let cutoff := time_add now (- cb_windowSize cb) in
  let kept := keep (fun t => time_after t cutoff) in
  set_successes (kept (cb_successes cb)) (set_failures (kept (cb_failures cb)) cb).

(** [cb.Allow()]: [since] is the instant read by [time.Since], [now] the one
    read by [time.Now] when the breaker turns half-open. *)
Definition Allow (since now : Z) (cb : CircuitBreaker) : bool * CircuitBreaker :=
  match cb_state cb with
  | StateClosed => (true, cb)
  | StateOpen =>
      if cb_cooldownPeriod cb <=? time_sub since (cb_lastStateChange cb)
      then (true, set_state StateHalfOpen now cb)
      else (false, cb)
  | StateHalfOpen => (true, cb)
  end.

(** [cb.RecordSuccess()]. *)
Definition RecordSuccess (now : Z) (cb : CircuitBreaker) : CircuitBreaker :=
  let cb := prune now cb in
  let cb := set_successes (cb_successes cb ++ [now]) cb in
  match cb_state cb with
  | StateHalfOpen => set_failures [] (set_state StateClosed now cb)
  | _ => cb
  end.

(** [float64(f) / float64(f + s)]. *)
Definition error_rate (f s : Z) : f64 := f64_div (f64_of_Z f) (f64_of_Z (f + s)).

(** [cb.RecordFailure()]. *)
Definition RecordFailure (now : Z) (cb : CircuitBreaker) : CircuitBreaker :=
  let cb := prune now cb in
  let cb := set_failures (cb_failures cb ++ [now]) cb in
  match cb_state cb with
  | StateHalfOpen => set_state StateOpen now cb
  | StateClosed =>
      let f := Z.of_nat (length (cb_failures cb)) in
      let s := Z.of_nat (length (cb_successes cb)) in
      if 0 <? f + s then
        if f64_ltb (cb_errorThreshold cb) (error_rate f s)
        then set_state StateOpen now cb
        else cb
      else cb
  | StateOpen => cb
  end.

(** [cb.State()]. *)
Definition State (cb : CircuitBreaker) : CircuitBreakerState := cb_state cb.

(** ** Events and runs *)

Inductive CBEvent :=
| EvConfigure (threshold : f64) (window cooldown : Z)
| EvAllow (since now : Z)
| EvSuccess (now : Z)
| EvFailure (now : Z).

Definition cb_exec (e : CBEvent) (cb : CircuitBreaker) : CircuitBreaker :=
  match e with
  | EvConfigure t w c => Configure t w c cb
  | EvAllow since now => (Allow since now cb).2
  | EvSuccess now => RecordSuccess now cb
  | EvFailure now => RecordFailure now cb
  end.

Definition cb_run (es : list CBEvent) (cb : CircuitBreaker) : CircuitBreaker :=
  fold_left (fun cb e => cb_exec e cb) es cb.

(** ** The abstract state machine

    The documented machine Closed -> Open -> HalfOpen -> Closed (or back to
    Open) reacts to two observations: whether the cooldown has elapsed, and
    whether the error rate of the window exceeds the threshold. *)
Record Obs := mkObs { obs_cooled : bool; obs_trips : bool }.

Inductive cb_step (o : Obs) : CBEvent -> CircuitBreakerState -> CircuitBreakerState -> Prop :=
| step_configure t w c s : cb_step o (EvConfigure t w c) s s
| step_allow_pass x y s : s <> StateOpen -> cb_step o (EvAllow x y) s s
| step_allow_reject x y : obs_cooled o = false -> cb_step o (EvAllow x y) StateOpen StateOpen
| step_allow_probe x y : obs_cooled o = true -> cb_step o (EvAllow x y) StateOpen StateHalfOpen
| step_success x s : s <> StateHalfOpen -> cb_step o (EvSuccess x) s s
| step_recover x : cb_step o (EvSuccess x) StateHalfOpen StateClosed
| step_failure_open x : cb_step o (EvFailure x) StateOpen StateOpen
| step_retrip x : cb_step o (EvFailure x) StateHalfOpen StateOpen
| step_tolerate x : obs_trips o = false -> cb_step o (EvFailure x) StateClosed StateClosed
| step_trip x : obs_trips o = true -> cb_step o (EvFailure x) StateClosed StateOpen.

(** An instant of the window that ends at [now]. *)
Definition in_window (now : Z) (cb : CircuitBreaker) (t : Z) : bool :=
  now - cb_windowSize cb <? t.

Definition count (p : Z -> bool) (l : list Z) : Z := Z.of_nat (length (keep p l)).

(** What the machine observes of a breaker when an event arrives: the elapsed
    time since the last change, and the failures (the new one included) and
    successes of the window. *)
Definition observe (e : CBEvent) (cb : CircuitBreaker) : Obs :=
  match e with
  | EvAllow since _ =>
      mkObs (cb_cooldownPeriod cb <=? since - cb_lastStateChange cb) false
  | EvFailure now =>
      let f := count (in_window now cb) (cb_failures cb) + 1 in
      let s := count (in_window now cb) (cb_successes cb) in
      mkObs false (f64_ltb (cb_errorThreshold cb) (error_rate f s))
  | _ => mkObs false false
  end.

Create HintDb go_circuit.

(** The settings a breaker may hold. *)
Definition cb_wf (cb : CircuitBreaker) : Prop :=
  threshold_ok (cb_errorThreshold cb) = true /\ 0 < cb_windowSize cb /\ 0 < cb_cooldownPeriod cb.

(** * Lemmas *)

Lemma prune_failures now cb :
  cb_failures (prune now cb) = keep (in_window now cb) (cb_failures cb).
Proof. done. Qed.

Lemma prune_successes now cb :
  cb_successes (prune now cb) = keep (in_window now cb) (cb_successes cb).
Proof. done. Qed.

Lemma cb_run_cons e es cb : cb_run (e :: es) cb = cb_run es (cb_exec e cb).
Proof. done. Qed.

Lemma cb_run_app es1 es2 cb : cb_run (es1 ++ es2) cb = cb_run es2 (cb_run es1 cb).
Proof. apply fold_left_app. Qed.

Definition settings (cb : CircuitBreaker) : f64 * Z * Z :=
  (cb_errorThreshold cb, cb_windowSize cb, cb_cooldownPeriod cb).

(** Settings change only in [Configure]. *)
Lemma settings_exec e cb :
  (match e with EvConfigure _ _ _ => False | _ => True end) ->
  settings (cb_exec e cb) = settings cb.
Proof.
  destruct e as [|since now|now|now]; [done| | |]; intros _; unfold settings; simpl;
    unfold Allow, RecordSuccess, RecordFailure; by repeat split_match.
Qed.

Lemma settings_wf cb cb' : settings cb' = settings cb -> cb_wf cb -> cb_wf cb'.
Proof. unfold cb_wf, settings. intros [= -> -> ->]. done. Qed.

Lemma NewCircuitBreaker_wf now : cb_wf (NewCircuitBreaker now).
Proof. by unfold cb_wf. Qed.

Lemma Configure_wf t w c cb : cb_wf cb -> cb_wf (Configure t w c cb).
Proof.
  unfold cb_wf, threshold_ok, Configure. simpl. intros (? & ? & ?).
  repeat split; repeat split_match; auto; blia.
Qed.

Lemma exec_wf e cb : cb_wf cb -> cb_wf (cb_exec e cb).
Proof.
  destruct e; [apply Configure_wf| | |]; apply settings_wf, settings_exec; done.
Qed.

#[export] Hint Resolve NewCircuitBreaker_wf Configure_wf exec_wf : go_circuit.

Lemma run_wf es cb : cb_wf cb -> cb_wf (cb_run es cb).
Proof. revert cb. induction es as [|e es IH]; intros cb H; [done|]. simpl. auto with go_circuit. Qed.

(** The saturating subtraction does not disturb the cooldown test. *)
Lemma cooled_exact since cb :
  cb_cooldownPeriod cb <= max_int64 -> 0 < cb_cooldownPeriod cb ->
  (cb_cooldownPeriod cb <=? time_sub since (cb_lastStateChange cb)) =
  (cb_cooldownPeriod cb <=? since - cb_lastStateChange cb).
Proof. intros H1 H2. apply time_sub_geb. unfold min_int64. lia. Qed.

(** Outside [Closed] the error rate plays no part. *)
Lemma RecordFailure_state now cb :
  cb_state (RecordFailure now cb) =
  match cb_state cb with
  | StateClosed => if obs_trips (observe (EvFailure now) cb) then StateOpen else StateClosed
  | _ => StateOpen
  end.
Proof.
  unfold RecordFailure, observe, count. simpl. destruct (cb_state cb) eqn:E; simpl; try done.
  change (keep (fun t => time_after t (time_add now (- cb_windowSize cb))))
    with (keep (in_window now cb)).
  rewrite length_app. simpl.
  set (f := length (keep (in_window now cb) (cb_failures cb))).
  set (s := length (keep (in_window now cb) (cb_successes cb))).
  rewrite Nat2Z.inj_add, (proj2 (Z.ltb_lt 0 _)) by lia. simpl. by destruct (f64_ltb _ _).
Qed.

Lemma RecordSuccess_state now cb :
  cb_state (RecordSuccess now cb) =
  match cb_state cb with StateHalfOpen => StateClosed | s => s end.
Proof. unfold RecordSuccess. simpl. by destruct (cb_state cb) eqn:E; simpl; rewrite ?E. Qed.

(** One step of the code is one step of the documented machine. *)
Lemma exec_refines e cb :
  0 < cb_cooldownPeriod cb <= max_int64 ->
  cb_step (observe e cb) e (cb_state cb) (cb_state (cb_exec e cb)).
Proof.
  intros Hc. destruct e as [t w c|since now|now|now]; simpl.
  - constructor.
  - unfold Allow. rewrite cooled_exact by lia.
    destruct (cb_state cb) eqn:E; simpl; rewrite ?E; try by constructor.
    destruct (_ <=? _) eqn:Hs; simpl; rewrite ?E; by constructor.
  - rewrite RecordSuccess_state. destruct (cb_state cb); by constructor.
  - rewrite RecordFailure_state. destruct (cb_state cb); try by constructor.
    destruct (obs_trips _) eqn:Ht; by constructor.
Qed.

(** A [Configure] call carries 64-bit durations. *)
Definition ev_ok (e : CBEvent) : Prop :=
  match e with EvConfigure _ w c => in_int64 w /\ in_int64 c | _ => True end.

Lemma run_cooldown es cb :
  Forall ev_ok es -> 0 < cb_cooldownPeriod cb <= max_int64 ->
  0 < cb_cooldownPeriod (cb_run es cb) <= max_int64.
Proof.
  intros Hes. revert cb. induction Hes as [|e es He _ IH]; intros cb Hc; [done|].
  rewrite cb_run_cons. apply IH. destruct e as [t w c|s n|n|n]; simpl.
  - destruct He as [_ [? ?]]. split_match; blia.
  - unfold Allow. by repeat split_match.
  - unfold RecordSuccess. by repeat split_match.
  - unfold RecordFailure. by repeat split_match.
Qed.

Definition not_configure (e : CBEvent) : Prop :=
  match e with EvConfigure _ _ _ => False | _ => True end.

Lemma settings_run es cb : Forall not_configure es -> settings (cb_run es cb) = settings cb.
Proof.
  intros Hes. revert cb. induction Hes as [|e es He _ IH]; intros cb; [done|].
  rewrite cb_run_cons, IH. by apply settings_exec.
Qed.

(** A run that starts inside a set of states and ends outside leaves it at
    some event. *)
Lemma run_crosses (P : CircuitBreakerState -> bool) es cb :
  P (cb_state cb) = true -> P (cb_state (cb_run es cb)) = false ->
  exists es1 e es2, es = es1 ++ e :: es2 /\
    P (cb_state (cb_run es1 cb)) = true /\
    P (cb_state (cb_exec e (cb_run es1 cb))) = false.
Proof.
  revert cb. induction es as [|e es IH]; intros cb H1 H2; [simpl in H2; congruence|].
  destruct (P (cb_state (cb_exec e cb))) eqn:E.
  - destruct (IH _ E H2) as (es1 & e' & es2 & -> & ? & ?). by exists (e :: es1), e', es2.
  - by exists [], e, es.
Qed.

Definition is_open (s : CircuitBreakerState) : bool :=
  match s with StateOpen => true | _ => false end.
Definition not_closed (s : CircuitBreakerState) : bool :=
  match s with StateClosed => false | _ => true end.

(** Only a cooled-down [Allow] leaves [Open], and it leads to [HalfOpen]. *)
Lemma leave_open e cb :
  cb_state cb = StateOpen -> cb_state (cb_exec e cb) <> StateOpen ->
  exists since now, e = EvAllow since now /\
    cb_cooldownPeriod cb <= time_sub since (cb_lastStateChange cb) /\
    (Allow since now cb).1 = true /\ cb_state (cb_exec e cb) = StateHalfOpen.
Proof.
  intros Ho. destruct e as [t w c|since now|now|now]; simpl;
    rewrite ?RecordFailure_state, ?RecordSuccess_state, ?Ho; try done.
  unfold Allow. rewrite Ho. destruct (_ <=? _) eqn:Hc; simpl; rewrite ?Ho; [|done].
  intros _. exists since, now. rewrite Hc. bool_to_prop. done.
Qed.

(** Only a recorded success of a [HalfOpen] breaker reaches [Closed]. *)
Lemma reach_closed e cb :
  cb_state cb <> StateClosed -> cb_state (cb_exec e cb) = StateClosed ->
  exists now, e = EvSuccess now /\ cb_state cb = StateHalfOpen.
Proof.
  intros Hn. destruct e as [t w c|since now|now|now]; simpl;
    rewrite ?RecordFailure_state, ?RecordSuccess_state; try done.
  - unfold Allow. repeat split_match; simpl; congruence.
  - destruct (cb_state cb); try done. eauto.
  - by destruct (cb_state cb).
Qed.

(** The answers [Allow] gives along a run. *)
Fixpoint answers (es : list CBEvent) (cb : CircuitBreaker) : list bool :=
  match es with
  | [] => []
  | e :: es' =>
      match e with EvAllow since now => [(Allow since now cb).1] | _ => [] end
      ++ answers es' (cb_exec e cb)
  end.

(** An event that cannot reopen traffic: no reconfiguration, and no [Allow]
    after the deadline. *)
Definition before_deadline (deadline : Z) (e : CBEvent) : Prop :=
  match e with
  | EvConfigure _ _ _ => False
  | EvAllow since _ => since < deadline
  | _ => True
  end.

Lemma open_exec_before e cb :
  cb_state cb = StateOpen -> 0 < cb_cooldownPeriod cb <= max_int64 ->
  before_deadline (cb_lastStateChange cb + cb_cooldownPeriod cb) e ->
  cb_state (cb_exec e cb) = StateOpen /\
  cb_lastStateChange (cb_exec e cb) = cb_lastStateChange cb /\
  (match e with EvAllow since now => (Allow since now cb).1 = false | _ => True end).
Proof.
  intros Ho Hc. destruct e as [t w c|since now|now|now]; simpl; intros Hb; [done| | |].
  - unfold Allow. rewrite Ho, cooled_exact by lia.
    rewrite (proj2 (Z.leb_gt _ _)) by lia. done.
  - unfold RecordSuccess. simpl. by rewrite Ho.
  - unfold RecordFailure. simpl. by rewrite Ho.
Qed.

Lemma open_run_before es cb :
  cb_state cb = StateOpen -> 0 < cb_cooldownPeriod cb <= max_int64 ->
  Forall (before_deadline (cb_lastStateChange cb + cb_cooldownPeriod cb)) es ->
  cb_state (cb_run es cb) = StateOpen /\ Forall (fun b => b = false) (answers es cb).
Proof.
  revert cb. induction es as [|e es IH]; intros cb Ho Hc Hes; [done|].
  apply Forall_cons in Hes as [He Hes].
  destruct (open_exec_before e cb Ho Hc He) as (H1 & H2 & H3).
  assert (settings (cb_exec e cb) = settings cb) as Hs by (apply settings_exec; by destruct e).
  injection Hs as _ _ Hcd. rewrite cb_run_cons. simpl.
  destruct (IH (cb_exec e cb)) as [IH1 IH2]; rewrite ?Hcd, ?H2; try done.
  split; [done|]. apply Forall_app. split; [|done]. destruct e; by repeat constructor.
Qed.

(** ** The counts behind the error rate *)

Lemma count_nonneg p l : 0 <= count p l.
Proof. unfold count. lia. Qed.

Lemma count_le p l : count p l <= Z.of_nat (length l).
Proof. unfold count. pose proof (keep_length p l). lia. Qed.

Lemma RecordFailure_half now cb f s :
  cb_state cb = StateClosed -> cb_errorThreshold cb = f64_half ->
  count (in_window now cb) (cb_failures cb) = f ->
  count (in_window now cb) (cb_successes cb) = s ->
  f + 1 + s < 2 ^ 53 ->
  cb_state (RecordFailure now cb) = if s <? f + 1 then StateOpen else StateClosed.
Proof.
  intros Hs Ht <- <- Hb. rewrite RecordFailure_state, Hs. simpl. rewrite Ht.
  pose proof (count_nonneg (in_window now cb) (cb_failures cb)).
  pose proof (count_nonneg (in_window now cb) (cb_successes cb)).
  unfold error_rate. rewrite f64_half_lt_quotient by lia.
  destruct (_ <? 2 * _) eqn:E1, (_ <? _ + 1) eqn:E2; done || blia.
Qed.

Lemma RecordFailure_one now cb :
  cb_state cb = StateClosed -> cb_errorThreshold cb = f64_one ->
  Z.of_nat (length (cb_failures cb)) + 1 + Z.of_nat (length (cb_successes cb)) < 2 ^ 53 ->
  cb_state (RecordFailure now cb) = StateClosed.
Proof.
  intros Hs Ht Hb. rewrite RecordFailure_state, Hs. simpl. rewrite Ht.
  pose proof (count_nonneg (in_window now cb) (cb_failures cb)).
  pose proof (count_nonneg (in_window now cb) (cb_successes cb)).
  pose proof (count_le (in_window now cb) (cb_failures cb)).
  pose proof (count_le (in_window now cb) (cb_successes cb)).
  unfold error_rate. by rewrite f64_one_lt_quotient by lia.
Qed.

(** ** The window *)

(** What [RecordFailure] and [RecordSuccess] leave in the window; a recovery
    forgets the failures. *)
Lemma RecordFailure_lists now cb :
  cb_failures (RecordFailure now cb) = keep (in_window now cb) (cb_failures cb) ++ [now] /\
  cb_successes (RecordFailure now cb) = keep (in_window now cb) (cb_successes cb).
Proof. unfold RecordFailure. by repeat split_match. Qed.

Lemma RecordSuccess_lists now cb :
  cb_failures (RecordSuccess now cb) =
    match cb_state cb with
    | StateHalfOpen => []
    | _ => keep (in_window now cb) (cb_failures cb)
    end /\
  cb_successes (RecordSuccess now cb) = keep (in_window now cb) (cb_successes cb) ++ [now].
Proof.
  unfold RecordSuccess. cbv zeta. change (cb_state (set_successes _ (prune now cb))) with (cb_state cb).
  by destruct (cb_state cb).
Qed.

Lemma Allow_lists since now cb :
  cb_failures (Allow since now cb).2 = cb_failures cb /\
  cb_successes (Allow since now cb).2 = cb_successes cb.
Proof. unfold Allow. by repeat split_match. Qed.

(** The number of instants a breaker holds. *)
Definition held (cb : CircuitBreaker) : Z :=
  Z.of_nat (length (cb_failures cb)) + Z.of_nat (length (cb_successes cb)).

Lemma held_exec e cb : held (cb_exec e cb) <= held cb + 1.
Proof.
  unfold held. destruct e as [t w c|since now|now|now]; simpl.
  - lia.
  - destruct (Allow_lists since now cb) as [-> ->]. lia.
  - destruct (RecordSuccess_lists now cb) as [-> ->].
    pose proof (keep_length (in_window now cb) (cb_failures cb)).
    pose proof (keep_length (in_window now cb) (cb_successes cb)).
    rewrite length_app. simpl. split_match; simpl; lia.
  - destruct (RecordFailure_lists now cb) as [-> ->].
    pose proof (keep_length (in_window now cb) (cb_failures cb)).
    pose proof (keep_length (in_window now cb) (cb_successes cb)).
    rewrite length_app. simpl. lia.
Qed.

(** With threshold 1 a closed breaker stays closed. *)
Lemma one_run es cb :
  cb_state cb = StateClosed -> cb_errorThreshold cb = f64_one -> Forall not_configure es ->
  held cb + Z.of_nat (length es) < 2 ^ 53 ->
  cb_state (cb_run es cb) = StateClosed.
Proof.
  revert cb. induction es as [|e es IH]; intros cb Hs Ht Hes Hb; [done|].
  apply Forall_cons in Hes as [He Hes]. rewrite cb_run_cons. pose proof (held_exec e cb).
  pose proof (settings_exec e cb) as Hset.
  simpl in Hb. apply IH; [| |done|lia].
  - destruct e as [t w c|since now|now|now]; simpl; [done| | |].
    + unfold Allow. by rewrite Hs.
    + by rewrite RecordSuccess_state, Hs.
    + unfold held in *. by apply RecordFailure_one; [| |lia].
  - unfold settings in Hset. rewrite <- Ht. by destruct e; [|injection (Hset I)..].
Qed.

(** The instants at which a run records a success, and the last instant at
    which it records anything. *)
Fixpoint success_times (es : list CBEvent) : list Z :=
  match es with
  | [] => []
  | EvSuccess now :: es' => now :: success_times es'
  | _ :: es' => success_times es'
  end.

Definition ev_time (e : CBEvent) : list Z :=
  match e with EvSuccess now | EvFailure now => [now] | _ => [] end.

Fixpoint last_record (es : list CBEvent) : option Z :=
  match es with
  | [] => None
  | e :: es' =>
      match last_record es' with Some t => Some t | None => head (ev_time e) end
  end.

Lemma success_times_snoc es e :
  success_times (es ++ [e]) =
  success_times es ++ match e with EvSuccess now => [now] | _ => [] end.
Proof.
  induction es as [|e' es IH]; [by destruct e|]. simpl.
  destruct e'; rewrite IH; done.
Qed.

Lemma last_record_snoc es e :
  last_record (es ++ [e]) =
  match ev_time e with t :: _ => Some t | [] => last_record es end.
Proof.
  induction es as [|e' es IH]; simpl; [by destruct e|]. rewrite IH. by destruct e.
Qed.

(** The instants of a run do not go back. *)
Definition monotone (es : list CBEvent) : Prop :=
  StronglySorted Z.le (es ≫= ev_time).

Lemma monotone_snoc es e :
  monotone (es ++ [e]) ->
  monotone es /\
  (forall t u, last_record es = Some t -> u ∈ ev_time e -> t <= u).
Proof.
  unfold monotone. rewrite bind_app. simpl. rewrite app_nil_r. intros H.
  split; [by eapply StronglySorted_app_1_l|].
  intros t u Ht Hu. eapply StronglySorted_app_1_elem_of; [exact H| |done].
  clear -Ht. induction es as [|e' es IH]; [done|]. simpl in *. apply elem_of_app.
  destruct (last_record es); [right; by apply IH|left]. by destruct e'; simpl in *; simplify_eq; set_solver.
Qed.

Lemma keep_keep {A} (p q : A -> bool) l :
  (forall x, p x = true -> q x = true) -> keep p (keep q l) = keep p l.
Proof.
  intros H. induction l as [|x l IH]; [done|]. unfold keep in *. simpl.
  destruct (q x) eqn:Eq; simpl; [by rewrite IH|].
  destruct (p x) eqn:Ep; [|done]. by rewrite (H x Ep) in Eq.
Qed.

(** The instants a window of size [w] that ends at the last record admits. *)
Definition admitted (w : Z) (es : list CBEvent) (t : Z) : bool :=
  match last_record es with Some l => l - w <? t | None => true end.

Lemma run_successes es t0 :
  Forall not_configure es -> monotone es ->
  cb_successes (cb_run es (NewCircuitBreaker t0)) =
  keep (admitted (60 * Second) es) (success_times es).
Proof.
  induction es as [|e es IH] using rev_ind; intros Hes Hm; [done|].
  apply Forall_app in Hes as [Hes He]. rewrite Forall_singleton in He.
  apply monotone_snoc in Hm as [Hm Hlast]. specialize (IH Hes Hm).
  rewrite cb_run_app, success_times_snoc.
  set (cb := cb_run es (NewCircuitBreaker t0)) in *.
  change (cb_run [e] cb) with (cb_exec e cb).
  assert (settings cb = settings (NewCircuitBreaker t0)) as Hset by by apply settings_run.
  injection Hset as _ Hw _. unfold admitted. rewrite last_record_snoc.
  assert (forall now, now ∈ ev_time e ->
    keep (in_window now cb) (cb_successes cb) =
    keep (fun t => now - 60 * Second <? t) (success_times es)) as Hk.
  { intros now Hn. unfold in_window. rewrite IH, Hw. apply keep_keep. intros x Hx.
    unfold admitted. destruct (last_record es) as [l|] eqn:El; [|done].
    pose proof (Hlast l now eq_refl Hn). blia. }
  destruct e as [t w c|since now|now|now]; cbn [ev_time cb_exec] in *; [destruct He| | |].
  - rewrite (proj2 (Allow_lists _ _ _)), app_nil_r. exact IH.
  - rewrite (proj2 (RecordSuccess_lists _ _)), (Hk now), keep_app; [|set_solver].
    f_equal. symmetry. apply keep_all, Forall_singleton, Z.ltb_lt. unfold Second. lia.
  - rewrite (proj2 (RecordFailure_lists _ _)), (Hk now), app_nil_r; [done|set_solver].
Qed.

(** * Properties *)

(** C11: Every method call on a breaker, after any sequence of calls since its
    creation, is a step of the documented machine Closed -> Open -> HalfOpen ->
    Closed (or Open again), driven by the elapsed cooldown and by the error
    rate of the sliding window. *)
Theorem circuit_refines_machine (t0 : Z) (es : list CBEvent) (e : CBEvent) :
  Forall ev_ok es ->
  let cb := cb_run es (NewCircuitBreaker t0) in
  cb_step (observe e cb) e (cb_state cb) (cb_state (cb_exec e cb)).
Proof.
  intros Hes cb. apply exec_refines, run_cooldown; [done|].
  unfold NewCircuitBreaker, Second, max_int64. simpl. lia.
Qed.

Lemma circuit_refines_machine_witness :
  let es := [EvConfigure f64_half 5 7; EvFailure 10] in
  let cb := cb_run es (NewCircuitBreaker 0) in
  cb_state cb = StateOpen /\ cb_step (observe (EvAllow 17 18) cb) (EvAllow 17 18) StateOpen StateHalfOpen.
Proof.
  split; [by vm_compute|].
  apply (circuit_refines_machine 0 [EvConfigure f64_half 5 7; EvFailure 10] (EvAllow 17 18)).
  repeat constructor; unfold min_int64, max_int64; lia.
Defined.

(** The settings a breaker runs with stay usable whatever is configured:
    the threshold lies in (0, 1], and window and cooldown are positive. *)
Theorem circuit_settings_wf (t0 : Z) (es : list CBEvent) :
  cb_wf (cb_run es (NewCircuitBreaker t0)).
Proof. apply run_wf. auto with go_circuit. Qed.

(** An open breaker rejects every request until its cooldown has elapsed:
    in any run of requests and outcomes whose [Allow] calls come before
    [lastStateChange + cooldownPeriod], it stays open and every [Allow] is
    refused, whatever successes in flight still report. *)
Theorem circuit_open_rejects (es : list CBEvent) (cb : CircuitBreaker) :
  cb_state cb = StateOpen -> 0 < cb_cooldownPeriod cb <= max_int64 ->
  Forall (before_deadline (cb_lastStateChange cb + cb_cooldownPeriod cb)) es ->
  cb_state (cb_run es cb) = StateOpen /\ Forall (fun b => b = false) (answers es cb).
Proof. apply open_run_before. Qed.

Lemma circuit_open_rejects_witness :
  let cb := RecordFailure 100 (NewCircuitBreaker 0) in
  let es := [EvAllow 200 200; EvSuccess 300; EvFailure 400; EvAllow (30 * Second) 500] in
  cb_state (cb_run es cb) = StateOpen /\ Forall (fun b => b = false) (answers es cb).
Proof.
  apply (circuit_open_rejects [EvAllow 200 200; EvSuccess 300; EvFailure 400; EvAllow (30 * Second) 500]
    (RecordFailure 100 (NewCircuitBreaker 0))).
  - by vm_compute.
  - vm_compute. done.
  - repeat constructor.
Defined.

(** An open breaker closes again only through the probe protocol: the run
    holds an [Allow] that was granted because the cooldown had elapsed, and
    after it a success recorded while the breaker was half-open. *)
Theorem circuit_recovers_by_probe (es : list CBEvent) (cb : CircuitBreaker) :
  cb_state cb = StateOpen -> cb_state (cb_run es cb) = StateClosed ->
  exists es1 since now es2 now2 es3,
    es = es1 ++ EvAllow since now :: es2 ++ EvSuccess now2 :: es3 /\
    let at_probe := cb_run es1 cb in
    cb_state at_probe = StateOpen /\
    cb_cooldownPeriod at_probe <= time_sub since (cb_lastStateChange at_probe) /\
    (Allow since now at_probe).1 = true /\
    cb_state (cb_run (es1 ++ EvAllow since now :: es2) cb) = StateHalfOpen.
Proof.
  intros Ho Hc.
  destruct (run_crosses is_open es cb) as (es1 & e & es' & -> & H1 & H2); rewrite ?Ho, ?Hc; try done.
  rewrite cb_run_app, cb_run_cons in Hc. set (c1 := cb_run es1 cb) in *.
  assert (cb_state c1 = StateOpen) as Hc1 by (by destruct (cb_state c1)).
  destruct (leave_open e c1 Hc1) as (since & now & -> & Hcool & Hall & Hh); [by intros E; rewrite E in H2|].
  destruct (run_crosses not_closed es' (cb_exec (EvAllow since now) c1))
    as (es2 & e2 & es3 & -> & H3 & H4); rewrite ?Hh, ?Hc; try done.
  destruct (reach_closed e2 (cb_run es2 (cb_exec (EvAllow since now) c1))) as (now2 & -> & H5).
  { by intros E; rewrite E in H3. }
  { by destruct (cb_state (cb_exec e2 _)). }
  exists es1, since, now, es2, now2, es3. by rewrite cb_run_app, cb_run_cons.
Qed.

Lemma circuit_recovers_by_probe_witness :
  let cb := RecordFailure 100 (NewCircuitBreaker 0) in
  let es := [EvAllow 200 200; EvAllow (31 * Second) (31 * Second); EvSuccess (32 * Second)] in
  exists es1 since now es2 now2 es3,
    es = es1 ++ EvAllow since now :: es2 ++ EvSuccess now2 :: es3 /\
    let at_probe := cb_run es1 cb in
    cb_state at_probe = StateOpen /\
    cb_cooldownPeriod at_probe <= time_sub since (cb_lastStateChange at_probe) /\
    (Allow since now at_probe).1 = true /\
    cb_state (cb_run (es1 ++ EvAllow since now :: es2) cb) = StateHalfOpen.
Proof.
  apply (circuit_recovers_by_probe
    [EvAllow 200 200; EvAllow (31 * Second) (31 * Second); EvSuccess (32 * Second)]
    (RecordFailure 100 (NewCircuitBreaker 0))); by vm_compute.
Defined.

(** With the default threshold a closed breaker trips on a failure exactly
    when the failures of the window, the new one included, outnumber its
    successes; the float division and comparison lose nothing below 2^53
    outcomes. *)
Theorem circuit_trips_on_majority (now : Z) (cb : CircuitBreaker) :
  cb_state cb = StateClosed -> cb_errorThreshold cb = DefaultCircuitBreakerErrorThreshold ->
  let f := count (in_window now cb) (cb_failures cb) + 1 in
  let s := count (in_window now cb) (cb_successes cb) in
  f + s < 2 ^ 53 ->
  cb_state (RecordFailure now cb) = if s <? f then StateOpen else StateClosed.
Proof. intros Hs Ht f s Hb. by apply RecordFailure_half. Qed.

Lemma circuit_trips_on_majority_witness :
  let cb := cb_run [EvSuccess 1; EvFailure 2] (NewCircuitBreaker 0) in
  cb_state cb = StateClosed /\ cb_state (RecordFailure 3 cb) = StateOpen.
Proof.
  split; [by vm_compute|].
  apply (circuit_trips_on_majority 3 (cb_run [EvSuccess 1; EvFailure 2] (NewCircuitBreaker 0)));
    by vm_compute.
Defined.

(** A breaker configured with the largest threshold the configuration
    accepts, 1, never trips: however many requests fail, a closed breaker
    stays closed, since the error rate must exceed the threshold. *)
Theorem circuit_threshold_one_never_trips (es : list CBEvent) (cb : CircuitBreaker) :
  cb_state cb = StateClosed -> cb_errorThreshold cb = f64_one -> Forall not_configure es ->
  held cb + Z.of_nat (length es) < 2 ^ 53 ->
  cb_state (cb_run es cb) = StateClosed.
Proof. apply one_run. Qed.

Lemma circuit_threshold_one_never_trips_witness :
  cb_state (cb_run [EvFailure 1; EvFailure 2; EvFailure 3]
    (Configure f64_one 60 30 (NewCircuitBreaker 0))) = StateClosed.
Proof.
  apply circuit_threshold_one_never_trips; [by vm_compute|by vm_compute|by repeat constructor|by vm_compute].
Defined.

(** The sliding window is exact: after any run at the default settings
    whose instants do not go back, the successes a breaker holds are precisely
    those recorded within the last 60 seconds before its latest record, in
    order, however often it pruned before. *)
Theorem circuit_window_exact (t0 : Z) (es : list CBEvent) :
  Forall not_configure es -> monotone es ->
  cb_successes (cb_run es (NewCircuitBreaker t0)) =
  keep (admitted (60 * Second) es) (success_times es).
Proof. apply run_successes. Qed.

Lemma circuit_window_exact_witness :
  cb_successes (cb_run [EvSuccess 1; EvSuccess (30 * Second); EvFailure (70 * Second)] (NewCircuitBreaker 0))
  = [30 * Second].
Proof.
  rewrite (circuit_window_exact 0 [EvSuccess 1; EvSuccess (30 * Second); EvFailure (70 * Second)]).
  - by vm_compute.
  - by repeat constructor.
  - unfold monotone. simpl. unfold Second. repeat constructor; lia.
Defined.
