(* ===== verification/Catalog.v ===== *)
(** The routing catalog of [internal/proxy/catalog.go]: the snapshot built
    from the database rows, its queries, and the worker that reloads it when
    it is notified of a change. *)
From S2P Require Import Prelude GoLib Float64 Models.
Local Open Scope Z_scope.

(** * The snapshot *)

(** [RouteCandidate]. *)
Record RouteCandidate := mkCandidate {
  rc_Provider : Provider;
  rc_ModelID : string;
  rc_Weight : Z;
  rc_Priority : Z;
}.

#[export] Instance RouteCandidate_eq_dec : EqDecision RouteCandidate.
Proof. solve_decision. Defined.

(** [routingSnapshot]. *)
Record routingSnapshot := mkSnapshot {
  rs_aliases : gmap string (list RouteCandidate);
  rs_directModels : gmap string (list RouteCandidate);
  rs_endpoints : gmap string (gset string);
  rs_publicModelIDs : list string;
  rs_providerModels : gmap string (gmap string ProviderModel);
  rs_providers : gmap string Provider;
}.

Definition empty_snapshot : routingSnapshot := mkSnapshot ∅ ∅ ∅ [] ∅ ∅.

(** [m[k]] of a Go map of slices, and [m[k] = append(m[k], x)]. *)
Definition slice_at (k : string) (m : gmap string (list RouteCandidate)) : list RouteCandidate :=
  default [] (m !! k).

Definition append_at (k : string) (x : RouteCandidate) (m : gmap string (list RouteCandidate))
    : gmap string (list RouteCandidate) :=
  <[k := slice_at k m ++ [x]]> m.

(** [m[k1][k2]] of a Go map of maps. *)
Definition lookup2 {A} (m : gmap string (gmap string A)) (k1 k2 : string) : option A :=
  match m !! k1 with Some m1 => m1 !! k2 | None => None end.

(** The loops of [buildRoutingSnapshot], one definition per map. *)
Definition build_providers (ps : list Provider) : gmap string Provider :=
  fold_left (fun m p => <[p_ID p := p]> m) ps ∅.

Definition build_endpoints (eps : list ProviderEndpoint) : gmap string (gset string) :=
  fold_left (fun m ep =>
    if negb (ep_IsSupported ep) || negb (ep_IsEnabled ep) then m
    else <[ep_ProviderID ep := {[ep_Path ep]} ∪ default ∅ (m !! ep_ProviderID ep)]> m) eps ∅.

Record ModelMaps := mkModelMaps {
  mm_providerModels : gmap string (gmap string ProviderModel);
  mm_directModels : gmap string (list RouteCandidate);
  mm_seen : gset string;
}.

Definition add_model (providers : gmap string Provider) (acc : ModelMaps) (m : ProviderModel) : ModelMaps :=
  let pms := <[pm_ProviderID m := <[pm_ModelID m := m]> (default ∅ (mm_providerModels acc !! pm_ProviderID m))]>
               (mm_providerModels acc) in
  if negb (pm_IsAvailable m) then mkModelMaps pms (mm_directModels acc) (mm_seen acc)
  else
    let seen := {[pm_ModelID m]} ∪ mm_seen acc in
    match providers !! pm_ProviderID m with
    | None => mkModelMaps pms (mm_directModels acc) seen
    | Some p =>
        if negb (p_IsHealthy p) then mkModelMaps pms (mm_directModels acc) seen
        else mkModelMaps pms
               (append_at (pm_ModelID m) (mkCandidate p (pm_ModelID m) 1 0) (mm_directModels acc)) seen
    end.

Definition build_models (providers : gmap string Provider) (ms : list ProviderModel) : ModelMaps :=
  fold_left (add_model providers) ms (mkModelMaps ∅ ∅ ∅).

Record AliasMaps := mkAliasMaps {
  am_aliases : gmap string (list RouteCandidate);
  am_seen : gset string;
}.

Definition add_alias (providers : gmap string Provider)
    (pms : gmap string (gmap string ProviderModel)) (acc : AliasMaps) (a : ModelAlias) : AliasMaps :=
  if negb (a_IsEnabled a) then acc
  else
    match providers !! a_ProviderID a with
    | None => acc
    | Some p =>
        if negb (p_IsHealthy p) then acc
        else if match lookup2 pms (a_ProviderID a) (a_ModelID a) with
                | Some pm => negb (pm_IsAvailable pm)
                | None => false
                end then acc
        else mkAliasMaps
               (append_at (a_Alias a) (mkCandidate p (a_ModelID a) (a_Weight a) (a_Priority a)) (am_aliases acc))
               ({[a_Alias a]} ∪ am_seen acc)
    end.

Definition build_aliases (providers : gmap string Provider)
    (pms : gmap string (gmap string ProviderModel)) (seen : gset string) (l : list ModelAlias) : AliasMaps :=
  fold_left (add_alias providers pms) l (mkAliasMaps ∅ seen).

(** [buildRoutingSnapshot(data)]. *)
Definition buildRoutingSnapshot (data : RoutingData) : routingSnapshot :=
  let providers := build_providers (rd_Providers data) in
  let endpoints := build_endpoints (rd_Endpoints data) in
  let mm := build_models providers (rd_Models data) in
  let am := build_aliases providers (mm_providerModels mm) (mm_seen mm) (rd_Aliases data) in
  mkSnapshot (am_aliases am) (mm_directModels mm) endpoints
    (sort_strings (elements (am_seen am))) (mm_providerModels mm) providers.

(** * Queries *)

(** [c.AliasCandidates(alias)]. *)
Definition AliasCandidates (s : routingSnapshot) (alias : string) : list RouteCandidate * bool :=
  match rs_aliases s !! alias with
  | None => ([], false)
  | Some [] => ([], false)
  | Some cands => (cands, true)
  end.

(** [c.DirectCandidates(modelID)]. *)
Definition DirectCandidates (s : routingSnapshot) (modelID : string) : list RouteCandidate :=
  slice_at modelID (rs_directModels s).

(** [normalizeEndpointPath(path)]. *)
Definition normalizeEndpointPath (path : string) : string :=
  match path with
  | EmptyString => path
  | String c _ => if negb (Ascii.eqb c slash) then String slash path else path
  end.

(** [c.HasEnabledEndpoint(providerID, path)]. *)
Definition HasEnabledEndpoint (s : routingSnapshot) (providerID path : string) : bool :=
  match rs_endpoints s !! providerID with
  | None => false
  | Some paths => bool_decide (normalizeEndpointPath path ∈ paths)
  end.

(** [c.PublicModelIDs()]. *)
Definition PublicModelIDs (s : routingSnapshot) : list string := rs_publicModelIDs s.

(** [c.ProviderModel(providerID, modelID)]. *)
Definition ProviderModel_ (s : routingSnapshot) (providerID modelID : string) : option ProviderModel :=
  lookup2 (rs_providerModels s) providerID modelID.

(** [c.ProviderModelForModelID(modelID)]. *)
Definition ProviderModelForModelID (s : routingSnapshot) (modelID : string) : option ProviderModel :=
  let cands := slice_at modelID (rs_directModels s) in
  let cands := match cands with [] => slice_at modelID (rs_aliases s) | _ => cands end in
  match cands with
  | [] => None
  | c :: _ => ProviderModel_ s (p_ID (rc_Provider c)) (rc_ModelID c)
  end.

(** [c.ProviderByID(providerID)]. *)
Definition ProviderByID (s : routingSnapshot) (providerID : string) : option Provider :=
  rs_providers s !! providerID.

(** * The reload worker

    Writers change the database and then call [ReloadAsync], which puts a
    token in a channel of capacity one; a worker takes the token and runs the
    four queries of [LoadRoutingData], which no transaction protects, before
    it publishes the snapshot. *)
Inductive WorkerState :=
| WIdle
| WLoading (queries_done : nat) (acc : RoutingData).

Record RoutingCatalog := mkCatalog {
  cat_snap : routingSnapshot;
  cat_reloadCh : bool;
  cat_worker : WorkerState;
}.

Definition no_data : RoutingData := mkRoutingData [] [] [] [].

(** [NewRoutingCatalog(store)] and [NewRoutingCatalogFromData(data)]. *)
Definition NewRoutingCatalog : RoutingCatalog := mkCatalog empty_snapshot false WIdle.
Definition NewRoutingCatalogFromData (data : RoutingData) : RoutingCatalog :=
  mkCatalog (buildRoutingSnapshot data) false WIdle.

(** [c.ReloadAsync()]: a full channel drops the token. *)
Definition ReloadAsync (c : RoutingCatalog) : RoutingCatalog :=
  mkCatalog (cat_snap c) true (cat_worker c).

(** The worker takes the token. *)
Definition take_token (c : RoutingCatalog) : option RoutingCatalog :=
  match cat_worker c, cat_reloadCh c with
  | WIdle, true => Some (mkCatalog (cat_snap c) false (WLoading 0 no_data))
  | _, _ => None
  end.

(** One query of [LoadRoutingData], reading the rows of the moment. *)
Definition load_query (n : nat) (db acc : RoutingData) : RoutingData :=
  match n with
  | 0%nat => mkRoutingData (rd_Providers db) (rd_Models acc) (rd_Aliases acc) (rd_Endpoints acc)
  | 1%nat => mkRoutingData (rd_Providers acc) (rd_Models db) (rd_Aliases acc) (rd_Endpoints acc)
  | 2%nat => mkRoutingData (rd_Providers acc) (rd_Models acc) (rd_Aliases db) (rd_Endpoints acc)
  | _ => mkRoutingData (rd_Providers acc) (rd_Models acc) (rd_Aliases acc) (rd_Endpoints db)
  end.

(** The next step of [Reload]: a query, or, after the fourth, publishing the
    snapshot.  A query that fails leaves the old snapshot in place. *)
Definition reload_step (db : RoutingData) (query_fails : bool) (c : RoutingCatalog) : option RoutingCatalog :=
  match cat_worker c with
  | WIdle => None
  | WLoading n acc =>
      Some (if (n <? 4)%nat then
              if query_fails then mkCatalog (cat_snap c) (cat_reloadCh c) WIdle
              else mkCatalog (cat_snap c) (cat_reloadCh c) (WLoading (S n) (load_query n db acc))
            else mkCatalog (buildRoutingSnapshot acc) (cat_reloadCh c) WIdle)
  end.

(** [Reload] without interference, as [main] runs it at start-up. *)
Definition Reload {E : Type} (loaded : E + RoutingData) (c : RoutingCatalog) : option E * RoutingCatalog :=
  match loaded with
  | inl e => (Some e, c)
  | inr data => (None, mkCatalog (buildRoutingSnapshot data) (cat_reloadCh c) (cat_worker c))
  end.

(** The system of writers, catalog and worker: [sys_owed] counts the writers
    that have changed the database and not yet called [ReloadAsync]. *)
Record CatalogSystem := mkSys {
  sys_db : RoutingData;
  sys_owed : nat;
  sys_cat : RoutingCatalog;
}.

Inductive CatalogEvent :=
| Write (db : RoutingData)
| Notify
| Take
| Step (query_fails : bool).

Definition sys_exec (e : CatalogEvent) (s : CatalogSystem) : option CatalogSystem :=
  match e with
  | Write db => Some (mkSys db (S (sys_owed s)) (sys_cat s))
  | Notify =>
      match sys_owed s with
      | O => None
      | S n => Some (mkSys (sys_db s) n (ReloadAsync (sys_cat s)))
      end
  | Take => mkSys (sys_db s) (sys_owed s) <$> take_token (sys_cat s)
  | Step f => mkSys (sys_db s) (sys_owed s) <$> reload_step (sys_db s) f (sys_cat s)
  end.

Fixpoint sys_run (es : list CatalogEvent) (s : CatalogSystem) : option CatalogSystem :=
  match es with
  | [] => Some s
  | e :: es' => match sys_exec e s with Some s' => sys_run es' s' | None => None end
  end.

(** The first [n] queries read what the database holds. *)
Definition clean (n : nat) (db acc : RoutingData) : Prop :=
  ((0 < n)%nat -> rd_Providers acc = rd_Providers db) /\
  ((1 < n)%nat -> rd_Models acc = rd_Models db) /\
  ((2 < n)%nat -> rd_Aliases acc = rd_Aliases db) /\
  ((3 < n)%nat -> rd_Endpoints acc = rd_Endpoints db).

(** A stale snapshot is about to be replaced. *)
Definition sys_inv (s : CatalogSystem) : Prop :=
  (sys_owed s > 0)%nat \/ cat_reloadCh (sys_cat s) = true \/
  match cat_worker (sys_cat s) with
  | WIdle => cat_snap (sys_cat s) = buildRoutingSnapshot (sys_db s)
  | WLoading n acc => clean n (sys_db s) acc
  end.

(** * What the snapshot promises

    The rows are keyed: provider ids are unique, and so are the pairs of
    provider and model id (the primary key and the unique index of the
    schema). *)
Definition model_key (m : ProviderModel) : string * string := (pm_ProviderID m, pm_ModelID m).

Definition keyed (data : RoutingData) : Prop :=
  NoDup (p_ID <$> rd_Providers data) /\ NoDup (model_key <$> rd_Models data).

(** A provider of the rows that the last health check found healthy. *)
Definition healthy_provider (data : RoutingData) (id : string) (p : Provider) : Prop :=
  p ∈ rd_Providers data /\ p_ID p = id /\ p_IsHealthy p = true.

(** The row of an alias produces a candidate when it is enabled, its provider
    is healthy, and its model, if the provider lists it, is available. *)
Definition alias_target (data : RoutingData) (alias : string) (c : RouteCandidate) : Prop :=
  exists a p, a ∈ rd_Aliases data /\ a_IsEnabled a = true /\ a_Alias a = alias /\
    healthy_provider data (a_ProviderID a) p /\
    (forall m, m ∈ rd_Models data -> model_key m = (a_ProviderID a, a_ModelID a) -> pm_IsAvailable m = true) /\
    c = mkCandidate p (a_ModelID a) (a_Weight a) (a_Priority a).

Definition direct_target (data : RoutingData) (modelID : string) (c : RouteCandidate) : Prop :=
  exists m p, m ∈ rd_Models data /\ pm_IsAvailable m = true /\ pm_ModelID m = modelID /\
    healthy_provider data (pm_ProviderID m) p /\ c = mkCandidate p modelID 1 0.

(** * Lemmas *)

Lemma slice_at_append k k' x m :
  slice_at k (append_at k' x m) = if decide (k = k') then slice_at k m ++ [x] else slice_at k m.
Proof.
  unfold slice_at, append_at. destruct (decide (k = k')) as [->|Hne].
  - by rewrite lookup_insert_eq.
  - by rewrite lookup_insert_ne.
Qed.

Lemma build_providers_spec ps id p :
  NoDup (p_ID <$> ps) -> build_providers ps !! id = Some p <-> p ∈ ps /\ p_ID p = id.
Proof.
  intros Hnd. unfold build_providers. rewrite (fold_insert_spec p_ID (fun p => p)) by done.
  split; [by intros (q & Hq & <- & <-)|]. intros [Hp Hid]. by exists p.
Qed.

(** What one row contributes to the slices of the maps. *)
Definition direct_of (providers : gmap string Provider) (modelID : string) (m : ProviderModel)
    : option RouteCandidate :=
  if pm_IsAvailable m && String.eqb (pm_ModelID m) modelID then
    match providers !! pm_ProviderID m with
    | Some p => if p_IsHealthy p then Some (mkCandidate p (pm_ModelID m) 1 0) else None
    | None => None
    end
  else None.

Lemma build_models_snoc pv ms m :
  build_models pv (ms ++ [m]) = add_model pv (build_models pv ms) m.
Proof. unfold build_models. by rewrite fold_left_app. Qed.

Lemma add_model_pms pv acc m :
  mm_providerModels (add_model pv acc m) =
  <[pm_ProviderID m := <[pm_ModelID m := m]> (default ∅ (mm_providerModels acc !! pm_ProviderID m))]>
    (mm_providerModels acc).
Proof. unfold add_model. by repeat split_match. Qed.

Lemma add_model_seen pv acc m :
  mm_seen (add_model pv acc m) =
  if pm_IsAvailable m then {[pm_ModelID m]} ∪ mm_seen acc else mm_seen acc.
Proof. unfold add_model. by destruct (pm_IsAvailable m); simpl; repeat split_match. Qed.

Lemma add_model_direct pv acc m id :
  slice_at id (mm_directModels (add_model pv acc m)) =
  slice_at id (mm_directModels acc) ++ option_list (direct_of pv id m).
Proof.
  unfold add_model, direct_of. destruct (pm_IsAvailable m); simpl; [|by rewrite app_nil_r].
  destruct (String.eqb_spec (pm_ModelID m) id) as [<-|Hne].
  - repeat (split_match; simplify_eq/=; try by rewrite ?app_nil_r).
    rewrite slice_at_append. by rewrite decide_True by done.
  - rewrite app_nil_r. repeat (split_match; simplify_eq/=; try done).
    rewrite slice_at_append. by rewrite decide_False by done.
Qed.

Lemma build_models_direct pv ms id :
  slice_at id (mm_directModels (build_models pv ms)) = omap (direct_of pv id) ms.
Proof.
  induction ms as [|m ms IH] using rev_ind; [done|].
  by rewrite build_models_snoc, add_model_direct, IH, omap_snoc.
Qed.

Lemma build_models_seen pv ms id :
  id ∈ mm_seen (build_models pv ms) <->
  exists m, m ∈ ms /\ pm_IsAvailable m = true /\ pm_ModelID m = id.
Proof.
  induction ms as [|m ms IH] using rev_ind; [set_solver|].
  rewrite build_models_snoc, add_model_seen, ex_snoc, <- IH.
  destruct (pm_IsAvailable m); [rewrite elem_of_union, elem_of_singleton|]; naive_solver.
Qed.

Lemma build_models_lookup pv ms pid mid m :
  NoDup (model_key <$> ms) ->
  lookup2 (mm_providerModels (build_models pv ms)) pid mid = Some m <->
  m ∈ ms /\ model_key m = (pid, mid).
Proof.
  induction ms as [|m' ms IH] using rev_ind; intros Hnd; [unfold lookup2; simpl; set_solver|].
  rewrite fmap_app in Hnd. apply NoDup_app in Hnd as (Hnd & Hdis & _). specialize (IH Hnd).
  rewrite build_models_snoc. unfold lookup2. rewrite add_model_pms.
  rewrite elem_of_app, list_elem_of_singleton.
  assert (m ∈ ms -> model_key m <> model_key m') as Hk.
  { intros Hm E. apply (Hdis (model_key m)); [by apply list_elem_of_fmap_2|]. rewrite E. set_solver. }
  unfold lookup2 in IH. unfold model_key in *. destruct (decide (pm_ProviderID m' = pid)) as [<-|Hp].
  - rewrite lookup_insert_eq. destruct (decide (pm_ModelID m' = mid)) as [<-|Hm].
    + rewrite lookup_insert_eq. split; [by intros [= ->]; auto|].
      intros [[Hin| ->] Hkey]; [by destruct (Hk Hin)|done].
    + rewrite lookup_insert_ne by done.
      transitivity (m ∈ ms /\ (pm_ProviderID m, pm_ModelID m) = (pm_ProviderID m', mid)).
      * rewrite <- IH. by destruct (mm_providerModels _ !! _); simpl; rewrite ?lookup_empty.
      * split; [tauto|]. intros [[?| ->] ?]; [done|congruence].
  - rewrite lookup_insert_ne, IH by done. split; [tauto|]. intros [[?| ->] ?]; [done|congruence].
Qed.

Definition alias_of (pv : gmap string Provider) (pms : gmap string (gmap string ProviderModel))
    (alias : string) (a : ModelAlias) : option RouteCandidate :=
  if a_IsEnabled a && String.eqb (a_Alias a) alias then
    match pv !! a_ProviderID a with
    | Some p =>
        if p_IsHealthy p &&
           match lookup2 pms (a_ProviderID a) (a_ModelID a) with Some m => pm_IsAvailable m | None => true end
        then Some (mkCandidate p (a_ModelID a) (a_Weight a) (a_Priority a)) else None
    | None => None
    end
  else None.

Lemma add_alias_spec pv pms acc a alias :
  slice_at alias (am_aliases (add_alias pv pms acc a)) =
    slice_at alias (am_aliases acc) ++ option_list (alias_of pv pms alias a) /\
  (alias ∈ am_seen (add_alias pv pms acc a) <->
    alias ∈ am_seen acc \/ alias_of pv pms alias a <> None).
Proof.
  unfold add_alias, alias_of. destruct (a_IsEnabled a); simpl; [|rewrite app_nil_r; naive_solver].
  destruct (pv !! a_ProviderID a) as [p|];
    [|destruct (String.eqb _ _); simpl; rewrite app_nil_r; naive_solver].
  destruct (p_IsHealthy p); simpl;
    [|destruct (String.eqb _ _); simpl; rewrite app_nil_r; naive_solver].
  set (blocked := match lookup2 pms _ _ with Some pm => negb (pm_IsAvailable pm) | None => false end).
  replace (match lookup2 pms (a_ProviderID a) (a_ModelID a) with
           | Some m => pm_IsAvailable m | None => true end) with (negb blocked)
    by (unfold blocked; destruct (lookup2 pms _ _); [by rewrite negb_involutive|done]).
  destruct blocked; simpl; [destruct (String.eqb _ _); simpl; rewrite app_nil_r; naive_solver|].
  rewrite slice_at_append. destruct (String.eqb_spec (a_Alias a) alias) as [<-|Hne].
  - rewrite decide_True by done. set_solver.
  - rewrite decide_False by done. simpl. rewrite app_nil_r. set_solver.
Qed.

Lemma build_aliases_spec pv pms seen l alias :
  slice_at alias (am_aliases (build_aliases pv pms seen l)) = omap (alias_of pv pms alias) l /\
  (alias ∈ am_seen (build_aliases pv pms seen l) <->
    alias ∈ seen \/ slice_at alias (am_aliases (build_aliases pv pms seen l)) <> []).
Proof.
  induction l as [|a l [IH1 IH2]] using rev_ind; [set_solver|].
  unfold build_aliases in *. rewrite fold_left_app. simpl.
  destruct (add_alias_spec pv pms (fold_left (add_alias pv pms) l (mkAliasMaps ∅ seen)) a alias) as [-> ->].
  rewrite omap_snoc, IH1, IH2, IH1. split; [done|].
  destruct (omap (alias_of pv pms alias) l), (alias_of pv pms alias a); simpl; naive_solver.
Qed.

Lemma build_endpoints_spec eps pid path :
  path ∈ default ∅ (build_endpoints eps !! pid) <->
  exists ep, ep ∈ eps /\ ep_ProviderID ep = pid /\ ep_Path ep = path /\
    ep_IsSupported ep = true /\ ep_IsEnabled ep = true.
Proof.
  unfold build_endpoints. induction eps as [|ep eps IH] using rev_ind; [set_solver|].
  rewrite fold_left_app, ex_snoc, <- IH. simpl. set (m := fold_left _ eps ∅).
  destruct (ep_IsSupported ep), (ep_IsEnabled ep); simpl; try (intuition discriminate).
  destruct (decide (ep_ProviderID ep = pid)) as [<-|Hne].
  - rewrite lookup_insert_eq. simpl. rewrite elem_of_union, elem_of_singleton. intuition.
  - rewrite lookup_insert_ne by done. intuition.
Qed.

(** ** The snapshot of keyed rows *)

Section Snapshot.
Context (data : RoutingData) (Hkeyed : keyed data).

Abbreviation pv := (build_providers (rd_Providers data)).
Abbreviation pms := (mm_providerModels (build_models pv (rd_Models data))).

Lemma healthy_provider_spec id p :
  healthy_provider data id p <-> pv !! id = Some p /\ p_IsHealthy p = true.
Proof.
  unfold healthy_provider. rewrite build_providers_spec by apply Hkeyed. tauto.
Qed.

Lemma direct_of_spec modelID m c :
  direct_of pv modelID m = Some c <->
  pm_IsAvailable m = true /\ pm_ModelID m = modelID /\
  exists p, healthy_provider data (pm_ProviderID m) p /\ c = mkCandidate p modelID 1 0.
Proof.
  setoid_rewrite healthy_provider_spec. unfold direct_of.
  destruct (pm_IsAvailable m); simpl; [|naive_solver].
  destruct (String.eqb_spec (pm_ModelID m) modelID) as [<-|Hne]; [|naive_solver].
  destruct (pv !! pm_ProviderID m) as [p|]; [|naive_solver].
  destruct (p_IsHealthy p) eqn:E; naive_solver congruence.
Qed.

Lemma model_available_spec pid mid :
  match lookup2 pms pid mid with Some m => pm_IsAvailable m | None => true end = true <->
  (forall m, m ∈ rd_Models data -> model_key m = (pid, mid) -> pm_IsAvailable m = true).
Proof.
  pose proof (fun m => build_models_lookup pv (rd_Models data) pid mid m (proj2 Hkeyed)) as Hl.
  destruct (lookup2 pms pid mid) as [m|]; split; intros H.
  - intros m' Hm' Hk. assert (Some m = Some m') as [= <-] by by apply Hl. done.
  - apply H; by apply (Hl m).
  - intros m' Hm' Hk. by assert (None = Some m') by by apply Hl.
  - done.
Qed.

Lemma alias_of_spec alias a c :
  alias_of pv pms alias a = Some c <->
  a_IsEnabled a = true /\ a_Alias a = alias /\
  exists p, healthy_provider data (a_ProviderID a) p /\
    (forall m, m ∈ rd_Models data -> model_key m = (a_ProviderID a, a_ModelID a) -> pm_IsAvailable m = true) /\
    c = mkCandidate p (a_ModelID a) (a_Weight a) (a_Priority a).
Proof.
  setoid_rewrite healthy_provider_spec. setoid_rewrite <- model_available_spec. unfold alias_of.
  destruct (a_IsEnabled a); simpl; [|naive_solver].
  destruct (String.eqb_spec (a_Alias a) alias) as [<-|Hne]; [|naive_solver].
  destruct (pv !! a_ProviderID a) as [p|]; [|naive_solver].
  destruct (p_IsHealthy p) eqn:E; simpl; [|naive_solver congruence].
  destruct (match lookup2 pms _ _ with Some m => pm_IsAvailable m | None => true end); naive_solver.
Qed.

Lemma snapshot_direct modelID c :
  c ∈ slice_at modelID (rs_directModels (buildRoutingSnapshot data)) <-> direct_target data modelID c.
Proof.
  unfold buildRoutingSnapshot. simpl. rewrite build_models_direct, list_elem_of_omap.
  setoid_rewrite direct_of_spec. unfold direct_target. split.
  - intros (m & ? & ? & ? & p & ? & ?). exists m, p. auto.
  - intros (m & p & ? & ? & ? & ? & ?). exists m. eauto 6.
Qed.

Lemma snapshot_alias alias c :
  c ∈ slice_at alias (rs_aliases (buildRoutingSnapshot data)) <-> alias_target data alias c.
Proof.
  unfold buildRoutingSnapshot. simpl. rewrite (proj1 (build_aliases_spec _ _ _ _ _)), list_elem_of_omap.
  setoid_rewrite alias_of_spec. unfold alias_target. split.
  - intros (a & ? & ? & ? & p & ? & ? & ?). exists a, p. auto 6.
  - intros (a & p & ? & ? & ? & ? & ? & ?). exists a. eauto 8.
Qed.

Lemma snapshot_public id :
  id ∈ rs_publicModelIDs (buildRoutingSnapshot data) <->
  (exists m, m ∈ rd_Models data /\ pm_IsAvailable m = true /\ pm_ModelID m = id) \/
  exists c, alias_target data id c.
Proof.
  setoid_rewrite <- snapshot_alias. unfold buildRoutingSnapshot. simpl.
  rewrite elem_of_sort_strings, elem_of_elements, (proj2 (build_aliases_spec _ _ _ _ _)), build_models_seen.
  destruct (slice_at _ _); set_solver.
Qed.

End Snapshot.

Lemma snapshot_public_sorted data :
  let ids := rs_publicModelIDs (buildRoutingSnapshot data) in
  NoDup ids /\ StronglySorted (fun x y => string_ltb y x = false) ids.
Proof.
  split; simpl; [|apply sort_strings_sorted]. rewrite sort_strings_perm. apply NoDup_elements.
Qed.

Lemma AliasCandidates_slice s alias :
  AliasCandidates s alias =
  (slice_at alias (rs_aliases s), match slice_at alias (rs_aliases s) with [] => false | _ => true end).
Proof. unfold AliasCandidates, slice_at. by destruct (rs_aliases s !! alias) as [[]|]. Qed.

Lemma HasEnabledEndpoint_spec data pid path :
  HasEnabledEndpoint (buildRoutingSnapshot data) pid path = true <->
  exists ep, ep ∈ rd_Endpoints data /\ ep_ProviderID ep = pid /\
    ep_Path ep = normalizeEndpointPath path /\ ep_IsSupported ep = true /\ ep_IsEnabled ep = true.
Proof.
  rewrite <- build_endpoints_spec. unfold HasEnabledEndpoint, buildRoutingSnapshot. simpl.
  destruct (_ !! pid); simpl; [by rewrite bool_decide_eq_true|]. set_solver.
Qed.

(** Only the endpoint rows of a provider decide, whatever leading slash the
    caller writes. *)
Lemma normalizeEndpointPath_idem path :
  normalizeEndpointPath (normalizeEndpointPath path) = normalizeEndpointPath path.
Proof.
  destruct path as [|c path]; [done|]. unfold normalizeEndpointPath at 2 3.
  destruct (Ascii.eqb_spec c slash) as [->|]; done.
Qed.

(** ** The reload worker *)

Lemma clean_load n db acc : clean n db acc -> clean (S n) db (load_query n db acc).
Proof.
  unfold clean. intros (H1 & H2 & H3 & H4).
  destruct n as [|[|[|n]]]; simpl; repeat split; intros;
    first [done | exfalso; lia | apply H1; lia | apply H2; lia | apply H3; lia].
Qed.

Lemma clean_all n db acc : (4 <= n)%nat -> clean n db acc -> acc = db.
Proof. intros Hn (H1 & H2 & H3 & H4). destruct acc, db. simpl in *.
  by rewrite H1, H2, H3, H4 by lia.
Qed.

Definition not_failing (e : CatalogEvent) : Prop := e <> Step true.

Lemma sys_inv_exec e s s' :
  not_failing e -> sys_exec e s = Some s' -> sys_inv s -> sys_inv s'.
Proof.
  unfold sys_inv. destruct e as [db| | |f]; simpl; intros Hf He Hi.
  - simplify_eq/=. left. lia.
  - destruct (sys_owed s); simplify_eq/=. by auto.
  - unfold take_token in He. destruct (cat_worker (sys_cat s)), (cat_reloadCh (sys_cat s)); simplify_eq/=.
    right; right. repeat split; intros; exfalso; lia.
  - unfold reload_step in He. destruct f; [by destruct Hf|].
    destruct (cat_worker (sys_cat s)) as [|n acc]; simplify_eq/=.
    destruct (Nat.ltb_spec n 4); simplify_eq/=.
    + destruct Hi as [?|[?|Hc]]; auto using clean_load.
    + destruct Hi as [?|[?|Hc]]; auto. right; right. by rewrite (clean_all n (sys_db s) acc).
Qed.

Lemma sys_inv_run es s s' :
  Forall not_failing es -> sys_run es s = Some s' -> sys_inv s -> sys_inv s'.
Proof.
  intros Hes. revert s. induction Hes as [|e es He _ IH]; simpl; intros s Hr Hi; [by simplify_eq|].
  destruct (sys_exec e s) as [s1|] eqn:E; [|done]. eapply IH; [done|]. by eapply sys_inv_exec.
Qed.

(** The steps the worker takes when nobody interferes. *)
Fixpoint drain (fuel : nat) (db : RoutingData) (c : RoutingCatalog) : RoutingCatalog :=
  match fuel with
  | O => c
  | S fuel' =>
      match reload_step db false c with
      | Some c' => drain fuel' db c'
      | None => match take_token c with Some c' => drain fuel' db c' | None => c end
      end
  end.

Lemma drain_run fuel db owed c :
  exists es, Forall not_failing es /\ sys_run es (mkSys db owed c) = Some (mkSys db owed (drain fuel db c)).
Proof.
  revert c. induction fuel as [|fuel IH]; intros c; [by exists []|]. simpl.
  destruct (reload_step db false c) as [c'|] eqn:E.
  - destruct (IH c') as (es & Hes & Hr). exists (Step false :: es). simpl. rewrite E. simpl.
    split; [by constructor|done].
  - destruct (take_token c) as [c'|] eqn:E'; [|by exists []].
    destruct (IH c') as (es & Hes & Hr). exists (Take :: es). simpl. rewrite E'. simpl.
    split; [by constructor|done].
Qed.

Lemma drain_idle db c :
  (match cat_worker c with WLoading n _ => (n <= 4)%nat | WIdle => True end) ->
  cat_worker (drain 11 db c) = WIdle /\ cat_reloadCh (drain 11 db c) = false.
Proof.
  destruct c as [sn ch [|n acc]]; simpl; intros Hn.
  - destruct ch; done.
  - destruct n as [|[|[|[|[|n]]]]]; [..|lia]; destruct ch; done.
Qed.

Lemma worker_bound es s s' :
  sys_run es s = Some s' ->
  (match cat_worker (sys_cat s) with WLoading n _ => (n <= 4)%nat | WIdle => True end) ->
  match cat_worker (sys_cat s') with WLoading n _ => (n <= 4)%nat | WIdle => True end.
Proof.
  revert s. induction es as [|e es IH]; simpl; intros s Hr Hb; [by simplify_eq|].
  destruct (sys_exec e s) as [s1|] eqn:E; [|done]. apply (IH s1 Hr). clear IH Hr.
  destruct e as [db| | |f]; simpl in E; unfold take_token, reload_step in E; simpl in *.
  - by simplify_eq.
  - by destruct (sys_owed s); simplify_eq.
  - by destruct (cat_worker (sys_cat s)), (cat_reloadCh (sys_cat s)); simplify_eq/=; try lia.
  - destruct (cat_worker (sys_cat s)) as [|n acc]; simplify_eq/=.
    destruct (Nat.ltb_spec n 4); [|done]. destruct f; simpl; [done|lia].
Qed.

(** * Properties *)

(** C13: The snapshot resolves names exactly as the rows say: on keyed rows, a
    candidate is offered for an alias iff an enabled alias row targets a
    healthy provider whose model is not marked unavailable; it is offered for
    a model id iff a healthy provider lists that model as available; and an
    id is published iff it is an available model or a resolvable alias, each
    once and in byte order. *)
Theorem catalog_snapshot_spec (data : RoutingData) :
  keyed data ->
  let s := buildRoutingSnapshot data in
  (forall alias c, c ∈ (AliasCandidates s alias).1 <-> alias_target data alias c) /\
  (forall alias, (AliasCandidates s alias).2 = true <-> exists c, alias_target data alias c) /\
  (forall id c, c ∈ DirectCandidates s id <-> direct_target data id c) /\
  (forall id, id ∈ PublicModelIDs s <->
    (exists m, m ∈ rd_Models data /\ pm_IsAvailable m = true /\ pm_ModelID m = id) \/
    exists c, alias_target data id c) /\
  NoDup (PublicModelIDs s) /\
  StronglySorted (fun x y => string_ltb y x = false) (PublicModelIDs s).
Proof.
  intros Hk s. split_and!.
  - intros alias c. rewrite AliasCandidates_slice. by apply snapshot_alias.
  - intros alias. rewrite AliasCandidates_slice. simpl.
    setoid_rewrite <- (snapshot_alias data Hk). unfold s. destruct (slice_at _ _) as [|c l].
    + split; [done|]. intros [c Hc]. by apply elem_of_nil in Hc.
    + split; [|done]. intros _. exists c. constructor.
  - intros id c. by apply snapshot_direct.
  - intros id. by apply snapshot_public.
  - apply snapshot_public_sorted.
  - apply snapshot_public_sorted.
Qed.

(** Rows of a gateway with one healthy provider, one model and one alias. *)
Definition sample_provider : Provider :=
  mkProvider "p1" "one" "http://one/v1/" "" true None 0 0 true f64_half 60 30.
Definition sample_data : RoutingData :=
  mkRoutingData [sample_provider] [mkModel "m1" "p1" "gpt" 0 true None None None None None]
    [mkAlias "a1" "fast" "p1" "gpt" 3 1 true 0 0]
    [mkEndpoint "e1" "p1" "/v1/chat/completions" "POST" true true 0].

Lemma sample_keyed : keyed sample_data.
Proof. split; simpl; apply NoDup_singleton. Qed.

Lemma catalog_snapshot_spec_witness :
  mkCandidate sample_provider "gpt" 3 1 ∈ (AliasCandidates (buildRoutingSnapshot sample_data) "fast").1 /\
  alias_target sample_data "fast" (mkCandidate sample_provider "gpt" 3 1).
Proof.
  assert (mkCandidate sample_provider "gpt" 3 1 ∈ (AliasCandidates (buildRoutingSnapshot sample_data) "fast").1)
    as H by (vm_compute; constructor).
  split; [exact H|]. apply (proj1 (catalog_snapshot_spec sample_data sample_keyed)). exact H.
Defined.

(** No notified change is lost: in any interleaving of database writes,
    notifications and the worker's steps in which no query fails, a quiet
    catalog (every writer has notified, no token waits, the worker is idle)
    holds the snapshot of the current rows, although the four queries of a
    load run outside a transaction and tokens are dropped when one waits. *)
Theorem catalog_quiet_is_fresh (data : RoutingData) (es : list CatalogEvent) (s : CatalogSystem) :
  Forall not_failing es ->
  sys_run es (mkSys data 0 (NewRoutingCatalogFromData data)) = Some s ->
  sys_owed s = 0%nat -> cat_reloadCh (sys_cat s) = false -> cat_worker (sys_cat s) = WIdle ->
  cat_snap (sys_cat s) = buildRoutingSnapshot (sys_db s).
Proof.
  intros Hes Hr Ho Hc Hw.
  assert (sys_inv s) as [Hi|[Hi|Hi]]; [eapply sys_inv_run; [done|done|]|lia|congruence|].
  - right; right. done.
  - by rewrite Hw in Hi.
Qed.

Lemma catalog_quiet_is_fresh_witness :
  cat_snap (sys_cat (mkSys sample_data 0 (mkCatalog (buildRoutingSnapshot sample_data) false WIdle))) =
  buildRoutingSnapshot sample_data.
Proof.
  apply (catalog_quiet_is_fresh no_data
    [Write no_data; Notify; Take; Step false; Write sample_data; Step false; Notify; Step false; Step false;
     Step false; Take; Step false; Step false; Step false; Step false; Step false]
    (mkSys sample_data 0 (mkCatalog (buildRoutingSnapshot sample_data) false WIdle)));
    [by repeat constructor|by vm_compute|done..].
Defined.

(** The reload worker catches up: from every state a run reaches with all
    writers done, at most eleven of its own steps lead to an idle catalog
    that holds the snapshot of the current rows. *)
Theorem catalog_worker_catches_up (data : RoutingData) (es : list CatalogEvent) (s : CatalogSystem) :
  Forall not_failing es ->
  sys_run es (mkSys data 0 (NewRoutingCatalogFromData data)) = Some s ->
  sys_owed s = 0%nat ->
  let c := drain 11 (sys_db s) (sys_cat s) in
  cat_worker c = WIdle /\ cat_reloadCh c = false /\ cat_snap c = buildRoutingSnapshot (sys_db s).
Proof.
  intros Hes Hr Ho c.
  destruct (drain_idle (sys_db s) (sys_cat s)) as [Hw Hc].
  { eapply worker_bound; [exact Hr|done]. }
  split_and!; [done|done|].
  destruct (drain_run 11 (sys_db s) (sys_owed s) (sys_cat s)) as (es' & Hes' & Hr').
  assert (sys_inv s) as Hi by (eapply sys_inv_run; [exact Hes|exact Hr|by right; right]).
  pose proof (sys_inv_run es' _ _ Hes' Hr') as Hi'. fold c in Hw, Hc, Hi'.
  destruct Hi' as [Hi'|[Hi'|Hi']]; simpl in *; [by destruct s|lia|congruence|by rewrite Hw in Hi'].
Qed.

Lemma catalog_worker_catches_up_witness :
  let s := mkSys sample_data 0 (mkCatalog (buildRoutingSnapshot no_data) true
             (WLoading 2 (mkRoutingData [] [] [] []))) in
  cat_snap (drain 11 (sys_db s) (sys_cat s)) = buildRoutingSnapshot sample_data.
Proof.
  apply (catalog_worker_catches_up no_data
    [Write no_data; Notify; Take; Step false; Step false; Write sample_data; Notify]
    (mkSys sample_data 0 (mkCatalog (buildRoutingSnapshot no_data) true
      (WLoading 2 (mkRoutingData [] [] [] []))))); [by repeat constructor|by vm_compute|done].
Defined.
