(* ===== verification/Router.v ===== *)
(** The router of [internal/proxy/router.go]: candidates of a model, the
    filters by circuit breaker and by endpoint, weighted selection within the
    top priority, and the outcome reports that feed the breakers.

    A router is its map of breakers; the readings of the clock are numbered,
    and so are the catalog snapshots its lookups see, since each lookup loads
    the snapshot afresh.  Calls on behalf of one request run without another
    request's calls in between; every breaker method is atomic in itself, and
    the runs of [Circuit] cover the interleavings one breaker can see. *)
From S2P Require Import Prelude GoLib Float64 Models Circuit Catalog.
Local Open Scope Z_scope.
Local Open Scope go_scope.

(** The outside of the router: the clock, the snapshots, [rand.Intn]. *)
Class RouterEnv := {
  clock : nat -> Z;
  snap_at : nat -> routingSnapshot;
  intn : Z -> Z;
}.

(** [rand.Intn(n)] lies in [0, n). *)
Class RandOk (env : RouterEnv) : Prop := {
  intn_range : forall n, 0 < n -> 0 <= intn n < n;
}.

Record SmartRouter := mkRouter {
  sr_breakers : gmap string CircuitBreaker;
  sr_ticks : nat;
}.

(** [NewSmartRouter(catalog)]. *)
Definition NewSmartRouter : SmartRouter := mkRouter ∅ 0.

Definition set_breaker (id : string) (cb : CircuitBreaker) (r : SmartRouter) : SmartRouter :=
  mkRouter (<[id := cb]> (sr_breakers r)) (sr_ticks r).

(** [ErrNoAvailableProvider] is the only error of the router. *)
Inductive RouteError := ErrNoAvailableProvider.

(** [candidate] and [RouteResult]. *)
Record candidate := mkCand {
  c_provider : Provider;
  c_modelID : string;
  c_weight : Z;
  c_priority : Z;
}.

Record RouteResult := mkRouteResult {
  rr_Provider : Provider;
  rr_ModelID : string;
  rr_TargetURL : string;
  rr_RequestedViaAlias : bool;
}.

#[export] Instance candidate_eq_dec : EqDecision candidate.
Proof. solve_decision. Defined.

Section Router.
Context `{env : RouterEnv} `{sorting : SortSlice}.

(** A reading of [time.Now]. *)
Definition tick : ST SmartRouter Z :=
  fun r => (clock (sr_ticks r), mkRouter (sr_breakers r) (S (sr_ticks r))).

(** [r.getBreaker(providerID)]. *)
Definition getBreaker (providerID : string) : ST SmartRouter CircuitBreaker :=
  let! found := gets (fun r => sr_breakers r !! providerID) in
  match found with
  | Some cb => ret cb
  | None =>
      let! now := tick in
      let cb := NewCircuitBreaker now in
      modify (set_breaker providerID cb) ;;!
      ret cb
  end.

(** [cb.Configure(...)] with the settings of a provider. *)
Definition configure_from (p : Provider) : CircuitBreaker -> CircuitBreaker :=
  Configure (p_CircuitBreakerErrorThreshold p)
    (dur_mul (p_CircuitBreakerWindowSeconds p) Second)
    (dur_mul (p_CircuitBreakerCooldownSeconds p) Second).

(** [r.syncBreakerConfig(providerID, p)]; [s] is the snapshot a lookup of a
    nil [p] sees. *)
Definition syncBreakerConfig (s : routingSnapshot) (providerID : string) (p : option Provider)
    : ST SmartRouter CircuitBreaker :=
  let! cb := getBreaker providerID in
  let p := match p with None => ProviderByID s providerID | Some _ => p end in
  match p with
  | None => ret cb
  | Some p =>
      let cb := configure_from p cb in
      modify (set_breaker providerID cb) ;;!
      ret cb
  end.

(** [r.circuitBreakerEnabled(providerID, p)]. *)
Definition circuitBreakerEnabled (s : routingSnapshot) (providerID : string) (p : option Provider) : bool :=
  match p with
  | Some p => p_CircuitBreakerEnabled p
  | None =>
      match ProviderByID s providerID with
      | Some cached => p_CircuitBreakerEnabled cached
      | None => true
      end
  end.

Definition to_candidate (c : RouteCandidate) : candidate :=
  mkCand (rc_Provider c) (rc_ModelID c) (rc_Weight c) (rc_Priority c).

(** [r.resolveCandidates(modelID)]; its error result is always nil. *)
Definition resolveCandidates (modelID : string) : list candidate * bool :=
  match AliasCandidates (snap_at 0) modelID with
  | (aliasCands, true) => (map to_candidate aliasCands, true)
  | (_, false) => (map to_candidate (DirectCandidates (snap_at 1) modelID), false)
  end.

(** [cb.Allow()] on the breaker of a provider; the second reading of the
    clock is taken only when the breaker turns half-open. *)
Definition allow_breaker (providerID : string) (cb : CircuitBreaker) : ST SmartRouter bool :=
  match cb_state cb with
  | StateOpen =>
      let! since := tick in
      let! now := gets (fun r => clock (sr_ticks r)) in
      let '(ok, cb') := Allow since now cb in
      (if ok then tick else ret now) ;;!
      modify (set_breaker providerID cb') ;;!
      ret ok
  | _ => ret (Allow 0 0 cb).1
  end.

(** One iteration of [r.filterByCircuitBreaker]. *)
Definition breaker_admits (c : candidate) : ST SmartRouter bool :=
  let p := c_provider c in
  if negb (circuitBreakerEnabled (snap_at 0) (p_ID p) (Some p)) then ret true
  else
    let! cb := syncBreakerConfig (snap_at 0) (p_ID p) (Some p) in
    allow_breaker (p_ID p) cb.

(** [r.filterByCircuitBreaker(candidates)]. *)
Fixpoint filterByCircuitBreaker (candidates : list candidate) : ST SmartRouter (list candidate) :=
  match candidates with
  | [] => ret []
  | c :: cs =>
      let! ok := breaker_admits c in
      let! out := filterByCircuitBreaker cs in
      ret (if ok then c :: out else out)
  end.

(** [r.filterByEndpoint(candidates, endpointPath)]; the lookup of the [k]-th
    candidate sees the snapshot [k]. *)
Fixpoint filterByEndpoint (k : nat) (candidates : list candidate) (endpointPath : string) : list candidate :=
  match candidates with
  | [] => []
  | c :: cs =>
      let out := filterByEndpoint (S k) cs endpointPath in
      if HasEnabledEndpoint (snap_at k) (p_ID (c_provider c)) endpointPath then c :: out else out
  end.

(** The loop that adds up the weights of a pool in Go's [int]. *)
Definition total_weight (pool : list candidate) : Z :=
  fold_left (fun acc c => wrap64 (acc + c_weight c)) pool 0.

(** The loop that walks the cumulative weights. *)
Fixpoint walk (pick cumulative : Z) (last : candidate) (pool : list candidate) : candidate :=
  match pool with
  | [] => last
  | c :: pool' =>
      let cumulative := wrap64 (cumulative + c_weight c) in
      if pick <? cumulative then c else walk pick cumulative c pool'
  end.

(** The candidates of positive weight among those of the top priority. *)
Definition pool_of (topPriority : Z) (candidates : list candidate) : list candidate :=
  keep (fun c => 0 <? c_weight c) (keep (fun c => c_priority c =? topPriority) candidates).

(** [selectWeightedPriority(candidates)]; [rand_intn] is [rand.Intn]. *)
Definition selectWeightedPriority (rand_intn : Z -> Z) (candidates : list candidate) : Outcome RouteError candidate :=
  let candidates := sort_slice (fun a b => c_priority b <? c_priority a) candidates in
  match candidates with
  | [] => Panic "index out of range"
  | c0 :: _ =>
      let pool := pool_of (c_priority c0) candidates in
      let totalWeight := total_weight pool in
      match pool with
      | [] => Err ErrNoAvailableProvider
      | c1 :: _ =>
          if totalWeight =? 0 then Err ErrNoAvailableProvider
          else if totalWeight <=? 0 then Panic "invalid argument to Intn"
          else Ok (walk (rand_intn totalWeight) 0 c1 pool)
      end
  end.

(** [strings.TrimRight(base, "/") + "/" + strings.TrimLeft(path, "/")]. *)
Definition target_url (base path : string) : string :=
  trim_right slash base +:+ "/" +:+ trim_left slash path.

(** [r.Route(ctx, modelID, endpointPath)]. *)
Definition Route (modelID endpointPath : string) : ST SmartRouter (Outcome RouteError RouteResult) :=
  let '(candidates, requestedViaAlias) := resolveCandidates modelID in
  let! candidates := filterByCircuitBreaker candidates in
  let candidates := filterByEndpoint 2 candidates endpointPath in
  match candidates with
  | [] => ret (Err ErrNoAvailableProvider)
  | _ =>
      match selectWeightedPriority intn candidates with
      | Err e => ret (Err e)
      | Panic msg => ret (Panic msg)
      | Ok selected =>
          ret (Ok (mkRouteResult (c_provider selected) (c_modelID selected)
                     (target_url (p_BaseURL (c_provider selected)) endpointPath) requestedViaAlias))
      end
  end.

(** [r.ReportSuccess(providerID)] and [r.ReportFailure(providerID)]; [s1] and
    [s2] are the snapshots their two lookups see. *)
Definition ReportSuccess (s1 s2 : routingSnapshot) (providerID : string) : ST SmartRouter unit :=
  if negb (circuitBreakerEnabled s1 providerID None) then ret tt
  else
    let! cb := syncBreakerConfig s2 providerID None in
    let! now := tick in
    modify (set_breaker providerID (RecordSuccess now cb)).

Definition ReportFailure (s1 s2 : routingSnapshot) (providerID : string) : ST SmartRouter unit :=
  if negb (circuitBreakerEnabled s1 providerID None) then ret tt
  else
    let! cb := syncBreakerConfig s2 providerID None in
    let! now := tick in
    modify (set_breaker providerID (RecordFailure now cb)).

End Router.

(** * Lemmas *)

(** ** Weighted selection *)

Definition sum_weights (l : list candidate) : Z := foldr (fun c acc => c_weight c + acc) 0 l.

Definition positive (l : list candidate) : Prop := Forall (fun c => 0 < c_weight c) l.

Lemma sum_weights_app l1 l2 : sum_weights (l1 ++ l2) = sum_weights l1 + sum_weights l2.
Proof. induction l1 as [|c l1 IH]; simpl; lia. Qed.

Lemma sum_weights_perm l1 l2 : Permutation l1 l2 -> sum_weights l1 = sum_weights l2.
Proof. induction 1; simpl; lia. Qed.

Lemma sum_weights_nonneg l : positive l -> 0 <= sum_weights l.
Proof. induction 1; simpl; lia. Qed.

Lemma total_weight_exact_from pool acc :
  positive pool -> 0 <= acc -> acc + sum_weights pool <= max_int64 ->
  fold_left (fun acc c => wrap64 (acc + c_weight c)) pool acc = acc + sum_weights pool.
Proof.
  intros Hp. revert acc. induction Hp as [|c pool Hc Hp IH]; simpl; intros acc Ha Hs; [lia|].
  pose proof (sum_weights_nonneg pool Hp).
  rewrite wrap64_id by (unfold in_int64, min_int64; lia). rewrite IH; lia.
Qed.

Lemma total_weight_exact pool :
  positive pool -> sum_weights pool <= max_int64 -> total_weight pool = sum_weights pool.
Proof. intros. unfold total_weight. rewrite total_weight_exact_from; [done|done|lia|done]. Qed.

(** Each candidate owns an interval of picks as long as its weight. *)
Lemma walk_count c pool base last :
  positive pool -> 0 <= base -> base + sum_weights pool <= max_int64 ->
  count (fun n => bool_decide (walk n base last pool = c)) (seqZ base (sum_weights pool)) =
  sum_weights (keep (fun d => bool_decide (d = c)) pool).
Proof.
  intros Hp. revert base last. induction Hp as [|d pool Hd Hp IH]; intros base last Hb Hs; [done|].
  pose proof (sum_weights_nonneg pool Hp) as Hn. cbn [sum_weights foldr] in *.
  fold (sum_weights pool) in *. rewrite seqZ_app by lia. unfold count in *.
  rewrite keep_app, length_app.
  assert (wrap64 (base + c_weight d) = base + c_weight d) as Hw
    by (apply wrap64_id; unfold in_int64, min_int64; lia).
  rewrite (keep_ext _ (fun _ => bool_decide (d = c)) (seqZ base _)).
  2:{ intros n Hin%elem_of_seqZ. cbn [walk]. by rewrite Hw, (proj2 (Z.ltb_lt _ _)) by lia. }
  rewrite (keep_ext _ (fun n => bool_decide (walk n (base + c_weight d) d pool = c)) (seqZ (base + _) _)).
  2:{ intros n Hin%elem_of_seqZ. cbn [walk]. by rewrite Hw, (proj2 (Z.ltb_ge _ _)) by lia. }
  specialize (IH (base + c_weight d) d ltac:(lia) ltac:(lia)).
  unfold keep in IH |- * at 3. cbn [List.filter].
  destruct (bool_decide (d = c)) eqn:E.
  - rewrite (keep_all (fun _ => true)) by (by apply Forall_true). rewrite length_seqZ.
    cbn [sum_weights foldr]. fold (sum_weights (List.filter (fun d => bool_decide (d = c)) pool)).
    unfold keep in *. lia.
  - rewrite (keep_none (fun _ => false)) by (by apply Forall_true). simpl. exact IH.
Qed.

Lemma walk_in pick cum last pool : pool <> [] -> pick < cum + sum_weights pool -> 0 <= cum ->
  positive pool -> cum + sum_weights pool <= max_int64 -> walk pick cum last pool ∈ pool.
Proof.
  intros Hne Hlt Hc Hp Hs. revert cum last Hne Hlt Hc Hs.
  induction Hp as [|c pool Hw Hp IH]; intros cum last Hne Hlt Hc Hs; [done|].
  pose proof (sum_weights_nonneg pool Hp). cbn [walk sum_weights foldr] in *. fold (sum_weights pool) in *.
  rewrite wrap64_id by (unfold in_int64, min_int64; lia).
  destruct (pick <? cum + c_weight c) eqn:E; [constructor|]. bool_to_prop.
  destruct pool as [|c' pool]; [simpl in *; lia|]. constructor. apply IH; [done|lia..].
Qed.

#[export] Instance priority_StrictWeak : StrictWeak (fun a b => c_priority b <? c_priority a).
Proof. split; intros; blia || (rewrite ?Z.ltb_lt, ?Z.ltb_ge in *; lia). Qed.

Lemma pool_positive top l : positive (pool_of top l).
Proof. apply Forall_forall. intros c [_ Hc]%keep_spec. blia. Qed.

Lemma pool_spec top l c :
  c ∈ pool_of top l <-> c ∈ l /\ c_priority c = top /\ 0 < c_weight c.
Proof.
  unfold pool_of. rewrite !keep_spec, Z.ltb_lt, Z.eqb_eq. tauto.
Qed.

Lemma pool_perm top l1 l2 : Permutation l1 l2 -> Permutation (pool_of top l1) (pool_of top l2).
Proof. intros H. unfold pool_of. by apply keep_perm, keep_perm. Qed.

(** The top priority of a list of candidates. *)
Definition is_top (top : Z) (l : list candidate) : Prop :=
  Forall (fun c => c_priority c <= top) l /\ exists c, c ∈ l /\ c_priority c = top.

Section Selection.
Context `{sorting : SortSlice}.

(** [sort.Slice] puts a candidate of the top priority first. *)
Lemma sorted_head l :
  l <> [] -> exists c0 l', sort_slice (fun a b => c_priority b <? c_priority a) l = c0 :: l' /\
    is_top (c_priority c0) l /\ Permutation (c0 :: l') l.
Proof.
  intros Hne. pose proof (sort_slice_perm (fun a b => c_priority b <? c_priority a) l) as Hp.
  pose proof (sort_slice_sorted (fun a b => c_priority b <? c_priority a) l _) as Hs.
  destruct (sort_slice _ l) as [|c0 l'].
  { by apply Permutation_nil_l in Hp. }
  exists c0, l'. split_and!; [done| |done]. apply StronglySorted_inv in Hs as [_ Hs]. split.
  - rewrite <- Hp. constructor; [lia|]. eapply Forall_impl; [exact Hs|]. simpl. intros c Hc. blia.
  - exists c0. split; [|done]. rewrite <- Hp. constructor.
Qed.

(** What the selection returns when the weights of the top priority do not
    overflow: the pool it walks does not depend on the random number. *)
Lemma select_spec l top :
  l <> [] -> is_top top l -> sum_weights (pool_of top l) <= max_int64 ->
  exists pool c1, Permutation pool (pool_of top l) /\
    forall rand, selectWeightedPriority rand l =
      if decide (pool = []) then Err ErrNoAvailableProvider
      else Ok (walk (rand (sum_weights pool)) 0 c1 pool).
Proof.
  intros Hne [Htop (ct & Hct & Hcp)] Hs. destruct (sorted_head l Hne) as (c0 & l' & E & [Ht0 (c & Hc & Hc0)] & Hp).
  assert (c_priority c0 = top) as Heq.
  { rewrite Forall_forall in Htop, Ht0. pose proof (Htop c Hc). pose proof (Ht0 ct Hct). lia. }
  pose proof (pool_perm top _ _ Hp) as Hpp. pose proof (sum_weights_perm _ _ Hpp) as Hsum.
  exists (pool_of top (c0 :: l')), (default c0 (head (pool_of top (c0 :: l')))).
  split; [done|]. intros rand. unfold selectWeightedPriority. rewrite E, Heq.
  pose proof (pool_positive top (c0 :: l')) as Hpos.
  rewrite total_weight_exact by (done || lia).
  destruct (pool_of top (c0 :: l')) as [|c1 pool]; [done|].
  rewrite decide_False by done. inversion Hpos as [|? ? Hc1 Hpos']; subst.
  pose proof (sum_weights_nonneg pool Hpos'). cbn [sum_weights foldr] in *. fold (sum_weights pool) in *.
  rewrite (proj2 (Z.eqb_neq _ _)), (proj2 (Z.leb_gt _ _)) by lia. done.
Qed.

(** ** Overflow *)

(** Two weights whose sum leaves the 64-bit range wrap to a negative total. *)
Lemma select_overflow rand a b :
  c_priority a = c_priority b -> 0 < c_weight a <= max_int64 -> 0 < c_weight b <= max_int64 ->
  max_int64 < c_weight a + c_weight b ->
  selectWeightedPriority rand [a; b] = Panic "invalid argument to Intn".
Proof.
  intros Hp Ha Hb Hs. destruct (sorted_head [a; b] ltac:(done)) as (c0 & l' & E & _ & Hperm).
  assert (c0 :: l' = [a; b] \/ c0 :: l' = [b; a]) as Hl.
  { apply Permutation_sym, Permutation_length_2_inv in Hperm. naive_solver. }
  assert (forall x y, c_priority x = c_priority y -> 0 < c_weight x <= max_int64 ->
    0 < c_weight y <= max_int64 -> pool_of (c_priority x) [x; y] = [x; y]) as Hpool.
  { intros x y Hxy Hx Hy. unfold pool_of.
    rewrite (keep_all (fun c => c_priority c =? c_priority x)), keep_all; [done|..];
      rewrite !Forall_cons, Forall_nil, ?Z.ltb_lt, ?Z.eqb_eq; lia. }
  assert (forall x y, 0 < c_weight x <= max_int64 -> 0 < c_weight y <= max_int64 ->
    max_int64 < c_weight x + c_weight y -> total_weight [x; y] < 0) as Htot.
  { intros x y Hx Hy Hxy. unfold total_weight. cbn [fold_left]. rewrite Z.add_0_l.
    rewrite (wrap64_id (c_weight x)) by (unfold in_int64, min_int64; lia).
    rewrite wrap64_over; unfold max_int64 in *; lia. }
  assert (forall x y, total_weight [x; y] < 0 -> forall A (u v w : A),
    (if total_weight [x; y] =? 0 then u else if total_weight [x; y] <=? 0 then v else w) = v) as Hif.
  { intros x y Hneg A u v w. by rewrite (proj2 (Z.eqb_neq _ 0)), (proj2 (Z.leb_le _ _)) by lia. }
  destruct Hl as [[= -> ->]|[= -> ->]]; unfold selectWeightedPriority; rewrite E; cbv beta iota zeta;
    rewrite Hpool by (done || lia); apply Hif, Htot; lia.
Qed.

End Selection.

(** ** Breakers *)

Section Breakers.
Context `{env : RouterEnv}.

(** The breaker a request meets: the one of the map, or a fresh one. *)
Definition breaker_of (id : string) (r : SmartRouter) : CircuitBreaker :=
  default (NewCircuitBreaker (clock (sr_ticks r))) (sr_breakers r !! id).

(** Nothing but the breaker of [id] differs. *)
Definition same_but (id : string) (r r' : SmartRouter) : Prop :=
  forall id', id' <> id -> sr_breakers r' !! id' = sr_breakers r !! id'.

Lemma same_but_refl id r : same_but id r r.
Proof. by intros id' _. Qed.

Lemma same_but_trans id r1 r2 r3 : same_but id r1 r2 -> same_but id r2 r3 -> same_but id r1 r3.
Proof. intros H1 H2 id' Hne. by rewrite H2, H1. Qed.

Lemma same_but_set id cb r : same_but id r (set_breaker id cb r).
Proof. intros id' Hne. simpl. by rewrite lookup_insert_ne. Qed.

Hint Resolve same_but_refl same_but_set : go_state.

Lemma getBreaker_spec id r :
  let '(cb, r') := getBreaker id r in
  cb = breaker_of id r /\ sr_breakers r' !! id = Some cb /\ same_but id r r'.
Proof.
  unfold getBreaker, breaker_of, bind, gets, tick, modify, ret.
  destruct (sr_breakers r !! id) as [cb|] eqn:E; simpl; [by auto with go_state|].
  rewrite lookup_insert_eq. split_and!; [done|done|]. intros id' Hne. simpl.
  by rewrite lookup_insert_ne.
Qed.

Lemma sync_spec s id p r :
  let '(cb, r') := syncBreakerConfig s id (Some p) r in
  cb = configure_from p (breaker_of id r) /\ sr_breakers r' !! id = Some cb /\ same_but id r r'.
Proof.
  unfold syncBreakerConfig, bind. pose proof (getBreaker_spec id r) as H.
  destruct (getBreaker id r) as [cb r1]. destruct H as (-> & H1 & H2). unfold modify, ret.
  split_and!; [done| |].
  - simpl. by rewrite lookup_insert_eq.
  - eapply same_but_trans; [exact H2|]. auto with go_state.
Qed.

(** The settings a reported outcome is recorded under: those of the provider
    the snapshot holds, or the breaker's own for an unknown provider. *)
Definition reported_breaker (s : routingSnapshot) (id : string) (r : SmartRouter) : CircuitBreaker :=
  match ProviderByID s id with
  | Some p => configure_from p (breaker_of id r)
  | None => breaker_of id r
  end.

Lemma sync_none_spec s id r :
  let '(cb, r') := syncBreakerConfig s id None r in
  cb = reported_breaker s id r /\ sr_breakers r' !! id = Some cb /\ same_but id r r'.
Proof.
  unfold reported_breaker. pose proof (sync_spec s id) as Hs. unfold syncBreakerConfig, bind in *.
  pose proof (getBreaker_spec id r) as H. destruct (ProviderByID s id) as [p|].
  - apply (Hs p).
  - destruct (getBreaker id r) as [cb r1]. by destruct H as (-> & H1 & H2).
Qed.

Lemma configure_state p cb : cb_state (configure_from p cb) = cb_state cb.
Proof. done. Qed.

Definition admitting (id : string) (r : SmartRouter) : Prop :=
  exists cb, sr_breakers r !! id = Some cb /\ cb_state cb <> StateOpen.

(** A breaker that refuses: open, its cooldown not elapsed at [since]. *)
Definition refusing (since : Z) (id : string) (r : SmartRouter) : Prop :=
  exists cb, sr_breakers r !! id = Some cb /\ cb_state cb = StateOpen /\
    time_sub since (cb_lastStateChange cb) < cb_cooldownPeriod cb.

Lemma allow_spec id cb r :
  sr_breakers r !! id = Some cb ->
  let '(ok, r') := allow_breaker id cb r in
  same_but id r r' /\
  (ok = true -> admitting id r') /\
  (ok = false -> refusing (clock (sr_ticks r)) id r') /\
  (cb_state cb <> StateOpen -> r' = r /\ ok = true).
Proof.
  intros Hcb. unfold allow_breaker. destruct (cb_state cb) eqn:E.
  - unfold Allow, ret. rewrite E. simpl. split_and!; auto with go_state; try done.
    intros _. exists cb. by rewrite E.
  - unfold bind, tick, gets, modify, ret, Allow. rewrite E. simpl.
    destruct (cb_cooldownPeriod cb <=? _) eqn:Hc; simpl.
    + split_and!; [| |done|done].
      * intros id' Hne. simpl. by rewrite lookup_insert_ne.
      * intros _. eexists. simpl. by rewrite lookup_insert_eq.
    + split_and!; [|done| |done].
      * intros id' Hne. simpl. by rewrite lookup_insert_ne.
      * intros _. eexists. simpl. rewrite lookup_insert_eq. split_and!; [done|done|blia].
  - unfold Allow, ret. rewrite E. simpl. split_and!; auto with go_state; try done.
    intros _. exists cb. by rewrite E.
Qed.

Lemma breaker_admits_spec c r :
  let id := p_ID (c_provider c) in
  let '(ok, r') := breaker_admits c r in
  same_but id r r' /\
  (ok = true -> p_CircuitBreakerEnabled (c_provider c) = false \/ admitting id r') /\
  (ok = false -> p_CircuitBreakerEnabled (c_provider c) = true /\ exists since, refusing since id r') /\
  (admitting id r -> admitting id r' /\ ok = true).
Proof.
  intros id. unfold breaker_admits. cbn [circuitBreakerEnabled].
  destruct (p_CircuitBreakerEnabled (c_provider c)); cbn [negb].
  2:{ unfold ret. split_and!; auto with go_state; done. }
  unfold bind. fold id. pose proof (sync_spec (snap_at 0) id (c_provider c) r) as H.
  destruct (syncBreakerConfig _ id _ r) as [cb r1]. destruct H as (-> & H1 & H2).
  pose proof (allow_spec id _ r1 H1) as H. destruct (allow_breaker id _ r1) as [ok r'].
  destruct H as (H3 & H4 & H5 & H6). split_and!.
  - by eapply same_but_trans.
  - auto.
  - intros Hok. split; [done|]. eexists. by apply H5.
  - intros (cb & Hcb & Hst). unfold breaker_of in *. rewrite Hcb in *. simpl in *.
    destruct (H6 Hst) as [-> ->]. split; [|done]. by eexists.
Qed.

(** Going over the candidates, an admitted breaker stays admitted. *)
Lemma filter_breaker_spec cs r :
  let '(out, r') := filterByCircuitBreaker cs r in
  sublist out cs /\
  (forall id, admitting id r -> admitting id r') /\
  (forall c, c ∈ out -> p_CircuitBreakerEnabled (c_provider c) = false \/ admitting (p_ID (c_provider c)) r') /\
  (forall c, c ∈ cs -> c ∉ out -> p_CircuitBreakerEnabled (c_provider c) = true) /\
  (forall id, (forall c, c ∈ cs -> p_ID (c_provider c) <> id) -> sr_breakers r' !! id = sr_breakers r !! id).
Proof.
  revert r. induction cs as [|c cs IH]; intros r; [cbn; set_solver|].
  cbn [filterByCircuitBreaker]. unfold bind. pose proof (breaker_admits_spec c r) as Ha.
  cbv zeta in Ha. destruct (breaker_admits c r) as [ok r1]. destruct Ha as (A1 & A2 & A3 & A4).
  specialize (IH r1). destruct (filterByCircuitBreaker cs r1) as [out r2].
  destruct IH as (I1 & I2 & I3 & I4 & I5). unfold ret.
  assert (forall id, admitting id r -> admitting id r2) as Hmono.
  { intros id Hid. apply I2. destruct (decide (id = p_ID (c_provider c))) as [->|Hne]; [by apply A4|].
    unfold admitting. by rewrite (A1 id Hne). }
  assert (forall id, (forall d, d ∈ c :: cs -> p_ID (c_provider d) <> id) ->
    sr_breakers r2 !! id = sr_breakers r !! id) as Hframe.
  { intros id Hid. rewrite I5; [|set_solver]. apply A1. intros ->. apply (Hid c); [constructor|done]. }
  destruct ok.
  - split_and!; [by constructor|done| | |done].
    + intros d [->|Hd]%elem_of_cons; [|auto]. destruct (A2 eq_refl); auto.
    + intros d Hd Hno. apply I4; set_solver.
  - split_and!; [by constructor|done|auto| |done].
    intros d [->|Hd]%elem_of_cons Hno; [by apply A3|auto].
Qed.

Lemma filter_endpoint_spec k cs path :
  sublist (filterByEndpoint k cs path) cs /\
  forall c, c ∈ filterByEndpoint k cs path ->
    exists j, HasEnabledEndpoint (snap_at j) (p_ID (c_provider c)) path = true.
Proof.
  revert k. induction cs as [|c cs IH]; intros k; [set_solver|]. simpl.
  destruct (IH (S k)) as [I1 I2]. destruct (HasEnabledEndpoint _ _ _) eqn:E.
  - split; [by constructor|]. intros d [->|Hd]%elem_of_cons; [by eexists|auto].
  - split; [by constructor|auto].
Qed.

(** What [Route] selects from. *)
Definition eligible (modelID path : string) (r : SmartRouter) : list candidate :=
  filterByEndpoint 2 (filterByCircuitBreaker (resolveCandidates modelID).1 r).1 path.

End Breakers.

#[export] Hint Resolve same_but_refl same_but_set : go_state.

(** ** Routes *)

Lemma walk_mem pick cum last pool : walk pick cum last pool ∈ last :: pool.
Proof.
  revert cum last. induction pool as [|c pool IH]; intros cum last; [constructor|]. cbn [walk].
  cbv zeta. destruct (_ <? _); [repeat constructor|]. constructor. apply IH.
Qed.

Section Routes.
Context `{env : RouterEnv} `{sorting : SortSlice}.

Lemma select_ok rand l c top :
  is_top top l -> selectWeightedPriority rand l = Ok c -> c ∈ pool_of top l.
Proof.
  intros [Htop (ct & Hct & Hcp)] Hsel. assert (l <> []) as Hne by (intros ->; by apply elem_of_nil in Hct).
  destruct (sorted_head l Hne) as (c0 & l' & E & [Ht0 (d & Hd & Hd0)] & Hp).
  assert (c_priority c0 = top) as Heq.
  { rewrite Forall_forall in Htop, Ht0. pose proof (Htop d Hd). pose proof (Ht0 ct Hct). lia. }
  rewrite <- (pool_perm top _ _ Hp). unfold selectWeightedPriority in Hsel. rewrite E, Heq in Hsel.
  destruct (pool_of top (c0 :: l')) as [|c1 pool] eqn:Epool; [done|].
  destruct (_ =? 0); [done|]. destruct (_ <=? 0); [done|]. simplify_eq.
  pose proof (walk_mem (rand (total_weight (c1 :: pool))) 0 c1 (c1 :: pool)) as Hw. set_solver.
Qed.

Lemma top_exists l : l <> [] -> exists top, is_top top l.
Proof.
  intros Hne. destruct (sorted_head l Hne) as (c0 & l' & _ & H & _). by eexists.
Qed.

Lemma Route_eq modelID path r :
  (Route modelID path r).2 = (filterByCircuitBreaker (resolveCandidates modelID).1 r).2 /\
  (Route modelID path r).1 =
    match eligible modelID path r with
    | [] => Err ErrNoAvailableProvider
    | _ :: _ =>
        match selectWeightedPriority intn (eligible modelID path r) with
        | Ok c => Ok (mkRouteResult (c_provider c) (c_modelID c)
                        (target_url (p_BaseURL (c_provider c)) path) (resolveCandidates modelID).2)
        | Err e => Err e
        | Panic msg => Panic msg
        end
    end.
Proof.
  unfold Route, eligible, bind. destruct (resolveCandidates modelID) as [cs via]. simpl.
  destruct (filterByCircuitBreaker cs r) as [out r']. simpl.
  destruct (filterByEndpoint 2 out path) as [|c l]; [done|].
  by destruct (selectWeightedPriority intn (c :: l)).
Qed.

(** Every eligible candidate passed both filters. *)
Lemma eligible_spec modelID path r c :
  c ∈ eligible modelID path r ->
  c ∈ (resolveCandidates modelID).1 /\
  (p_CircuitBreakerEnabled (c_provider c) = false \/
   admitting (p_ID (c_provider c)) (Route modelID path r).2) /\
  exists j, HasEnabledEndpoint (snap_at j) (p_ID (c_provider c)) path = true.
Proof.
  rewrite (proj1 (Route_eq modelID path r)). unfold eligible.
  pose proof (filter_breaker_spec (resolveCandidates modelID).1 r) as H.
  destruct (filterByCircuitBreaker _ r) as [out r']. destruct H as (H1 & _ & H3 & _). simpl.
  destruct (filter_endpoint_spec 2 out path) as [H4 H5]. intros Hc.
  assert (c ∈ out) as Hout by by eapply sublist_subseteq.
  split_and!; [by eapply sublist_subseteq|auto|auto].
Qed.

Lemma report_spec (f : Z -> CircuitBreaker -> CircuitBreaker) s2 id r :
  let '(_, r') := (let! cb := syncBreakerConfig s2 id None in
                   let! now := tick in modify (set_breaker id (f now cb))) r in
  same_but id r r' /\ exists now, sr_breakers r' !! id = Some (f now (reported_breaker s2 id r)).
Proof.
  unfold bind. pose proof (sync_none_spec s2 id r) as H.
  destruct (syncBreakerConfig s2 id None r) as [cb r1]. destruct H as (-> & H1 & H2).
  unfold tick, modify. split.
  - eapply same_but_trans; [exact H2|]. intros id' Hne. simpl. by rewrite lookup_insert_ne.
  - eexists. simpl. by rewrite lookup_insert_eq.
Qed.

(** * Properties *)

(** C10: A route the router returns is one it may return: its provider and
    model are a candidate of the requested name with positive weight, the
    provider's breaker is disabled or not open after the call, the catalog
    enables the endpoint for it, no eligible candidate has a higher priority,
    and the target URL joins the base URL and the path with one slash. *)
Theorem router_route_sound (modelID path : string) (r : SmartRouter) (res : RouteResult) :
  (Route modelID path r).1 = Ok res ->
  exists c, c ∈ (resolveCandidates modelID).1 /\ 0 < c_weight c /\
    rr_Provider res = c_provider c /\ rr_ModelID res = c_modelID c /\
    rr_TargetURL res = trim_right slash (p_BaseURL (c_provider c)) +:+ "/" +:+ trim_left slash path /\
    rr_RequestedViaAlias res = (AliasCandidates (snap_at 0) modelID).2 /\
    (p_CircuitBreakerEnabled (c_provider c) = false \/
     admitting (p_ID (c_provider c)) (Route modelID path r).2) /\
    (exists j, HasEnabledEndpoint (snap_at j) (p_ID (c_provider c)) path = true) /\
    (forall d, d ∈ eligible modelID path r -> c_priority d <= c_priority c).
Proof.
  rewrite (proj2 (Route_eq modelID path r)). intros H.
  destruct (decide (eligible modelID path r = [])) as [E|Hne]; [by rewrite E in H|].
  destruct (top_exists _ Hne) as [top Htop].
  assert (exists c, selectWeightedPriority intn (eligible modelID path r) = Ok c /\
    res = mkRouteResult (c_provider c) (c_modelID c)
            (target_url (p_BaseURL (c_provider c)) path) (resolveCandidates modelID).2) as (c & Hsel & ->).
  { destruct (selectWeightedPriority intn (eligible modelID path r)) as [c|e|] eqn:Hsel;
      destruct (eligible modelID path r) as [|d l]; rewrite ?Hsel in H; simplify_eq; eauto. }
  clear H. pose proof (select_ok _ _ _ _ Htop Hsel) as (Hc & Hp & Hw)%pool_spec.
  destruct (eligible_spec modelID path r c Hc) as (H1 & H2 & H3).
  exists c. split_and!; try done.
  - simpl. unfold resolveCandidates. by destruct (AliasCandidates _ _) as [l' []].
  - intros d Hd. destruct Htop as [Ht _]. rewrite Forall_forall in Ht. rewrite Hp. by apply Ht.
Qed.

(** The router fails only when it must: while the weights of the top
    priority add up within a 64-bit integer it never panics; it returns
    [ErrNoAvailableProvider] iff no candidate passes the two filters or none
    of the top priority has a positive weight, and otherwise it routes to one
    of the top priority with positive weight. *)
Theorem router_route_decides (rand_ok : RandOk env) (modelID path : string) (r : SmartRouter) (top : Z) :
  let l := eligible modelID path r in
  (l <> [] -> is_top top l /\ sum_weights (pool_of top l) <= max_int64) ->
  if decide (l = [] \/ pool_of top l = [])
  then (Route modelID path r).1 = Err ErrNoAvailableProvider
  else exists c, c ∈ pool_of top l /\
    (Route modelID path r).1 =
      Ok (mkRouteResult (c_provider c) (c_modelID c)
            (target_url (p_BaseURL (c_provider c)) path) (resolveCandidates modelID).2).
Proof.
  intros l H. rewrite (proj2 (Route_eq modelID path r)). fold l.
  destruct (decide (l = [])) as [Hl|Hl].
  { rewrite decide_True by auto. by rewrite Hl. }
  destruct (H Hl) as [Htop Hsum]. destruct (select_spec l top Hl Htop Hsum) as (pool & c1 & Hp & Hsel).
  rewrite (Hsel intn). destruct (decide (pool = [])) as [->|Hpool].
  { apply Permutation_nil_l in Hp. rewrite decide_True by auto. by destruct l. }
  rewrite decide_False.
  2:{ intros [?|Hp0]; [done|]. rewrite Hp0 in Hp. by apply Permutation_nil_r in Hp. }
  assert (positive pool) as Hpos by (unfold positive; rewrite Hp; apply pool_positive).
  assert (0 < sum_weights pool) as Hgt.
  { destruct Hpos as [|c pool' Hc Hpos]; [done|].
    pose proof (sum_weights_nonneg pool' Hpos). simpl. lia. }
  pose proof (intn_range _ Hgt) as Hpick. rewrite <- (sum_weights_perm _ _ Hp) in Hsum.
  exists (walk (intn (sum_weights pool)) 0 c1 pool). split; [|by destruct l].
  rewrite <- Hp. apply walk_in; done || lia.
Qed.

(** C25: Weighted choice is exact: over the numbers [rand.Intn] may return, a
    candidate of the top priority is selected by precisely as many as its
    weight (the weights of its copies added up), so that equally likely
    numbers make the choice proportional to the weights. *)
Theorem router_weights_exact (l : list candidate) (top : Z) (c : candidate) :
  l <> [] -> is_top top l -> sum_weights (pool_of top l) <= max_int64 ->
  c ∈ pool_of top l ->
  count (fun n => match selectWeightedPriority (fun _ => n) l with
                  | Ok d => bool_decide (d = c) | _ => false end)
    (seqZ 0 (sum_weights (pool_of top l))) =
  sum_weights (keep (fun d => bool_decide (d = c)) (pool_of top l)).
Proof.
  intros Hne Htop Hsum Hc. destruct (select_spec l top Hne Htop Hsum) as (pool & c1 & Hp & Hsel).
  assert (positive pool) as Hpos by (unfold positive; rewrite Hp; apply pool_positive).
  rewrite <- (sum_weights_perm _ _ (keep_perm _ _ _ Hp)), <- (sum_weights_perm _ _ Hp) in *.
  rewrite <- (walk_count c pool 0 c1) by (done || lia).
  unfold count. do 2 f_equal. apply keep_ext. intros n _. rewrite Hsel, decide_False; [done|].
  intros ->. rewrite <- Hp in Hc. by apply elem_of_nil in Hc.
Qed.

(** Weights are not bounded where aliases are created, and two of them
    that add up past the range of [int] make the request panic in
    [rand.Intn] instead of being routed. *)
Theorem router_weight_overflow_panics (modelID path : string) (r : SmartRouter) (a b : candidate) :
  eligible modelID path r = [a; b] -> c_priority a = c_priority b ->
  0 < c_weight a <= max_int64 -> 0 < c_weight b <= max_int64 ->
  max_int64 < c_weight a + c_weight b ->
  (Route modelID path r).1 = Panic "invalid argument to Intn".
Proof.
  intros E Hp Ha Hb Hs. rewrite (proj2 (Route_eq modelID path r)), E.
  by rewrite select_overflow.
Qed.

(** A reported outcome reaches the breaker of its provider and no other:
    with the breaker enabled, [ReportSuccess] and [ReportFailure] record the
    outcome in it, under the provider's current settings and creating it when
    it is missing; with the breaker disabled they leave the router as it is. *)
Theorem router_report_isolated (s1 s2 : routingSnapshot) (id : string) (r : SmartRouter) :
  let ok := (ReportSuccess s1 s2 id r).2 in
  let ko := (ReportFailure s1 s2 id r).2 in
  same_but id r ok /\ same_but id r ko /\
  if circuitBreakerEnabled s1 id None
  then (exists now, sr_breakers ok !! id = Some (RecordSuccess now (reported_breaker s2 id r))) /\
       (exists now, sr_breakers ko !! id = Some (RecordFailure now (reported_breaker s2 id r)))
  else ok = r /\ ko = r.
Proof.
  pose proof (report_spec RecordSuccess s2 id r) as H1.
  pose proof (report_spec RecordFailure s2 id r) as H2.
  unfold ReportSuccess, ReportFailure. destruct (circuitBreakerEnabled s1 id None); simpl.
  - destruct ((let! cb := _ in _) r) as [u1 r1], ((let! cb := _ in _) r) as [u2 r2].
    destruct H1, H2. auto.
  - auto with go_state.
Qed.

(** Routing a request leaves the breakers of providers that are no
    candidate of the model untouched, and never opens a breaker: one that
    admits requests before still admits them after. *)
Theorem router_route_frame (modelID path : string) (r : SmartRouter) (id : string) :
  let r' := (Route modelID path r).2 in
  ((forall c, c ∈ (resolveCandidates modelID).1 -> p_ID (c_provider c) <> id) ->
    sr_breakers r' !! id = sr_breakers r !! id) /\
  (admitting id r -> admitting id r').
Proof.
  intros r'. unfold r'. rewrite (proj1 (Route_eq modelID path r)).
  pose proof (filter_breaker_spec (resolveCandidates modelID).1 r) as H.
  destruct (filterByCircuitBreaker _ r) as [out r2]. destruct H as (_ & H2 & _ & _ & H5). auto.
Qed.

End Routes.

(** * Witnesses *)

(** A quiet environment: a stopped clock, one snapshot, the middle number. *)
Definition sample_env : RouterEnv := {|
  clock _ := 1000;
  snap_at _ := buildRoutingSnapshot sample_data;
  intn n := n / 2;
|}.

Lemma sample_rand : RandOk sample_env.
Proof.
  split. simpl. intros n Hn. split; [apply Z.div_pos; lia|apply Z.div_lt; lia].
Qed.

Definition sample_candidate : candidate := mkCand sample_provider "gpt" 3 1.

Definition sample_route : RouteResult :=
  mkRouteResult sample_provider "gpt" "http://one/v1/v1/chat/completions" true.

Lemma router_route_sound_witness :
  exists c, c ∈ (@resolveCandidates sample_env "fast").1 /\ 0 < c_weight c /\ c_provider c = sample_provider.
Proof.
  destruct (@router_route_sound sample_env insertion_SortSlice "fast" "/v1/chat/completions" NewSmartRouter
    sample_route) as (c & H1 & H2 & H3 & _); [by vm_compute|].
  exists c. split; [exact H1|]. split; [exact H2|]. symmetry. exact H3.
Defined.

Lemma router_route_decides_witness :
  exists c, (@Route sample_env insertion_SortSlice "fast" "/v1/chat/completions" NewSmartRouter).1 =
    Ok (mkRouteResult (c_provider c) (c_modelID c)
          (target_url (p_BaseURL (c_provider c)) "/v1/chat/completions") true).
Proof.
  assert (@eligible sample_env "fast" "/v1/chat/completions" NewSmartRouter = [sample_candidate]) as E
    by by vm_compute.
  pose proof (@router_route_decides sample_env insertion_SortSlice sample_rand "fast"
    "/v1/chat/completions" NewSmartRouter 1) as H.
  cbv zeta in H. rewrite E in H. destruct H as (c & _ & Hc).
  - intros _. split; [|vm_compute; discriminate]. split; [by repeat constructor; vm_compute|].
    exists sample_candidate. split; [constructor|done].
  - exists c. exact Hc.
Defined.

Lemma router_weights_exact_witness :
  let l := [sample_candidate; mkCand sample_provider "other" 5 1; mkCand sample_provider "low" 9 0] in
  count (fun n => match @selectWeightedPriority insertion_SortSlice (fun _ => n) l with
                  | Ok d => bool_decide (d = sample_candidate) | _ => false end) (seqZ 0 8) = 3.
Proof.
  apply (@router_weights_exact insertion_SortSlice
    [sample_candidate; mkCand sample_provider "other" 5 1; mkCand sample_provider "low" 9 0] 1 sample_candidate).
  - done.
  - split; [by repeat constructor; vm_compute|]. exists sample_candidate. split; [constructor|done].
  - vm_compute. discriminate.
  - vm_compute. constructor.
Defined.

(** Two aliases rows of the largest weight. *)
Definition heavy_data : RoutingData :=
  mkRoutingData [sample_provider] (rd_Models sample_data)
    [mkAlias "a1" "fast" "p1" "gpt" max_int64 1 true 0 0; mkAlias "a2" "fast" "p1" "gpt2" max_int64 1 true 0 0]
    (rd_Endpoints sample_data).

Definition heavy_env : RouterEnv := {|
  clock _ := 1000; snap_at _ := buildRoutingSnapshot heavy_data; intn n := n / 2;
|}.

Lemma router_weight_overflow_panics_witness :
  (@Route heavy_env insertion_SortSlice "fast" "v1/chat/completions" NewSmartRouter).1 =
  Panic "invalid argument to Intn".
Proof.
  apply (@router_weight_overflow_panics heavy_env insertion_SortSlice "fast" "v1/chat/completions" NewSmartRouter
    (mkCand sample_provider "gpt" max_int64 1) (mkCand sample_provider "gpt2" max_int64 1));
    vm_compute; done || (split; done).
Defined.

(** The frame theorem has one hypothesis per part; both are met here. *)
Lemma router_route_frame_witness :
  let r := mkRouter {["p2" := NewCircuitBreaker 0]} 0 in
  let r' := (@Route sample_env insertion_SortSlice "fast" "/v1/chat/completions" r).2 in
  sr_breakers r' !! "p2" = sr_breakers r !! "p2" /\ admitting "p2" r'.
Proof.
  split.
  - apply (proj1 (@router_route_frame sample_env insertion_SortSlice "fast" "/v1/chat/completions" _ "p2")).
    intros c Hc. vm_compute in Hc. apply list_elem_of_singleton in Hc as ->. done.
  - apply (proj2 (@router_route_frame sample_env insertion_SortSlice "fast" "/v1/chat/completions" _ "p2")).
    exists (NewCircuitBreaker 0). done.
Defined.
