(* ===== verification/Http.v ===== *)
(** The parts of [net/http] the gateway's handlers work with: headers, the
    incoming request, and the response writer, and the helpers of the gateway
    that need nothing else. *)
From S2P Require Import Prelude GoLib.
Local Open Scope Z_scope.

(** * Headers

    A [http.Header] is a map from canonical names to values; every name the
    gateway writes is canonical. *)
Abbreviation Header := (gmap string (list string)).

(** [h.Get(key)], [h.Set(key, v)], [h.Add(key, v)]. *)
Definition header_get (h : Header) (key : string) : string :=
  match h !! key with Some (v :: _) => v | _ => "" end.

Definition header_set (key v : string) (h : Header) : Header := <[key := [v]]> h.

Definition header_add (key v : string) (h : Header) : Header :=
  <[key := default [] (h !! key) ++ [v]]> h.

(** * Requests *)

(** The identity [RequireAPIKey] stores in the request context. *)
Record keyAuth := mkKeyAuth { ka_ID : string; ka_Name : string }.

#[export] Instance keyAuth_eq_dec : EqDecision keyAuth.
Proof. solve_decision. Defined.

(** An incoming request: what the gateway reads of [http.Request], its body
    as the reader delivers it, and the values of its context. *)
Record Request := mkRequest {
  req_Method : string;
  req_Path : string;
  req_Header : Header;
  req_ContentLength : Z;
  req_RemoteAddr : string;
  req_Body : string;
  req_apiKey : option keyAuth;
}.

(** [r.WithContext(context.WithValue(ctx, apiKeyContextKey{}, ka))]. *)
Definition with_apiKey (ka : option keyAuth) (r : Request) : Request :=
  mkRequest (req_Method r) (req_Path r) (req_Header r) (req_ContentLength r) (req_RemoteAddr r) (req_Body r) ka.

(** [apiKeyFromContext(ctx)]. *)
Definition apiKeyFromContext (r : Request) : option keyAuth := req_apiKey r.

(** [clientIP(r)]. *)
Definition clientIP (r : Request) : string :=
  let xff := header_get (req_Header r) "X-Forwarded-For" in
  if negb (str_empty xff) then trim_space (before_byte "," xff) else req_RemoteAddr r.

(** * The response writer

    The first [WriteHeader] fixes the status and the headers sent; a [Write]
    before it sends status 200; later calls of [WriteHeader] are dropped. *)
Record ResponseWriter := mkWriter {
  w_header : Header;
  w_sent : option (Z * Header);
  w_body : string;
}.

Definition new_writer : ResponseWriter := mkWriter ∅ None "".

(** [w.Header().Set(k, v)] and [w.Header().Add(k, v)]: without effect on what
    is sent once the header is written. *)
Definition w_set (key v : string) (w : ResponseWriter) : ResponseWriter :=
  mkWriter (header_set key v (w_header w)) (w_sent w) (w_body w).
Definition w_add (key v : string) (w : ResponseWriter) : ResponseWriter :=
  mkWriter (header_add key v (w_header w)) (w_sent w) (w_body w).

(** [w.WriteHeader(code)]. *)
Definition WriteHeader (code : Z) (w : ResponseWriter) : ResponseWriter :=
  match w_sent w with
  | Some _ => w
  | None => mkWriter (w_header w) (Some (code, w_header w)) (w_body w)
  end.

(** [w.Write(b)]. *)
Definition Write_ (b : string) (w : ResponseWriter) : ResponseWriter :=
  let w := WriteHeader 200 w in mkWriter (w_header w) (w_sent w) (w_body w +:+ b).

Definition w_status (w : ResponseWriter) : option Z := fst <$> w_sent w.

(** ** Hop-by-hop headers *)

(** [hopByHopHeaders]. *)
Definition hopByHopHeaders : list string :=
  ["connection"; "keep-alive"; "proxy-authenticate"; "proxy-authorization"; "te"; "trailers";
   "transfer-encoding"; "upgrade"].

Definition is_hop_by_hop (key : string) : bool := bool_decide (to_lower key ∈ hopByHopHeaders).

(** * Lemmas *)

Lemma header_get_set key v h : header_get (header_set key v h) key = v.
Proof. unfold header_get, header_set. by rewrite lookup_insert_eq. Qed.

Lemma header_get_set_ne key key' v h :
  key' <> key -> header_get (header_set key v h) key' = header_get h key'.
Proof. intros Hne. unfold header_get, header_set. by rewrite lookup_insert_ne. Qed.

Lemma WriteHeader_idem c1 c2 w : WriteHeader c2 (WriteHeader c1 w) = WriteHeader c1 w.
Proof. unfold WriteHeader. by destruct (w_sent w) as [[]|] eqn:E; simpl; rewrite ?E. Qed.

