(* ===== verification/Limiter.v ===== *)
(** API keys of the proxy, [internal/proxy/auth.go]: the fixed-window rate
    limiter and the [RequireAPIKey] wrapper.  The limiter's mutex makes
    [allow] atomic, so that concurrent requests are a sequence of calls. *)
From S2P Require Import Prelude GoLib Models Http Circuit.
Local Open Scope Z_scope.

(** * The limiter *)

(** [keyLimiterEntry]; its zero value starts both windows at [time.Time{}]. *)
Record keyLimiterEntry := mkEntry {
  e_rpmStart : Z;
  e_rpmCount : Z;
  e_tpmStart : Z;
  e_tpmTokens : Z;
}.

Definition zero_entry : keyLimiterEntry := mkEntry time_zero 0 time_zero 0.

(** [KeyLimiter] is its map of entries. *)
Abbreviation KeyLimiter := (gmap string keyLimiterEntry).

Definition NewKeyLimiter : KeyLimiter := ∅.

Definition window : Z := 60 * Second.

(** The request-count block of [allow]: the entry after it, and whether the
    request is within the limit. *)
Definition count_request (now : Z) (rpmLimit : option Z) (e : keyLimiterEntry) : bool * keyLimiterEntry :=
  match rpmLimit with
  | None => (true, e)
  | Some limit =>
      let e := if window <=? time_sub now (e_rpmStart e)
               then mkEntry now 0 (e_tpmStart e) (e_tpmTokens e) else e in
      let e := mkEntry (e_rpmStart e) (wrap64 (e_rpmCount e + 1)) (e_tpmStart e) (e_tpmTokens e) in
      (negb (limit <? e_rpmCount e), e)
  end.

(** The token block of [allow]. *)
Definition count_tokens (now : Z) (tpmLimit : option Z) (promptTokens : Z) (e : keyLimiterEntry)
    : bool * keyLimiterEntry :=
  match tpmLimit with
  | None => (true, e)
  | Some limit =>
      let e := if window <=? time_sub now (e_tpmStart e)
               then mkEntry (e_rpmStart e) (e_rpmCount e) now 0 else e in
      let e := mkEntry (e_rpmStart e) (e_rpmCount e) (e_tpmStart e) (wrap64 (e_tpmTokens e + promptTokens)) in
      (negb (limit <? e_tpmTokens e), e)
  end.

(** [l.allow(keyID, rpmLimit, tpmLimit, promptTokens)]. *)
Definition allow (now : Z) (keyID : string) (rpmLimit tpmLimit : option Z) (promptTokens : Z)
    (l : KeyLimiter) : (bool * string) * KeyLimiter :=
  match rpmLimit, tpmLimit with
  | None, None => ((true, ""), l)
  | _, _ =>
      let entry := default zero_entry (l !! keyID) in
      let '(ok, entry) := count_request now rpmLimit entry in
      if negb ok then ((false, "rpm limit exceeded"), <[keyID := entry]> l)
      else
        let '(ok, entry) := count_tokens now tpmLimit promptTokens entry in
        if negb ok then ((false, "tpm limit exceeded"), <[keyID := entry]> l)
        else ((true, ""), <[keyID := entry]> l)
  end.

(** * The wrapper *)

(** [estimatePromptTokens(r)]. *)
Definition estimatePromptTokens (r : Request) : Z :=
  if 0 <? req_ContentLength r then Z.quot (req_ContentLength r) 4 else 0.

(** [BearerToken(r)]. *)
Definition BearerToken (r : Request) : string :=
  let auth := header_get (req_Header r) "Authorization" in
  if str_empty auth then ""
  else if negb (has_prefix (to_lower auth) "bearer ") then ""
  else trim_space (str_drop 7 auth).

(** What [RequireAPIKey] does with a request: answer it with an error, or
    hand it on with the identity it found, touching the key it used. *)
Inductive AuthDecision :=
| AuthReject (status : Z) (msg : string)
| AuthPass (r : Request) (touched : option string).

(** [h.RequireAPIKey(next)], up to the call of [next]: [requireKeys] is the
    configured value, [HashKey] the hash of a raw key, and [GetAPIKeyByHash]
    the store's answer. *)
Definition RequireAPIKey (requireKeys : bool) (HashKey : string -> string)
    (GetAPIKeyByHash : string -> option (option APIKey)) (now : Z) (r : Request)
    (l : KeyLimiter) : AuthDecision * KeyLimiter :=
  let token := BearerToken r in
  if str_empty token then
    if requireKeys then (AuthReject 401 "missing API key", l)
    else (AuthPass (with_apiKey None r) None, l)
  else
    match GetAPIKeyByHash (HashKey token) with
    | None => (AuthReject 500 "internal error", l)
    | Some None => (AuthReject 401 "invalid API key", l)
    | Some (Some key) =>
        if negb (k_IsActive key) then (AuthReject 401 "invalid API key", l)
        else
          let promptTokens := estimatePromptTokens r in
          let '((ok, msg), l) := allow now (k_ID key) (k_RateLimitRPM key) (k_RateLimitTPM key) promptTokens l in
          if negb ok then (AuthReject 429 msg, l)
          else (AuthPass (with_apiKey (Some (mkKeyAuth (k_ID key) (k_Name key))) r) (Some (k_ID key)), l)
    end.

(** * Runs of the limiter *)

Record Call := mkCall {
  call_now : Z;
  call_key : string;
  call_rpm : option Z;
  call_tpm : option Z;
  call_tokens : Z;
}.

Definition do_call (c : Call) (l : KeyLimiter) : bool * KeyLimiter :=
  let '((ok, _), l) := allow (call_now c) (call_key c) (call_rpm c) (call_tpm c) (call_tokens c) l in (ok, l).

(** The calls of a run, each with the answer it got. *)
Fixpoint run_calls (cs : list Call) (l : KeyLimiter) : list (Call * bool) :=
  match cs with
  | [] => []
  | c :: cs' => let '(ok, l) := do_call c l in (c, ok) :: run_calls cs' l
  end.

Definition accepted_in (key : string) (from : Z) (log : list (Call * bool)) : Z :=
  Z.of_nat (length (keep (fun p => p.2 && String.eqb (call_key p.1) key &&
    (from <=? call_now p.1) && (call_now p.1 <? from + window)) log)).

(** * Lemmas *)

Lemma allow_other now k rpm tpm n l k' :
  k' <> k -> (allow now k rpm tpm n l).2 !! k' = l !! k'.
Proof.
  intros Hne. unfold allow. repeat (split_match; simplify_eq/=); by rewrite ?lookup_insert_ne.
Qed.

(** The entry of the key after a call, and the answer. *)
Definition allow_entry (now : Z) (rpm tpm : option Z) (n : Z) (e : keyLimiterEntry) : bool * keyLimiterEntry :=
  let '(ok, e) := count_request now rpm e in
  if ok then count_tokens now tpm n e else (false, e).

Definition entry_of (k : string) (l : KeyLimiter) : keyLimiterEntry := default zero_entry (l !! k).

Lemma key_allow_spec now k rpm tpm n l :
  (allow now k rpm tpm n l).1.1 = (allow_entry now rpm tpm n (entry_of k l)).1 /\
  entry_of k (allow now k rpm tpm n l).2 = (allow_entry now rpm tpm n (entry_of k l)).2.
Proof.
  destruct (decide (rpm = None /\ tpm = None)) as [[-> ->]|Hne]; [done|].
  assert (allow now k rpm tpm n l =
    let '(ok, e) := count_request now rpm (entry_of k l) in
    if negb ok then ((false, "rpm limit exceeded"), <[k := e]> l)
    else let '(ok, e) := count_tokens now tpm n e in
         if negb ok then ((false, "tpm limit exceeded"), <[k := e]> l) else ((true, ""), <[k := e]> l)) as ->
    by (destruct rpm, tpm; [done..|by destruct Hne]).
  unfold allow_entry, entry_of. destruct (count_request now rpm _) as [[] e1]; cbn [negb fst snd];
    [destruct (count_tokens now tpm n e1) as [[] e2]; cbn [negb fst snd]|]; by rewrite lookup_insert_eq.
Qed.

Lemma do_call_spec c l :
  (do_call c l).1 = (allow_entry (call_now c) (call_rpm c) (call_tpm c) (call_tokens c) (entry_of (call_key c) l)).1 /\
  entry_of (call_key c) (do_call c l).2 =
    (allow_entry (call_now c) (call_rpm c) (call_tpm c) (call_tokens c) (entry_of (call_key c) l)).2 /\
  (forall k, k <> call_key c -> entry_of k (do_call c l).2 = entry_of k l).
Proof.
  unfold do_call. pose proof (key_allow_spec (call_now c) (call_key c) (call_rpm c) (call_tpm c) (call_tokens c) l) as [H1 H2].
  pose proof (fun k => allow_other (call_now c) (call_key c) (call_rpm c) (call_tpm c) (call_tokens c) l k) as H3.
  destruct (allow _ _ _ _ _ l) as [[ok msg] l']. simpl in *. split_and!; [done|done|].
  intros k Hne. unfold entry_of. by rewrite H3.
Qed.

(** The token block leaves the request counters alone. *)
Lemma count_tokens_rpm now tpm n e :
  e_rpmStart (count_tokens now tpm n e).2 = e_rpmStart e /\
  e_rpmCount (count_tokens now tpm n e).2 = e_rpmCount e.
Proof. unfold count_tokens. by destruct tpm; [split_match|]. Qed.

Lemma window_elapsed now start : (window <=? time_sub now start) = (window <=? now - start).
Proof. apply time_sub_geb. unfold window, Second, min_int64, max_int64. lia. Qed.

Lemma allow_entry_rpm now limit tpm n e :
  let '(ok, e') := allow_entry now (Some limit) tpm n e in
  let fresh := window <=? now - e_rpmStart e in
  e_rpmStart e' = (if fresh then now else e_rpmStart e) /\
  e_rpmCount e' = wrap64 ((if fresh then 0 else e_rpmCount e) + 1) /\
  (ok = true -> e_rpmCount e' <= limit).
Proof.
  unfold allow_entry, count_request. rewrite window_elapsed.
  destruct (window <=? now - e_rpmStart e); simpl;
    (destruct (limit <? _) eqn:E; simpl; [by split_and!|]);
    match goal with |- context [count_tokens ?a ?b ?c ?d] =>
      destruct (count_tokens_rpm a b c d) as [H1 H2]; destruct (count_tokens a b c d) as [ok e'] end;
    simpl in *; rewrite H1, H2; split_and!; try done; intros _; blia.
Qed.

(** ** No more than the limit per window *)

Definition limited (key : string) (limit : Z) (cs : list Call) : Prop :=
  Forall (fun c => call_key c = key -> call_rpm c = Some limit) cs.

Lemma accepted_cons key from p log :
  accepted_in key from (p :: log) =
  (if p.2 && String.eqb (call_key p.1) key && (from <=? call_now p.1) && (call_now p.1 <? from + window)
   then 1 else 0) + accepted_in key from log.
Proof. unfold accepted_in, keep. simpl. destruct (p.2 && _ && _ && _); simpl; lia. Qed.

Lemma accepted_nonneg key from log : 0 <= accepted_in key from log.
Proof. unfold accepted_in. lia. Qed.

(** The instants of a run do not go back: the clock is read under the mutex. *)
Definition in_order (cs : list Call) : Prop := StronglySorted (fun c d => call_now c <= call_now d) cs.

Lemma accepted_past key from cs l :
  Forall (fun c => from + window <= call_now c) cs -> accepted_in key from (run_calls cs l) = 0.
Proof.
  intros H. revert l. induction H as [|c cs Hc _ IH]; intros l; [done|]. cbn [run_calls].
  destruct (do_call c l) as [ok l']. rewrite accepted_cons, IH. cbn [fst].
  rewrite (proj2 (Z.ltb_ge _ _)), andb_false_r by lia. done.
Qed.

(** How many requests from the instant [from] on a key with the given
    counters may still get through within one window length: what is left of
    its window, and a full window more unless its window started later. *)
Definition quota (limit from start cnt : Z) : Z :=
  Z.max 0 (limit - cnt) + (if from <=? start then 0 else limit).

(** One call of the key: its counters after it. *)
Lemma do_call_rpm c l limit :
  call_rpm c = Some limit ->
  let e := entry_of (call_key c) l in
  let '(ok, l') := do_call c l in
  let e' := entry_of (call_key c) l' in
  let fresh := window <=? call_now c - e_rpmStart e in
  0 <= e_rpmCount e < max_int64 ->
  e_rpmStart e' = (if fresh then call_now c else e_rpmStart e) /\
  e_rpmCount e' = (if fresh then 0 else e_rpmCount e) + 1 /\
  (ok = true -> e_rpmCount e' <= limit).
Proof.
  intros Hr. destruct (do_call_spec c l) as (H1 & H2 & _). destruct (do_call c l) as [ok l'].
  cbn [fst snd] in *. rewrite Hr in *. intros Hcnt.
  pose proof (allow_entry_rpm (call_now c) limit (call_tpm c) (call_tokens c) (entry_of (call_key c) l)) as Ha.
  destruct (allow_entry _ _ _ _ _) as [ok' e']. cbn [fst snd] in *. subst ok' e'.
  destruct Ha as (Hs & Hn & Hok). split_and!; [done| |done].
  rewrite Hn. apply wrap64_id. unfold in_int64, min_int64. split_match; lia.
Qed.

Lemma accepted_quota key limit from cs l :
  0 <= limit -> limited key limit cs -> in_order cs -> Forall (fun c => from <= call_now c) cs ->
  0 <= e_rpmCount (entry_of key l) ->
  e_rpmCount (entry_of key l) + Z.of_nat (length cs) <= max_int64 ->
  accepted_in key from (run_calls cs l) <=
    quota limit from (e_rpmStart (entry_of key l)) (e_rpmCount (entry_of key l)).
Proof.
  intros Hl Hlim. revert l. induction Hlim as [|c cs Hc Hlim IH]; intros l Ho Hf Hcnt Hmax.
  { unfold accepted_in, quota. simpl. split_match; lia. }
  apply StronglySorted_inv in Ho as [Ho Hle]. apply Forall_cons in Hf as [Hfc Hf].
  cbn [run_calls]. pose proof (do_call_rpm c l limit) as Hr.
  destruct (do_call_spec c l) as (_ & _ & H3). destruct (do_call c l) as [ok l'] eqn:E.
  cbn [fst snd length] in *. rewrite accepted_cons. cbn [fst snd]. specialize (IH l' Ho Hf).
  destruct (String.eqb_spec (call_key c) key) as [Hk|Hne].
  2:{ rewrite andb_false_r. simpl. rewrite H3 in IH by done. apply IH; lia. }
  subst key. destruct (Hr (Hc eq_refl) ltac:(lia)) as (Hs & Hn & Hok). clear Hr H3.
  rewrite Hs, Hn in IH. rewrite Hn in Hok.
  destruct (Z.ltb_spec (call_now c) (from + window)) as [Hin|Hout].
  2:{ rewrite andb_false_r, accepted_past; [unfold quota; split_match; lia|].
      eapply Forall_impl; [exact Hle|]. simpl. lia. }
  unfold quota in *. rewrite (proj2 (Z.leb_le from (call_now c))) in * by lia.
  destruct (Z.leb_spec window (call_now c - e_rpmStart (entry_of (call_key c) l)));
    specialize (IH ltac:(lia) ltac:(lia)).
  - rewrite (proj2 (Z.leb_le from (call_now c))) in IH by lia.
    rewrite (proj2 (Z.leb_gt from _)) by lia.
    destruct ok; cbn [andb]; [specialize (Hok eq_refl)|]; lia.
  - destruct ok; cbn [andb]; [specialize (Hok eq_refl)|]; lia.
Qed.

Lemma accepted_window key limit from cs l :
  0 <= limit -> limited key limit cs -> in_order cs ->
  0 <= e_rpmCount (entry_of key l) ->
  e_rpmCount (entry_of key l) + Z.of_nat (length cs) <= max_int64 ->
  accepted_in key from (run_calls cs l) <= 2 * limit.
Proof.
  intros Hl Hlim. revert l. induction Hlim as [|c cs Hc Hlim IH]; intros l Ho Hcnt Hmax.
  { unfold accepted_in. simpl. lia. }
  destruct (Z.le_gt_cases from (call_now c)) as [Hfrom|Hfrom].
  { pose proof (accepted_quota key limit from (c :: cs) l Hl ltac:(by constructor) Ho) as Hq.
    apply StronglySorted_inv in Ho as [Ho Hle]. etransitivity; [apply Hq; try done|].
    - constructor; [done|]. eapply Forall_impl; [exact Hle|]. simpl. lia.
    - unfold quota. split_match; lia. }
  apply StronglySorted_inv in Ho as [Ho Hle]. cbn [run_calls]. pose proof (do_call_rpm c l limit) as Hr.
  destruct (do_call_spec c l) as (_ & _ & H3). destruct (do_call c l) as [ok l'] eqn:E.
  cbn [fst snd length] in *. rewrite accepted_cons. cbn [fst snd].
  rewrite (proj2 (Z.leb_gt _ _)), andb_false_r by lia. cbn [andb]. rewrite Z.add_0_l.
  specialize (IH l' Ho). destruct (decide (call_key c = key)) as [<-|Hne].
  - destruct (Hr (Hc eq_refl) ltac:(lia)) as (Hs & Hn & Hok). apply IH; rewrite Hn; split_match; lia.
  - apply IH; rewrite H3 by done; lia.
Qed.

(** ** No false rejection *)

(** How many calls of the run so far came from the key within the last
    window before [now]. *)
Definition recent (key : string) (now : Z) (cs : list Call) : Z :=
  Z.of_nat (length (keep (fun c => String.eqb (call_key c) key && (now - window <? call_now c)) cs)).

(** The counter of a key never exceeds its calls since its window started. *)
Definition since_start (key : string) (start : Z) (cs : list Call) : Z :=
  Z.of_nat (length (keep (fun c => String.eqb (call_key c) key && (start <=? call_now c)) cs)).

Fixpoint state_after (cs : list Call) (l : KeyLimiter) : KeyLimiter :=
  match cs with [] => l | c :: cs' => state_after cs' (do_call c l).2 end.

Lemma state_after_snoc cs c l : state_after (cs ++ [c]) l = (do_call c (state_after cs l)).2.
Proof. revert l. induction cs as [|d cs IH]; intros l; [done|]. apply IH. Qed.

Lemma run_calls_snoc cs c l :
  run_calls (cs ++ [c]) l = run_calls cs l ++ [(c, (do_call c (state_after cs l)).1)].
Proof.
  revert l. induction cs as [|d cs IH]; intros l; cbn [run_calls app state_after].
  - by destruct (do_call c l).
  - destruct (do_call d l) as [ok l'] eqn:E. simpl. by rewrite IH.
Qed.

Lemma since_start_snoc key start cs c :
  since_start key start (cs ++ [c]) =
  since_start key start cs + (if String.eqb (call_key c) key && (start <=? call_now c) then 1 else 0).
Proof.
  unfold since_start. rewrite keep_app, length_app. unfold keep at 2. simpl. destruct (_ && _); simpl; lia.
Qed.

Lemma in_order_snoc cs c :
  in_order (cs ++ [c]) -> in_order cs /\ Forall (fun d => call_now d <= call_now c) cs.
Proof.
  intros H. split; [by eapply StronglySorted_app_1_l|]. apply Forall_forall. intros d Hd.
  eapply (StronglySorted_app_1_elem_of (fun c d => call_now c <= call_now d)); [exact H|done|set_solver].
Qed.

Lemma counter_since_start key limit cs :
  limited key limit cs -> in_order cs -> Z.of_nat (length cs) <= max_int64 ->
  Forall (fun c => time_zero + window <= call_now c) cs ->
  let e := entry_of key (state_after cs NewKeyLimiter) in
  0 <= e_rpmCount e <= since_start key (e_rpmStart e) cs /\
  (forall t, time_zero <= t -> Forall (fun c => call_now c <= t) cs -> e_rpmStart e <= t).
Proof.
  induction cs as [|c cs IH] using rev_ind; intros Hlim Ho Hmax Hz; [by split|].
  apply Forall_app in Hlim as [Hlim Hc]. rewrite Forall_singleton in Hc.
  apply Forall_app in Hz as [Hz Hzc]. rewrite Forall_singleton in Hzc.
  apply in_order_snoc in Ho as [Ho Hle]. rewrite length_app in Hmax. simpl in Hmax.
  destruct (IH Hlim Ho ltac:(lia) Hz) as [Hcnt Hlast]. clear IH.
  rewrite state_after_snoc. set (l := state_after cs NewKeyLimiter) in *.
  assert (e_rpmStart (entry_of key l) <= call_now c) as Hstart
    by (apply Hlast; [unfold window, Second in *; lia|done]).
  pose proof (do_call_rpm c l limit) as Hr. destruct (do_call_spec c l) as (_ & _ & H3).
  destruct (do_call c l) as [ok l']. cbn [fst snd] in *. cbv zeta.
  assert (since_start key (e_rpmStart (entry_of key l)) cs <= Z.of_nat (length cs)) as Hlen.
  { unfold since_start. pose proof (keep_length (fun c => String.eqb (call_key c) key &&
      (e_rpmStart (entry_of key l) <=? call_now c)) cs). lia. }
  destruct (decide (call_key c = key)) as [<-|Hne].
  - destruct (Hr (Hc eq_refl) ltac:(lia)) as (-> & -> & _). rewrite since_start_snoc, String.eqb_refl.
    split; [|intros t _ [_ Ht]%Forall_app; rewrite Forall_singleton in Ht; split_match; lia].
    destruct (window <=? _); rewrite (proj2 (Z.leb_le _ _)) by lia; simpl; [|lia].
    unfold since_start. lia.
  - rewrite H3 by done. rewrite since_start_snoc.
    split; [|intros t Hz0 [Ht _]%Forall_app; by apply Hlast].
    rewrite (proj2 (String.eqb_neq _ _)) by done. simpl. lia.
Qed.

(** Without a token limit the answer is the request count's. *)
Lemma allow_entry_rpm_only now limit n e :
  let '(ok, e') := allow_entry now (Some limit) None n e in ok = negb (limit <? e_rpmCount e').
Proof. unfold allow_entry, count_request. simpl. by destruct (limit <? _) eqn:E; simpl; rewrite E. Qed.

Lemma since_start_recent key start now cs :
  now - window < start -> since_start key start cs <= recent key now cs.
Proof.
  intros H. unfold since_start, recent. induction cs as [|c cs IH]; [done|]. unfold keep in *. simpl.
  destruct (String.eqb (call_key c) key); simpl; [|done].
  destruct (Z.leb_spec start (call_now c)).
  - rewrite (proj2 (Z.ltb_lt _ _)) by lia. simpl. lia.
  - destruct (_ <? _); simpl; lia.
Qed.

Lemma recent_snoc key now cs c :
  call_key c = key -> call_now c = now -> recent key now (cs ++ [c]) = recent key now cs + 1.
Proof.
  intros <- <-. unfold recent. rewrite keep_app, length_app. unfold keep at 2. simpl.
  rewrite String.eqb_refl, (proj2 (Z.ltb_lt _ _)) by (unfold window, Second; lia). simpl. lia.
Qed.

(** Runs agree on a key when the limiters do. *)
Lemma run_calls_key key cs l l' :
  l !! key = l' !! key ->
  keep (fun p => String.eqb (call_key p.1) key) (run_calls cs l) =
  run_calls (keep (fun c => String.eqb (call_key c) key) cs) l'.
Proof.
  revert l l'. induction cs as [|c cs IH]; intros l l' Hl; [done|]. unfold keep in *. cbn [run_calls List.filter].
  destruct (String.eqb_spec (call_key c) key) as [Hk|Hne].
  - cbn [run_calls]. unfold do_call. rewrite Hk.
    destruct (key_allow_spec (call_now c) key (call_rpm c) (call_tpm c) (call_tokens c) l) as [H1 _].
    destruct (key_allow_spec (call_now c) key (call_rpm c) (call_tpm c) (call_tokens c) l') as [H1' _].
    assert ((allow (call_now c) key (call_rpm c) (call_tpm c) (call_tokens c) l).2 !! key =
            (allow (call_now c) key (call_rpm c) (call_tpm c) (call_tokens c) l').2 !! key) as H2.
    { unfold allow. rewrite Hl. repeat (split_match; simplify_eq/=); by rewrite ?lookup_insert_eq. }
    unfold entry_of in *. rewrite Hl in H1. rewrite <- H1' in H1.
    destruct (allow _ _ _ _ _ l) as [[ok m] l1], (allow _ _ _ _ _ l') as [[ok' m'] l1'].
    simpl in *. subst ok'. rewrite Hk, String.eqb_refl. f_equal. by apply IH.
  - pose proof (allow_other (call_now c) (call_key c) (call_rpm c) (call_tpm c) (call_tokens c) l key) as Ho.
    unfold do_call. destruct (allow _ _ _ _ _ l) as [[ok m] l1]. simpl in *.
    rewrite (proj2 (String.eqb_neq _ _)) by done. apply IH. rewrite <- Hl. apply Ho. congruence.
Qed.

(** * Properties *)

(** C16: The request limit holds over any minute: however requests of all keys
    interleave, a key limited to [limit] requests per window gets at most
    [2 * limit] of them through in any interval of 60 seconds, the most a
    fixed window can let through. *)
Theorem limiter_requests_bounded (key : string) (limit from : Z) (cs : list Call) :
  0 <= limit -> limited key limit cs -> in_order cs -> Z.of_nat (length cs) <= max_int64 ->
  accepted_in key from (run_calls cs NewKeyLimiter) <= 2 * limit.
Proof.
  intros Hl Hlim Ho Hmax. by apply accepted_window.
Qed.

(** A burst at the end of one window and another at the start of the next. *)
Definition burst : list Call :=
  [mkCall 0 "k" (Some 2) None 0; mkCall (59 * Second) "k" (Some 2) None 0;
   mkCall (59 * Second) "k" (Some 2) None 0; mkCall (60 * Second) "k" (Some 2) None 0;
   mkCall (61 * Second) "k" (Some 2) None 0; mkCall (62 * Second) "k" (Some 2) None 0].

Lemma burst_ok : limited "k" 2 burst /\ in_order burst.
Proof. split; repeat constructor; simpl; unfold Second; lia. Qed.

Lemma limiter_requests_bounded_witness :
  accepted_in "k" (3 * Second) (run_calls burst NewKeyLimiter) = 3 /\
  accepted_in "k" (3 * Second) (run_calls burst NewKeyLimiter) <= 2 * 2.
Proof.
  split; [by vm_compute|].
  apply limiter_requests_bounded; [lia|apply burst_ok|apply burst_ok|vm_compute; discriminate].
Defined.

(** A request limit never rejects a key that keeps to it: when a key
    without token limit has sent at most [limit] requests in the last 60
    seconds, the present one included, the request is let through. *)
Theorem limiter_no_false_rejection (key : string) (limit : Z) (cs : list Call) (c : Call) :
  limited key limit (cs ++ [c]) -> in_order (cs ++ [c]) -> Z.of_nat (length (cs ++ [c])) <= max_int64 ->
  Forall (fun d => time_zero + window <= call_now d) (cs ++ [c]) ->
  call_key c = key -> call_tpm c = None ->
  recent key (call_now c) (cs ++ [c]) <= limit ->
  last (run_calls (cs ++ [c]) NewKeyLimiter) = Some (c, true).
Proof.
  intros Hlim Ho Hmax Hz Hk Ht Hrec. rewrite run_calls_snoc, last_snoc. do 2 f_equal.
  apply Forall_app in Hlim as [Hlim Hc]. rewrite Forall_singleton in Hc.
  apply Forall_app in Hz as [Hz Hzc]. apply in_order_snoc in Ho as [Ho Hle].
  rewrite length_app in Hmax. simpl in Hmax. rewrite recent_snoc in Hrec by done.
  destruct (counter_since_start key limit cs Hlim Ho ltac:(lia) Hz) as [Hcnt _].
  set (l := state_after cs NewKeyLimiter) in *.
  destruct (do_call_spec c l) as (H1 & H2 & _). pose proof (do_call_rpm c l limit (Hc Hk)) as Hr.
  pose proof (allow_entry_rpm_only (call_now c) limit (call_tokens c) (entry_of (call_key c) l)) as Hok.
  rewrite (Hc Hk), Ht in *. destruct (do_call c l) as [ok l']. cbn [fst snd] in *.
  destruct (allow_entry _ _ _ _ _) as [ok' e']. cbn [fst snd] in *. subst ok e'. rewrite Hk in *.
  pose proof (since_start_recent key (e_rpmStart (entry_of key l)) (call_now c) cs) as Hss.
  assert (since_start key (e_rpmStart (entry_of key l)) cs <= Z.of_nat (length cs)) as Hlen.
  { unfold since_start. pose proof (keep_length (fun c => String.eqb (call_key c) key &&
      (e_rpmStart (entry_of key l) <=? call_now c)) cs). lia. }
  assert (0 <= recent key (call_now c) cs) by (unfold recent; lia).
  destruct (Hr ltac:(lia)) as (_ & Hn & _). rewrite Hok, Hn. apply negb_true_iff, Z.ltb_ge.
  destruct (Z.leb_spec window (call_now c - e_rpmStart (entry_of key l))); lia.
Qed.

Lemma limiter_no_false_rejection_witness :
  last (run_calls ([mkCall 0 "k" (Some 1) None 0; mkCall 1 "other" (Some 1) (Some 5) 9] ++
                   [mkCall (60 * Second) "k" (Some 1) None 0]) NewKeyLimiter) =
  Some (mkCall (60 * Second) "k" (Some 1) None 0, true).
Proof.
  apply (limiter_no_false_rejection "k" 1).
  - by repeat constructor.
  - repeat constructor; simpl; unfold Second; lia.
  - vm_compute. discriminate.
  - repeat constructor; vm_compute; discriminate.
  - done.
  - done.
  - vm_compute. discriminate.
Defined.

(** Keys do not interfere: the answers the requests of one key get are
    those they would get if no other key sent any. *)
Theorem limiter_keys_isolated (key : string) (cs : list Call) (l : KeyLimiter) :
  keep (fun p => String.eqb (call_key p.1) key) (run_calls cs l) =
  run_calls (keep (fun c => String.eqb (call_key c) key) cs) l.
Proof. by apply run_calls_key. Qed.

(** The token limit can be passed by overflowing its counter: the tokens
    of rejected requests are added too, and once a sum leaves the range of
    [int] it turns negative and requests of the window are let through. *)
Theorem limiter_token_overflow (now limit n : Z) (key : string) (l : KeyLimiter) :
  let e := entry_of key l in
  time_sub now (e_tpmStart e) < window -> 0 <= limit ->
  0 <= e_tpmTokens e <= max_int64 -> 0 <= n <= max_int64 -> max_int64 < e_tpmTokens e + n ->
  (allow now key None (Some limit) n l).1 = (true, "").
Proof.
  intros e Hw Hl He Hn Hs. unfold allow. cbn [count_request negb]. fold (entry_of key l). fold e.
  unfold count_tokens. rewrite (proj2 (Z.leb_gt _ _)) by done. cbn [e_tpmTokens].
  rewrite wrap64_over by (unfold max_int64 in *; lia).
  rewrite (proj2 (Z.ltb_ge _ _)) by (unfold max_int64 in *; lia). done.
Qed.

(** Requests that declare the largest content length. *)
Definition huge_tokens : Z :=
  estimatePromptTokens (mkRequest "POST" "/v1/chat/completions" ∅ max_int64 "" "" None).

Lemma limiter_token_overflow_witness :
  let cs := repeat (mkCall 0 "k" None (Some 1000) huge_tokens) 4 in
  map snd (run_calls cs NewKeyLimiter) = [false; false; false; false] /\
  (allow 1 "k" None (Some 1000) huge_tokens (state_after cs NewKeyLimiter)).1 = (true, "").
Proof.
  split; [by vm_compute|].
  apply limiter_token_overflow; vm_compute; done || (split; discriminate).
Defined.

(** The key check lets a request through in two cases only: it presents no
    token and keys are not required, or the store knows its hashed token as
    an active key within its limits; then the request carries that key's
    identity and the key is touched.  A presented token that is unknown or
    inactive is refused even when keys are optional, a store error is
    answered with 500, an exceeded limit with 429. *)
Theorem require_key_decides (requireKeys : bool) (HashKey : string -> string)
    (GetAPIKeyByHash : string -> option (option APIKey)) (now : Z) (r : Request) (l : KeyLimiter) :
  let found := GetAPIKeyByHash (HashKey (BearerToken r)) in
  let limits (key : APIKey) :=
    (allow now (k_ID key) (k_RateLimitRPM key) (k_RateLimitTPM key) (estimatePromptTokens r) l).1 in
  match (RequireAPIKey requireKeys HashKey GetAPIKeyByHash now r l).1 with
  | AuthPass r' touched =>
      (BearerToken r = "" /\ requireKeys = false /\ apiKeyFromContext r' = None /\ touched = None) \/
      (BearerToken r <> "" /\ exists key, found = Some (Some key) /\ k_IsActive key = true /\
        (limits key).1 = true /\
        apiKeyFromContext r' = Some (mkKeyAuth (k_ID key) (k_Name key)) /\ touched = Some (k_ID key))
  | AuthReject status msg =>
      (status = 401 /\ BearerToken r = "" /\ requireKeys = true) \/
      (status = 401 /\ BearerToken r <> "" /\
        (found = Some None \/ exists key, found = Some (Some key) /\ k_IsActive key = false)) \/
      (status = 500 /\ BearerToken r <> "" /\ found = None) \/
      (status = 429 /\ BearerToken r <> "" /\ exists key, found = Some (Some key) /\
        k_IsActive key = true /\ limits key = (false, msg))
  end.
Proof.
  intros found limits. unfold RequireAPIKey.
  destruct (str_empty (BearerToken r)) eqn:Et.
  { apply String.eqb_eq in Et. destruct requireKeys; cbn [fst]; [by auto|]. left. auto. }
  apply String.eqb_neq in Et. fold found. destruct found as [[key|]|]; cbn [fst]; [|by auto 6..].
  destruct (k_IsActive key) eqn:Ea; cbn [negb fst]; [|by eauto 10]. unfold limits.
  destruct (allow now (k_ID key) _ _ _ l) as [[ok msg] l'] eqn:El. destruct ok; cbn [negb fst].
  - right. split; [done|]. exists key. by rewrite El.
  - do 3 right. split_and!; [done|done|]. exists key. by rewrite El.
Qed.
