(* ===== verification/Json.v ===== *)
(** The subset of [encoding/json] the gateway uses, on byte strings: the
    scanner's grammar, values that keep the text of their literals (what a
    [json.RawMessage] holds up to white space), strings and their escapes,
    compact printing with HTML escapes, and maps of raw messages. *)
From S2P Require Import Prelude GoLib.
Local Open Scope Z_scope.

(** * Values *)

(** Numbers and strings keep the bytes of the text; keys too. *)
Inductive json :=
| JNull
| JBool (b : bool)
| JNum (raw : string)
| JStr (raw : string)
| JArr (l : list json)
| JObj (l : list (string * json)).

(** * Scanning *)

Definition code (c : ascii) : Z := Z.of_nat (nat_of_ascii c).

Definition backslash : ascii := "\"%char.

Definition is_space (c : ascii) : bool :=
  Ascii.eqb c " " || Ascii.eqb c "009" || Ascii.eqb c cr || Ascii.eqb c lf.

Fixpoint skip_ws (s : string) : string :=
  match s with
  | String c s' => if is_space c then skip_ws s' else s
  | EmptyString => s
  end.

Definition is_digit (c : ascii) : bool := (48 <=? code c) && (code c <=? 57).

(** The value of a hexadecimal digit. *)
Definition hex_val (c : ascii) : option Z :=
  let n := code c in
  if (48 <=? n) && (n <=? 57) then Some (n - 48)
  else if (97 <=? n) && (n <=? 102) then Some (n - 87)
  else if (65 <=? n) && (n <=? 70) then Some (n - 55)
  else None.

Definition hex4 (a b c d : ascii) : option Z :=
  match hex_val a, hex_val b, hex_val c, hex_val d with
  | Some x, Some y, Some z, Some w => Some (((x * 16 + y) * 16 + z) * 16 + w)
  | _, _, _, _ => None
  end.

(** The byte a one-letter escape stands for. *)
Definition simple_escape (c : ascii) : option ascii :=
  if Ascii.eqb c dquote then Some dquote
  else if Ascii.eqb c backslash then Some backslash
  else if Ascii.eqb c slash then Some slash
  else if Ascii.eqb c "b" then Some "008"%char
  else if Ascii.eqb c "f" then Some "012"%char
  else if Ascii.eqb c "n" then Some lf
  else if Ascii.eqb c "r" then Some cr
  else if Ascii.eqb c "t" then Some "009"%char
  else None.

(** The text of a string up to its closing quote, which has been opened. *)
Fixpoint lex_string (s : string) : option (string * string) :=
  match s with
  | EmptyString => None
  | String c s1 =>
      if Ascii.eqb c dquote then Some ("", s1)
      else if Ascii.eqb c backslash then
        match s1 with
        | EmptyString => None
        | String e s2 =>
            if Ascii.eqb e "u" then
              match s2 with
              | String h1 (String h2 (String h3 (String h4 s3))) =>
                  match hex4 h1 h2 h3 h4 with
                  | None => None
                  | Some _ =>
                      match lex_string s3 with
                      | None => None
                      | Some (r, rest) =>
                          Some (String c (String e (String h1 (String h2 (String h3 (String h4 r))))), rest)
                      end
                  end
              | _ => None
              end
            else
              match simple_escape e with
              | None => None
              | Some _ =>
                  match lex_string s2 with
                  | None => None
                  | Some (r, rest) => Some (String c (String e r), rest)
                  end
              end
        end
      else if code c <? 32 then None
      else
        match lex_string s1 with
        | None => None
        | Some (r, rest) => Some (String c r, rest)
        end
  end.

Fixpoint span_digits (s : string) : string * string :=
  match s with
  | String c s' => if is_digit c then let '(d, r) := span_digits s' in (String c d, r) else ("", s)
  | EmptyString => ("", s)
  end.

(** One or more digits. *)
Definition lex_digits1 (s : string) : option (string * string) :=
  let '(d, r) := span_digits s in if str_empty d then None else Some (d, r).

Definition lex_exp (s : string) : option (string * string) :=
  match s with
  | String c s1 =>
      if Ascii.eqb c "e" || Ascii.eqb c "E" then
        match s1 with
        | String g s2 =>
            if Ascii.eqb g "+" || Ascii.eqb g "-" then
              match lex_digits1 s2 with Some (d, r) => Some (String c (String g d), r) | None => None end
            else match lex_digits1 s1 with Some (d, r) => Some (String c d, r) | None => None end
        | EmptyString => None
        end
      else Some ("", s)
  | EmptyString => Some ("", s)
  end.

Definition lex_frac (s : string) : option (string * string) :=
  match s with
  | String c s1 =>
      if Ascii.eqb c "." then
        match lex_digits1 s1 with Some (d, r) => Some (String c d, r) | None => None end
      else Some ("", s)
  | EmptyString => Some ("", s)
  end.

Definition lex_int (s : string) : option (string * string) :=
  match s with
  | String c s1 =>
      if Ascii.eqb c "0" then Some (String c "", s1)
      else if is_digit c then let '(d, r) := span_digits s1 in Some (String c d, r)
      else None
  | EmptyString => None
  end.

(** A number without its sign. *)
Definition lex_unsigned (s : string) : option (string * string) :=
  match lex_int s with
  | None => None
  | Some (i, s1) =>
      match lex_frac s1 with
      | None => None
      | Some (f, s2) =>
          match lex_exp s2 with
          | None => None
          | Some (e, s3) => Some (i +:+ f +:+ e, s3)
          end
      end
  end.

Definition lex_number (s : string) : option (string * string) :=
  match s with
  | String "-"%char s1 =>
      match lex_unsigned s1 with Some (n, r) => Some (String "-" n, r) | None => None end
  | _ => lex_unsigned s
  end.

(** * Parsing *)

(** The scanner's [maxNestingDepth]. *)
Definition max_depth : Z := 10000.

Definition after (p : string) (v : json) (s : string) : option (json * string) :=
  if has_prefix s p then Some (v, str_drop (String.length p) s) else None.

(** The rest of the input after a byte, white space skipped. *)
Definition next_is (c : ascii) (s : string) : option string :=
  match skip_ws s with
  | String d r => if Ascii.eqb d c then Some r else None
  | EmptyString => None
  end.

(** A value at the front of the input.  Every call but the first follows at
    least one consumed byte, so fuel of twice the input's length is enough. *)
Fixpoint parse_value (fuel : nat) (depth : Z) (s : string) : option (json * string) :=
  match fuel with
  | O => None
  | S fuel' =>
      match skip_ws s with
      | EmptyString => None
      | String c r =>
          if Ascii.eqb c "{" then
            if max_depth <? depth + 1 then None
            else
              match next_is "}" r with
              | Some r' => Some (JObj [], r')
              | None =>
                  match parse_members fuel' (depth + 1) r with
                  | Some (l, r') => Some (JObj l, r')
                  | None => None
                  end
              end
          else if Ascii.eqb c "[" then
            if max_depth <? depth + 1 then None
            else
              match next_is "]" r with
              | Some r' => Some (JArr [], r')
              | None =>
                  match parse_elements fuel' (depth + 1) r with
                  | Some (l, r') => Some (JArr l, r')
                  | None => None
                  end
              end
          else if Ascii.eqb c dquote then
            match lex_string r with Some (raw, r') => Some (JStr raw, r') | None => None end
          else if Ascii.eqb c "t" then after "rue" (JBool true) r
          else if Ascii.eqb c "f" then after "alse" (JBool false) r
          else if Ascii.eqb c "n" then after "ull" JNull r
          else
            match lex_number (String c r) with Some (raw, r') => Some (JNum raw, r') | None => None end
      end
  end
with parse_elements (fuel : nat) (depth : Z) (s : string) : option (list json * string) :=
  match fuel with
  | O => None
  | S fuel' =>
      match parse_value fuel' depth s with
      | None => None
      | Some (v, r) =>
          match next_is "," r with
          | Some r' =>
              match parse_elements fuel' depth r' with
              | Some (l, r'') => Some (v :: l, r'')
              | None => None
              end
          | None =>
              match next_is "]" r with Some r' => Some ([v], r') | None => None end
          end
      end
  end
with parse_members (fuel : nat) (depth : Z) (s : string) : option (list (string * json) * string) :=
  match fuel with
  | O => None
  | S fuel' =>
      match next_is dquote s with
      | None => None
      | Some r =>
          match lex_string r with
          | None => None
          | Some (k, r1) =>
              match next_is ":" r1 with
              | None => None
              | Some r2 =>
                  match parse_value fuel' depth r2 with
                  | None => None
                  | Some (v, r3) =>
                      match next_is "," r3 with
                      | Some r4 =>
                          match parse_members fuel' depth r4 with
                          | Some (l, r5) => Some ((k, v) :: l, r5)
                          | None => None
                          end
                      | None =>
                          match next_is "}" r3 with Some r4 => Some ([(k, v)], r4) | None => None end
                      end
                  end
              end
          end
      end
  end.

(** [checkValid] and the text of the top-level value: [None] is a syntax
    error. *)
Definition parse (s : string) : option json :=
  match parse_value (2 * String.length s + 1) 0 s with
  | Some (v, r) => if str_empty (skip_ws r) then Some v else None
  | None => None
  end.

(** * Printing *)

Fixpoint comma_join (l : list string) : string :=
  match l with
  | [] => ""
  | [x] => x
  | x :: l' => x +:+ "," +:+ comma_join l'
  end.

Definition quote (raw : string) : string := String dquote (raw +:+ String dquote "").

(** The text of a value without white space. *)
Fixpoint print (v : json) : string :=
  match v with
  | JNull => "null"
  | JBool b => if b then "true" else "false"
  | JNum raw => raw
  | JStr raw => quote raw
  | JArr l => "[" +:+ comma_join (map print l) +:+ "]"
  | JObj l => "{" +:+ comma_join (map (fun '(k, w) => quote k +:+ ":" +:+ print w) l) +:+ "}"
  end.

(** * UTF-8 and string literals *)

Definition between (lo c hi : Z) : bool := (lo <=? c) && (c <=? hi).

Definition cont (c : ascii) : bool := between 128 (code c) 191.

(** The multi-byte encodings [utf8.DecodeRune] accepts. *)
Definition utf8_2 (a b : ascii) : bool := between 194 (code a) 223 && cont b.

Definition utf8_3 (a b c : ascii) : bool :=
  ((Z.eqb (code a) 224 && between 160 (code b) 191) ||
   ((between 225 (code a) 236 || between 238 (code a) 239) && cont b) ||
   (Z.eqb (code a) 237 && between 128 (code b) 159)) && cont c.

Definition utf8_4 (a b c d : ascii) : bool :=
  ((Z.eqb (code a) 240 && between 144 (code b) 191) ||
   (between 241 (code a) 243 && cont b) ||
   (Z.eqb (code a) 244 && between 128 (code b) 143)) && cont c && cont d.

Definition chr (n : Z) : ascii := ascii_of_nat (Z.to_nat n).

(** [utf8.EncodeRune] for a rune in range. *)
Definition utf8_encode (n : Z) : string :=
  if n <? 128 then String (chr n) ""
  else if n <? 2048 then String (chr (192 + n / 64)) (String (chr (128 + n mod 64)) "")
  else if n <? 65536 then
    String (chr (224 + n / 4096)) (String (chr (128 + (n / 64) mod 64)) (String (chr (128 + n mod 64)) ""))
  else
    String (chr (240 + n / 262144)) (String (chr (128 + (n / 4096) mod 64))
      (String (chr (128 + (n / 64) mod 64)) (String (chr (128 + n mod 64)) ""))).

(** The replacement character U+FFFD. *)
Definition rune_error : string := utf8_encode 65533.

Definition is_surrogate (n : Z) : bool := between 55296 n 57343.

(** [utf16.DecodeRune] of a valid pair. *)
Definition surrogate_pair (hi lo : Z) : option Z :=
  if between 55296 hi 56319 && between 56320 lo 57343
  then Some ((hi - 55296) * 1024 + (lo - 56320) + 65536) else None.

(** [unquote]: the bytes a literal stands for; ill-formed UTF-8 and lone
    surrogates become U+FFFD. *)
Fixpoint unquote (s : string) : string :=
  match s with
  | EmptyString => EmptyString
  | String c s1 =>
      if Ascii.eqb c backslash then
        match s1 with
        | EmptyString => EmptyString
        | String e s2 =>
            if Ascii.eqb e "u" then
              match s2 with
              | String h1 (String h2 (String h3 (String h4 s3))) =>
                  match hex4 h1 h2 h3 h4 with
                  | None => EmptyString
                  | Some n =>
                      if is_surrogate n then
                        match s3 with
                        | String b (String u (String g1 (String g2 (String g3 (String g4 s4))))) =>
                            if Ascii.eqb b backslash && Ascii.eqb u "u" then
                              match hex4 g1 g2 g3 g4 with
                              | Some m =>
                                  match surrogate_pair n m with
                                  | Some r => utf8_encode r +:+ unquote s4
                                  | None => rune_error +:+ unquote s3
                                  end
                              | None => rune_error +:+ unquote s3
                              end
                            else rune_error +:+ unquote s3
                        | _ => rune_error +:+ unquote s3
                        end
                      else utf8_encode n +:+ unquote s3
                  end
              | _ => EmptyString
              end
            else
              match simple_escape e with
              | Some d => String d (unquote s2)
              | None => EmptyString
              end
        end
      else if code c <? 128 then String c (unquote s1)
      else
        match s1 with
        | String c2 s2 =>
            if utf8_2 c c2 then String c (String c2 (unquote s2))
            else
              match s2 with
              | String c3 s3 =>
                  if utf8_3 c c2 c3 then String c (String c2 (String c3 (unquote s3)))
                  else
                    match s3 with
                    | String c4 s4 =>
                        if utf8_4 c c2 c3 c4
                        then String c (String c2 (String c3 (String c4 (unquote s4))))
                        else rune_error +:+ unquote s1
                    | EmptyString => rune_error +:+ unquote s1
                    end
              | EmptyString => rune_error +:+ unquote s1
              end
        | EmptyString => rune_error +:+ unquote s1
        end
  end.

Definition hex_digit (n : Z) : ascii := if n <? 10 then chr (48 + n) else chr (87 + n).

(** [\u00xx] of a byte. *)
Definition u00 (c : ascii) : string :=
  String backslash (String "u" (String "0" (String "0"
    (String (hex_digit (code c / 16)) (String (hex_digit (code c mod 16)) ""))))).

Definition u_text (digits : string) : string := String backslash (String "u" digits).

Definition html_char (c : ascii) : bool := Ascii.eqb c "<" || Ascii.eqb c ">" || Ascii.eqb c "&".

(** The escape [json.Marshal] writes for an ASCII byte, if any. *)
Definition escape_byte (c : ascii) : option string :=
  let short (e : ascii) := Some (String backslash (String e "")) in
  if Ascii.eqb c dquote then short dquote
  else if Ascii.eqb c backslash then short backslash
  else if Ascii.eqb c "008" then short "b"%char
  else if Ascii.eqb c "012" then short "f"%char
  else if Ascii.eqb c lf then short "n"%char
  else if Ascii.eqb c cr then short "r"%char
  else if Ascii.eqb c "009" then short "t"%char
  else if (code c <? 32) || html_char c then Some (u00 c)
  else None.

(** The line separators U+2028 and U+2029. *)
Definition line_sep (a b c : ascii) : bool :=
  Z.eqb (code a) 226 && Z.eqb (code b) 128 && (Z.eqb (code c) 168 || Z.eqb (code c) 169).

Definition sep_text (c : ascii) : string := u_text (if Z.eqb (code c) 168 then "2028" else "2029").

(** The literal [json.Marshal] writes for a string. *)
Fixpoint encode_string (s : string) : string :=
  match s with
  | EmptyString => EmptyString
  | String c s1 =>
      if code c <? 128 then
        match escape_byte c with
        | Some e => e +:+ encode_string s1
        | None => String c (encode_string s1)
        end
      else
        match s1 with
        | String c2 s2 =>
            if utf8_2 c c2 then String c (String c2 (encode_string s2))
            else
              match s2 with
              | String c3 s3 =>
                  if utf8_3 c c2 c3 then
                    if line_sep c c2 c3 then sep_text c3 +:+ encode_string s3
                    else String c (String c2 (String c3 (encode_string s3)))
                  else
                    match s3 with
                    | String c4 s4 =>
                        if utf8_4 c c2 c3 c4
                        then String c (String c2 (String c3 (String c4 (encode_string s4))))
                        else u_text "fffd" +:+ encode_string s1
                    | EmptyString => u_text "fffd" +:+ encode_string s1
                    end
              | EmptyString => u_text "fffd" +:+ encode_string s1
              end
        | EmptyString => u_text "fffd" +:+ encode_string s1
        end
  end.

(** Well-formed UTF-8. *)
Fixpoint utf8_valid (s : string) : bool :=
  match s with
  | EmptyString => true
  | String c s1 =>
      if code c <? 128 then utf8_valid s1
      else
        match s1 with
        | String c2 s2 =>
            if utf8_2 c c2 then utf8_valid s2
            else
              match s2 with
              | String c3 s3 =>
                  if utf8_3 c c2 c3 then utf8_valid s3
                  else
                    match s3 with
                    | String c4 s4 => utf8_4 c c2 c3 c4 && utf8_valid s4
                    | EmptyString => false
                    end
              | EmptyString => false
              end
        | EmptyString => false
        end
  end.

(** The escapes [compact] adds to the text of a literal. *)
Fixpoint escape_raw (s : string) : string :=
  match s with
  | EmptyString => EmptyString
  | String c s1 =>
      if html_char c then u00 c +:+ escape_raw s1
      else
        match s1 with
        | String c2 (String c3 s3) =>
            if line_sep c c2 c3 then sep_text c3 +:+ escape_raw s3 else String c (escape_raw s1)
        | _ => String c (escape_raw s1)
        end
  end.

Fixpoint escape_json (v : json) : json :=
  match v with
  | JStr raw => JStr (escape_raw raw)
  | JArr l => JArr (map escape_json l)
  | JObj l => JObj (map (fun '(k, w) => (escape_raw k, escape_json w)) l)
  | _ => v
  end.

(** The text [json.Marshal] writes for a [json.RawMessage] holding a value. *)
Definition compact (v : json) : string := print (escape_json v).

(** * Maps of raw messages *)

(** A Go [map[string]json.RawMessage], which may be nil. *)
Definition RawMap := option (gmap string json).

(** [json.Unmarshal] of a value into such a map; [None] is a type error. *)
Definition unmarshal_map (v : json) : option RawMap :=
  match v with
  | JNull => Some None
  | JObj l => Some (Some (fold_left (fun m p => <[unquote p.1 := p.2]> m) l ∅))
  | _ => None
  end.

(** [m[k]] and [m[k] = v]; the latter panics on a nil map. *)
Definition raw_lookup (m : RawMap) (k : string) : option json :=
  match m with Some m => m !! k | None => None end.

Definition raw_assign (k : string) (v : json) (m : RawMap) : option RawMap :=
  match m with Some m => Some (Some (<[k := v]> m)) | None => None end.

(** [json.Marshal] of such a map: the keys in byte order. *)
Definition map_members (m : gmap string json) : list (string * json) :=
  omap (fun k => pair (encode_string k) <$> m !! k) (sort_strings (map fst (map_to_list m))).

Definition marshal_map (m : RawMap) : string :=
  match m with
  | None => "null"
  | Some m => print (JObj (map (fun '(k, v) => (k, escape_json v)) (map_members m)))
  end.

(** [json.Marshal] of a string, as a raw message. *)
Definition marshal_string (s : string) : json := JStr (encode_string s).

(** * Structs *)

(** Upper case, and the two runes outside ASCII that fold to a letter. *)
Fixpoint fold_name (s : string) : string :=
  match s with
  | EmptyString => EmptyString
  | String c s1 =>
      match s1 with
      | String c2 s2 =>
          if Z.eqb (code c) 197 && Z.eqb (code c2) 191 then String "S" (fold_name s2)
          else
            match s2 with
            | String c3 s3 =>
                if Z.eqb (code c) 226 && Z.eqb (code c2) 132 && Z.eqb (code c3) 170
                then String "K" (fold_name s3) else String (byte_upper c) (fold_name s1)
            | EmptyString => String (byte_upper c) (fold_name s1)
            end
      | EmptyString => String (byte_upper c) (fold_name s1)
      end
  end.

(** The members that decode into the field of the given name, in order. *)
Definition members_of (name : string) (l : list (string * json)) : list json :=
  omap (fun '(k, v) => if String.eqb (fold_name (unquote k)) (fold_name name) then Some v else None) l.

(** Decoding stores what fits and remembers whether something did not: a
    value and an error flag. *)
Definition Decoded (A : Type) : Type := A * bool.

Definition decode_all {A} (f : json -> A -> Decoded A) (vs : list json) (a : A) : Decoded A :=
  fold_left (fun acc v => let '(a, e) := acc in let '(a, e') := f v a in (a, e || e')) vs (a, false).

Definition decode_string (v : json) (a : string) : Decoded string :=
  match v with JStr raw => (unquote raw, false) | JNull => (a, false) | _ => (a, true) end.

Definition decode_bool (v : json) (a : bool) : Decoded bool :=
  match v with JBool b => (b, false) | JNull => (a, false) | _ => (a, true) end.

Definition decode_int (v : json) (a : Z) : Decoded Z :=
  match v with
  | JNum raw => match atoi raw with Some n => (n, false) | None => (a, true) end
  | JNull => (a, false)
  | _ => (a, true)
  end.

(** A struct: [f] decodes the members; anything but an object or null is a
    type error. *)
Definition decode_struct {A} (f : list (string * json) -> A -> Decoded A) (v : json) (a : A) : Decoded A :=
  match v with JObj l => f l a | JNull => (a, false) | _ => (a, true) end.

(** A pointer: null clears it, a value fills it, allocating from [zero]. *)
Definition decode_ptr {A} (zero : A) (f : json -> A -> Decoded A) (v : json) (a : option A) : Decoded (option A) :=
  match v with
  | JNull => (None, false)
  | _ => let '(x, e) := f v (default zero a) in (Some x, e)
  end.

Definition decode_field {A} (name : string) (f : json -> A -> Decoded A) (l : list (string * json)) (a : A)
    : Decoded A := decode_all f (members_of name l) a.

(** * Lemmas *)

(** ** Strings *)

Lemma string_length_ind (P : string -> Prop) :
  (forall s, (forall t, (String.length t < String.length s)%nat -> P t) -> P s) -> forall s, P s.
Proof.
  intros H s. assert (forall n t, (String.length t < n)%nat -> P t) as Hn.
  { induction n as [|n IH]; intros t Ht; [lia|]. apply H. intros u Hu. apply IH. lia. }
  apply (Hn (S (String.length s))). lia.
Qed.

Lemma str_app_cons (x : ascii) (a b : string) : String x a +:+ b = String x (a +:+ b).
Proof. done. Qed.

Lemma str_app_empty (b : string) : "" +:+ b = b.
Proof. done. Qed.

Lemma str_app_assoc (a b c : string) : (a +:+ b) +:+ c = a +:+ (b +:+ c).
Proof. induction a as [|x a IH]; [done|]. by rewrite !str_app_cons, IH. Qed.

Lemma str_app_nil (a : string) : a +:+ "" = a.
Proof. induction a as [|x a IH]; [done|]. by rewrite str_app_cons, IH. Qed.

Lemma str_app_length (a b : string) :
  String.length (a +:+ b) = (String.length a + String.length b)%nat.
Proof. induction a as [|x a IH]; [done|]. rewrite str_app_cons. simpl. by rewrite IH. Qed.

(** Appends in normal form: right-nested, heads exposed. *)
Ltac str_norm := repeat (rewrite str_app_assoc || rewrite str_app_cons || rewrite str_app_empty).

(** The texts of literals: plain bytes, one-letter escapes and hexadecimal
    escapes. *)
Inductive raw_ok : string -> Prop :=
| raw_nil : raw_ok ""
| raw_char c r :
    c <> dquote -> c <> backslash -> (code c <? 32) = false -> raw_ok r -> raw_ok (String c r)
| raw_escape e d r :
    e <> "u"%char -> simple_escape e = Some d -> raw_ok r -> raw_ok (String backslash (String e r))
| raw_u h1 h2 h3 h4 n r :
    hex4 h1 h2 h3 h4 = Some n -> raw_ok r ->
    raw_ok (String backslash (String "u" (String h1 (String h2 (String h3 (String h4 r)))))).

(** Whatever follows, the scanner stops at the closing quote. *)
Lemma raw_ok_lex r rest : raw_ok r -> lex_string (r +:+ String dquote rest) = Some (r, rest).
Proof.
  induction 1 as [|c r Hq Hb Hc Hr IH|e d r Hu He Hr IH|h1 h2 h3 h4 n r Hh Hr IH]; [done|..];
    rewrite ?str_app_cons; cbn [lex_string].
  - by rewrite (proj2 (Ascii.eqb_neq c _) Hq), (proj2 (Ascii.eqb_neq c _) Hb), Hc, IH.
  - simpl (Ascii.eqb backslash _). cbn iota. by rewrite (proj2 (Ascii.eqb_neq e "u") Hu), He, IH.
  - simpl (Ascii.eqb _ _). cbn iota. by rewrite Hh, IH.
Qed.

Lemma lex_string_ok (s r rest : string) :
  lex_string s = Some (r, rest) -> s = r +:+ String dquote rest /\ raw_ok r.
Proof.
  revert r rest. induction s as [s IH] using string_length_ind. intros r rest.
  destruct s as [|c s1]; [done|]. cbn [lex_string].
  destruct (Ascii.eqb_spec c dquote) as [->|Hq]; [intros [= <- <-]; split; [done|constructor]|].
  destruct (Ascii.eqb_spec c backslash) as [->|Hb].
  - destruct s1 as [|e s2]; [done|]. destruct (Ascii.eqb_spec e "u") as [->|Hu].
    + destruct s2 as [|h1 [|h2 [|h3 [|h4 s3]]]]; try done.
      destruct (hex4 h1 h2 h3 h4) eqn:Eh; [|done].
      destruct (lex_string s3) as [[r3 rest3]|] eqn:E3; [|done]. intros [= <- <-].
      destruct (IH s3) with (r := r3) (rest := rest3) as [-> Hr3]; [simpl; lia|done|].
      split; [done|]. by eapply raw_u.
    + destruct (simple_escape e) eqn:Ee; [|done].
      destruct (lex_string s2) as [[r2 rest2]|] eqn:E2; [|done]. intros [= <- <-].
      destruct (IH s2) with (r := r2) (rest := rest2) as [-> Hr2]; [simpl; lia|done|].
      split; [done|]. by eapply raw_escape.
  - destruct (code c <? 32) eqn:Ec; [done|].
    destruct (lex_string s1) as [[r1 rest1]|] eqn:E1; [|done]. intros [= <- <-].
    destruct (IH s1) with (r := r1) (rest := rest1) as [-> Hr1]; [simpl; lia|done|].
    split; [done|]. by apply raw_char.
Qed.

(** ** Numbers *)

(** What may follow a number: the end of the input, or a byte that continues
    no number. *)
Definition ends_number (s : string) : bool :=
  match s with
  | EmptyString => true
  | String c _ => is_space c || Ascii.eqb c "," || Ascii.eqb c "]" || Ascii.eqb c "}"
  end.

Lemma ends_number_spec s :
  ends_number s = true ->
  span_digits s = ("", s) /\ lex_frac s = Some ("", s) /\ lex_exp s = Some ("", s).
Proof.
  destruct s as [|c s]; [done|]. cbn [ends_number]. unfold is_space. intros H.
  repeat (apply orb_true_iff in H as [H|H]); apply Ascii.eqb_eq in H as ->; done.
Qed.

Lemma span_digits_ok s d r :
  span_digits s = (d, r) ->
  s = d +:+ r /\
  (forall t, (forall c t', t = String c t' -> is_digit c = false) -> span_digits (d +:+ t) = (d, t)) /\
  (forall c r', r = String c r' -> is_digit c = false).
Proof.
  revert d r. induction s as [|c s IH]; intros d r; cbn [span_digits].
  - intros [= <- <-]. split_and!; [done| |done]. intros [|c t] Ht; [done|]. simpl. by rewrite (Ht c t eq_refl).
  - destruct (is_digit c) eqn:Ed.
    + destruct (span_digits s) as [d1 r1]. intros [= <- <-]. destruct (IH d1 r1 eq_refl) as (-> & H2 & H3).
      split_and!; [done| |done]. intros t Ht. rewrite ?str_app_cons. cbn [span_digits]. by rewrite Ed, H2.
    + intros [= <- <-]. split_and!; [done| |by intros ? ? [= -> ->]].
      intros [|c' t] Ht; [done|]. simpl. by rewrite (Ht c' t eq_refl).
Qed.

Definition no_digit (t : string) : Prop := forall c t', t = String c t' -> is_digit c = false.

Lemma ends_no_digit t : ends_number t = true -> no_digit t.
Proof.
  intros H c t' ->. destruct (ends_number_spec _ H) as [Hs _]. simpl in Hs.
  destruct (is_digit c); [|done]. by destruct (span_digits t').
Qed.

Lemma lex_digits1_ok s d r :
  lex_digits1 s = Some (d, r) ->
  s = d +:+ r /\ d <> "" /\ forall t, no_digit t -> lex_digits1 (d +:+ t) = Some (d, t).
Proof.
  unfold lex_digits1. destruct (span_digits s) as [d0 r0] eqn:E.
  destruct (str_empty d0) eqn:Ee; [done|]. intros [= <- <-].
  destruct (span_digits_ok _ _ _ E) as (H1 & H2 & _). split_and!; [done|by intros ->|].
  intros t Ht. rewrite H2 by done. by rewrite Ee.
Qed.

Lemma lex_exp_ok s e r :
  lex_exp s = Some (e, r) ->
  s = e +:+ r /\ (forall t, ends_number t = true -> lex_exp (e +:+ t) = Some (e, t)) /\
  (forall t, ends_number t = true -> no_digit (e +:+ t) /\ (forall t', e +:+ t <> String "." t')).
Proof.
  assert (forall t, ends_number t = true -> no_digit t /\ forall t', t <> String "." t') as Hends.
  { intros t Ht. split; [by apply ends_no_digit|]. intros t' ->. done. }
  destruct s as [|c s1]; cbn [lex_exp].
  { intros [= <- <-]. split_and!; [done| |done]. intros t Ht. by apply ends_number_spec. }
  destruct (Ascii.eqb c "e" || Ascii.eqb c "E") eqn:Ece.
  2:{ intros [= <- <-]. split_and!; [done| |done]. intros t Ht. by apply ends_number_spec. }
  assert (is_digit c = false /\ c <> "."%char) as [Hd Hdot].
  { apply orb_true_iff in Ece as [H|H]; apply Ascii.eqb_eq in H as ->; done. }
  assert (forall e' t, no_digit (String c e' +:+ t) /\ forall t', String c e' +:+ t <> String "." t') as Hno.
  { intros e' t. split; [intros ? ? [= <- <-]; done|]. intros t' [= ? _]. done. }
  destruct s1 as [|g s2]; [done|]. destruct (Ascii.eqb g "+" || Ascii.eqb g "-") eqn:Eg.
  - destruct (lex_digits1 s2) as [[d r0]|] eqn:E; [|done]. intros [= <- <-].
    destruct (lex_digits1_ok _ _ _ E) as (-> & Hne & Hd1). split_and!; [done| |intros t _; apply Hno].
    intros t Ht. rewrite ?str_app_cons. cbn [lex_exp]. by rewrite Ece, Eg, Hd1 by by apply ends_no_digit.
  - destruct (lex_digits1 (String g s2)) as [[d r0]|] eqn:E; [|done]. intros [= <- <-].
    destruct (lex_digits1_ok _ _ _ E) as (H1 & Hne & Hd1). rewrite H1. split_and!; [done| |intros t _; apply Hno].
    intros t Ht. rewrite ?str_app_cons. cbn [lex_exp]. rewrite Ece. destruct d as [|g' d]; [done|].
    injection H1 as <- _. specialize (Hd1 t (ends_no_digit t Ht)).
    rewrite !str_app_cons in *. by rewrite Eg, Hd1.
Qed.

Lemma lex_frac_ok s f r :
  lex_frac s = Some (f, r) ->
  s = f +:+ r /\ (forall t, no_digit t -> (forall t', t <> String "." t') -> lex_frac (f +:+ t) = Some (f, t)) /\
  (f = "" \/ exists f', f = String "." f').
Proof.
  assert (forall t, (forall t', t <> String "." t') -> lex_frac t = Some ("", t)) as Hno.
  { intros [|c t] Ht; [done|]. cbn [lex_frac]. destruct (Ascii.eqb_spec c ".") as [->|]; [by destruct (Ht t)|done]. }
  destruct s as [|c s1]; cbn [lex_frac].
  { intros [= <- <-]. split_and!; [done| |by left]. intros t _. apply Hno. }
  destruct (Ascii.eqb_spec c ".") as [->|Hc].
  2:{ intros [= <- <-]. split_and!; [done| |by left]. intros t _. apply Hno. }
  destruct (lex_digits1 s1) as [[d r0]|] eqn:E; [|done]. intros [= <- <-].
  destruct (lex_digits1_ok _ _ _ E) as (-> & Hne & Hd1). split_and!; [done| |right; by eexists].
  intros t Ht _. rewrite ?str_app_cons. cbn [lex_frac]. simpl (Ascii.eqb "." "."). cbn iota. by rewrite Hd1.
Qed.

Lemma lex_int_ok s i r :
  lex_int s = Some (i, r) ->
  s = i +:+ r /\ (forall t, no_digit t -> lex_int (i +:+ t) = Some (i, t)) /\
  exists c i', i = String c i' /\ is_digit c = true.
Proof.
  destruct s as [|c s1]; cbn [lex_int]; [done|]. destruct (Ascii.eqb_spec c "0") as [->|Hc].
  { intros [= <- <-]. split_and!; [done|done|]. by eexists _, _. }
  destruct (is_digit c) eqn:Ed; [|done]. destruct (span_digits s1) as [d r0] eqn:E. intros [= <- <-].
  destruct (span_digits_ok _ _ _ E) as (-> & H2 & _). split_and!; [done| |by eexists _, _].
  intros t Ht. rewrite ?str_app_cons. cbn [lex_int]. by rewrite (proj2 (Ascii.eqb_neq c _) Hc), Ed, H2.
Qed.

(** A number's text: whatever may follow it, the scanner stops there. *)
Definition num_ok (raw : string) : Prop :=
  (forall t, ends_number t = true -> lex_number (raw +:+ t) = Some (raw, t)) /\
  exists c raw', raw = String c raw' /\ (c = "-"%char \/ is_digit c = true).

Lemma lex_unsigned_ok s n r :
  lex_unsigned s = Some (n, r) ->
  s = n +:+ r /\ (forall t, ends_number t = true -> lex_unsigned (n +:+ t) = Some (n, t)) /\
  exists c n', n = String c n' /\ is_digit c = true.
Proof.
  unfold lex_unsigned. destruct (lex_int s) as [[i s1]|] eqn:Ei; [|done].
  destruct (lex_frac s1) as [[f s2]|] eqn:Ef; [|done].
  destruct (lex_exp s2) as [[e s3]|] eqn:Ee; [|done]. intros [= <- <-].
  destruct (lex_int_ok _ _ _ Ei) as (-> & Hi & c & i' & -> & Hc).
  destruct (lex_frac_ok _ _ _ Ef) as (-> & Hf & Hf'). destruct (lex_exp_ok _ _ _ Ee) as (-> & He & He').
  split_and!; [by rewrite !str_app_assoc| |].
  - intros t Ht. destruct (He' t Ht) as [Hn Hdot]. rewrite !str_app_assoc. rewrite Hi.
    + rewrite Hf, He by done. done.
    + destruct Hf' as [->|[f' ->]]; [done|]. intros ? ? [= <- <-]. done.
  - exists c, (i' +:+ f +:+ e). done.
Qed.

Lemma lex_number_ok s n r : lex_number s = Some (n, r) -> s = n +:+ r /\ num_ok n.
Proof.
  intros H. assert (forall c s', s = String c s' -> c <> "-"%char -> lex_number s = lex_unsigned s) as Hu.
  { intros c s' -> Hc. destruct c as [[] [] [] [] [] [] [] []]; try done. }
  destruct s as [|c s']; [done|]. destruct (ascii_dec c "-") as [->|Hc].
  - cbn [lex_number] in H. destruct (lex_unsigned s') as [[n' r']|] eqn:E; [|done]. injection H as <- <-.
    destruct (lex_unsigned_ok _ _ _ E) as (-> & H2 & _). split; [done|]. split; [|by eexists _, _; auto].
    intros t Ht. rewrite ?str_app_cons. cbn [lex_number]. by rewrite H2.
  - rewrite (Hu c s') in H by done. destruct (lex_unsigned_ok _ _ _ H) as (E & H2 & d & n' & -> & Hd).
    split; [done|]. split; [|eexists _, _; auto]. intros t Ht.
    assert (forall u, lex_number (String d u) = lex_unsigned (String d u)) as Hd'.
    { intros u. destruct d as [[] [] [] [] [] [] [] []]; try done. }
    rewrite ?str_app_cons. rewrite Hd'. apply H2. done.
Qed.

(** ** Values *)

Section JsonInd.
Context (P : json -> Prop).
Context (Hnull : P JNull) (Hbool : forall b, P (JBool b)) (Hnum : forall r, P (JNum r))
  (Hstr : forall r, P (JStr r)) (Harr : forall l, Forall P l -> P (JArr l))
  (Hobj : forall l, Forall (fun p => P p.2) l -> P (JObj l)).

(** Induction over nested values. *)
Fixpoint json_ind' (v : json) : P v :=
  match v with
  | JNull => Hnull
  | JBool b => Hbool b
  | JNum r => Hnum r
  | JStr r => Hstr r
  | JArr l =>
      Harr l ((fix go (l : list json) : Forall P l :=
        match l with [] => Forall_nil_2 _ | x :: l' => Forall_cons_2 _ _ _ (json_ind' x) (go l') end) l)
  | JObj l =>
      Hobj l ((fix go (l : list (string * json)) : Forall (fun p => P p.2) l :=
        match l with
        | [] => Forall_nil_2 _
        | p :: l' =>
            Forall_cons_2 (fun p : string * json => P p.2) p l'
              (match p as p0 return P p0.2 with (k, w) => json_ind' w end) (go l')
        end) l)
  end.
End JsonInd.

(** Values whose literals scan. *)
Fixpoint json_wf (v : json) : Prop :=
  match v with
  | JNum r => num_ok r
  | JStr r => raw_ok r
  | JArr l => foldr (fun w Q => json_wf w /\ Q) True l
  | JObj l => foldr (fun '(k, w) Q => (raw_ok k /\ json_wf w) /\ Q) True l
  | _ => True
  end.

Lemma json_wf_arr l : json_wf (JArr l) <-> Forall json_wf l.
Proof.
  simpl. induction l as [|v l IH]; simpl; [by rewrite Forall_nil|]. by rewrite Forall_cons, IH.
Qed.

Lemma json_wf_obj l : json_wf (JObj l) <-> Forall (fun p => raw_ok p.1 /\ json_wf p.2) l.
Proof.
  simpl. induction l as [|[k v] l IH]; simpl; [by rewrite Forall_nil|]. by rewrite Forall_cons, IH.
Qed.

(** The number of recursive calls a value takes, and its nesting. *)
Fixpoint jsize (v : json) : nat :=
  match v with
  | JArr l => S (foldr (fun w n => S (jsize w) + n)%nat 0%nat l)
  | JObj l => S (foldr (fun '(_, w) n => S (jsize w) + n)%nat 0%nat l)
  | _ => 1%nat
  end.

Fixpoint jdepth (v : json) : Z :=
  match v with
  | JArr l => 1 + foldr (fun w n => Z.max (jdepth w) n) 0 l
  | JObj l => 1 + foldr (fun '(_, w) n => Z.max (jdepth w) n) 0 l
  | _ => 0
  end.

Lemma jdepth_nonneg v : 0 <= jdepth v.
Proof.
  induction v as [| | | |l IH|l IH] using json_ind'; simpl; try lia.
  - induction IH as [|w l Hw _ IH]; simpl; lia.
  - induction IH as [|[k w] l Hw _ IH]; simpl in *; lia.
Qed.

(** The first byte of a printed value starts a value. *)
Lemma print_head v :
  json_wf v -> exists c s, print v = String c s /\ is_space c = false /\ c <> "]"%char.
Proof.
  destruct v as [|[]|r|r|l|l]; simpl; intros Hv; try by eexists _, _.
  destruct Hv as (_ & c & r' & -> & Hc). eexists _, _. split; [done|].
  destruct Hc as [->|Hc]; [done|].
  destruct c as [[] [] [] [] [] [] [] []]; done.
Qed.

Lemma skip_ws_head c s : is_space c = false -> skip_ws (String c s) = String c s.
Proof. simpl. by intros ->. Qed.

Lemma next_is_same c s : is_space c = false -> next_is c (String c s) = Some s.
Proof. intros H. unfold next_is. rewrite skip_ws_head by done. by rewrite Ascii.eqb_refl. Qed.

Lemma next_is_other c d s : is_space d = false -> d <> c -> next_is c (String d s) = None.
Proof.
  intros H Hne. unfold next_is. rewrite skip_ws_head by done. by rewrite (proj2 (Ascii.eqb_neq d c) Hne).
Qed.

Lemma has_prefix_app p s : has_prefix (p +:+ s) p = true /\ str_drop (String.length p) (p +:+ s) = s.
Proof.
  unfold has_prefix. induction p as [|c p [IH1 IH2]]; [by destruct s|]. rewrite str_app_cons. simpl.
  by destruct (ascii_dec c c).
Qed.

Lemma after_app p v s : after p v (p +:+ s) = Some (v, s).
Proof. unfold after. destruct (has_prefix_app p s) as [-> ->]. done. Qed.

(** A number's first byte selects the last branch of the parser. *)
Lemma parse_number fuel d r rest :
  num_ok r -> ends_number rest = true -> parse_value (S fuel) d (r +:+ rest) = Some (JNum r, rest).
Proof.
  intros [Hr (c & r' & -> & Hc)] Hrest. specialize (Hr rest Hrest). rewrite str_app_cons in *.
  cbn [parse_value]. rewrite skip_ws_head.
  2:{ destruct Hc as [->|Hc]; [done|]. by destruct c as [[] [] [] [] [] [] [] []]. }
  assert (forall x : ascii, (x = "{" \/ x = "[" \/ x = dquote \/ x = "t" \/ x = "f" \/ x = "n")%char ->
    Ascii.eqb c x = false) as Hx.
  { intros x Hx. apply Ascii.eqb_neq. intros ->.
    destruct Hc as [->|Hc]; repeat destruct Hx as [Hx|Hx]; subst; done. }
  rewrite !Hx by tauto. by rewrite Hr.
Qed.

Lemma parse_print_list {A} (pr : A -> string) (l : list A) (close : string) (rest : string) :
  l <> [] ->
  comma_join (map pr l) +:+ close +:+ rest =
  match l with
  | [] => ""
  | x :: l' =>
      pr x +:+ (match l' with [] => close +:+ rest | _ => "," +:+ (comma_join (map pr l') +:+ close +:+ rest) end)
  end.
Proof.
  destruct l as [|x [|y l]]; [done|done|]. intros _. cbn [map comma_join]. by rewrite !str_app_assoc.
Qed.

Section ParsePrint.

Let roundtrips (v : json) : Prop :=
  forall fuel d rest, json_wf v -> (jsize v <= fuel)%nat -> d + jdepth v <= max_depth ->
    ends_number rest = true -> parse_value fuel d (print v +:+ rest) = Some (v, rest).

Lemma parse_print_elements l fuel d rest :
  Forall roundtrips l -> Forall json_wf l -> l <> [] ->
  (foldr (fun w n => S (jsize w) + n) 0 l <= fuel)%nat ->
  d + foldr (fun w n => Z.max (jdepth w) n) 0 l <= max_depth ->
  parse_elements fuel d (comma_join (map print l) +:+ "]" +:+ rest) = Some (l, rest).
Proof.
  intros HP. revert fuel. induction HP as [|v l Hv HP IH]; intros fuel Hwf Hne Hf Hd; [done|].
  apply Forall_cons in Hwf as [Hwv Hwf]. cbn [foldr] in Hf, Hd.
  destruct fuel as [|fuel]; [lia|]. rewrite parse_print_list by done. cbn [parse_elements].
  rewrite Hv; [|done|lia|lia|by destruct l].
  destruct l as [|w l]; str_norm.
  - by rewrite next_is_other, next_is_same.
  - rewrite next_is_same by done.
    rewrite IH; [done|done|done|lia|lia].
Qed.

Lemma parse_print_members l fuel d rest :
  Forall (fun p => roundtrips p.2) l -> Forall (fun p => raw_ok p.1 /\ json_wf p.2) l -> l <> [] ->
  (foldr (fun '(_, w) n => S (jsize w) + n) 0 l <= fuel)%nat ->
  d + foldr (fun '(_, w) n => Z.max (jdepth w) n) 0 l <= max_depth ->
  parse_members fuel d (comma_join (map (fun '(k, w) => quote k +:+ ":" +:+ print w) l) +:+ "}" +:+ rest)
    = Some (l, rest).
Proof.
  intros HP. revert fuel. induction HP as [|[k v] l Hv HP IH]; intros fuel Hwf Hne Hf Hd; [done|].
  apply Forall_cons in Hwf as [[Hk Hwv] Hwf]. cbn [foldr fst snd] in *.
  destruct fuel as [|fuel]; [lia|]. rewrite parse_print_list by done. cbn [parse_members].
  unfold quote. str_norm. rewrite next_is_same, raw_ok_lex, next_is_same by done.
  rewrite Hv; [|done|lia|lia|by destruct l].
  destruct l as [|w l]; str_norm.
  - by rewrite next_is_other, next_is_same.
  - rewrite next_is_same by done. rewrite IH; [done|done|done|lia|lia].
Qed.

Lemma parse_print_rest v : roundtrips v.
Proof.
  induction v as [|b|r|r|l IH|l IH] using json_ind'; intros fuel d rest Hwf Hf Hd Hrest;
    (destruct fuel as [|fuel]; [simpl in Hf; lia|]).
  - cbn [parse_value print]. str_norm. rewrite skip_ws_head by done. apply (after_app "ull" JNull).
  - destruct b; cbn [parse_value print]; str_norm; rewrite skip_ws_head by done;
      [apply (after_app "rue" (JBool true))|apply (after_app "alse" (JBool false))].
  - by apply parse_number.
  - cbn [parse_value print]. unfold quote. str_norm. rewrite skip_ws_head by done. simpl Ascii.eqb. cbn iota.
    str_norm. by rewrite raw_ok_lex.
  - apply json_wf_arr in Hwf. cbn [print jsize jdepth] in *. str_norm. cbn [parse_value]. rewrite skip_ws_head by done.
    simpl Ascii.eqb. cbn iota. pose proof (jdepth_nonneg (JArr l)) as Hp. cbn [jdepth] in Hp.
    assert (0 <= foldr (fun w n => Z.max (jdepth w) n) 0 l) by (clear; induction l; simpl; lia).
    rewrite (proj2 (Z.ltb_ge _ _)) by lia. destruct l as [|v l].
    { cbn [map comma_join]. str_norm. by rewrite next_is_same. }
    change (String "]" rest) with ("]" +:+ rest).
    assert (next_is "]" (comma_join (map print (v :: l)) +:+ "]" +:+ rest) = None) as ->.
    { rewrite parse_print_list by done. destruct (print_head v) as (c & s & -> & Hc & Hne);
        [by apply Forall_cons in Hwf as [? _]|]. str_norm. by apply next_is_other. }
    rewrite parse_print_elements; [done|done|done|done|lia|lia].
  - apply json_wf_obj in Hwf. cbn [print jsize jdepth] in *. str_norm. cbn [parse_value]. rewrite skip_ws_head by done.
    simpl Ascii.eqb. cbn iota. pose proof (jdepth_nonneg (JObj l)) as Hp. cbn [jdepth] in Hp.
    assert (0 <= foldr (fun '(_, w) n => Z.max (jdepth w) n) 0 l) by (clear; induction l as [|[? ?] l]; simpl; lia).
    rewrite (proj2 (Z.ltb_ge _ _)) by lia. destruct l as [|[k v] l].
    { cbn [map comma_join]. str_norm. by rewrite next_is_same. }
    change (String "}" rest) with ("}" +:+ rest).
    assert (next_is "}" (comma_join (map (fun '(k, w) => quote k +:+ ":" +:+ print w) ((k, v) :: l)) +:+ "}" +:+ rest)
      = None) as ->.
    { rewrite parse_print_list by done. unfold quote. str_norm. by apply next_is_other. }
    rewrite parse_print_members; [done|done|done|done|lia|lia].
Qed.

End ParsePrint.

(** ** Parsing consumes, and yields values that print back *)

Lemma skip_ws_length s : (String.length (skip_ws s) <= String.length s)%nat.
Proof. induction s as [|c s IH]; [done|]. cbn [skip_ws]. destruct (is_space c); simpl; lia. Qed.

Lemma next_is_length c s r : next_is c s = Some r -> (String.length r < String.length s)%nat.
Proof.
  unfold next_is. pose proof (skip_ws_length s). destruct (skip_ws s) as [|d s']; [done|].
  destruct (Ascii.eqb d c); [|done]. intros [= <-]. simpl in *. lia.
Qed.

Lemma lex_string_length s r rest : lex_string s = Some (r, rest) -> (String.length rest < String.length s)%nat.
Proof. intros [-> _]%lex_string_ok. rewrite str_app_length. simpl. lia. Qed.

Lemma lex_number_length s r rest : lex_number s = Some (r, rest) -> (String.length rest < String.length s)%nat.
Proof. intros [-> (_ & c & r' & -> & _)]%lex_number_ok. rewrite str_app_length. simpl. lia. Qed.

Lemma after_length p v s v' r :
  after p v s = Some (v', r) -> v' = v /\ (String.length r <= String.length s)%nat.
Proof.
  unfold after. destruct (has_prefix s p); [|done]. intros [= <- <-]. split; [done|].
  generalize (String.length p). intros n. revert s. induction n as [|n IH]; [by intros []|].
  intros [|c s]; simpl; [lia|]. specialize (IH s). lia.
Qed.

Lemma parse_ok fuel :
  (forall d s v r, parse_value fuel d s = Some (v, r) -> d <= max_depth ->
    json_wf v /\ (String.length r < String.length s)%nat /\ d + jdepth v <= max_depth) /\
  (forall d s l r, parse_elements fuel d s = Some (l, r) -> d <= max_depth ->
    Forall json_wf l /\ (String.length r < String.length s)%nat /\
    d + foldr (fun w n => Z.max (jdepth w) n) 0 l <= max_depth) /\
  (forall d s l r, parse_members fuel d s = Some (l, r) -> d <= max_depth ->
    Forall (fun p => raw_ok p.1 /\ json_wf p.2) l /\ (String.length r < String.length s)%nat /\
    d + foldr (fun '(_, w) n => Z.max (jdepth w) n) 0 l <= max_depth).
Proof.
  induction fuel as [|fuel (IHv & IHe & IHm)]; [done|]. split_and!.
  - intros d s v r. cbn [parse_value]. pose proof (skip_ws_length s) as Hws.
    destruct (skip_ws s) as [|c s']; [done|]. simpl in Hws. intros H Hd.
    destruct (Ascii.eqb c "{").
    { destruct (max_depth <? d + 1) eqn:Em; [done|]. bool_to_prop. destruct (next_is "}" s') as [r'|] eqn:En.
      - injection H as <- <-. apply next_is_length in En. split_and!; [done|lia|simpl; lia].
      - destruct (parse_members fuel (d + 1) s') as [[l r']|] eqn:E; [|done]. injection H as <- <-.
        destruct (IHm _ _ _ _ E) as (H1 & H2 & H3); [lia|]. rewrite json_wf_obj.
        split_and!; [done|lia|cbn [jdepth]; lia]. }
    destruct (Ascii.eqb c "[").
    { destruct (max_depth <? d + 1) eqn:Em; [done|]. bool_to_prop. destruct (next_is "]" s') as [r'|] eqn:En.
      - injection H as <- <-. apply next_is_length in En. split_and!; [done|lia|simpl; lia].
      - destruct (parse_elements fuel (d + 1) s') as [[l r']|] eqn:E; [|done]. injection H as <- <-.
        destruct (IHe _ _ _ _ E) as (H1 & H2 & H3); [lia|]. rewrite json_wf_arr.
        split_and!; [done|lia|cbn [jdepth]; lia]. }
    destruct (Ascii.eqb c dquote).
    { destruct (lex_string s') as [[raw r']|] eqn:E; [|done]. injection H as <- <-.
      pose proof (lex_string_length _ _ _ E). apply lex_string_ok in E as [_ E].
      split_and!; [done|lia|simpl; lia]. }
    repeat match type of H with (if ?b then after ?p ?w ?t else _) = _ =>
      destruct b; [apply after_length in H as [-> H]; split_and!; [done|lia|simpl; lia]|] end.
    destruct (lex_number (String c s')) as [[raw r']|] eqn:E; [|done]. injection H as <- <-.
    pose proof (lex_number_length _ _ _ E) as Hl. apply lex_number_ok in E as [_ E]. simpl in Hl.
    split_and!; [done|lia|simpl; lia].
  - intros d s l r. cbn [parse_elements]. intros H Hd.
    destruct (parse_value fuel d s) as [[v s1]|] eqn:E; [|done].
    destruct (IHv _ _ _ _ E Hd) as (H1 & H2 & H3).
    destruct (next_is "," s1) as [s2|] eqn:En.
    + apply next_is_length in En. destruct (parse_elements fuel d s2) as [[l' r']|] eqn:E'; [|done].
      injection H as <- <-. destruct (IHe _ _ _ _ E' Hd) as (H4 & H5 & H6).
      split_and!; [by constructor|lia|simpl; lia].
    + destruct (next_is "]" s1) as [s2|] eqn:En'; [|done]. injection H as <- <-.
      apply next_is_length in En'. split_and!; [by repeat constructor|lia|simpl; lia].
  - intros d s l r. cbn [parse_members]. intros H Hd.
    destruct (next_is dquote s) as [s0|] eqn:En0; [|done]. apply next_is_length in En0.
    destruct (lex_string s0) as [[k s1]|] eqn:Ek; [|done]. pose proof (lex_string_length _ _ _ Ek).
    apply lex_string_ok in Ek as [_ Hk].
    destruct (next_is ":" s1) as [s2|] eqn:En1; [|done]. apply next_is_length in En1.
    destruct (parse_value fuel d s2) as [[v s3]|] eqn:E; [|done].
    destruct (IHv _ _ _ _ E Hd) as (H1 & H2 & H3).
    destruct (next_is "," s3) as [s4|] eqn:En.
    + apply next_is_length in En. destruct (parse_members fuel d s4) as [[l' r']|] eqn:E'; [|done].
      injection H as <- <-. destruct (IHm _ _ _ _ E' Hd) as (H4 & H5 & H6).
      split_and!; [by constructor|lia|simpl; lia].
    + destruct (next_is "}" s3) as [s4|] eqn:En'; [|done]. injection H as <- <-.
      apply next_is_length in En'. split_and!; [by repeat constructor|lia|simpl; lia].
Qed.

Lemma parse_wf s v : parse s = Some v -> json_wf v /\ jdepth v <= max_depth.
Proof.
  unfold parse. destruct (parse_value _ 0 s) as [[w r]|] eqn:E; [|done].
  destruct (str_empty (skip_ws r)); [|done]. intros [= <-].
  destruct (proj1 (parse_ok _) _ _ _ _ E) as (H1 & _ & H3); [unfold max_depth; lia|]. split; [done|lia].
Qed.

(** More fuel than twice the length changes nothing. *)
Lemma parse_fuel n :
  (forall s d f1 f2, (String.length s <= n)%nat -> (2 * String.length s + 1 <= f1)%nat ->
    (2 * String.length s + 1 <= f2)%nat -> d <= max_depth -> parse_value f1 d s = parse_value f2 d s) /\
  (forall s d f1 f2, (String.length s <= n)%nat -> (2 * String.length s + 2 <= f1)%nat ->
    (2 * String.length s + 2 <= f2)%nat -> d <= max_depth -> parse_elements f1 d s = parse_elements f2 d s) /\
  (forall s d f1 f2, (String.length s <= n)%nat -> (2 * String.length s + 2 <= f1)%nat ->
    (2 * String.length s + 2 <= f2)%nat -> d <= max_depth -> parse_members f1 d s = parse_members f2 d s).
Proof.
  induction n as [n IH] using lt_wf_ind.
  assert (forall s d f1 f2, (String.length s <= n)%nat -> (2 * String.length s + 1 <= f1)%nat ->
    (2 * String.length s + 1 <= f2)%nat -> d <= max_depth -> parse_value f1 d s = parse_value f2 d s) as Hv.
  { intros s d f1 f2 Hn H1 H2 Hd. destruct f1 as [|f1], f2 as [|f2]; try lia. cbn [parse_value].
    pose proof (skip_ws_length s) as Hws. destruct (skip_ws s) as [|c s']; [done|]. simpl in Hws.
    destruct (IH (String.length s') ltac:(lia)) as (_ & IHe & IHm).
    destruct (max_depth <? d + 1) eqn:Em; [done|]. bool_to_prop.
    by rewrite (IHe s' (d + 1) f1 f2), (IHm s' (d + 1) f1 f2) by lia. }
  split_and!; [done| |].
  - intros s d f1 f2 Hn H1 H2 Hd. destruct f1 as [|f1], f2 as [|f2]; try lia. cbn [parse_elements].
    rewrite (Hv s d f1 f2) by lia. destruct (parse_value f2 d s) as [[v s1]|] eqn:E; [|done].
    destruct (proj1 (parse_ok _) _ _ _ _ E Hd) as (_ & Hl & _).
    destruct (next_is "," s1) as [s2|] eqn:En; [|done]. apply next_is_length in En.
    destruct (IH (String.length s2) ltac:(lia)) as (_ & IHe & _). by rewrite (IHe s2 d f1 f2) by lia.
  - intros s d f1 f2 Hn H1 H2 Hd. destruct f1 as [|f1], f2 as [|f2]; try lia. cbn [parse_members].
    destruct (next_is dquote s) as [s0|] eqn:En0; [|done]. apply next_is_length in En0.
    destruct (lex_string s0) as [[k s1]|] eqn:Ek; [|done]. apply lex_string_length in Ek.
    destruct (next_is ":" s1) as [s2|] eqn:En1; [|done]. apply next_is_length in En1.
    rewrite (Hv s2 d f1 f2) by lia. destruct (parse_value f2 d s2) as [[v s3]|] eqn:E; [|done].
    destruct (proj1 (parse_ok _) _ _ _ _ E Hd) as (_ & Hl & _).
    destruct (next_is "," s3) as [s4|] eqn:En; [|done]. apply next_is_length in En.
    destruct (IH (String.length s4) ltac:(lia)) as (_ & _ & IHm). by rewrite (IHm s4 d f1 f2) by lia.
Qed.

(** The printed text is long enough for the parser's fuel. *)
Lemma comma_join_length l :
  (foldr (fun s n => String.length s + n)%nat 0%nat l <= String.length (comma_join l))%nat.
Proof.
  induction l as [|x [|y l] IH]; [done|simpl; lia|]. cbn [comma_join foldr] in *.
  rewrite !str_app_length. simpl in *. lia.
Qed.

Lemma jsize_print v : json_wf v -> (jsize v + 1 <= 2 * String.length (print v))%nat.
Proof.
  induction v as [|[]|r|r|l IH|l IH] using json_ind'; intros Hwf; try (simpl; lia).
  - destruct Hwf as (_ & c & r' & -> & _). simpl. lia.
  - apply json_wf_arr in Hwf. cbn [print jsize]. rewrite !str_app_length.
    pose proof (comma_join_length (map print l)) as Hj. simpl (String.length "["). simpl (String.length "]").
    assert (foldr (fun w n => S (jsize w) + n) 0 l <=
      2 * foldr (fun s n => String.length s + n) 0 (map print l))%nat; [|lia]. clear Hj.
    induction IH as [|v l Hv _ IH]; [done|]. apply Forall_cons in Hwf as [Hwv Hwf]. cbn [foldr map].
    specialize (Hv Hwv). specialize (IH Hwf). lia.
  - apply json_wf_obj in Hwf. cbn [print jsize]. rewrite !str_app_length.
    set (pr := fun '(k, w) => quote k +:+ ":" +:+ print w).
    pose proof (comma_join_length (map pr l)) as Hj. simpl (String.length "{"). simpl (String.length "}").
    assert (foldr (fun '(_, w) n => S (jsize w) + n) 0 l <=
      2 * foldr (fun s n => String.length s + n) 0 (map pr l))%nat; [|lia]. clear Hj.
    induction IH as [|[k v] l Hv _ IH]; [done|]. apply Forall_cons in Hwf as [[_ Hwv] Hwf]. cbn [foldr map fst snd] in *.
    specialize (Hv Hwv). specialize (IH Hwf). unfold pr at 1. rewrite !str_app_length. lia.
Qed.

Lemma parse_print_id v : json_wf v -> jdepth v <= max_depth -> parse (print v) = Some v.
Proof.
  intros Hwf Hd. unfold parse. rewrite <- (str_app_nil (print v)) at 2.
  rewrite parse_print_rest; [done|done| |lia|done]. pose proof (jsize_print v Hwf). lia.
Qed.

(** ** String literals *)

(** How many continuation bytes the rune that starts with the byte [c] takes;
    none when the bytes are no rune. *)
Definition rune_tail (c : ascii) (s : string) : nat :=
  match s with
  | String c2 s2 =>
      if utf8_2 c c2 then 1%nat
      else
        match s2 with
        | String c3 s3 =>
            if utf8_3 c c2 c3 then 2%nat
            else
              match s3 with
              | String c4 _ => if utf8_4 c c2 c3 c4 then 3%nat else 0%nat
              | EmptyString => 0%nat
              end
        | EmptyString => 0%nat
        end
  | EmptyString => 0%nat
  end.

Definition copies (k : nat) (c : ascii) (s : string) : string := String c (str_take k s).

(** The leading continuation bytes of two strings agree as far as a rune may
    look. *)
Definition no_cont (s : string) : Prop := forall c t, s = String c t -> cont c = false.

Inductive same_conts : nat -> string -> string -> Prop :=
| same_stop n s t : no_cont s -> no_cont t -> same_conts n s t
| same_zero s t : same_conts 0 s t
| same_cons n c s t : cont c = true -> same_conts n s t -> same_conts (S n) (String c s) (String c t).

Lemma utf8_conts a b c d :
  (utf8_2 a b = true -> cont b = true) /\ (utf8_3 a b c = true -> cont b = true /\ cont c = true) /\
  (utf8_4 a b c d = true -> cont b = true /\ cont c = true /\ cont d = true).
Proof.
  unfold utf8_2, utf8_3, utf8_4, cont, between.
  rewrite ?andb_true_iff, ?orb_true_iff, ?andb_true_iff, ?Z.leb_le, ?Z.eqb_eq. lia.
Qed.

(** A rune stops looking at the first byte that is no continuation byte. *)
Lemma rune_tail_stop0 c s : no_cont s -> rune_tail c s = 0%nat.
Proof.
  intros Hd. destruct s as [|d s]; [done|]. specialize (Hd d s eq_refl). cbn [rune_tail].
  destruct (utf8_2 c d) eqn:E2; [by rewrite (proj1 (utf8_conts c d d d) E2) in Hd|].
  destruct s as [|e s]; [done|]. destruct (utf8_3 c d e) eqn:E3.
  { destruct (proj1 (proj2 (utf8_conts c d e e)) E3). congruence. }
  destruct s as [|f s]; [done|]. destruct (utf8_4 c d e f) eqn:E4; [|done].
  destruct (proj2 (proj2 (utf8_conts c d e f)) E4). congruence.
Qed.

Lemma rune_tail_stop1 c b s : no_cont s -> rune_tail c (String b s) = if utf8_2 c b then 1%nat else 0%nat.
Proof.
  intros Hd. destruct s as [|d s]; [done|]. specialize (Hd d s eq_refl). cbn [rune_tail].
  destruct (utf8_2 c b); [done|]. destruct (utf8_3 c b d) eqn:E3.
  { destruct (proj1 (proj2 (utf8_conts c b d d)) E3). congruence. }
  destruct s as [|f s]; [done|]. destruct (utf8_4 c b d f) eqn:E4; [|done].
  destruct (proj2 (proj2 (utf8_conts c b d f)) E4) as (? & ? & ?). congruence.
Qed.

Lemma rune_tail_stop2 c b e s :
  no_cont s ->
  rune_tail c (String b (String e s)) = if utf8_2 c b then 1%nat else if utf8_3 c b e then 2%nat else 0%nat.
Proof.
  intros Hd. destruct s as [|d s]; [done|]. specialize (Hd d s eq_refl). cbn [rune_tail].
  destruct (utf8_2 c b); [done|]. destruct (utf8_3 c b e); [done|].
  destruct (utf8_4 c b e d) eqn:E4; [|done].
  destruct (proj2 (proj2 (utf8_conts c b e d)) E4) as (? & ? & ?). congruence.
Qed.

Lemma rune_tail_same c s t : same_conts 3 s t -> rune_tail c s = rune_tail c t.
Proof.
  intros H. inversion H as [? ? ? Hs Ht| |? c1 s1 t1 _ H']; subst; [by rewrite !rune_tail_stop0|].
  inversion H' as [? ? ? Hs Ht| |? c2 s2 t2 _ H'']; subst; [by rewrite !rune_tail_stop1|].
  inversion H'' as [? ? ? Hs Ht| |? c3 s3 t3 _ H3]; subst; [by rewrite !rune_tail_stop2|]. done.
Qed.

(** The bytes a rune takes are continuation bytes. *)
Lemma rune_tail_take c s t :
  rune_tail c s <> 0%nat ->
  rune_tail c (str_take (rune_tail c s) s +:+ t) = rune_tail c s /\
  str_drop (rune_tail c s) (str_take (rune_tail c s) s +:+ t) = t /\
  str_take (rune_tail c s) (str_take (rune_tail c s) s +:+ t) = str_take (rune_tail c s) s /\
  s = str_take (rune_tail c s) s +:+ str_drop (rune_tail c s) s.
Proof.
  destruct s as [|c2 s2]; [done|]. cbn [rune_tail]. destruct (utf8_2 c c2) eqn:E2.
  { intros _. cbn [str_take str_drop]. str_norm. cbn [rune_tail]. by rewrite E2. }
  destruct s2 as [|c3 s3]; [done|]. destruct (utf8_3 c c2 c3) eqn:E3.
  { intros _. cbn [str_take str_drop]. str_norm. cbn [rune_tail]. by rewrite E2, E3. }
  destruct s3 as [|c4 s4]; [done|]. destruct (utf8_4 c c2 c3 c4) eqn:E4; [|done].
  intros _. cbn [str_take str_drop]. str_norm. cbn [rune_tail]. by rewrite E2, E3, E4.
Qed.

Definition all_conts (s : string) : Prop := Forall (fun d => cont d = true) (String.list_ascii_of_string s).

Lemma rune_tail_plain c s : rune_tail c s <> 0%nat -> all_conts (str_take (rune_tail c s) s).
Proof.
  destruct s as [|c2 s2]; [done|]. cbn [rune_tail]. destruct (utf8_2 c c2) eqn:E2.
  { intros _. pose proof (proj1 (utf8_conts c c2 c2 c2) E2). by repeat constructor. }
  destruct s2 as [|c3 s3]; [done|]. destruct (utf8_3 c c2 c3) eqn:E3.
  { intros _. destruct (proj1 (proj2 (utf8_conts c c2 c3 c3)) E3). by repeat constructor. }
  destruct s3 as [|c4 s4]; [done|]. destruct (utf8_4 c c2 c3 c4) eqn:E4; [|done].
  intros _. destruct (proj2 (proj2 (utf8_conts c c2 c3 c4)) E4) as (? & ? & ?). by repeat constructor.
Qed.

(** The equations of the three traversals on a byte outside ASCII. *)
Lemma unquote_multi c s :
  (code c <? 128) = false -> c <> backslash ->
  unquote (String c s) =
  match rune_tail c s with
  | O => rune_error +:+ unquote s
  | k => copies k c s +:+ unquote (str_drop k s)
  end.
Proof.
  intros Hc Hb. cbn [unquote]. rewrite (proj2 (Ascii.eqb_neq c _) Hb), Hc.
  destruct s as [|c2 s2]; [done|]. cbn [rune_tail]. destruct (utf8_2 c c2); [done|].
  destruct s2 as [|c3 s3]; [done|]. destruct (utf8_3 c c2 c3); [done|].
  destruct s3 as [|c4 s4]; [done|]. by destruct (utf8_4 c c2 c3 c4).
Qed.

(** The text of a line separator, when the bytes are one. *)
Definition sep_at (c : ascii) (s : string) : option string :=
  match s with
  | String c2 (String c3 _) => if line_sep c c2 c3 then Some (sep_text c3) else None
  | _ => None
  end.

Lemma line_sep_utf8 a b c : line_sep a b c = true -> utf8_2 a b = false /\ utf8_3 a b c = true.
Proof.
  unfold line_sep, utf8_2, utf8_3, between, cont. rewrite !andb_true_iff, orb_true_iff, !Z.eqb_eq.
  intros [[-> ->] [-> | ->]]; done.
Qed.

Lemma sep_at_tail c s t : sep_at c s = Some t -> rune_tail c s = 2%nat.
Proof.
  destruct s as [|c2 [|c3 s]]; try done. cbn [sep_at rune_tail].
  destruct (line_sep c c2 c3) eqn:E; [|done]. by destruct (line_sep_utf8 _ _ _ E) as [-> ->].
Qed.

Lemma encode_multi c s :
  (code c <? 128) = false ->
  encode_string (String c s) =
  match rune_tail c s with
  | O => u_text "fffd" +:+ encode_string s
  | k => default (copies k c s) (sep_at c s) +:+ encode_string (str_drop k s)
  end.
Proof.
  intros Hc. cbn [encode_string]. rewrite Hc.
  destruct s as [|c2 s2]; [done|]. cbn [rune_tail sep_at]. destruct (utf8_2 c c2) eqn:E2.
  { destruct s2 as [|c3 s3]; [done|]. destruct (line_sep c c2 c3) eqn:El; [|done].
    destruct (line_sep_utf8 _ _ _ El). congruence. }
  destruct s2 as [|c3 s3]; [done|]. destruct (utf8_3 c c2 c3) eqn:E3.
  { by destruct (line_sep c c2 c3). }
  destruct (line_sep c c2 c3) eqn:El; [destruct (line_sep_utf8 _ _ _ El); congruence|].
  destruct s3 as [|c4 s4]; [done|]. by destruct (utf8_4 c c2 c3 c4).
Qed.

Lemma valid_multi c s :
  (code c <? 128) = false ->
  utf8_valid (String c s) =
  match rune_tail c s with O => false | k => utf8_valid (str_drop k s) end.
Proof.
  intros Hc. cbn [utf8_valid]. rewrite Hc.
  destruct s as [|c2 s2]; [done|]. cbn [rune_tail]. destruct (utf8_2 c c2); [done|].
  destruct s2 as [|c3 s3]; [done|]. destruct (utf8_3 c c2 c3); [done|].
  destruct s3 as [|c4 s4]; [done|]. by destruct (utf8_4 c c2 c3 c4).
Qed.

Lemma str_drop_length k s : (String.length (str_drop k s) <= String.length s)%nat.
Proof. revert s. induction k as [|k IH]; [by intros []|]. intros [|c s]; simpl; [lia|]. specialize (IH s). lia. Qed.

(** ASCII bytes, case by case. *)
Lemma escape_byte_unquote c t :
  (code c <? 128) = true ->
  unquote (default (String c "") (escape_byte c) +:+ t) = String c (unquote t).
Proof. destruct c as [[] [] [] [] [] [] [] []]; done. Qed.

Lemma escape_byte_raw c t :
  (code c <? 128) = true -> raw_ok t -> raw_ok (default (String c "") (escape_byte c) +:+ t).
Proof.
  intros Hc Ht. destruct (escape_byte c) as [e|] eqn:E.
  - revert E Hc. destruct c as [[] [] [] [] [] [] [] []]; try done; intros E _;
      vm_compute in E; injection E as <-; str_norm;
      first [by eapply raw_escape|by eapply raw_u].
  - simpl. str_norm. apply raw_char; [..|done]; revert E; clear; intros E.
    + by intros ->.
    + by intros ->.
    + unfold escape_byte in E. repeat (split_match; try done). by destruct (code c <? 32).
Qed.

Lemma code_high c : (code c <? 128) = false -> c <> dquote /\ c <> backslash /\ (code c <? 32) = false.
Proof. intros H. split_and!; [by intros ->|by intros ->|blia]. Qed.

Lemma raw_conts u t : all_conts u -> raw_ok t -> raw_ok (u +:+ t).
Proof.
  unfold all_conts. induction u as [|c u IH]; [done|]. simpl. intros [Hc Hu]%Forall_cons Ht. str_norm.
  assert ((code c <? 128) = false) as Hh by (unfold cont, between in Hc; apply Z.ltb_ge; blia).
  destruct (code_high c Hh) as (? & ? & ?). apply raw_char; auto.
Qed.

Lemma sep_at_text c s t :
  sep_at c s = Some t -> (t = u_text "2028" /\ copies 2 c s = utf8_encode 8232) \/
                         (t = u_text "2029" /\ copies 2 c s = utf8_encode 8233).
Proof.
  destruct s as [|c2 [|c3 s]]; try done. cbn [sep_at]. destruct (line_sep c c2 c3) eqn:E; [|done].
  intros [= <-]. unfold sep_text. revert E. unfold line_sep.
  rewrite !andb_true_iff, orb_true_iff, !Z.eqb_eq.
  assert (forall d n, code d = n -> d = chr n) as Hd.
  { intros d n <-. unfold chr, code. by rewrite Nat2Z.id, ascii_nat_embedding. }
  intros [[->%Hd ->%Hd] [->%Hd| ->%Hd]]; [left|right]; done.
Qed.

Lemma encode_raw s : raw_ok (encode_string s).
Proof.
  induction s as [s IH] using string_length_ind. destruct s as [|c s]; [constructor|].
  destruct (code c <? 128) eqn:Hc.
  - assert (raw_ok (encode_string s)) as Hs by (apply IH; simpl; lia).
    pose proof (escape_byte_raw c _ Hc Hs) as H. cbn [encode_string]. rewrite Hc.
    by destruct (escape_byte c).
  - rewrite encode_multi by done. pose proof (rune_tail_plain c s) as Hp.
    destruct (code_high c Hc) as (? & ? & ?). destruct (rune_tail c s) as [|k] eqn:Ek.
    + unfold u_text. str_norm. eapply raw_u; [done|]. apply IH. simpl. lia.
    + assert (raw_ok (encode_string (str_drop (S k) s))) as Hs.
      { apply IH. pose proof (str_drop_length (S k) s). simpl in *. lia. }
      destruct (sep_at c s) as [t|] eqn:Es; cbn [from_option]; try unfold id.
      * destruct (sep_at_text _ _ _ Es) as [[-> _]|[-> _]]; unfold u_text; str_norm; by eapply raw_u.
      * unfold copies. str_norm. apply raw_char; [done..|]. apply raw_conts; [by apply Hp|done].
Qed.

(** [json.Unmarshal] gives back the string [json.Marshal] wrote. *)
Lemma unquote_encode s : utf8_valid s = true -> unquote (encode_string s) = s.
Proof.
  induction s as [s IH] using string_length_ind. destruct s as [|c s]; [done|].
  destruct (code c <? 128) eqn:Hc.
  - cbn [utf8_valid]. rewrite Hc. intros Hv. pose proof (escape_byte_unquote c (encode_string s) Hc) as H.
    cbn [encode_string]. rewrite Hc. rewrite IH in H by (done || (simpl; lia)).
    by destruct (escape_byte c).
  - rewrite valid_multi, encode_multi by done. pose proof (rune_tail_take c s) as Ht.
    destruct (code_high c Hc) as (? & Hb & ?). destruct (rune_tail c s) as [|k] eqn:Ek; [done|]. intros Hv.
    set (rest := encode_string (str_drop (S k) s)).
    assert (unquote rest = str_drop (S k) s) as Hrest.
    { apply IH; [|done]. pose proof (str_drop_length (S k) s). simpl in *. lia. }
    destruct (Ht rest ltac:(done)) as (H1 & H2 & H3 & H4).
    destruct (sep_at c s) as [t|] eqn:Es; cbn [from_option]; try unfold id.
    + pose proof (sep_at_tail _ _ _ Es) as E2. rewrite Ek in E2. injection E2 as ->.
      transitivity (copies 2 c s +:+ str_drop 2 s); [|unfold copies; str_norm; by rewrite <- H4].
      destruct (sep_at_text _ _ _ Es) as [[-> ->]|[-> ->]]; rewrite <- Hrest at 2; done.
    + unfold copies. str_norm. rewrite unquote_multi by done. fold rest. rewrite H1. unfold copies. cbv zeta.
      rewrite H2, H3, Hrest. str_norm. by rewrite <- H4.
Qed.

(** ** The escapes of [compact] keep what a literal stands for *)

Lemma escape_raw_eq c s :
  escape_raw (String c s) =
  if html_char c then u00 c +:+ escape_raw s
  else match sep_at c s with
       | Some t => t +:+ escape_raw (str_drop 2 s)
       | None => String c (escape_raw s)
       end.
Proof.
  cbn [escape_raw]. destruct (html_char c); [done|]. destruct s as [|c2 [|c3 s]]; [done..|].
  cbn [sep_at str_drop]. destruct (line_sep c c2 c3); [|done]. by destruct s.
Qed.

Lemma sep_at_code c s t : sep_at c s = Some t -> code c = 226.
Proof.
  destruct s as [|c2 [|c3 s]]; try done. cbn [sep_at]. unfold line_sep.
  destruct (Z.eqb_spec (code c) 226); [done|]. done.
Qed.

(** A byte that is neither special nor the first of a separator is kept. *)
Lemma escape_plain c s :
  html_char c = false -> code c <> 226 -> escape_raw (String c s) = String c (escape_raw s).
Proof.
  intros Hh Hc. rewrite escape_raw_eq, Hh. destruct (sep_at c s) eqn:E; [|done].
  by apply sep_at_code in E.
Qed.

Lemma hex_plain h n : hex_val h = Some n -> html_char h = false /\ code h <> 226.
Proof. destruct h as [[] [] [] [] [] [] [] []]; done. Qed.

Lemma hex4_plain h1 h2 h3 h4 n :
  hex4 h1 h2 h3 h4 = Some n -> exists a b c d,
    hex_val h1 = Some a /\ hex_val h2 = Some b /\ hex_val h3 = Some c /\ hex_val h4 = Some d.
Proof.
  unfold hex4. destruct (hex_val h1), (hex_val h2), (hex_val h3), (hex_val h4); try done. intros _. eauto 10.
Qed.

Lemma escape_u h1 h2 h3 h4 n r :
  hex4 h1 h2 h3 h4 = Some n ->
  escape_raw (String backslash (String "u" (String h1 (String h2 (String h3 (String h4 r)))))) =
  String backslash (String "u" (String h1 (String h2 (String h3 (String h4 (escape_raw r)))))).
Proof.
  intros (a & b & c & d & [H1 H1']%hex_plain & [H2 H2']%hex_plain & [H3 H3']%hex_plain & [H4 H4']%hex_plain)%hex4_plain.
  by rewrite !escape_plain.
Qed.

Lemma escape_letter e d r :
  simple_escape e = Some d ->
  escape_raw (String backslash (String e r)) = String backslash (String e (escape_raw r)).
Proof.
  intros He. rewrite escape_plain by done. rewrite escape_plain; [done|..];
    revert He; destruct e as [[] [] [] [] [] [] [] []]; done.
Qed.

Lemma cont_plain c : cont c = true -> html_char c = false /\ code c <> 226 /\ (code c <? 128) = false.
Proof.
  unfold cont, between. intros H. bool_to_prop. split_and!; [|lia|apply Z.ltb_ge; lia].
  unfold html_char. rewrite !orb_false_iff, !Ascii.eqb_neq.
  split_and!; intros ->; vm_compute in H; done.
Qed.

Lemma escape_conts u t : all_conts u -> escape_raw (u +:+ t) = u +:+ escape_raw t.
Proof.
  unfold all_conts. induction u as [|c u IH]; [done|]. intros [Hc Hu]%Forall_cons. str_norm.
  destruct (cont_plain c Hc) as (H1 & H2 & _). by rewrite escape_plain, IH.
Qed.

Lemma escape_same_conts n s : same_conts n s (escape_raw s).
Proof.
  revert s. induction n as [|n IH]; intros s; [apply same_zero|]. destruct s as [|c s].
  { by apply same_stop. }
  destruct (cont c) eqn:Ec.
  - destruct (cont_plain c Ec) as (H1 & H2 & _). rewrite escape_plain by done. by apply same_cons.
  - constructor 1; [by intros ? ? [= <- <-]|]. intros d t. rewrite escape_raw_eq.
    destruct (html_char c); [intros [= <- _]; done|].
    destruct (sep_at c s) as [x|] eqn:Es; [|by intros [= <- _]].
    destruct (sep_at_text _ _ _ Es) as [[-> _]|[-> _]]; intros [= <- _]; done.
Qed.

Lemma raw_ok_drop u t : all_conts u -> raw_ok (u +:+ t) -> raw_ok t.
Proof.
  unfold all_conts. induction u as [|c u IH]; [done|]. intros [Hc Hu]%Forall_cons Hr. revert Hr. str_norm.
  intros Hr. inversion Hr; subst; [auto|done|done].
Qed.

Lemma raw_ok_escape r : raw_ok r -> raw_ok (escape_raw r).
Proof.
  induction r as [r IH] using string_length_ind. intros Hr.
  inversion Hr as [|c s Hq Hb Hc Hs|e d s Hu He Hs|h1 h2 h3 h4 n s Hh Hs]; subst.
  - done.
  - rewrite escape_raw_eq. destruct (html_char c) eqn:Eh.
    + assert (raw_ok (escape_raw s)) as Hs' by (apply IH; [simpl; lia|done]).
      revert Eh. unfold html_char. rewrite !orb_true_iff, !Ascii.eqb_eq.
      intros [[->| ->]| ->]; cbv [u00]; str_norm; by eapply raw_u.
    + destruct (sep_at c s) as [t|] eqn:Es.
      * assert (raw_ok (escape_raw (str_drop 2 s))) as Hs'.
        { pose proof (sep_at_tail _ _ _ Es) as Et. pose proof (rune_tail_plain c s) as Hp.
          destruct (rune_tail_take c s "") as (_ & _ & _ & H4); [by rewrite Et|].
          rewrite Et in *. apply IH; [pose proof (str_drop_length 2 s); simpl in *; lia|].
          eapply raw_ok_drop; [by apply Hp|]. by rewrite <- H4. }
        destruct (sep_at_text _ _ _ Es) as [[-> _]|[-> _]]; unfold u_text; str_norm; by eapply raw_u.
      * apply raw_char; [done..|]. apply IH; [simpl; lia|done].
  - rewrite (escape_letter _ _ _ He). eapply raw_escape; [done..|]. apply IH; [simpl; lia|done].
  - rewrite (escape_u _ _ _ _ _ _ Hh). eapply raw_u; [done|]. apply IH; [simpl; lia|done].
Qed.

(** The escape that may follow a surrogate. *)
Definition u_head (s : string) : option (Z * string) :=
  match s with
  | String b (String u (String g1 (String g2 (String g3 (String g4 s4))))) =>
      if Ascii.eqb b backslash && Ascii.eqb u "u"
      then match hex4 g1 g2 g3 g4 with Some m => Some (m, s4) | None => None end
      else None
  | _ => None
  end.

Lemma unquote_u h1 h2 h3 h4 n s :
  hex4 h1 h2 h3 h4 = Some n ->
  unquote (String backslash (String "u" (String h1 (String h2 (String h3 (String h4 s)))))) =
  if is_surrogate n then
    match u_head s with
    | Some (m, s4) =>
        match surrogate_pair n m with
        | Some r => utf8_encode r +:+ unquote s4
        | None => rune_error +:+ unquote s
        end
    | None => rune_error +:+ unquote s
    end
  else utf8_encode n +:+ unquote s.
Proof.
  intros Hh. cbn [unquote]. simpl (Ascii.eqb backslash backslash). cbn iota. rewrite Hh.
  destruct (is_surrogate n); [|done]. destruct s as [|b [|u [|g1 [|g2 [|g3 [|g4 s]]]]]]; try done.
  cbn [u_head]. destruct (Ascii.eqb b backslash && Ascii.eqb u "u"); [|done].
  by destruct (hex4 g1 g2 g3 g4).
Qed.

Lemma low_surrogate n m : m < 56320 -> surrogate_pair n m = None.
Proof.
  intros H. unfold surrogate_pair. replace (between 56320 m 57343) with false; [by rewrite andb_false_r|].
  symmetry. unfold between. apply andb_false_iff. left. apply Z.leb_gt. lia.
Qed.

Lemma surrogate_escape n s :
  raw_ok s ->
  (exists m s4, u_head s = Some (m, s4) /\ u_head (escape_raw s) = Some (m, escape_raw s4) /\
     (String.length s4 < String.length s)%nat /\ raw_ok s4) \/
  (u_head s = None /\
    (u_head (escape_raw s) = None \/ exists m t, u_head (escape_raw s) = Some (m, t) /\ surrogate_pair n m = None)).
Proof.
  intros Hs. inversion Hs as [|c r Hq Hb Hc Hr|e d r Hu He Hr|h1 h2 h3 h4 m r Hh Hr]; subst.
  - right. auto.
  - right. assert (forall t, u_head (String c t) = None) as Hno.
    { intros t. destruct t as [|? [|? [|? [|? [|? ?]]]]]; try done. cbn [u_head].
      by rewrite (proj2 (Ascii.eqb_neq c _) Hb). }
    split; [done|]. rewrite escape_raw_eq. destruct (html_char c) eqn:Eh.
    + right. revert Eh. unfold html_char. rewrite !orb_true_iff, !Ascii.eqb_eq.
      intros [[->| ->]| ->]; eexists _, _; (split; [done|by apply low_surrogate]).
    + destruct (sep_at c r) as [t|] eqn:Es; [|by left].
      right. destruct (sep_at_text _ _ _ Es) as [[-> _]|[-> _]]; eexists _, _; (split; [done|by apply low_surrogate]).
  - right. assert (forall t, u_head (String backslash (String e t)) = None) as Hno.
    { intros t. destruct t as [|? [|? [|? [|? ?]]]]; try done. cbn [u_head].
      by rewrite (proj2 (Ascii.eqb_neq e _) Hu), andb_false_r. }
    rewrite (escape_letter _ _ _ He). auto.
  - left. rewrite (escape_u _ _ _ _ _ _ Hh). exists m, r. cbn [u_head].
    simpl (Ascii.eqb _ _). cbn [andb]. rewrite Hh. split_and!; try done. simpl. lia.
Qed.

Lemma unquote_escape r : raw_ok r -> unquote (escape_raw r) = unquote r.
Proof.
  induction r as [r IH] using string_length_ind. intros Hr.
  inversion Hr as [|c s Hq Hb Hc Hs|e d s Hu He Hs|h1 h2 h3 h4 n s Hh Hs]; subst.
  - done.
  - assert (unquote (escape_raw s) = unquote s) as IHs by (apply IH; [simpl; lia|done]).
    rewrite escape_raw_eq. destruct (html_char c) eqn:Eh.
    + revert Eh. unfold html_char. rewrite !orb_true_iff, !Ascii.eqb_eq.
      intros [[->| ->]| ->];
        match goal with |- _ = unquote (String ?a s) =>
          transitivity (String a (unquote (escape_raw s))); [done|by rewrite IHs] end.
    + destruct (code c <? 128) eqn:E128.
      { destruct (sep_at c s) as [t|] eqn:Es; [apply sep_at_code in Es; blia|].
        cbn [unquote]. by rewrite (proj2 (Ascii.eqb_neq c _) Hb), E128, IHs. }
      rewrite (unquote_multi c s) by done. pose proof (rune_tail_plain c s) as Hp.
      destruct (sep_at c s) as [t|] eqn:Es.
      * pose proof (sep_at_tail _ _ _ Es) as Et. rewrite Et in *.
        destruct (rune_tail_take c s "") as (_ & _ & _ & H4); [by rewrite Et|]. rewrite Et in H4.
        cbv zeta. rewrite <- (IH (str_drop 2 s)).
        -- destruct (sep_at_text _ _ _ Es) as [[-> ->]|[-> ->]]; done.
        -- pose proof (str_drop_length 2 s). simpl in *. lia.
        -- eapply raw_ok_drop; [by apply Hp|]. by rewrite <- H4.
      * rewrite unquote_multi, <- (rune_tail_same c s (escape_raw s)) by (done || apply escape_same_conts).
        destruct (rune_tail c s) as [|k] eqn:Ek; [by rewrite IHs|]. cbv zeta.
        destruct (rune_tail_take c s (escape_raw (str_drop (S k) s))) as (_ & H2 & H3 & H4); [by rewrite Ek|].
        rewrite Ek in *. rewrite H4 at 1 2. rewrite escape_conts by by apply Hp.
        unfold copies. rewrite H2, H3. rewrite IH; [done| |].
        -- pose proof (str_drop_length (S k) s). simpl in *. lia.
        -- eapply raw_ok_drop; [by apply Hp|]. by rewrite <- H4.
  - rewrite (escape_letter _ _ _ He). assert (Ascii.eqb e "u" = false) as Hu' by by apply Ascii.eqb_neq.
    cbn [unquote]. simpl (Ascii.eqb backslash backslash). cbn iota. rewrite Hu', He.
    f_equal. apply IH; [simpl; lia|done].
  - rewrite (escape_u _ _ _ _ _ _ Hh), !(unquote_u _ _ _ _ _ _ Hh).
    assert (unquote (escape_raw s) = unquote s) as IHs by (apply IH; [simpl; lia|done]).
    destruct (is_surrogate n); [|by rewrite IHs].
    destruct (surrogate_escape n s Hs) as [(m & s4 & H1 & H2 & H3 & H4)|[H1 [H2|(m & t & H2 & H3)]]];
      rewrite H1, H2, ?H3; try by rewrite IHs.
    rewrite IHs. by rewrite (IH s4) by (done || (simpl; lia)).
Qed.

Lemma escape_json_wf v : json_wf v -> json_wf (escape_json v).
Proof.
  induction v as [| | |r|l IH|l IH] using json_ind'; intros Hwf; try done.
  - by apply raw_ok_escape.
  - cbn [escape_json]. apply json_wf_arr in Hwf. apply json_wf_arr.
    induction IH as [|v l Hv _ IH]; [by constructor|]. apply Forall_cons in Hwf as [Hw Hwf]. constructor; auto.
  - cbn [escape_json]. apply json_wf_obj in Hwf. apply json_wf_obj.
    induction IH as [|[k v] l Hv _ IH]; [by constructor|]. apply Forall_cons in Hwf as [[Hk Hw] Hwf].
    constructor; [|auto]. split; [by apply raw_ok_escape|by apply Hv].
Qed.

Lemma escape_json_depth v : jdepth (escape_json v) = jdepth v.
Proof.
  induction v as [| | |r|l IH|l IH] using json_ind'; try done; cbn [escape_json jdepth]; f_equal.
  - induction IH as [|v l Hv _ IH]; [done|]. cbn [map foldr]. by rewrite Hv, IH.
  - induction IH as [|[k v] l Hv _ IH]; [done|]. cbn [map foldr fst snd] in *. by rewrite Hv, IH.
Qed.

Lemma parse_compact v : json_wf v -> jdepth v <= max_depth -> parse (compact v) = Some (escape_json v).
Proof.
  intros Hwf Hd. unfold compact. apply parse_print_id; [by apply escape_json_wf|by rewrite escape_json_depth].
Qed.

(** ** Decoded strings are well-formed UTF-8 *)

Lemma code_chr n : 0 <= n < 256 -> code (chr n) = n.
Proof. intros H. unfold code, chr. rewrite nat_ascii_embedding; lia. Qed.

Lemma utf8_encode_valid n t :
  0 <= n < 1114112 -> is_surrogate n = false -> utf8_valid (utf8_encode n +:+ t) = utf8_valid t.
Proof.
  intros Hn Hs. unfold is_surrogate, between in Hs. unfold utf8_encode.
  destruct (n <? 128) eqn:E1; [|destruct (n <? 2048) eqn:E2; [|destruct (n <? 65536) eqn:E3]];
    bool_to_prop; str_norm; cbn [utf8_valid]; unfold utf8_2, utf8_3, utf8_4, cont, between;
    rewrite !code_chr by (Z.to_euclidean_division_equations; lia).
  - by rewrite (proj2 (Z.ltb_lt _ _)) by lia.
  - rewrite (proj2 (Z.ltb_ge _ _)) by (Z.to_euclidean_division_equations; lia).
    rewrite !(proj2 (Z.leb_le _ _)) by (Z.to_euclidean_division_equations; lia). done.
  - rewrite (proj2 (Z.ltb_ge _ _)) by (Z.to_euclidean_division_equations; lia).
    rewrite (proj2 (Z.leb_gt (224 + n / 4096) 223)) by (Z.to_euclidean_division_equations; lia).
    rewrite andb_false_r. cbn [andb].
    match goal with |- (if ?b then _ else _) = _ => assert (b = true) as ->; [|done] end.
    apply andb_false_iff in Hs.
    rewrite !andb_true_iff, !orb_true_iff, !andb_true_iff, !orb_true_iff, !andb_true_iff, !Z.leb_le, !Z.eqb_eq.
    assert (n < 55296 \/ 57343 < n) by (destruct Hs; blia).
    Z.to_euclidean_division_equations; lia.
  - rewrite (proj2 (Z.ltb_ge _ _)) by (Z.to_euclidean_division_equations; lia).
    rewrite (proj2 (Z.leb_gt (240 + n / 262144) 223)) by (Z.to_euclidean_division_equations; lia).
    rewrite andb_false_r. cbn [andb].
    match goal with |- (if ?b then _ else _) = _ => assert (b = false) as -> end.
    { rewrite !andb_false_iff, !orb_false_iff, !andb_false_iff, !orb_false_iff, !Z.leb_gt, !Z.eqb_neq.
      left. Z.to_euclidean_division_equations; lia. }
    match goal with |- ?b && _ = _ => assert (b = true) as ->; [|done] end.
    rewrite !andb_true_iff, !orb_true_iff, !andb_true_iff, !Z.leb_le, !Z.eqb_eq.
    Z.to_euclidean_division_equations; lia.
Qed.

Lemma hex_val_range h n : hex_val h = Some n -> 0 <= n < 16.
Proof. unfold hex_val. intros H. repeat (split_match; try done); simplify_eq; blia. Qed.

Lemma hex4_range h1 h2 h3 h4 n : hex4 h1 h2 h3 h4 = Some n -> 0 <= n < 65536.
Proof.
  unfold hex4. destruct (hex_val h1) eqn:E1, (hex_val h2) eqn:E2, (hex_val h3) eqn:E3, (hex_val h4) eqn:E4;
    try done. intros [= <-]. apply hex_val_range in E1, E2, E3, E4. lia.
Qed.

Lemma surrogate_pair_range n m r :
  surrogate_pair n m = Some r -> 0 <= r < 1114112 /\ is_surrogate r = false.
Proof.
  unfold surrogate_pair, between, is_surrogate. destruct (_ && _) eqn:E; [|done]. intros [= <-].
  bool_to_prop. split; [lia|]. unfold between. apply andb_false_iff. right. apply Z.leb_gt. lia.
Qed.

Lemma rune_error_valid t : utf8_valid (rune_error +:+ t) = utf8_valid t.
Proof. by apply utf8_encode_valid. Qed.

Lemma unquote_valid r : utf8_valid (unquote r) = true.
Proof.
  induction r as [r IH] using string_length_ind. destruct r as [|c s]; [done|].
  destruct (Ascii.eqb_spec c backslash) as [->|Hb].
  - destruct s as [|e s]; [done|]. destruct (Ascii.eqb_spec e "u") as [->|Hu].
    + destruct s as [|h1 [|h2 [|h3 [|h4 s]]]]; try done.
      destruct (hex4 h1 h2 h3 h4) as [n|] eqn:Eh;
        [|cbn [unquote]; simpl (Ascii.eqb _ _); cbn iota; by rewrite Eh].
      rewrite (unquote_u _ _ _ _ _ _ Eh). apply hex4_range in Eh.
      assert (utf8_valid (unquote s) = true) as IHs by (apply IH; simpl; lia).
      destruct (is_surrogate n) eqn:Es; [|by rewrite utf8_encode_valid by (done || lia)].
      destruct (u_head s) as [[m s4]|] eqn:Eu; [|by rewrite rune_error_valid].
      destruct (surrogate_pair n m) as [x|] eqn:Ep; [|by rewrite rune_error_valid].
      destruct (surrogate_pair_range _ _ _ Ep). rewrite utf8_encode_valid by done. apply IH.
      destruct s as [|b [|u [|g1 [|g2 [|g3 [|g4 s]]]]]]; try done. cbn [u_head] in Eu.
      destruct (_ && _); [|done]. destruct (hex4 g1 g2 g3 g4); [|done]. simplify_eq. simpl. lia.
    + cbn [unquote]. simpl (Ascii.eqb backslash backslash). cbn iota.
      rewrite (proj2 (Ascii.eqb_neq e _) Hu). destruct (simple_escape e) as [d|] eqn:Ee; [|done].
      assert ((code d <? 128) = true) as Hd.
      { revert Ee. unfold simple_escape. intros H. repeat (split_match; try done); simplify_eq; done. }
      cbn [utf8_valid]. rewrite Hd. apply IH. simpl. lia.
  - destruct (code c <? 128) eqn:E128.
    + cbn [unquote]. rewrite (proj2 (Ascii.eqb_neq c _) Hb), E128. cbn [utf8_valid]. rewrite E128.
      apply IH. simpl. lia.
    + rewrite unquote_multi by done. pose proof (rune_tail_take c s) as Ht.
      destruct (rune_tail c s) as [|k] eqn:Ek.
      * rewrite rune_error_valid. apply IH. simpl. lia.
      * destruct (Ht (unquote (str_drop (S k) s)) ltac:(done)) as (H1 & H2 & _ & _).
        cbv zeta. unfold copies. str_norm. rewrite valid_multi, H1 by done. cbv zeta. rewrite H2.
        apply IH. pose proof (str_drop_length (S k) s). simpl in *. lia.
Qed.

(** ** Maps of raw messages *)

(** What the messages of a map must be for its text to be parsed again, with
    the nesting the whole has. *)
Definition map_ok (D : Z) (m : gmap string json) : Prop :=
  forall k v, m !! k = Some v -> utf8_valid k = true /\ json_wf v /\ jdepth v + 1 <= D.

Lemma map_keys_spec (m : gmap string json) k :
  k ∈ sort_strings (map fst (map_to_list m)) <-> is_Some (m !! k).
Proof.
  rewrite elem_of_sort_strings. split.
  - intros ((k' & v) & -> & Hv%elem_of_map_to_list)%list_elem_of_fmap. by eexists.
  - intros [v Hv]. apply list_elem_of_fmap. exists (k, v). split; [done|]. by apply elem_of_map_to_list.
Qed.

Lemma map_members_spec (m : gmap string json) r v :
  (r, v) ∈ map_members m <-> exists k, r = encode_string k /\ m !! k = Some v.
Proof.
  unfold map_members. rewrite list_elem_of_omap. split.
  - intros (k & _ & Hk). exists k. by destruct (m !! k); simplify_eq/=.
  - intros (k & -> & Hk). exists k. rewrite Hk. split; [|done]. apply map_keys_spec. by eexists.
Qed.

Lemma map_members_keys D (m : gmap string json) :
  map_ok D m -> (fun p => unquote p.1) <$> map_members m = sort_strings (map fst (map_to_list m)).
Proof.
  intros Hok. unfold map_members.
  assert (Forall (fun k => is_Some (m !! k)) (sort_strings (map fst (map_to_list m)))) as Hall
    by (apply Forall_forall; intros k Hk; by apply map_keys_spec).
  induction Hall as [|k l [v Hv] _ IH]; [done|]. cbn [omap list_omap]. rewrite Hv. simpl.
  rewrite unquote_encode by by apply (Hok k v). f_equal. exact IH.
Qed.

Lemma map_members_nodup D (m : gmap string json) : map_ok D m -> NoDup ((fun p => unquote p.1) <$> map_members m).
Proof. intros Hok. rewrite (map_members_keys D), sort_strings_perm by done. apply NoDup_fst_map_to_list. Qed.

(** Writing a map and reading it back gives the same messages, up to the
    escapes that do not change what their literals stand for. *)
Lemma marshal_map_parse D (m : gmap string json) :
  1 <= D <= max_depth -> map_ok D m ->
  exists v, parse (marshal_map (Some m)) = Some v /\ unmarshal_map v = Some (Some (escape_json <$> m)) /\
    json_wf v /\ jdepth v <= D.
Proof.
  intros HD Hok. set (l := map (fun '(k, v) => (k, escape_json v)) (map_members m)). exists (JObj l).
  assert (json_wf (JObj l) /\ jdepth (JObj l) <= D) as [Hwf Hdep].
  { split.
    + apply json_wf_obj. apply Forall_forall. intros [r w] Hin. apply list_elem_of_fmap in Hin as ([r' v] & [= -> ->] & Hv).
      apply map_members_spec in Hv as (k & -> & Hk). destruct (Hok k v Hk) as (_ & Hwf & _).
      split; [apply encode_raw|by apply escape_json_wf].
    + unfold l. cbn [jdepth]. assert (Forall (fun p => jdepth p.2 + 1 <= D) (map_members m)) as Hd.
      { apply Forall_forall. intros [r v] Hv. apply map_members_spec in Hv as (k & -> & Hk). by apply (Hok k v). }
      clear -HD Hd. induction Hd as [|[r v] l' Hv _ IH]; [simpl; lia|].
      cbn [map foldr snd] in *. rewrite escape_json_depth. lia. }
  split_and!; [apply parse_print_id; [done|lia]| |done|done]. unfold l.
  - cbn [unmarshal_map]. do 2 f_equal. apply map_eq. intros k. apply option_eq. intros w.
    rewrite (fold_insert_spec (fun p => unquote p.1) snd).
    + rewrite lookup_fmap, fmap_Some. split.
      * intros ([r v'] & Hin & <- & <-). apply list_elem_of_fmap in Hin as ([r' v] & [= -> ->] & Hv).
        apply map_members_spec in Hv as (k & -> & Hk). exists v. simpl.
        by rewrite unquote_encode by by apply (Hok k v).
      * intros (v & Hk & ->). exists (encode_string k, escape_json v). split_and!.
        -- apply list_elem_of_fmap. exists (encode_string k, v). split; [done|]. apply map_members_spec. eauto.
        -- apply unquote_encode. by apply (Hok k v).
        -- done.
    + replace ((fun p => unquote p.1) <$> map (fun '(k, v) => (k, escape_json v)) (map_members m))
        with ((fun p => unquote p.1) <$> map_members m); [by apply (map_members_nodup D)|].
      generalize (map_members m). intros l'. induction l' as [|[r v] l' IH]; [done|].
      cbn. f_equal. exact IH.
Qed.

(** The messages of a parsed object satisfy what writing needs. *)
Lemma unmarshal_wf D v m :
  json_wf v -> jdepth v <= D -> unmarshal_map v = Some (Some m) -> map_ok D m.
Proof.
  intros Hwf Hd Hm. destruct v as [| | | | |l]; try done.
  cbn [unmarshal_map] in Hm. injection Hm as <-. apply json_wf_obj in Hwf. cbn [jdepth] in Hd.
  assert (Forall (fun p => json_wf p.2 /\ jdepth p.2 + 1 <= D) l) as Hl.
  { revert Hwf Hd. clear. induction l as [|[k v] l IH]; intros Hwf Hd; [constructor|].
    apply Forall_cons in Hwf as [[_ Hw] Hwf]. cbn [foldr snd] in *. constructor; [simpl; split; [done|lia]|].
    apply IH; [done|lia]. }
  clear Hwf Hd. intros k v. induction l as [|[r w] l IH] using rev_ind; [done|].
  rewrite fold_left_app. simpl. apply Forall_app in Hl as [Hl Hw]. rewrite Forall_singleton in Hw.
  destruct (decide (unquote r = k)) as [<-|Hne].
  - rewrite lookup_insert_eq. intros [= <-]. split; [apply unquote_valid|done].
  - rewrite lookup_insert_ne by done. by apply IH.
Qed.

Lemma unmarshal_map_ok s v m : parse s = Some v -> unmarshal_map v = Some (Some m) -> map_ok max_depth m.
Proof. intros Hp. destruct (parse_wf s v Hp). by apply unmarshal_wf. Qed.

Lemma map_ok_insert D m k v :
  map_ok D m -> utf8_valid k = true -> json_wf v -> jdepth v + 1 <= D -> map_ok D (<[k := v]> m).
Proof.
  intros Hm Hk Hv Hd k' w. destruct (decide (k = k')) as [<-|Hne].
  - rewrite lookup_insert_eq. by intros [= <-].
  - rewrite lookup_insert_ne by done. apply Hm.
Qed.

(** The escapes of a whole value are the escapes of its members. *)
Lemma unmarshal_escape v m :
  json_wf v -> unmarshal_map v = Some (Some m) ->
  unmarshal_map (escape_json v) = Some (Some (escape_json <$> m)).
Proof.
  intros Hwf Hm. destruct v as [| | | | |l]; try done. apply json_wf_obj in Hwf.
  cbn [unmarshal_map escape_json] in *. injection Hm as <-. do 2 f_equal.
  induction l as [|[r w] l IH] using rev_ind; [symmetry; apply fmap_empty|].
  apply Forall_app in Hwf as [Hwf Hr]. rewrite Forall_singleton in Hr. destruct Hr as [Hr _].
  rewrite map_app, !fold_left_app. simpl. rewrite IH by done. by rewrite fmap_insert, unquote_escape.
Qed.

(** A literal without escapes of its own. *)
Lemma raw_ok_check r : lex_string (r +:+ String dquote "") = Some (r, "") -> raw_ok r.
Proof. intros H. apply lex_string_ok in H as [_ H]. exact H. Qed.

Lemma marshal_string_ok s : json_wf (marshal_string s) /\ jdepth (marshal_string s) = 0.
Proof. split; [apply encode_raw|done]. Qed.

Create HintDb go_json.

#[export] Hint Resolve map_ok_insert encode_raw unquote_valid : go_json.
