(* ===== verification/Body.v ===== *)
(** Request and response bodies: the helpers of [internal/proxy/handler.go] and
    [internal/proxy/streaming.go] that read and rewrite JSON, truncate bodies
    for the log and read the run-time configuration. *)
From S2P Require Import Prelude GoLib Models Json.
Local Open Scope Z_scope.

(** * Reading the model *)

(** The errors of the extractors: the JSON package's, or a missing model. *)
Inductive BodyError := ErrParse | ErrModelRequired.

(** A struct decoded from a body: [None] is a syntax error. *)
Definition decode_body {A} (f : json -> A -> Decoded A) (zero : A) (body : string) : option (Decoded A) :=
  match parse body with Some v => Some (f v zero) | None => None end.

Definition decode_model : json -> string -> Decoded string :=
  decode_struct (decode_field "model" decode_string).

(** [extractModelFromJSON(body)]. *)
Definition extractModelFromJSON (body : string) : Outcome BodyError string :=
  match decode_body decode_model "" body with
  | None | Some (_, true) => Err ErrParse
  | Some (model, false) => if str_empty model then Err ErrModelRequired else Ok model
  end.

(** The two fields of a show request. *)
Definition decode_show : json -> string * string -> Decoded (string * string) :=
  decode_struct (fun l a =>
    let '(m, e1) := decode_field "model" decode_string l a.1 in
    let '(n, e2) := decode_field "name" decode_string l a.2 in
    ((m, n), e1 || e2)).

(** [extractModelFromShowRequest(body)]. *)
Definition extractModelFromShowRequest (body : string) : Outcome BodyError string :=
  match decode_body decode_show ("", "") body with
  | None | Some (_, true) => Err ErrParse
  | Some ((model, name), false) =>
      if negb (str_empty model) then Ok model
      else if negb (str_empty name) then Ok name
      else Err ErrModelRequired
  end.

(** The [stream] flag of a completion request; decoding errors are ignored. *)
Definition stream_requested (body : string) : bool :=
  match decode_body (decode_struct (decode_field "stream" decode_bool)) false body with
  | None => false
  | Some (b, _) => b
  end.

(** * Rewriting objects *)

Definition nil_map_panic : string := "assignment to entry in nil map".

(** [injectStreamOptions(body)]: unmarshalling null leaves a nil map, and
    assigning to it panics. *)
Definition injectStreamOptions (body : string) : Outcome BodyError string :=
  match parse body with
  | None => Err ErrParse
  | Some v =>
      match unmarshal_map v with
      | None => Err ErrParse
      | Some obj =>
          match raw_lookup obj "stream_options" with
          | Some existing =>
              match unmarshal_map existing with
              | None => Ok (marshal_map obj)
              | Some streamOpts =>
                  match raw_assign "include_usage" (JBool true) streamOpts with
                  | None => Panic nil_map_panic
                  | Some streamOpts =>
                      match parse (marshal_map streamOpts) with
                      | None => Panic "unreachable: json.Marshal wrote no value"
                      | Some merged =>
                          match raw_assign "stream_options" merged obj with
                          | None => Panic nil_map_panic
                          | Some obj => Ok (marshal_map obj)
                          end
                      end
                  end
              end
          | None =>
              match raw_assign "stream_options" (JObj [("include_usage", JBool true)]) obj with
              | None => Panic nil_map_panic
              | Some obj => Ok (marshal_map obj)
              end
          end
      end
  end.

(** [if _, ok := obj[k]; ok { obj[k] = v }]. *)
Definition replace_if_present (k : string) (v : json) (obj : gmap string json) : gmap string json :=
  match obj !! k with Some _ => <[k := v]> obj | None => obj end.

(** [rewriteModelInBody(body, resolvedModelID)]; [None] is an error. *)
Definition rewriteModelInBody (body resolvedModelID : string) : option string :=
  match parse body with
  | None => None
  | Some v =>
      match unmarshal_map v with
      | None => None
      | Some obj =>
          let encoded := marshal_string resolvedModelID in
          Some (marshal_map ((fun m => replace_if_present "name" encoded (replace_if_present "model" encoded m)) <$> obj))
      end
  end.

(** Replacing the top-level model of an object; [None] when there is none. *)
Definition with_client_model (text clientModel : string) : option string :=
  match parse text with
  | None => None
  | Some v =>
      match unmarshal_map v with
      | Some (Some obj) =>
          match obj !! "model" with
          | None => None
          | Some _ => Some (marshal_map (Some (<["model" := marshal_string clientModel]> obj)))
          end
      | _ => None
      end
  end.

(** [rewriteResponseModelForClient(body, clientModel)]. *)
Definition rewriteResponseModelForClient (body clientModel : string) : string :=
  default body (with_client_model body clientModel).

(** [rewriteSSEDataLineForClientModel(line, clientModel)]. *)
Definition rewriteSSEDataLineForClientModel (line clientModel : string) : string :=
  if negb (has_prefix line "data:") then line
  else
    let payload := trim_space (str_drop 5 line) in
    if str_empty payload || String.eqb payload "[DONE]" then line
    else
      match with_client_model payload clientModel with
      | None => line
      | Some out => "data: " +:+ out
      end.

(** * Usage *)

(** The usage object of a response; the cached tokens are reported when the
    details are present. *)
Record Usage := mkUsage {
  u_PromptTokens : Z;
  u_CompletionTokens : Z;
  u_TotalTokens : Z;
  u_CachedTokens : option Z;
}.

Definition zero_usage : Usage := mkUsage 0 0 0 None.

(** The fields of the usage struct, in the order of their declaration. *)
Definition decode_usage_fields (l : list (string * json)) (u : Usage) : Decoded Usage :=
  let '(pt, e1) := decode_field "prompt_tokens" decode_int l (u_PromptTokens u) in
  let '(ct, e2) := decode_field "completion_tokens" decode_int l (u_CompletionTokens u) in
  let '(total, e3) := decode_field "total_tokens" decode_int l (u_TotalTokens u) in
  let '(cached, e4) := decode_field "prompt_tokens_details"
    (decode_ptr 0 (decode_struct (decode_field "cached_tokens" decode_int))) l (u_CachedTokens u) in
  (mkUsage pt ct total cached, e1 || e2 || e3 || e4).

Definition decode_usage : json -> option Usage -> Decoded (option Usage) :=
  decode_struct (decode_field "usage" (decode_ptr zero_usage (decode_struct decode_usage_fields))).

(** [parseUsageFromBody(body)]: [None] is a nil result. *)
Definition parseUsageFromBody (body : string) : option (option Usage) :=
  match decode_body decode_usage None body with
  | Some (u, false) => Some u
  | _ => None
  end.

(** [applyUsageToLog(log, u)]. *)
Definition applyUsageToLog (u : option (option Usage)) (log : RequestLog) : RequestLog :=
  match u with
  | Some (Some u) =>
      let log := set_log_PromptTokens (Some (u_PromptTokens u)) log in
      let log := set_log_CompletionTokens (Some (u_CompletionTokens u)) log in
      let log := set_log_TotalTokens (Some (u_TotalTokens u)) log in
      match u_CachedTokens u with
      | Some cached => set_log_CachedTokens (Some cached) log
      | None => log
      end
  | _ => log
  end.

(** * Content deltas

    A repeated key decodes into the elements left by the one before it, so
    that a slice keeps its backing array. *)
Record Slice (A : Type) := mkSlice { sl_backing : list A; sl_len : nat }.
Arguments mkSlice {A} sl_backing sl_len.
Arguments sl_backing {A} s.
Arguments sl_len {A} s.

Definition nil_slice {A} : Slice A := mkSlice [] 0.

(** The elements of a slice. *)
Definition sl_elems {A} (s : Slice A) : list A := take (sl_len s) (sl_backing s).

Section Slices.
Context {A : Type} (zero : A) (elem : json -> A -> Decoded A).

Fixpoint decode_elems (i : nat) (l : list json) (backing : list A) : Decoded (list A) :=
  match l with
  | [] => (backing, false)
  | v :: l' =>
      let '(x, e) := elem v (default zero (backing !! i)) in
      let backing := if (i <? length backing)%nat then <[i := x]> backing else backing ++ [x] in
      let '(backing, e') := decode_elems (S i) l' backing in
      (backing, e || e')
  end.

Definition decode_slice (v : json) (s : Slice A) : Decoded (Slice A) :=
  match v with
  | JArr [] => (nil_slice, false)
  | JArr l => let '(b, e) := decode_elems 0 l (sl_backing s) in (mkSlice b (length l), e)
  | JNull => (nil_slice, false)
  | _ => (s, true)
  end.

End Slices.

Definition decode_choice : json -> string -> Decoded string :=
  decode_struct (decode_field "delta" (decode_struct (decode_field "content" decode_string))).

Definition decode_choices : json -> Slice string -> Decoded (Slice string) := decode_slice EmptyString decode_choice.

Definition concat_strings (l : list string) : string := foldr String.append "" l.

(** [extractOpenAIContentDelta(payload)]. *)
Definition extractOpenAIContentDelta (payload : string) : string :=
  match decode_body (decode_struct (decode_field "choices" decode_choices)) nil_slice payload with
  | Some (s, false) => concat_strings (sl_elems s)
  | _ => ""
  end.

(** * Configuration and truncation *)

(** [getConfigInt(config, key, defaultValue)]. *)
Definition getConfigInt (config : gmap string string) (key : string) (defaultValue : Z) : Z :=
  match config !! key with
  | Some val => match atoi val with Some v => v | None => defaultValue end
  | None => defaultValue
  end.

(** [getConfigBool(config, key, defaultValue)]. *)
Definition getConfigBool (config : gmap string string) (key : string) (defaultValue : bool) : bool :=
  match config !! key with
  | Some val => String.eqb val "true"
  | None => defaultValue
  end.

Definition truncated_mark : string := nl +:+ "[truncated]".

(** [truncateBodyWithConfig(b, maxBytes)]: slicing with a negative bound
    panics. *)
Definition truncateBodyWithConfig (b : string) (maxBytes : Z) : Outcome unit string :=
  if (maxBytes =? 0) || (slen b <=? maxBytes) then Ok b
  else if maxBytes <? 0 then Panic "slice bounds out of range"
  else Ok (str_take (Z.to_nat maxBytes) b +:+ truncated_mark).

(** The body [respondError] writes: [{"error":msg}] and a line feed. *)
Definition error_body (msg : string) : string :=
  print (JObj [("error", marshal_string msg)]) +:+ nl.

(** [truncate(s, maxLen)] cuts after [maxLen] runes; invalid bytes count as
    one rune each and are kept out of the cut text. *)
Fixpoint runes_of (s : string) : list string :=
  match s with
  | EmptyString => []
  | String c s1 =>
      if code c <? 128 then String c "" :: runes_of s1
      else
        match s1 with
        | String c2 s2 =>
            if utf8_2 c c2 then String c (String c2 "") :: runes_of s2
            else
              match s2 with
              | String c3 s3 =>
                  if utf8_3 c c2 c3 then String c (String c2 (String c3 "")) :: runes_of s3
                  else
                    match s3 with
                    | String c4 s4 =>
                        if utf8_4 c c2 c3 c4
                        then String c (String c2 (String c3 (String c4 ""))) :: runes_of s4
                        else rune_error :: runes_of s1
                    | EmptyString => rune_error :: runes_of s1
                    end
              | EmptyString => rune_error :: runes_of s1
              end
        | EmptyString => rune_error :: runes_of s1
        end
  end.

(** The ellipsis U+2026. *)
Definition ellipsis : string := utf8_encode 8230.

Definition truncate (s : string) (maxLen : nat) : string :=
  let runes := runes_of s in
  if (length runes <=? maxLen)%nat then s
  else concat_strings (take maxLen runes) +:+ ellipsis.

(** * Lemmas *)

(** An object body: the raw messages it decodes to. *)
Definition object_of (text : string) : option (gmap string json) :=
  match parse text with
  | None => None
  | Some v => match unmarshal_map v with Some (Some m) => Some m | _ => None end
  end.

Lemma object_of_spec text m :
  object_of text = Some m <-> exists v, parse text = Some v /\ unmarshal_map v = Some (Some m).
Proof.
  unfold object_of. destruct (parse text) as [v|]; [|naive_solver].
  destruct (unmarshal_map v) as [[m'|]|] eqn:E; naive_solver congruence.
Qed.

Lemma object_of_ok text m : object_of text = Some m -> map_ok max_depth m.
Proof. intros (v & H1 & H2)%object_of_spec. by eapply unmarshal_map_ok. Qed.

(** What is written is read back, up to the escapes in its literals. *)
Lemma object_of_marshal m :
  map_ok max_depth m -> object_of (marshal_map (Some m)) = Some (escape_json <$> m).
Proof.
  intros Hm. destruct (marshal_map_parse max_depth m) as (v & H1 & H2 & _); [unfold max_depth; lia|done|].
  apply object_of_spec. eauto.
Qed.

Lemma replace_lookup k v m k' :
  replace_if_present k v m !! k' = if decide (k' = k) then (fun _ => v) <$> m !! k else m !! k'.
Proof.
  unfold replace_if_present. destruct (m !! k) eqn:E; simpl.
  - destruct (decide (k' = k)) as [->|Hne]; [by rewrite lookup_insert_eq|by rewrite lookup_insert_ne].
  - destruct (decide (k' = k)) as [->|Hne]; [done|done].
Qed.

Lemma replace_ok D k v m :
  map_ok D m -> utf8_valid k = true -> json_wf v -> jdepth v + 1 <= D -> map_ok D (replace_if_present k v m).
Proof. intros. unfold replace_if_present. destruct (m !! k); auto with go_json. Qed.

(** Decoding the escaped literal of a well-formed string gives the string. *)
Lemma decode_marshalled s a :
  utf8_valid s = true -> decode_string (escape_json (marshal_string s)) a = (s, false).
Proof.
  intros Hs. simpl. by rewrite unquote_escape, unquote_encode by (done || apply encode_raw).
Qed.

Lemma rewrite_object body id m :
  object_of body = Some m ->
  rewriteModelInBody body id =
    Some (marshal_map (Some (replace_if_present "name" (marshal_string id)
      (replace_if_present "model" (marshal_string id) m)))).
Proof.
  intros (v & H1 & H2)%object_of_spec. unfold rewriteModelInBody. by rewrite H1, H2.
Qed.

(** What a value stands for: its literals decoded. *)
Fixpoint meaning (v : json) : json :=
  match v with
  | JStr r => JStr (unquote r)
  | JArr l => JArr (map meaning l)
  | JObj l => JObj (map (fun '(k, w) => (unquote k, meaning w)) l)
  | _ => v
  end.

Lemma escape_meaning v : json_wf v -> meaning (escape_json v) = meaning v.
Proof.
  induction v as [| | |r|l IH|l IH] using json_ind'; intros Hwf; try done.
  - cbn. by rewrite unquote_escape.
  - apply json_wf_arr in Hwf. cbn [escape_json meaning]. f_equal. rewrite map_map.
    induction IH as [|v l Hv _ IH]; [done|]. apply Forall_cons in Hwf as [Hw Hwf]. cbn. by rewrite Hv, IH.
  - apply json_wf_obj in Hwf. cbn [escape_json meaning]. f_equal. rewrite map_map.
    induction IH as [|[k v] l Hv _ IH]; [done|]. apply Forall_cons in Hwf as [[Hk Hw] Hwf]. cbn in *.
    by rewrite unquote_escape, Hv, IH.
Qed.

Lemma str_take_length n s : (n <= String.length s)%nat -> String.length (str_take n s) = n.
Proof.
  revert s. induction n as [|n IH]; intros s Hn; [by destruct s|].
  destruct s as [|c s]; simpl in *; [lia|]. by rewrite IH by lia.
Qed.

(** Reading off the object of a concrete text. *)
Lemma object_of_members text l :
  parse text = Some (JObj l) ->
  object_of text = Some (fold_left (fun m p => <[unquote p.1 := p.2]> m) l ∅).
Proof. intros H. unfold object_of. by rewrite H. Qed.

(** * Properties *)

(** JSON text is handled without loss: whatever value a text parses to, its
    compact form parses again, to a value with the same structure, numbers and
    decoded strings; and the fuel of the parser is enough, since more of it
    changes no result. *)
Theorem json_compact_roundtrip (s : string) (v : json) :
  parse s = Some v ->
  (exists v', parse (compact v) = Some v' /\ meaning v' = meaning v) /\
  (forall fuel, (2 * String.length s + 1 <= fuel)%nat ->
    parse_value fuel 0 s = parse_value (2 * String.length s + 1) 0 s).
Proof.
  intros Hp. destruct (parse_wf s v Hp) as [Hwf Hd]. split.
  - exists (escape_json v). split; [by apply parse_compact|by apply escape_meaning].
  - intros fuel Hf. apply (proj1 (parse_fuel (String.length s))); unfold max_depth; lia.
Qed.

(** A small body in the notation of JSON, single quotes for double ones. *)
Definition jtext (s : string) : string := str_map (fun c => if Ascii.eqb c "'" then dquote else c) s.

Lemma json_compact_roundtrip_witness :
  exists v', parse (compact (JObj [("m", JStr "a<b")])) = Some v' /\
    meaning v' = JObj [("m", JStr "a<b")].
Proof.
  destruct (json_compact_roundtrip (jtext " { 'm' : 'a<b' } ") (JObj [("m", JStr "a<b")])) as [H _];
    [reflexivity|]. exact H.
Defined.

(** Rewriting a request body replaces the model and nothing else: for an
    object body the rewrite succeeds, the text it returns parses to an object
    with the same keys, [model] and [name], where present, hold the resolved
    model id, and every other member keeps its value. *)
Theorem rewrite_model_spec (body id : string) (m : gmap string json) :
  object_of body = Some m -> utf8_valid id = true ->
  exists out m', rewriteModelInBody body id = Some out /\ object_of out = Some m' /\
    (forall k, is_Some (m' !! k) <-> is_Some (m !! k)) /\
    (forall k w a, k = "model" \/ k = "name" -> m' !! k = Some w -> decode_string w a = (id, false)) /\
    (forall k, k <> "model" -> k <> "name" -> m' !! k = escape_json <$> m !! k).
Proof.
  intros Hm Hid. rewrite (rewrite_object body id m Hm). eexists _, _. split; [done|]. split.
  { apply object_of_marshal. pose proof (object_of_ok _ _ Hm).
    destruct (marshal_string_ok id) as [? E]. apply replace_ok; [apply replace_ok| | |]; try done;
      rewrite ?E; unfold max_depth; lia. }
  split_and!.
  - intros k. rewrite lookup_fmap, fmap_is_Some, !replace_lookup.
    destruct (decide (k = "name")) as [->|]; rewrite ?replace_lookup.
    + rewrite decide_False by done. by rewrite fmap_is_Some.
    + destruct (decide (k = "model")) as [->|]; [by rewrite fmap_is_Some|done].
  - intros k w a Hk. rewrite lookup_fmap, !replace_lookup.
    destruct (decide (k = "name")) as [->|Hn].
    + rewrite decide_False by done. destruct (m !! "name"); [|done]. intros [= <-]. by apply decode_marshalled.
    + destruct Hk as [->|]; [|done]. rewrite decide_True by done.
      destruct (m !! "model"); [|done]. intros [= <-]. by apply decode_marshalled.
  - intros k H1 H2. by rewrite lookup_fmap, !replace_lookup, !decide_False.
Qed.

Lemma rewrite_model_spec_witness :
  exists out m', rewriteModelInBody (jtext "{'model':'fast','x':[1, 2]}") "gpt<4" = Some out /\
    object_of out = Some m' /\
    m' !! "x" = Some (JArr [JNum "1"; JNum "2"]).
Proof.
  destruct (rewrite_model_spec (jtext "{'model':'fast','x':[1, 2]}") "gpt<4"
    (<["x" := JArr [JNum "1"; JNum "2"]]> (<["model" := JStr "fast"]> ∅))) as (out & m' & H1 & H2 & _ & _ & H3);
    [apply (object_of_members _ [("model", JStr "fast"); ("x", JArr [JNum "1"; JNum "2"])]); reflexivity|reflexivity|].
  exists out, m'. split; [exact H1|]. split; [exact H2|].
  rewrite H3; [by rewrite lookup_insert_eq|discriminate|discriminate].
Defined.

(** Asking for usage in a streamed request: for an object body whose
    [stream_options] are absent or an object, the body sent on parses to an
    object with [include_usage] true in its [stream_options], next to the
    options the client gave, and every other member keeps its value. *)
Theorem inject_stream_options_spec (body : string) (m : gmap string json) :
  object_of body = Some m ->
  match m !! "stream_options" with
  | None => True
  | Some w => exists o, unmarshal_map w = Some (Some o)
  end ->
  exists out m' w' o', injectStreamOptions body = Ok out /\ object_of out = Some m' /\
    m' !! "stream_options" = Some w' /\ unmarshal_map w' = Some (Some o') /\
    o' !! "include_usage" = Some (JBool true) /\
    (forall w o k, m !! "stream_options" = Some w -> unmarshal_map w = Some (Some o) -> k <> "include_usage" ->
      is_Some (o' !! k) <-> is_Some (o !! k)) /\
    (forall k, k <> "stream_options" -> m' !! k = escape_json <$> m !! k).
Proof.
  intros Hm Hopts. pose proof (object_of_ok _ _ Hm) as Hok.
  apply object_of_spec in Hm as (v & Hp & Hv). unfold injectStreamOptions. rewrite Hp, Hv. cbn [raw_lookup].
  destruct (m !! "stream_options") as [w|] eqn:Ew.
  - destruct Hopts as [o Ho]. rewrite Ho. cbn [raw_assign].
    destruct (Hok _ _ Ew) as (_ & Hwf & Hd).
    pose proof (unmarshal_wf (max_depth - 1) w o Hwf ltac:(lia) Ho) as Hook.
    assert (map_ok (max_depth - 1) (<["include_usage" := JBool true]> o)) as Hok2
      by (apply map_ok_insert; [done|done|done|unfold max_depth; simpl; lia]).
    destruct (marshal_map_parse (max_depth - 1) _ ltac:(unfold max_depth; lia) Hok2) as (w' & H1 & H2 & H3 & H4).
    rewrite H1. eexists _, _, _, _. split; [done|].
    split; [apply object_of_marshal, map_ok_insert; [done|done|done|lia]|].
    rewrite lookup_fmap, lookup_insert_eq. split; [done|].
    split; [by apply unmarshal_escape|].
    rewrite !lookup_fmap, lookup_insert_eq. split; [done|]. split.
    + intros w0 o0 k [= <-] Ho0 Hk. rewrite Ho in Ho0. injection Ho0 as <-.
      by rewrite !lookup_fmap, !fmap_is_Some, lookup_insert_ne by done.
    + intros k Hk. by rewrite lookup_fmap, lookup_insert_ne by done.
  - cbn [raw_assign]. eexists _, _, _, _. split; [done|].
    split; [apply object_of_marshal, map_ok_insert; [done|done| |unfold max_depth; simpl; lia]|].
    { apply json_wf_obj, Forall_singleton. split; [by apply raw_ok_check|done]. }
    rewrite lookup_fmap, lookup_insert_eq. split; [done|].
    split; [done|]. split; [by vm_compute|]. split; [done|].
    intros k Hk. by rewrite lookup_fmap, lookup_insert_ne by done.
Qed.

Lemma inject_stream_options_spec_witness :
  exists out m' w' o',
    injectStreamOptions (jtext "{'stream_options':{'a':1}}") = Ok out /\
    object_of out = Some m' /\ m' !! "stream_options" = Some w' /\ unmarshal_map w' = Some (Some o') /\
    o' !! "include_usage" = Some (JBool true).
Proof.
  destruct (inject_stream_options_spec (jtext "{'stream_options':{'a':1}}")
    (<["stream_options" := JObj [("a", JNum "1")]]> ∅))
    as (out & m' & w' & o' & H1 & H2 & H3 & H4 & H5 & _).
  - apply (object_of_members _ [("stream_options", JObj [("a", JNum "1")])]); reflexivity.
  - rewrite lookup_insert_eq. eexists. reflexivity.
  - exists out, m', w', o'. auto.
Defined.

(** A streamed request whose [stream_options] is null panics: null decodes
    into a nil map, and the assignment of [include_usage] to it is not
    guarded. *)
Theorem inject_null_panics (body : string) (m : gmap string json) :
  object_of body = Some m -> m !! "stream_options" = Some JNull ->
  injectStreamOptions body = Panic nil_map_panic.
Proof.
  intros (v & H1 & H2)%object_of_spec Hn. unfold injectStreamOptions. rewrite H1, H2. cbn [raw_lookup].
  by rewrite Hn.
Qed.

Lemma inject_null_panics_witness :
  injectStreamOptions (jtext "{'stream_options':null}") = Panic nil_map_panic.
Proof.
  apply (inject_null_panics _ (<["stream_options" := JNull]> ∅)).
  - apply (object_of_members _ [("stream_options", JNull)]); reflexivity.
  - apply lookup_insert_eq.
Defined.

(** Bodies kept for the log are bounded: with a positive limit the stored
    text is the body itself when it fits, and otherwise its first bytes and
    the mark; limit 0 keeps everything; a negative limit panics on a body
    that is not empty, and nothing else does. *)
Theorem truncate_body_spec (b : string) (maxBytes : Z) :
  match truncateBodyWithConfig b maxBytes with
  | Ok t =>
      (t = b /\ (maxBytes = 0 \/ slen b <= maxBytes)) \/
      (0 < maxBytes < slen b /\ slen t = maxBytes + slen truncated_mark /\ has_prefix t (str_take (Z.to_nat maxBytes) b) = true)
  | Err _ => False
  | Panic _ => maxBytes < 0
  end.
Proof.
  unfold truncateBodyWithConfig. destruct (maxBytes =? 0) eqn:E0; cbn [orb]; [left; bool_to_prop; auto|].
  destruct (slen b <=? maxBytes) eqn:E1; [left; bool_to_prop; auto|].
  destruct (maxBytes <? 0) eqn:E2; [by bool_to_prop|]. right. bool_to_prop. unfold slen in *.
  rewrite str_app_length, str_take_length by lia. split_and!; [lia|lia|lia|apply has_prefix_app].
Qed.
