(* ===== verification/Streaming.v ===== *)
(** Streaming responses, [internal/proxy/streaming.go]: the rolling buffer of
    server-sent lines, the merging of usage reports, and the loop that copies
    a backend's stream to the client line by line. *)
From S2P Require Import Prelude GoLib Models Http Json Body.
Local Open Scope Z_scope.

(** * Usage *)

(** [UsageInfo]. *)
Record UsageInfo := mkUsageInfo {
  ui_PromptTokens : Z;
  ui_CompletionTokens : Z;
  ui_TotalTokens : Z;
  ui_CachedTokens : Z;
  ui_CachedTokensReported : bool;
}.

(** [mergeStreamUsage(current, ...)]. *)
Definition mergeStreamUsage (current : option UsageInfo) (promptTokens completionTokens totalTokens : Z)
    (cachedDetails : option Z) : UsageInfo :=
  let next := default (mkUsageInfo 0 0 0 0 false) current in
  match cachedDetails with
  | Some cached => mkUsageInfo promptTokens completionTokens totalTokens cached true
  | None =>
      mkUsageInfo promptTokens completionTokens totalTokens (ui_CachedTokens next) (ui_CachedTokensReported next)
  end.

(** * The rolling buffer *)

(** [streamBufferEntry]: a line and its content delta. *)
Record streamBufferEntry := mkChunk { ch_raw : string; ch_delta : string }.

#[export] Instance streamBufferEntry_eq_dec : EqDecision streamBufferEntry.
Proof. solve_decision. Defined.

(** [StreamingBuffer]. *)
Record StreamingBuffer := mkBuffer {
  sb_entries : list streamBufferEntry;
  sb_maxSize : Z;
  sb_current : Z;
  sb_evicted : bool;
}.

(** [NewStreamingBuffer(maxSize)]. *)
Definition NewStreamingBuffer (maxSize : Z) : StreamingBuffer := mkBuffer [] maxSize 0 false.

(** The eviction loop of [Add]: it ends because each turn drops an entry. *)
Fixpoint evict (lineBytes : Z) (entries : list streamBufferEntry) (maxSize current : Z) (evicted : bool)
    : StreamingBuffer :=
  match entries with
  | e :: entries' =>
      if maxSize <? current + lineBytes
      then evict lineBytes entries' maxSize (current - slen (ch_raw e)) true
      else mkBuffer entries maxSize current evicted
  | [] => mkBuffer [] maxSize current evicted
  end.

(** [b.Add(rawLine, contentDelta)]. *)
Definition Add (rawLine contentDelta : string) (b : StreamingBuffer) : StreamingBuffer :=
  let lineBytes := slen rawLine in
  let b := evict lineBytes (sb_entries b) (sb_maxSize b) (sb_current b) (sb_evicted b) in
  mkBuffer (sb_entries b ++ [mkChunk rawLine contentDelta]) (sb_maxSize b)
    (sb_current b + lineBytes) (sb_evicted b).

(** [b.GetAll()] and [takeStreamingChunks(buffer)]. *)
Definition GetAll (b : StreamingBuffer) : list streamBufferEntry * bool := (sb_entries b, sb_evicted b).

Definition takeStreamingChunks (buffer : option StreamingBuffer) : list streamBufferEntry * bool :=
  match buffer with None => ([], false) | Some b => GetAll b end.

(** * The scanner

    [bufio.Scanner] over lines, with the buffer limit the code sets: a line is
    a token when it is shorter than the limit; the bytes after the last line
    feed are a token too, also when the reader failed. *)
Definition max_token : Z := 1048576.

Fixpoint split_lf (s : string) : list string :=
  match s with
  | EmptyString => [""]
  | String c s' =>
      if Ascii.eqb c lf then "" :: split_lf s'
      else match split_lf s' with
           | p :: ps => String c p :: ps
           | [] => [String c ""]
           end
  end.

(** The lines before the end, and the unterminated rest if it is not empty. *)
Definition scan_tokens (data : string) : list string :=
  let pieces := split_lf data in
  let complete := removelast pieces in
  match List.last pieces "" with
  | EmptyString => complete
  | rest => complete ++ [rest]
  end.

(** [dropCR]. *)
Definition drop_cr (line : string) : string :=
  if has_suffix line (String cr "") then str_take (String.length line - 1) line else line.

(** * The copy loop *)

(** How the stream can fail; a failure may wrap the client's cancellation. *)
Inductive StreamError :=
| NoFlusher
| WriteFailed (canceled : bool)
| ReadFailed (canceled : bool)
| TokenTooLong.

#[export] Instance StreamError_eq_dec : EqDecision StreamError.
Proof. solve_decision. Defined.

(** [isClientCanceled(err)]. *)
Definition stream_canceled (e : StreamError) : bool :=
  match e with WriteFailed c | ReadFailed c => c | _ => false end.

(** The backend's body: the bytes it delivers and how it ends. *)
Record StreamBody := mkStream { st_data : string; st_error : option StreamError }.

(** A write that fails may have written the first bytes of its line. *)
Record WriteFailure := mkWriteFailure { we_canceled : bool; we_written : nat }.

(** The surroundings of the loop: whether the writer flushes, which writes of
    the client fail, the clock at each line, and the arguments. *)
Record StreamEnv := mkStreamEnv {
  se_flusher : bool;
  se_write : nat -> option WriteFailure;
  se_now : nat -> Z;
  se_startTime : Z;
  se_config : gmap string string;
  se_clientModel : string;
  se_viaAlias : bool;
}.

(** The variables of the loop. *)
Record LoopState := mkLoop {
  lp_usage : option UsageInfo;
  lp_ttft : option Z;
  lp_body : string;
  lp_capReached : bool;
  lp_buffer : option StreamingBuffer;
  lp_firstTokenSeen : bool;
  lp_writer : ResponseWriter;
  lp_lines : nat;
}.

(** One turn of the loop: go on, stop at [DONE], or fail. *)
Inductive Turn := Continue (s : LoopState) | Done (s : LoopState) | Broken (e : StreamError) (s : LoopState).

Definition write_line (line : string) (s : LoopState) : LoopState :=
  mkLoop (lp_usage s) (lp_ttft s) (lp_body s) (lp_capReached s) (lp_buffer s) (lp_firstTokenSeen s)
    (Write_ (line +:+ nl) (lp_writer s)) (S (lp_lines s)).

Definition write_part (n : nat) (line : string) (s : LoopState) : LoopState :=
  mkLoop (lp_usage s) (lp_ttft s) (lp_body s) (lp_capReached s) (lp_buffer s) (lp_firstTokenSeen s)
    (Write_ (str_take n (line +:+ nl)) (lp_writer s)) (lp_lines s).

(** The time to the first token, recorded once. *)
Definition see_token (env : StreamEnv) (k : nat) (s : LoopState) : LoopState :=
  if lp_firstTokenSeen s then s
  else mkLoop (lp_usage s) (Some (milliseconds (time_sub (se_now env k) (se_startTime env)))) (lp_body s)
         (lp_capReached s) (lp_buffer s) true (lp_writer s) (lp_lines s).

(** The usage of a chunk, when it decodes and reports one. *)
Definition chunk_usage (payload : string) : option Usage :=
  match parseUsageFromBody payload with Some (Some u) => Some u | _ => None end.

Definition take_usage (payload : string) (s : LoopState) : LoopState :=
  match chunk_usage payload with
  | None => s
  | Some u =>
      mkLoop (Some (mergeStreamUsage (lp_usage s) (u_PromptTokens u) (u_CompletionTokens u) (u_TotalTokens u)
                      (u_CachedTokens u)))
        (lp_ttft s) (lp_body s) (lp_capReached s) (lp_buffer s) (lp_firstTokenSeen s) (lp_writer s) (lp_lines s)
  end.

(** The reconstructed body grows until it first exceeds the cap. *)
Definition take_delta (respMax : Z) (deltaText : string) (s : LoopState) : LoopState :=
  if negb (lp_capReached s) && negb (str_empty deltaText) then
    let body := lp_body s +:+ deltaText in
    mkLoop (lp_usage s) (lp_ttft s) body ((0 <? respMax) && (respMax <? slen body)) (lp_buffer s)
      (lp_firstTokenSeen s) (lp_writer s) (lp_lines s)
  else s.

Definition take_chunk (raw deltaText : string) (s : LoopState) : LoopState :=
  mkLoop (lp_usage s) (lp_ttft s) (lp_body s) (lp_capReached s) (Add raw deltaText <$> lp_buffer s)
    (lp_firstTokenSeen s) (lp_writer s) (lp_lines s).

(** The line as the loop sees it, and as the client gets it. *)
Definition clean_line (token : string) : string := trim_right cr (drop_cr token).

Definition client_line (env : StreamEnv) (line : string) : string :=
  if se_viaAlias env then rewriteSSEDataLineForClientModel line (se_clientModel env) else line.

(** The payload of a data line. *)
Definition data_payload (line : string) : option string :=
  if has_prefix line "data:" then Some (trim_space (trim_prefix line "data:")) else None.

Definition turn (env : StreamEnv) (respMax : Z) (token : string) (s : LoopState) : Turn :=
  let k := lp_lines s in
  let line := clean_line token in
  let lineToWrite := client_line env line in
  match se_write env k with
  | Some failure => Broken (WriteFailed (we_canceled failure)) (write_part (we_written failure) lineToWrite s)
  | None =>
      let s := write_line lineToWrite s in
      match data_payload line with
      | None => Continue s
      | Some payload =>
          if String.eqb payload "[DONE]" then Done s
          else if str_empty payload then Continue s
          else
            let s := see_token env k s in
            let s := take_usage payload s in
            let deltaText := extractOpenAIContentDelta payload in
            let s := take_delta respMax deltaText s in
            Continue (take_chunk lineToWrite deltaText s)
      end
  end.

(** The loop over the tokens: the state at its end and whether it failed; a
    token of the limit's length stops the scanner. *)
Fixpoint copy_loop (env : StreamEnv) (respMax : Z) (tokens : list string) (at_end : option StreamError)
    (s : LoopState) : LoopState * option StreamError :=
  match tokens with
  | [] => (s, at_end)
  | t :: ts =>
      if max_token <=? slen t then (s, Some TokenTooLong)
      else
        match turn env respMax t s with
        | Continue s => copy_loop env respMax ts at_end s
        | Done s => (s, None)
        | Broken e s => (s, Some e)
        end
  end.

(** The results of [proxyStreaming]. *)
Record StreamResult := mkStreamResult {
  sr_usage : option UsageInfo;
  sr_ttftMs : option Z;
  sr_body : string;
  sr_chunks : list streamBufferEntry;
  sr_prefixDropped : bool;
  sr_err : option StreamError;
}.

(** [h.proxyStreaming(...)] and what it does to the response writer. *)
Definition proxyStreaming (env : StreamEnv) (backend : StreamBody) (w : ResponseWriter)
    : StreamResult * ResponseWriter :=
  if negb (se_flusher env) then (mkStreamResult None None "" [] false (Some NoFlusher), w)
  else
    let respMax := getConfigInt (se_config env) "response_body_max_bytes" DefaultResponseBodyMaxBytes in
    let trackStreaming := getConfigBool (se_config env) "track_streaming" false in
    let buffer :=
      if trackStreaming
      then Some (NewStreamingBuffer (getConfigInt (se_config env) "streaming_buffer_size" DefaultStreamingBufferSize))
      else None in
    let '(s, err) := copy_loop env respMax (scan_tokens (st_data backend)) (st_error backend)
      (mkLoop None None "" false buffer false w 0) in
    match err with
    | Some e => (mkStreamResult (lp_usage s) (lp_ttft s) "" [] false (Some e), lp_writer s)
    | None =>
        let '(chunks, dropped) := takeStreamingChunks (lp_buffer s) in
        (mkStreamResult (lp_usage s) (lp_ttft s) (lp_body s) chunks dropped None, lp_writer s)
    end.

(** * The reference reading of a stream

    What a stream means, line by line: the lines up to the first data line
    [DONE], and the payloads that carry something. *)
Definition is_done (line : string) : bool := bool_decide (data_payload line = Some "[DONE]").

Fixpoint upto_done (lines : list string) : list string :=
  match lines with
  | [] => []
  | l :: ls => if is_done l then [l] else l :: upto_done ls
  end.

(** The lines of a stream the loop handles. *)
Definition stream_lines (data : string) : list string := upto_done (clean_line <$> scan_tokens data).

(** The payload of a line, unless it is empty or [DONE]. *)
Definition content_payload (line : string) : option string :=
  match data_payload line with
  | Some p => if String.eqb p "[DONE]" || str_empty p then None else Some p
  | None => None
  end.

Definition payloads (data : string) : list string := omap content_payload (stream_lines data).

(** What one line changes in the state of the loop, its write having succeeded. *)
Definition after_line (env : StreamEnv) (respMax : Z) (s : LoopState) (line : string) : LoopState :=
  let s' := write_line (client_line env line) s in
  match content_payload line with
  | None => s'
  | Some p =>
      take_chunk (client_line env line) (extractOpenAIContentDelta p)
        (take_delta respMax (extractOpenAIContentDelta p)
          (take_usage p (see_token env (lp_lines s) s')))
  end.

(** Every line of the stream fits the scanner's buffer. *)
Definition lines_fit (data : string) : Prop := Forall (fun t => slen t < max_token) (scan_tokens data).

(** The bytes of lines as the client receives them. *)
Definition wire (lines : list string) : string := concat_strings ((fun l => l +:+ nl) <$> lines).

(** The state before the first line. *)
Definition start_state (env : StreamEnv) (w : ResponseWriter) : LoopState :=
  mkLoop None None "" false
    (if getConfigBool (se_config env) "track_streaming" false
     then Some (NewStreamingBuffer (getConfigInt (se_config env) "streaming_buffer_size" DefaultStreamingBufferSize))
     else None) false w 0.

Definition body_cap (env : StreamEnv) : Z :=
  getConfigInt (se_config env) "response_body_max_bytes" DefaultResponseBodyMaxBytes.

(** The usage that counts: the counts of the last report, with the cached
    tokens of the last report that mentions them. *)
Definition last_usage (us : list Usage) : option UsageInfo :=
  match last us with
  | None => None
  | Some u =>
      let cached := last (omap u_CachedTokens us) in
      Some (mkUsageInfo (u_PromptTokens u) (u_CompletionTokens u) (u_TotalTokens u)
              (default 0 cached) (bool_decide (is_Some cached)))
  end.

(** * Lemmas *)

Lemma concat_strings_app l1 l2 : concat_strings (l1 ++ l2) = concat_strings l1 +:+ concat_strings l2.
Proof. unfold concat_strings. induction l1 as [|x l1 IH]; cbn [app foldr]; [done|]. by rewrite IH, str_app_assoc. Qed.

Lemma wire_app l1 l2 : wire (l1 ++ l2) = wire l1 +:+ wire l2.
Proof. unfold wire. by rewrite fmap_app, concat_strings_app. Qed.

Lemma write_body b w : w_body (Write_ b w) = w_body w +:+ b.
Proof. unfold Write_, WriteHeader. by destruct (w_sent w). Qed.

Lemma wire_cons l ls : wire (l :: ls) = (l +:+ nl) +:+ wire ls.
Proof. done. Qed.

(** ** The turn and the loop *)

Lemma turn_good env m t s :
  se_write env (lp_lines s) = None ->
  turn env m t s = (if is_done (clean_line t) then Done else Continue) (after_line env m s (clean_line t)).
Proof.
  intros Hw. unfold turn, after_line, content_payload, is_done. rewrite Hw.
  destruct (data_payload (clean_line t)) as [p|]; simpl; [|done].
  destruct (String.eqb_spec p "[DONE]") as [->|Hne]; simpl; [done|].
  rewrite bool_decide_eq_false_2 by congruence. by destruct (str_empty p).
Qed.

Lemma see_token_writer env k s : lp_writer (see_token env k s) = lp_writer s /\ lp_lines (see_token env k s) = lp_lines s.
Proof. unfold see_token. by destruct (lp_firstTokenSeen s). Qed.

Lemma take_usage_writer p s : lp_writer (take_usage p s) = lp_writer s /\ lp_lines (take_usage p s) = lp_lines s.
Proof. unfold take_usage. by destruct (chunk_usage p). Qed.

Lemma take_delta_writer m d s : lp_writer (take_delta m d s) = lp_writer s /\ lp_lines (take_delta m d s) = lp_lines s.
Proof. unfold take_delta. by case_match. Qed.

Lemma after_line_writer env m s l :
  lp_writer (after_line env m s l) = Write_ (client_line env l +:+ nl) (lp_writer s) /\
  lp_lines (after_line env m s l) = S (lp_lines s).
Proof.
  unfold after_line. destruct (content_payload l) as [p|]; [|done]. cbn [take_chunk lp_writer lp_lines].
  destruct (take_delta_writer m (extractOpenAIContentDelta p)
    (take_usage p (see_token env (lp_lines s) (write_line (client_line env l) s)))) as [-> ->].
  destruct (take_usage_writer p (see_token env (lp_lines s) (write_line (client_line env l) s))) as [-> ->].
  by destruct (see_token_writer env (lp_lines s) (write_line (client_line env l) s)) as [-> ->].
Qed.

(** The lines handled end in [s]; the next of [rest] may have been begun. *)
Definition stopped (env : StreamEnv) (rest : list string) (err : option StreamError) (s s' : LoopState) : Prop :=
  s' = s \/ exists l ls c n, rest = l :: ls /\ err = Some (WriteFailed c) /\ s' = write_part n (client_line env l) s.

(** Whatever happens, the loop has handled a prefix of the stream's lines. *)
Lemma copy_loop_prefix env m toks e s :
  let '(s', err) := copy_loop env m toks e s in
  exists done_ rest, upto_done (clean_line <$> toks) = done_ ++ rest /\
    stopped env rest err (fold_left (after_line env m) done_ s) s' /\
    (err = None -> rest = []).
Proof.
  revert s. induction toks as [|t toks IH]; intros s; csimpl.
  { exists [], []. split; [done|]. split; [by left|done]. }
  destruct (max_token <=? slen t) eqn:Ht.
  { exists [], (if is_done (clean_line t) then [clean_line t] else clean_line t :: upto_done (clean_line <$> toks)).
    split; [done|]. split; [by left|done]. }
  destruct (se_write env (lp_lines s)) as [c|] eqn:Hw.
  { unfold turn. rewrite Hw. eexists [], _. split; [done|]. split; [|done]. right.
    destruct (is_done (clean_line t)); by eexists _, _, _, _. }
  rewrite turn_good by done. destruct (is_done (clean_line t)) eqn:Hd.
  { exists [clean_line t], []. split; [done|]. split; [by left|done]. }
  specialize (IH (after_line env m s (clean_line t))).
  destruct (copy_loop env m toks e (after_line env m s (clean_line t))) as [s' err].
  destruct IH as (dn & rest & Heq & Hs & Hr). exists (clean_line t :: dn), rest.
  rewrite Heq. split; [done|]. by split.
Qed.

(** Nothing fails when the writes succeed, the lines fit and the body ends. *)
Lemma copy_loop_ok env m toks s :
  (forall k, se_write env k = None) -> Forall (fun t => slen t < max_token) toks ->
  (copy_loop env m toks None s).2 = None.
Proof.
  intros Hw Hall. revert s. induction Hall as [|t toks Ht _ IH]; intros s; simpl; [done|].
  rewrite (proj2 (Z.leb_gt _ _) Ht), turn_good by done.
  by destruct (is_done (clean_line t)).
Qed.

Lemma fold_after_writer env m lines s :
  w_body (lp_writer (fold_left (after_line env m) lines s)) =
  w_body (lp_writer s) +:+ wire (client_line env <$> lines).
Proof.
  revert s. induction lines as [|l lines IH]; intros s; simpl.
  { by rewrite str_app_nil. }
  rewrite IH, (proj1 (after_line_writer _ _ _ _)). simpl. unfold WriteHeader.
  rewrite wire_cons. by destruct (w_sent (lp_writer s)); simpl; rewrite ?str_app_assoc.
Qed.

(** A run without error is the fold of [after_line] over the stream's lines. *)
Lemma run_ok env backend w :
  sr_err (proxyStreaming env backend w).1 = None ->
  let s := fold_left (after_line env (body_cap env)) (stream_lines (st_data backend)) (start_state env w) in
  proxyStreaming env backend w =
  (mkStreamResult (lp_usage s) (lp_ttft s) (lp_body s) (takeStreamingChunks (lp_buffer s)).1
     (takeStreamingChunks (lp_buffer s)).2 None, lp_writer s).
Proof.
  unfold proxyStreaming. destruct (se_flusher env); [|done]. cbn [negb].
  fold (start_state env w). fold (body_cap env).
  pose proof (copy_loop_prefix env (body_cap env) (scan_tokens (st_data backend)) (st_error backend)
    (start_state env w)) as Hp.
  destruct (copy_loop _ _ _ _ _) as [s [e|]]; [done|].
  destruct Hp as (dn & rest & Heq & Hs & Hr). rewrite (Hr eq_refl), app_nil_r in Heq.
  assert (E : s = fold_left (after_line env (body_cap env)) dn (start_state env w)).
  { destruct Hs as [Hs|(? & ? & ? & ? & _ & Hs & _)]; done. }
  clear Hs. rename E into Hs. unfold stream_lines. rewrite Heq, <- Hs. intros _.
  by destruct (takeStreamingChunks (lp_buffer s)).
Qed.

(** A stream does not change a status already sent. *)
Lemma fold_after_sent env m lines s x :
  w_sent (lp_writer s) = Some x -> w_sent (lp_writer (fold_left (after_line env m) lines s)) = Some x.
Proof.
  revert s. induction lines as [|l lines IH]; intros s Hs; [done|]. simpl. apply IH.
  rewrite (proj1 (after_line_writer _ _ _ _)). simpl. unfold WriteHeader. by rewrite Hs.
Qed.

Lemma stream_keeps_sent env backend w x :
  w_sent w = Some x -> w_sent (proxyStreaming env backend w).2 = Some x.
Proof.
  intros Hw. unfold proxyStreaming. destruct (se_flusher env); [|done]. cbn [negb].
  fold (start_state env w). fold (body_cap env).
  pose proof (copy_loop_prefix env (body_cap env) (scan_tokens (st_data backend)) (st_error backend)
    (start_state env w)) as Hp.
  destruct (copy_loop _ _ _ _ _) as [s err]. destruct Hp as (dn & rest & _ & Hs & _).
  assert (E : w_sent (lp_writer s) = Some x).
  { pose proof (fold_after_sent env (body_cap env) dn (start_state env w) x Hw) as K.
    destruct Hs as [->|(? & ? & ? & ? & _ & _ & ->)]; [exact K|]. simpl. unfold WriteHeader. by rewrite K. }
  destruct err; [|destruct (takeStreamingChunks _)]; exact E.
Qed.

(** Nothing fails when the writer flushes, the writes succeed, the lines fit
    and the backend's body ends regularly. *)
Lemma run_no_error env backend w :
  se_flusher env = true -> (forall k, se_write env k = None) -> lines_fit (st_data backend) ->
  st_error backend = None -> sr_err (proxyStreaming env backend w).1 = None.
Proof.
  intros Hfl Hw Hfit Herr. unfold proxyStreaming. rewrite Hfl, Herr. cbn [negb].
  fold (start_state env w). fold (body_cap env).
  pose proof (copy_loop_ok env (body_cap env) (scan_tokens (st_data backend)) (start_state env w) Hw Hfit) as H.
  destruct (copy_loop _ _ _ _ _) as [s [e|]]; [done|]. by destruct (takeStreamingChunks _).
Qed.

(** ** Usage *)

Definition merge_usage (cur : option UsageInfo) (u : Usage) : option UsageInfo :=
  Some (mergeStreamUsage cur (u_PromptTokens u) (u_CompletionTokens u) (u_TotalTokens u) (u_CachedTokens u)).

Lemma see_token_keeps env k s :
  lp_usage (see_token env k s) = lp_usage s /\ lp_body (see_token env k s) = lp_body s /\
  lp_capReached (see_token env k s) = lp_capReached s /\ lp_buffer (see_token env k s) = lp_buffer s.
Proof. unfold see_token. by destruct (lp_firstTokenSeen s). Qed.

Lemma take_usage_keeps p s :
  lp_usage (take_usage p s) = match chunk_usage p with Some u => merge_usage (lp_usage s) u | None => lp_usage s end /\
  lp_body (take_usage p s) = lp_body s /\ lp_capReached (take_usage p s) = lp_capReached s /\
  lp_buffer (take_usage p s) = lp_buffer s.
Proof. unfold take_usage. by destruct (chunk_usage p). Qed.

(** The reconstructed body and the flag of its cap, grown by one delta. *)
Definition grow (cap : Z) (b : string * bool) (d : string) : string * bool :=
  if negb b.2 && negb (str_empty d) then (b.1 +:+ d, (0 <? cap) && (cap <? slen (b.1 +:+ d))) else b.

Lemma take_delta_keeps m d s :
  lp_usage (take_delta m d s) = lp_usage s /\
  (lp_body (take_delta m d s), lp_capReached (take_delta m d s)) = grow m (lp_body s, lp_capReached s) d /\
  lp_buffer (take_delta m d s) = lp_buffer s.
Proof. unfold take_delta, grow. simpl. by case_match. Qed.

(** What a line does to each variable of the loop. *)
Lemma after_line_fields env m s l :
  let s' := after_line env m s l in
  lp_usage s' = match content_payload l ≫= chunk_usage with Some u => merge_usage (lp_usage s) u | None => lp_usage s end /\
  (lp_body s', lp_capReached s') =
    match content_payload l with
    | Some p => grow m (lp_body s, lp_capReached s) (extractOpenAIContentDelta p)
    | None => (lp_body s, lp_capReached s)
    end /\
  lp_buffer s' =
    match content_payload l with
    | Some p => Add (client_line env l) (extractOpenAIContentDelta p) <$> lp_buffer s
    | None => lp_buffer s
    end.
Proof.
  unfold after_line. destruct (content_payload l) as [p|]; [|done]. cbn.
  set (s1 := write_line (client_line env l) s).
  destruct (see_token_keeps env (lp_lines s) s1) as (A1 & A2 & A3 & A4).
  destruct (take_usage_keeps p (see_token env (lp_lines s) s1)) as (B1 & B2 & B3 & B4).
  destruct (take_delta_keeps m (extractOpenAIContentDelta p) (take_usage p (see_token env (lp_lines s) s1)))
    as (C1 & C2 & C3).
  rewrite C1, B1, A1, C3, B4, A4. split; [done|]. split; [|done]. by rewrite C2, B2, B3, A2, A3.
Qed.

Lemma fold_usage env m lines s :
  lp_usage (fold_left (after_line env m) lines s) =
  fold_left merge_usage (omap chunk_usage (omap content_payload lines)) (lp_usage s).
Proof.
  revert s. induction lines as [|l lines IH]; intros s; [done|]. cbn [fold_left]. rewrite IH.
  destruct (after_line_fields env m s l) as (-> & _ & _).
  csimpl. destruct (content_payload l) as [p|]; csimpl; [|done]. by destruct (chunk_usage p).
Qed.

Lemma merge_fold us : fold_left merge_usage us None = last_usage us.
Proof.
  induction us as [|u us IH] using rev_ind; [done|].
  rewrite fold_left_app, IH. cbn [fold_left]. unfold last_usage, merge_usage, mergeStreamUsage.
  rewrite last_snoc, omap_snoc. destruct (u_CachedTokens u) as [c|] eqn:Ec; csimpl.
  - by rewrite last_snoc.
  - rewrite app_nil_r. destruct (last us) as [v|] eqn:Ev; [done|].
    by apply last_None in Ev as ->.
Qed.

(** ** The reconstructed body *)

Lemma fold_body env m lines s :
  (lp_body (fold_left (after_line env m) lines s), lp_capReached (fold_left (after_line env m) lines s)) =
  fold_left (grow m) (extractOpenAIContentDelta <$> omap content_payload lines) (lp_body s, lp_capReached s).
Proof.
  revert s. induction lines as [|l lines IH]; intros s; [done|]. cbn [fold_left]. rewrite IH.
  destruct (after_line_fields env m s l) as (_ & -> & _).
  csimpl. by destruct (content_payload l).
Qed.

(** The deltas that carry text. *)
Definition text_deltas (ps : list string) : list string :=
  keep (fun d => negb (str_empty d)) (extractOpenAIContentDelta <$> ps).

Lemma grow_texts cap ds b : fold_left (grow cap) ds b = fold_left (grow cap) (keep (fun d => negb (str_empty d)) ds) b.
Proof.
  revert b. induction ds as [|d ds IH]; intros b; [done|]. unfold keep in *. cbn [fold_left List.filter].
  destruct (str_empty d) eqn:E; cbn [negb fold_left]; rewrite IH; [|done].
  unfold grow at 2. by rewrite E, andb_false_r.
Qed.

(** The body is the shortest run of deltas that passes the cap, or all of them. *)
Lemma grow_spec cap ds :
  Forall (fun d => negb (str_empty d) = true) ds ->
  exists taken rest, ds = taken ++ rest /\
    fold_left (grow cap) ds ("", false) =
      (concat_strings taken, (0 <? cap) && (cap <? slen (concat_strings taken))) /\
    (rest <> [] -> 0 < cap < slen (concat_strings taken)) /\
    (forall init d, taken = init ++ [d] -> 0 < cap -> slen (concat_strings init) <= cap).
Proof.
  induction ds as [|d ds IH] using rev_ind; intros Hall.
  { exists [], []. split; [done|]. split; [by destruct cap|]. split; [done|].
    intros [|??] ?; discriminate. }
  apply Forall_app in Hall as [Hall Hd]. apply Forall_inv in Hd.
  destruct (IH Hall) as (taken & rest & -> & Hf & Hr & Hi). rewrite fold_left_app, Hf. cbn [fold_left].
  unfold grow at 1. cbn [fst snd]. rewrite Hd.
  destruct ((0 <? cap) && (cap <? slen (concat_strings taken))) eqn:Hc; cbn [negb andb].
  { exists taken, (rest ++ [d]). rewrite app_assoc, Hc. repeat split; try done; intros; blia. }
  destruct rest as [|r rest]; [|exfalso; destruct (Hr ltac:(done)); apply andb_false_iff in Hc; blia || (destruct Hc; blia)].
  exists (taken ++ [d]), []. rewrite !app_nil_r, concat_strings_app. cbn [concat_strings foldr].
  rewrite str_app_nil. repeat split; try done.
  intros init d' [<- _]%app_inj_tail Hcap. apply andb_false_iff in Hc. destruct Hc; blia.
Qed.

(** ** The buffer *)

Definition total_size (l : list streamBufferEntry) : Z := foldr Z.add 0 ((fun e => slen (ch_raw e)) <$> l).

Lemma total_size_cons e l : total_size (e :: l) = slen (ch_raw e) + total_size l.
Proof. done. Qed.

Lemma total_size_app l1 l2 : total_size (l1 ++ l2) = total_size l1 + total_size l2.
Proof. induction l1 as [|e l1 IH]; [done|]. cbn [app]. rewrite !total_size_cons, IH. lia. Qed.

(** What the loop of [Add] drops, and why. *)
Lemma evict_spec n l m ev :
  exists dropped kept, l = dropped ++ kept /\
    evict n l m (total_size l) ev = mkBuffer kept m (total_size kept) (ev || negb (bool_decide (dropped = []))) /\
    (kept = [] \/ total_size kept + n <= m) /\
    (forall d e, dropped = d ++ [e] -> m < total_size (e :: kept) + n).
Proof.
  revert ev. induction l as [|e l IH]; intros ev; simpl.
  { exists [], []. rewrite orb_false_r. repeat split; auto. by intros [|??] ?. }
  destruct (m <? total_size (e :: l) + n) eqn:Hm.
  - replace (total_size (e :: l) - slen (ch_raw e)) with (total_size l) by (rewrite total_size_cons; lia).
    destruct (IH true) as (dr & kept & -> & -> & Hk & Hd). exists (e :: dr), kept.
    rewrite orb_true_r. split; [done|]. split; [done|]. split; [done|].
    intros [|x d] e' [= <- Heq]; [subst; cbn [app] in *; blia|]. by apply (Hd d).
  - exists [], (e :: l). rewrite orb_false_r. split; [done|]. split; [done|]. split; [right; blia|].
    by intros [|??] ?.
Qed.

(** The window the buffer promises: the longest run of the last lines that
    fits, or the last line alone. *)
Definition is_window (maxSize : Z) (all kept : list streamBufferEntry) (evicted : bool) : Prop :=
  exists dropped, all = dropped ++ kept /\
    evicted = negb (bool_decide (dropped = [])) /\
    (total_size kept <= maxSize \/ exists e, kept = [e]) /\
    (forall d e, dropped = d ++ [e] -> maxSize < total_size (e :: kept)).

Lemma adds_window maxSize es :
  let b := fold_left (fun b e => Add (ch_raw e) (ch_delta e) b) es (NewStreamingBuffer maxSize) in
  sb_maxSize b = maxSize /\ sb_current b = total_size (sb_entries b) /\
  (es <> [] -> is_window maxSize es (sb_entries b) (sb_evicted b)) /\
  exists dropped, es = dropped ++ sb_entries b /\ sb_evicted b = negb (bool_decide (dropped = [])) /\
    (forall d e, dropped = d ++ [e] -> maxSize < total_size (e :: sb_entries b)).
Proof.
  induction es as [|x es IH] using rev_ind; simpl.
  { split; [done|]. split; [done|]. split; [done|]. exists []. repeat split. by intros [|??] ?. }
  rewrite fold_left_app. cbn [fold_left].
  set (b := fold_left _ es _) in *. destruct IH as (Hm & Hc & _ & dr & He & Hev & Hdr).
  unfold Add. rewrite Hm, Hc.
  destruct (evict_spec (slen (ch_raw x)) (sb_entries b) maxSize (sb_evicted b)) as (dr' & kept & Hk & -> & Hfit & Hd').
  cbn [sb_entries sb_maxSize sb_current sb_evicted].
  assert (Hx : mkChunk (ch_raw x) (ch_delta x) = x) by (by destruct x). rewrite Hx.
  assert (Hsnoc : forall l, total_size (l ++ [x]) = total_size l + slen (ch_raw x)).
  { intros l. rewrite total_size_app. rewrite total_size_cons. cbn. lia. }
  split; [done|]. split; [by rewrite Hsnoc|].
  assert (exists dropped, es ++ [x] = dropped ++ (kept ++ [x]) /\
    sb_evicted b || negb (bool_decide (dr' = [])) = negb (bool_decide (dropped = [])) /\
    (forall d e, dropped = d ++ [e] -> maxSize < total_size (e :: (kept ++ [x])))) as Hex.
  { exists (dr ++ dr'). split; [by rewrite He, Hk, <- !app_assoc|]. split.
    - rewrite Hev. destruct dr, dr'; done.
    - intros d e Heq. rewrite app_comm_cons, Hsnoc. destruct dr' as [|y dr' _] using rev_ind.
      + rewrite app_nil_r in Heq. specialize (Hdr d e Heq). rewrite Hk in Hdr.
        cbn [app] in Hdr. pose proof (Nat2Z.is_nonneg (String.length (ch_raw x))). unfold slen. lia.
      + rewrite app_assoc in Heq. apply app_inj_tail in Heq as [_ ->]. by apply (Hd' dr'). }
  split; [|done]. intros _. destruct Hex as (dropped & E1 & E2 & E3).
  exists dropped. split; [done|]. split; [done|]. split; [|done].
  destruct Hfit as [->|Hfit]; [right; by exists x|left; by rewrite Hsnoc].
Qed.

Definition chunk_of (env : StreamEnv) (line : string) : option streamBufferEntry :=
  (fun p => mkChunk (client_line env line) (extractOpenAIContentDelta p)) <$> content_payload line.

Lemma fold_buffer env m lines s :
  lp_buffer (fold_left (after_line env m) lines s) =
  fold_left (fun b e => Add (ch_raw e) (ch_delta e) b) (omap (chunk_of env) lines) <$> lp_buffer s.
Proof.
  revert s. induction lines as [|l lines IH]; intros s; [cbn [fold_left omap]; by destruct (lp_buffer s)|]. cbn [fold_left]. rewrite IH.
  destruct (after_line_fields env m s l) as (_ & _ & ->). csimpl. unfold chunk_of at 2.
  destruct (content_payload l); csimpl; by destruct (lp_buffer s).
Qed.

(** * Properties *)

(** C24: whatever fails on the way, the client has received the first lines of
    the backend's stream, each ended by a line feed and carrying the name the
    client asked for when it used an alias; only when a write to it failed may
    the first bytes of the next line follow; without an error it has received
    exactly the lines up to and including [DONE]; and there is no error when
    the writer flushes, the client's writes succeed, the lines fit the
    scanner's buffer and the backend's body ends regularly. *)
Theorem stream_forwards (env : StreamEnv) (backend : StreamBody) (w : ResponseWriter) :
  let '(r, w') := proxyStreaming env backend w in
  let lines := stream_lines (st_data backend) in
  exists n part,
    w_body w' = w_body w +:+ wire (client_line env <$> take n lines) +:+ part /\
    (part = "" \/ exists c l k, sr_err r = Some (WriteFailed c) /\ lines !! n = Some l /\ part = str_take k (client_line env l +:+ nl)) /\
    (sr_err r = None -> (length lines <= n)%nat) /\
    (se_flusher env = true -> (forall k, se_write env k = None) -> lines_fit (st_data backend) ->
     st_error backend = None -> sr_err r = None).
Proof.
  destruct (proxyStreaming env backend w) as [r w'] eqn:E. cbv zeta. pose proof (run_no_error env backend w) as Hno. rewrite E in Hno.
  unfold proxyStreaming in E. destruct (se_flusher env) eqn:Hfl; cbn [negb] in E.
  2: { injection E as <- <-. exists 0%nat, "". cbn. rewrite str_app_nil. split; [done|]. split; [by left|]. split; [intros H; discriminate H|done]. }
  fold (start_state env w) in E. fold (body_cap env) in E.
  pose proof (copy_loop_prefix env (body_cap env) (scan_tokens (st_data backend)) (st_error backend) (start_state env w)) as Hp.
  destruct (copy_loop _ _ _ (st_error backend) _) as [s err]. destruct Hp as (dn & rest & Heq & Hs & Hr).
  assert (Ew : w' = lp_writer s /\ sr_err r = err).
  { destruct err; [|destruct (takeStreamingChunks _)]; injection E as <- <-; done. }
  destruct Ew as [-> Er]. fold (stream_lines (st_data backend)) in Heq. exists (length dn).
  simpl in Hno. rewrite Er in Hno. rewrite Heq, Er, take_app_length. pose proof (fold_after_writer env (body_cap env) dn (start_state env w)) as Hw.
  assert (Hlen : err = None -> (length (dn ++ rest) <= length dn)%nat) by (intros He; by rewrite (Hr He), app_nil_r).
  destruct Hs as [->|(l & ls & c & k & -> & -> & ->)].
  - exists "". rewrite Hw, str_app_nil. split; [done|]. split; [by left|]. split; [exact Hlen|apply Hno].
  - exists (str_take k (client_line env l +:+ nl)). split; [|split; [|split; [exact Hlen|apply Hno]]].
    + cbn [write_part lp_writer]. rewrite write_body, Hw. apply str_app_assoc.
    + right. exists c, l, k. split; [done|]. split; [by rewrite list_lookup_middle|done].
Qed.

(** ** Streams of whole lines *)

Lemma split_lf_cons l : exists p ps, split_lf l = p :: ps.
Proof.
  induction l as [|c l (p & ps & IH)]; simpl; [by eexists _, _|].
  case_match; [by eexists _, _|]. rewrite IH. by eexists _, _.
Qed.

Lemma split_lf_line l rest : split_lf l = [l] -> split_lf ((l +:+ nl) +:+ rest) = l :: split_lf rest.
Proof.
  revert rest. induction l as [|c l IH]; intros rest; simpl.
  { intros _. unfold nl. by str_norm. }
  intros H. str_norm. cbn [split_lf]. destruct (Ascii.eqb c lf); [done|].
  destruct (split_lf l) as [|p ps] eqn:E; [by destruct (split_lf_cons l) as (?&?&?); congruence|].
  injection H as -> ->. specialize (IH rest eq_refl). rewrite str_app_assoc in IH. by rewrite IH.
Qed.

Lemma scan_tokens_wire lines : Forall (fun l => split_lf l = [l]) lines -> scan_tokens (wire lines) = lines.
Proof.
  intros H. assert (split_lf (wire lines) = lines ++ [""]) as Hs.
  { induction H as [|l ls Hl _ IH]; [done|]. by rewrite wire_cons, split_lf_line, IH. }
  unfold scan_tokens. by rewrite Hs, List.last_last, List.removelast_last.
Qed.

Lemma upto_done_none lines : Forall (fun l => is_done l = false) lines -> upto_done lines = lines.
Proof. induction 1 as [|l ls Hl _ IH]; simpl; [done|]. by rewrite Hl, IH. Qed.

(** A stream of unremarkable lines (no carriage return at their ends, no
    [DONE], none as long as the scanner's buffer) asked for by its own name
    reaches the client byte for byte. *)
Theorem stream_transparent (env : StreamEnv) (lines : list string) (w : ResponseWriter)
    (Hfl : se_flusher env = true) (Hw : forall k, se_write env k = None) (Hal : se_viaAlias env = false)
    (Hl : Forall (fun l => split_lf l = [l] /\ clean_line l = l /\ is_done l = false /\ slen l < max_token) lines) :
  w_body (proxyStreaming env (mkStream (wire lines) None) w).2 = w_body w +:+ wire lines.
Proof.
  assert (scan_tokens (wire lines) = lines) as Hs.
  { apply scan_tokens_wire. eapply Forall_impl; [done|]. naive_solver. }
  assert (clean_line <$> lines = lines) as Hc.
  { clear Hs. induction Hl as [|l ls (_ & Hc & _) _ IH]; [done|]. csimpl. by rewrite Hc, IH. }
  assert (stream_lines (wire lines) = lines) as Hsl.
  { unfold stream_lines. rewrite Hs, Hc. apply upto_done_none. eapply Forall_impl; [done|]. naive_solver. }
  assert (sr_err (proxyStreaming env (mkStream (wire lines) None) w).1 = None) as Hok.
  { apply run_no_error; [done|done| |done]. unfold lines_fit. simpl. rewrite Hs.
    eapply Forall_impl; [done|]. naive_solver. }
  rewrite (run_ok _ _ _ Hok). cbn [snd st_data]. rewrite fold_after_writer, Hsl. simpl.
  f_equal. f_equal. unfold client_line. rewrite Hal. apply list_fmap_id.
Qed.

(** The usage logged for a stream holds the counts of the last chunk that
    reports usage, and the cached tokens of the last chunk that mentions them. *)
Theorem stream_usage_latest (env : StreamEnv) (backend : StreamBody) (w : ResponseWriter)
    (Hok : sr_err (proxyStreaming env backend w).1 = None) :
  sr_usage (proxyStreaming env backend w).1 = last_usage (omap chunk_usage (payloads (st_data backend))).
Proof. rewrite (run_ok _ _ _ Hok). simpl. by rewrite fold_usage, merge_fold. Qed.

(** C36: the body reconstructed for the log is the concatenation of the content
    deltas in their order, cut after the first delta that passes the configured
    cap; without a cap, or below it, nothing is cut. *)
Theorem stream_body_reconstructed (env : StreamEnv) (backend : StreamBody) (w : ResponseWriter)
    (Hok : sr_err (proxyStreaming env backend w).1 = None) :
  exists taken rest,
    text_deltas (payloads (st_data backend)) = taken ++ rest /\
    sr_body (proxyStreaming env backend w).1 = concat_strings taken /\
    (rest <> [] -> 0 < body_cap env < slen (concat_strings taken)) /\
    (forall init d, taken = init ++ [d] -> 0 < body_cap env -> slen (concat_strings init) <= body_cap env).
Proof.
  rewrite (run_ok _ _ _ Hok). cbn [fst sr_body].
  pose proof (fold_body env (body_cap env) (stream_lines (st_data backend)) (start_state env w)) as Hb.
  rewrite grow_texts in Hb.
  match type of Hb with ?l = _ =>
    change (l = fold_left (grow (body_cap env)) (text_deltas (payloads (st_data backend))) ("", false)) in Hb end.
  destruct (grow_spec (body_cap env) (text_deltas (payloads (st_data backend)))) as (taken & rest & E & Hf & Hr & Hi).
  { apply Forall_forall. intros d [_ Hd]%keep_spec. exact Hd. }
  exists taken, rest. split; [done|]. split; [|done].
  rewrite Hf in Hb. by inversion Hb.
Qed.

(** With chunk tracking on, the chunks logged are the longest run of the
    last content lines (as the client received them) that fits the configured
    buffer, or the last line alone when it is larger; the truncation flag is
    set exactly when a line was dropped. *)
Theorem stream_chunks_window (env : StreamEnv) (backend : StreamBody) (w : ResponseWriter)
    (Hok : sr_err (proxyStreaming env backend w).1 = None)
    (Htrack : getConfigBool (se_config env) "track_streaming" false = true) :
  let r := (proxyStreaming env backend w).1 in
  let all := omap (chunk_of env) (stream_lines (st_data backend)) in
  let size := getConfigInt (se_config env) "streaming_buffer_size" DefaultStreamingBufferSize in
  (all = [] -> sr_chunks r = [] /\ sr_prefixDropped r = false) /\
  (all <> [] -> is_window size all (sr_chunks r) (sr_prefixDropped r)).
Proof.
  rewrite (run_ok _ _ _ Hok). cbn [fst sr_chunks sr_prefixDropped]. rewrite fold_buffer.
  unfold start_state. rewrite Htrack. csimpl.
  set (all := omap (chunk_of env) _). set (size := getConfigInt _ _ _).
  destruct (adds_window size all) as (_ & _ & Hwin & _). split; [by intros ->|done].
Qed.

(** ** Witnesses *)

(** A short chat stream: two deltas, a usage report, the end mark, and a blank
    line after it. *)
Definition sample_stream : StreamBody :=
  mkStream
    (wire [jtext "data: {'model':'m','choices':[{'delta':{'content':'Hel'}}]}"; "";
           jtext "data: {'model':'m','choices':[{'delta':{'content':'lo'}}]}"; "";
           jtext "data: {'model':'m','usage':{'prompt_tokens':3,'completion_tokens':2,'total_tokens':5}}"; "";
           "data: [DONE]"; ""]) None.

Definition sample_stream_env : StreamEnv :=
  mkStreamEnv true (fun _ => None) (fun k => Z.of_nat k * Millisecond) 0
    (<["track_streaming" := "true"]> (<["streaming_buffer_size" := "120"]> (<["response_body_max_bytes" := "2"]> ∅)))
    "client" true.

Example sample_stream_run :
  let '(r, w) := proxyStreaming sample_stream_env sample_stream new_writer in
  sr_usage r = Some (mkUsageInfo 3 2 5 0 false) /\ sr_ttftMs r = Some 0 /\ sr_body r = "Hel" /\
  length (sr_chunks r) = 1%nat /\ sr_prefixDropped r = true /\
  w_body w =
    wire [jtext "data: {'choices':[{'delta':{'content':'Hel'}}],'model':'client'}"; "";
          jtext "data: {'choices':[{'delta':{'content':'lo'}}],'model':'client'}"; "";
          jtext "data: {'model':'client','usage':{'prompt_tokens':3,'completion_tokens':2,'total_tokens':5}}"; "";
          "data: [DONE]"].
Proof. vm_compute. repeat split. Qed.

Lemma sample_stream_ok : sr_err (proxyStreaming sample_stream_env sample_stream new_writer).1 = None.
Proof. vm_compute. reflexivity. Qed.

Lemma stream_transparent_witness :
  w_body (proxyStreaming (mkStreamEnv true (fun _ => None) (fun _ => 0) 0 ∅ "m" false)
            (mkStream (wire ["event: ping"; ""; "data: {}"; ""]) None) new_writer).2 =
  "" +:+ wire ["event: ping"; ""; "data: {}"; ""].
Proof.
  apply (stream_transparent (mkStreamEnv true (fun _ => None) (fun _ => 0) 0 ∅ "m" false)
           ["event: ping"; ""; "data: {}"; ""] new_writer); [reflexivity|reflexivity|reflexivity|].
  repeat constructor; reflexivity.
Defined.

Lemma stream_usage_latest_witness :
  sr_usage (proxyStreaming sample_stream_env sample_stream new_writer).1 =
  last_usage (omap chunk_usage (payloads (st_data sample_stream))) /\
  last_usage (omap chunk_usage (payloads (st_data sample_stream))) = Some (mkUsageInfo 3 2 5 0 false).
Proof.
  split; [apply (stream_usage_latest _ _ _ sample_stream_ok)|vm_compute; reflexivity].
Defined.

Lemma stream_body_reconstructed_witness :
  exists taken rest,
    text_deltas (payloads (st_data sample_stream)) = taken ++ rest /\
    sr_body (proxyStreaming sample_stream_env sample_stream new_writer).1 = concat_strings taken /\
    (rest <> [] -> 0 < body_cap sample_stream_env < slen (concat_strings taken)) /\
    (forall init d, taken = init ++ [d] -> 0 < body_cap sample_stream_env ->
       slen (concat_strings init) <= body_cap sample_stream_env).
Proof. exact (stream_body_reconstructed _ _ _ sample_stream_ok). Defined.

Lemma stream_chunks_window_witness :
  let r := (proxyStreaming sample_stream_env sample_stream new_writer).1 in
  is_window 120 (omap (chunk_of sample_stream_env) (stream_lines (st_data sample_stream)))
    (sr_chunks r) (sr_prefixDropped r).
Proof.
  apply (stream_chunks_window _ _ _ sample_stream_ok); [vm_compute; reflexivity|].
  intros H. apply (f_equal length) in H. vm_compute in H. discriminate H.
Defined.
