(* ===== verification/Active.v ===== *)
(** The registry of in-flight requests, [internal/proxy/active.go]. *)
From S2P Require Import Prelude GoLib.
Local Open Scope Z_scope.

(** [ActiveRequest]. *)
Record ActiveRequest := mkActive {
  ar_ID : string;
  ar_Model : string;
  ar_Endpoint : string;
  ar_StartedAt : Z;
  ar_Remote : string;
}.

#[export] Instance ActiveRequest_eq_dec : EqDecision ActiveRequest.
Proof. solve_decision. Defined.

(** [ActiveRegistry]. *)
Abbreviation ActiveRegistry := (gmap string ActiveRequest).

(** [NewActiveRegistry()]. *)
Definition NewActiveRegistry : ActiveRegistry := ∅.

(** [SetActiveRegistry(p, r)]: a nil [r] leaves the pointer alone. *)
Definition SetActiveRegistry (r : option ActiveRegistry) (p : option ActiveRegistry) : option ActiveRegistry :=
  match r with None => p | Some r => Some r end.

(** [r.Begin(model, endpoint, remote)]; the identifier and the time are drawn
    by the caller of the model. *)
Definition Begin (id : string) (now : Z) (model endpoint remote : string) (r : ActiveRegistry) : ActiveRegistry :=
  <[id := mkActive id model endpoint now remote]> r.

(** [r.End(id)]. *)
Definition End (id : string) (r : ActiveRegistry) : ActiveRegistry :=
  if str_empty id then r else delete id r.

(** [r.Count()] and [ActiveCount(r)]. *)
Definition Count (r : ActiveRegistry) : Z := Z.of_nat (size r).

Definition ActiveCount (r : option ActiveRegistry) : Z :=
  match r with None => 0 | Some r => Count r end.

(** [r.Snapshot()]: the values, in no particular order. *)
Definition Snapshot (r : ActiveRegistry) : list ActiveRequest := (map_to_list r).*2.

(** * Runs *)

Inductive ActiveEvent :=
| Begun (id : string) (now : Z) (model endpoint remote : string)
| Ended (id : string).

Definition active_exec (r : ActiveRegistry) (e : ActiveEvent) : ActiveRegistry :=
  match e with
  | Begun id now model endpoint remote => Begin id now model endpoint remote r
  | Ended id => End id r
  end.

Definition active_run (es : list ActiveEvent) : ActiveRegistry := fold_left active_exec es NewActiveRegistry.

(** The identifiers begun by a run, and those it ended. *)
Definition begun_id (e : ActiveEvent) : option string :=
  match e with Begun id _ _ _ _ => Some id | Ended _ => None end.
Definition ended_id (e : ActiveEvent) : option string :=
  match e with Begun _ _ _ _ _ => None | Ended id => Some id end.

(** Every request draws a fresh identifier, and ends at most once, after it
    began: the discipline the deferred [End] of the handlers keeps. *)
Fixpoint disciplined (used : gset string) (live : gset string) (es : list ActiveEvent) : Prop :=
  match es with
  | [] => True
  | Begun id _ _ _ _ :: es' => id ∉ used /\ id <> "" /\ disciplined ({[id]} ∪ used) ({[id]} ∪ live) es'
  | Ended id :: es' => id ∈ live /\ disciplined used (live ∖ {[id]}) es'
  end.

(** * Lemmas *)

Lemma Begin_End id now model endpoint remote r :
  r !! id = None -> id <> "" -> End id (Begin id now model endpoint remote r) = r.
Proof.
  intros Hr Hid. unfold End, Begin. destruct (String.eqb_spec id "") as [->|_]; [done|].
  unfold str_empty. rewrite (proj2 (String.eqb_neq id "") Hid). by apply delete_insert_id.
Qed.

Lemma End_lookup id r i : id <> "" -> End id r !! i = if decide (i = id) then None else r !! i.
Proof.
  intros Hid. unfold End, str_empty. rewrite (proj2 (String.eqb_neq id "") Hid).
  case_decide; subst; by rewrite ?lookup_delete_eq, ?lookup_delete_ne.
Qed.

(** Along a disciplined run the count is the difference of the two counts. *)
Lemma run_count es used live r :
  dom r = live -> live ⊆ used -> "" ∉ live -> disciplined used live es ->
  (size (fold_left active_exec es r) + length (omap ended_id es) = size r + length (omap begun_id es))%nat.
Proof.
  revert used live r. induction es as [|[id now mo ep re|id] es IH]; intros used live r Hd Hsub He Hdis; csimpl; [done| |].
  - destruct Hdis as (Hf & Hne & Hdis).
    assert (r !! id = None) as Hr by (apply not_elem_of_dom; rewrite Hd; set_solver).
    specialize (IH ({[id]} ∪ used) ({[id]} ∪ live) (Begin id now mo ep re r)).
    unfold Begin in *. rewrite dom_insert_L, Hd, map_size_insert_None in IH by done.
    rewrite <- Nat.add_succ_comm in *. apply IH; set_solver.
  - destruct Hdis as (Hin & Hdis).
    assert (id <> "") as Hne by (intros ->; done).
    assert (is_Some (r !! id)) as [x Hx] by (apply elem_of_dom; by rewrite Hd).
    specialize (IH used (live ∖ {[id]}) (End id r)).
    unfold End, str_empty in *. rewrite (proj2 (String.eqb_neq id "") Hne) in *.
    rewrite dom_delete_L, Hd in IH.
    rewrite map_size_delete_Some in IH by eauto.
    assert (size r <> 0)%nat by (rewrite map_size_ne_0_lookup; eauto).
    assert (live ∖ {[id]} ⊆ used) as Hs' by set_solver.
    assert ("" ∉ live ∖ {[id]}) as He' by set_solver.
    specialize (IH eq_refl Hs' He' Hdis). lia.
Qed.

(** * Properties *)

(** the in-flight count the gateway reports is the number of requests that
    began and have not ended, whatever the interleaving of the requests. *)
Theorem active_count_exact (es : list ActiveEvent) (Hes : disciplined ∅ ∅ es) :
  Count (active_run es) = Z.of_nat (length (omap begun_id es)) - Z.of_nat (length (omap ended_id es)) /\
  length (Snapshot (active_run es)) = size (active_run es).
Proof.
  split; [|unfold Snapshot; by rewrite length_fmap, length_map_to_list].
  unfold Count, active_run, NewActiveRegistry.
  pose proof (run_count es ∅ ∅ ∅ dom_empty_L ltac:(done) (not_elem_of_empty "") Hes) as H.
  rewrite map_size_empty in H. lia.
Qed.

Lemma active_count_exact_witness :
  let es := [Begun "a" 1 "m" "/v1/completions" "1.2.3.4"; Begun "b" 2 "m" "/v1/completions" "1.2.3.4"; Ended "a"] in
  disciplined ∅ ∅ es /\ Count (active_run es) = 1.
Proof.
  assert (disciplined ∅ ∅ [Begun "a" 1 "m" "/v1/completions" "1.2.3.4";
    Begun "b" 2 "m" "/v1/completions" "1.2.3.4"; Ended "a"]) as H by (cbn; set_solver).
  split; [exact H|]. rewrite (proj1 (active_count_exact _ H)). reflexivity.
Defined.
