(* ===== verification/Handler.v ===== *)
(** The proxy handlers of [internal/proxy/handler.go]: failover over backends,
    the non-streaming, transcription and streaming requests, and the endpoints
    that parse a body before they proxy it.

    A handler runs in a [World]: the router, the response writer, the registry
    of in-flight requests and the trace of what it did to the outside.  The
    router is used through the class [RouterI]. *)
From S2P Require Import Prelude GoLib Models Catalog Router Http Json Body Streaming Active.
Local Open Scope Z_scope.

(** * The router as the handlers see it *)

(** The interface [Router].  The handlers rely on one promise: the URL of a
    route is the base URL of its provider followed by the endpoint's path. *)
Class RouterI (R : Type) := {
  ri_route : string -> string -> ST R (Outcome RouteError RouteResult);
  ri_success : string -> R -> R;
  ri_failure : string -> R -> R;
  ri_target : forall model path r route r',
      ri_route model path r = (Ok route, r') ->
      rr_TargetURL route = target_url (p_BaseURL (rr_Provider route)) path;
}.

(** * Backends *)

(** A request to a backend, as [http.NewRequestWithContext] and the handlers
    build it. *)
Record BackendRequest := mkBackendRequest {
  bq_URL : string;
  bq_Header : Header;
  bq_Body : string;
}.

(** A backend's response; its body may fail while it is read. *)
Record BackendResponse := mkBackendResponse {
  br_StatusCode : Z;
  br_Header : Header;
  br_Body : StreamBody;
}.

(** What [client.Do] gives: an error with its text, or a response. *)
Inductive DoResult :=
| DoErr (canceled : bool) (text : string)
| DoResp (resp : BackendResponse).

(** * The trace of a request *)

(** [StreamingLogChunk]. *)
Record StreamingLogChunk := mkLogChunk { lc_Raw : string; lc_Delta : string }.

(** What a handler does to the outside: route requests, sends to backends with
    what came of them, reports to the router, hand-overs to the metrics
    collector, and the status of an answer. *)
Inductive Event :=
| EvUnrouted
| EvRouted (route : RouteResult)
| EvSent (req : BackendRequest) (res : DoResult)
| EvFailure (providerID : string)
| EvSuccess (providerID : string)
| EvRecord (log : RequestLog)
| EvRecordStreaming (log : RequestLog) (chunks : list StreamingLogChunk) (prefixDropped : bool)
| EvReply (status : Z).

(** The surroundings of a request: the readings of the clock, the identifiers
    [uuid.New] draws, the configuration snapshot, the backends (what they
    answer may depend on all that went before), the URLs
    [http.NewRequestWithContext] refuses, the error texts of [encoding/json],
    [strconv.Quote], and the surroundings of a stream with its error texts. *)
Record HandlerEnv := mkHandlerEnv {
  he_now : nat -> Z;
  he_uuid : nat -> string;
  he_config : gmap string string;
  he_do : list Event -> BackendRequest -> DoResult;
  he_url_error : string -> option string;
  he_json_error : string -> string;
  he_quote : string -> string;
  he_body_fails : bool;
  he_flusher : bool;
  he_write : nat -> option WriteFailure;
  he_error_text : StreamError -> string;
}.

Section World.
Context {R : Type}.

Record World := mkWorld {
  wd_router : R;
  wd_writer : ResponseWriter;
  wd_active : option ActiveRegistry;
  wd_trace : list Event;
  wd_ticks : nat;
  wd_uuids : nat;
}.

Definition set_router (r : R) (w : World) : World :=
  mkWorld r (wd_writer w) (wd_active w) (wd_trace w) (wd_ticks w) (wd_uuids w).
Definition set_writer (rw : ResponseWriter) (w : World) : World :=
  mkWorld (wd_router w) rw (wd_active w) (wd_trace w) (wd_ticks w) (wd_uuids w).
Definition set_active (a : option ActiveRegistry) (w : World) : World :=
  mkWorld (wd_router w) (wd_writer w) a (wd_trace w) (wd_ticks w) (wd_uuids w).
Definition log_event (e : Event) (w : World) : World :=
  mkWorld (wd_router w) (wd_writer w) (wd_active w) (wd_trace w ++ [e]) (wd_ticks w) (wd_uuids w).

(** A handler's code: it returns or panics. *)
Definition M (A : Type) : Type := ST World (Outcome Empty_set A).

Definition mret {A} (a : A) : M A := fun w => (Ok a, w).
Definition mpanic {A} (msg : string) : M A := fun w => (Panic msg, w).

Definition mbind_ {A B} (m : M A) (k : A -> M B) : M B :=
  fun w => match m w with
           | (Ok a, w') => k a w'
           | (Err e, w') => match e with end
           | (Panic msg, w') => (Panic msg, w')
           end.

Definition effect (f : World -> World) : M unit := fun w => (Ok tt, f w).

(** The value of an outcome that has no error. *)
Definition lift_panic {A} (o : Outcome unit A) (dflt : A) : M A :=
  match o with Ok a => mret a | Err _ => mret dflt | Panic msg => mpanic msg end.

End World.
Arguments World : clear implicits.
Arguments M : clear implicits.

Notation "'do!' x ':=' m 'in' k" := (mbind_ m (fun x => k))
  (at level 10, x pattern, m at level 200, k at level 200) : go_scope.
Notation "m '>>!' k" := (mbind_ m (fun _ => k)) (at level 100, right associativity) : go_scope.
Local Open Scope go_scope.

(** * Headers *)

(** [for _, v := range values { h.Add(key, v) }]. *)
Definition add_values (h : Header) (kv : string * list string) : Header :=
  fold_left (fun h v => header_add kv.1 v h) kv.2 h.

(** The body-derived headers [copyResponseHeaders] leaves out. *)
Definition body_derived (key : string) : bool :=
  bool_decide (to_lower key ∈ ["content-length"; "etag"; "content-md5"]).

(** [copyResponseHeaders(w, resp)]: the order of the keys does not matter. *)
Definition copyResponseHeaders (resp : BackendResponse) (w : ResponseWriter) : ResponseWriter :=
  fold_left (fun w kv =>
      if body_derived kv.1 then w
      else if is_hop_by_hop kv.1 then w
      else mkWriter (add_values (w_header w) kv) (w_sent w) (w_body w))
    (map_to_list (br_Header resp)) w.

(** [copyResponseHeadersAndWrite(w, resp, body, status)]. *)
Definition copyResponseHeadersAndWrite (resp : BackendResponse) (body : string) (status : Z)
    (w : ResponseWriter) : ResponseWriter :=
  let w := copyResponseHeaders resp w in
  let w := w_set "Content-Length" (itoa (slen body)) w in
  let w := WriteHeader status w in
  Write_ body w.

(** [setBackendAuth(req, incomingReq, provider)]. *)
Definition setBackendAuth (incomingReq : Request) (provider : Provider) (h : Header) : Header :=
  if negb (str_empty (p_APIKey provider)) then header_set "Authorization" ("Bearer " +:+ p_APIKey provider) h
  else
    let auth := header_get (req_Header incomingReq) "Authorization" in
    if negb (str_empty auth) then header_set "Authorization" auth h else h.

(** The client's [OpenAI-*] headers are forwarded. *)
Definition forward_openai (r : Request) (h : Header) : Header :=
  fold_left (fun h kv => if has_prefix (to_lower kv.1) "openai-" then add_values h kv else h)
    (map_to_list (req_Header r)) h.

(** [req.Header.Set(key, v)] when the client's [key] is not empty. *)
Definition forward_header (key : string) (r : Request) (h : Header) : Header :=
  let v := header_get (req_Header r) key in
  if negb (str_empty v) then header_set key v h else h.

(** The body a route asks for: the model rewritten when the route resolved it
    to another name. *)
Definition body_for (body model : string) (route : RouteResult) : string :=
  if negb (String.eqb (rr_ModelID route) model)
  then default body (rewriteModelInBody body (rr_ModelID route))
  else body.

(** The backend requests of the three kinds of proxying. *)
Definition nonstreaming_request (r : Request) (body model : string) (route : RouteResult) : BackendRequest :=
  mkBackendRequest (rr_TargetURL route)
    (setBackendAuth r (rr_Provider route)
      (forward_openai r (forward_header "Accept" r (forward_header "Content-Type" r ∅))))
    (body_for body model route).

Definition transcription_request (r : Request) (multipartBody contentType : string) (route : RouteResult)
    : BackendRequest :=
  mkBackendRequest (rr_TargetURL route)
    (setBackendAuth r (rr_Provider route) (header_set "Content-Type" contentType ∅)) multipartBody.

Definition streaming_request (r : Request) (modifiedBody model : string) (route : RouteResult) : BackendRequest :=
  let accept := header_get (req_Header r) "Accept" in
  mkBackendRequest (rr_TargetURL route)
    (setBackendAuth r (rr_Provider route)
      (forward_openai r
        (header_set "Accept" (if negb (str_empty accept) then accept else "text/event-stream")
          (header_set "Content-Type" "application/json" ∅))))
    (body_for modifiedBody model route).

(** * The steps of a handler *)

Section Steps.
Context {R : Type} `{Router_ : !RouterI R} (env : HandlerEnv).

(** [time.Now()] and [uuid.New().String()]. *)
Definition now_ : M R Z := fun w =>
  (Ok (he_now env (wd_ticks w)),
   mkWorld (wd_router w) (wd_writer w) (wd_active w) (wd_trace w) (S (wd_ticks w)) (wd_uuids w)).

Definition new_uuid : M R string := fun w =>
  (Ok (he_uuid env (wd_uuids w)),
   mkWorld (wd_router w) (wd_writer w) (wd_active w) (wd_trace w) (wd_ticks w) (S (wd_uuids w))).

(** [h.router.Route(ctx, model, endpointPath)], a [nil] result being its only
    error. *)
Definition do_route (model endpointPath : string) : M R (option RouteResult) := fun w =>
  match ri_route model endpointPath (wd_router w) with
  | (Ok route, r) => (Ok (Some route), log_event (EvRouted route) (set_router r w))
  | (Err _, r) => (Ok None, log_event EvUnrouted (set_router r w))
  | (Panic msg, r) => (Panic msg, set_router r w)
  end.

Definition report_success (id : string) : M R unit :=
  effect (fun w => log_event (EvSuccess id) (set_router (ri_success id (wd_router w)) w)).
Definition report_failure (id : string) : M R unit :=
  effect (fun w => log_event (EvFailure id) (set_router (ri_failure id (wd_router w)) w)).

(** [h.client.Do(req)]. *)
Definition do_send (req : BackendRequest) : M R DoResult := fun w =>
  let res := he_do env (wd_trace w) req in (Ok res, log_event (EvSent req res) w).

(** [h.metrics.Record(log)] and [h.metrics.RecordStreaming(...)]. *)
Definition record (log : RequestLog) : M R unit := effect (log_event (EvRecord log)).
Definition record_streaming (log : RequestLog) (chunks : list StreamingLogChunk) (dropped : bool) : M R unit :=
  effect (log_event (EvRecordStreaming log chunks dropped)).

(** [respondJSON(w, status, data)], the data already encoded, and
    [respondError(w, status, msg)]. *)
Definition respondJSON (status : Z) (data : string) : M R unit :=
  effect (fun w => log_event (EvReply status)
    (set_writer (Write_ data (WriteHeader status (w_set "Content-Type" "application/json" (wd_writer w)))) w)).

Definition respondError (status : Z) (msg : string) : M R unit := respondJSON status (error_body msg).

Definition reply_with (resp : BackendResponse) (body : string) (status : Z) : M R unit :=
  effect (fun w => log_event (EvReply status)
    (set_writer (copyResponseHeadersAndWrite resp body status (wd_writer w)) w)).

(** [int(time.Since(startTime).Milliseconds())]. *)
Definition elapsed_ms (startTime : Z) : M R Z :=
  do! now := now_ in mret (milliseconds (time_sub now startTime)).

(** A request that ends without an answer from a backend: the log gets its
    status and message and is recorded, then the client is told, unless it is
    the client that went away. *)
Definition fail (log : RequestLog) (startTime : Z) (status : Z) (message : string) (reply : option string)
    : M R unit :=
  let log := set_log_ErrorMessage message (set_log_StatusCode status log) in
  do! ms := elapsed_ms startTime in
  record (set_log_TotalTimeMs ms log) >>!
  match reply with Some msg => respondError status msg | None => mret tt end.

(** The text of [ErrNoAvailableProvider]. *)
Definition no_provider_text : string := "no available provider for model".

(** ** Tracking *)

(** [h.beginTracking(r, model, endpointPath)]. *)
Definition beginTracking (r : Request) (model endpointPath : string) : M R string := fun w =>
  match wd_active w with
  | None => (Ok "", w)
  | Some reg =>
      let id := he_uuid env (wd_uuids w) in
      (Ok id,
       mkWorld (wd_router w) (wd_writer w)
         (Some (Begin id (he_now env (wd_ticks w)) model endpointPath (clientIP r) reg))
         (wd_trace w) (S (wd_ticks w)) (S (wd_uuids w)))
  end.

(** [if trackID != "" { defer h.active.End(trackID) }]: the deferred call runs
    whether the body returns or panics. *)
Definition with_end {A} (trackID : string) (m : M R A) : M R A := fun w =>
  let '(o, w') := m w in
  (o, if str_empty trackID then w' else set_active (End trackID <$> wd_active w') w').

(** ** The loop over attempts *)

Definition maxProxyAttempts : nat := 3.

(** An iteration continues the loop or leaves it. *)
Inductive Flow (A : Type) := Again | Stop (a : A).
Arguments Again {A}.
Arguments Stop {A} a.

Fixpoint attempts {A} (n : nat) (iteration : bool -> M R (Flow A)) (tail : M R A) : M R A :=
  match n with
  | O => tail
  | S n' =>
      do! flow := iteration (n' =? 0)%nat in
      match flow with
      | Stop a => mret a
      | Again => attempts n' iteration tail
      end
  end.

(** Routing and sending, the part of an iteration the three loops share:
    a response, or the end of the iteration. *)
Definition send_attempt (last : bool) (log : RequestLog) (startTime : Z) (model endpointPath : string)
    (build : RouteResult -> BackendRequest) : M R (Flow (option (RouteResult * BackendResponse))) :=
  do! routed := do_route model endpointPath in
  match routed with
  | None =>
      if last then
        let text := "no available provider: " +:+ no_provider_text in
        fail log startTime 503 text (Some text) >>! mret (Stop None)
      else mret Again
  | Some route =>
      match he_url_error env (rr_TargetURL route) with
      | Some text =>
          if last then
            fail log startTime 500 ("building backend request: " +:+ text) (Some "internal error building request") >>!
            mret (Stop None)
          else mret Again
      | None =>
          do! res := do_send (build route) in
          match res with
          | DoErr canceled text =>
              if canceled then fail log startTime 499 "client canceled request" None >>! mret (Stop None)
              else
                report_failure (p_ID (rr_Provider route)) >>!
                if last then
                  fail log startTime 502 ("backend request failed: " +:+ text) (Some "backend request failed") >>!
                  mret (Stop None)
                else mret Again
          | DoResp resp => mret (Stop (Some (route, resp)))
          end
      end
  end.

(** [io.ReadAll(resp.Body)] of a response the caller wants whole. *)
Definition read_response (last : bool) (log : RequestLog) (startTime : Z) (route : RouteResult)
    (resp : BackendResponse) : M R (Flow (option string)) :=
  match st_error (br_Body resp) with
  | None => mret (Stop (Some (st_data (br_Body resp))))
  | Some readErr =>
      if stream_canceled readErr then fail log startTime 499 "client canceled request" None >>! mret (Stop None)
      else
        report_failure (p_ID (rr_Provider route)) >>!
        if last then
          fail log startTime 502 "failed to read backend response" (Some "failed to read backend response") >>!
          mret (Stop None)
        else mret Again
  end.

(** A stage that may end the iteration before the next one starts. *)
Definition and_then {A B} (m : M R (Flow (option A))) (k : A -> M R (Flow (option B))) : M R (Flow (option B)) :=
  do! flow := m in
  match flow with
  | Again => mret Again
  | Stop None => mret (Stop None)
  | Stop (Some a) => k a
  end.

(** The log of an answered request. *)
Definition stamp_route (route : RouteResult) (status ms : Z) (log : RequestLog) : RequestLog :=
  let log := set_log_StatusCode status log in
  let log := set_log_ProviderID (p_ID (rr_Provider route)) log in
  let log := set_log_ProviderName (p_Name (rr_Provider route)) log in
  let log := set_log_ResolvedModel (rr_ModelID route) log in
  set_log_TotalTimeMs ms log.

(** The authenticated key's identity. *)
Definition stamp_key (r : Request) (log : RequestLog) : RequestLog :=
  match apiKeyFromContext r with
  | Some ka => set_log_APIKeyName (ka_Name ka) (set_log_APIKeyID (ka_ID ka) log)
  | None => log
  end.

(** The log a request starts with. *)
Definition start_log (id : string) (r : Request) (model : string) (startTime : Z) (isStreamed : bool)
    (requestBody : string) : RequestLog :=
  mkLog id startTime (clientIP r) (req_Method r) (req_Path r) model "" "" "" 0 isStreamed None 0 None None None
    None "" startTime "" "" None requestBody "".

Definition is_2xx (status : Z) : bool := (200 <=? status) && (status <? 300).

(** A 5xx response: reported, and passed on only by the last attempt. *)
Definition server_error (last : bool) (log : RequestLog) (startTime : Z) (route : RouteResult)
    (resp : BackendResponse) (respOut : string) : M R (Flow (option unit)) :=
  report_failure (p_ID (rr_Provider route)) >>!
  if last then
    do! ms := elapsed_ms startTime in
    reply_with resp respOut (br_StatusCode resp) >>!
    record (stamp_route route (br_StatusCode resp) ms log) >>!
    mret (Stop None)
  else mret Again.

(** ** [h.proxyNonStreaming(...)] *)

(** The 2xx and 4xx responses, which end the request. *)
Definition nonstreaming_answer (log : RequestLog) (startTime : Z) (body : string) (isBinary : bool)
    (route : RouteResult) (resp : BackendResponse) (respOut : string) : M R (Flow (option unit)) :=
  do! ms := elapsed_ms startTime in
  let log := stamp_route route (br_StatusCode resp) ms log in
  let reqMax := getConfigInt (he_config env) "request_body_max_bytes" DefaultRequestBodyMaxBytes in
  let respMax := getConfigInt (he_config env) "response_body_max_bytes" DefaultResponseBodyMaxBytes in
  do! requestBody := lift_panic (truncateBodyWithConfig body reqMax) "" in
  let log := set_log_RequestBody requestBody log in
  do! log :=
    (if is_2xx (br_StatusCode resp) then
       report_success (p_ID (rr_Provider route)) >>!
       if negb isBinary then
         let log := applyUsageToLog (parseUsageFromBody respOut) log in
         do! responseBody := lift_panic (truncateBodyWithConfig respOut respMax) "" in
         mret (set_log_ResponseBody responseBody log)
       else mret log
     else mret log) in
  reply_with resp respOut (br_StatusCode resp) >>!
  record log >>!
  mret (Stop None).

Definition nonstreaming_attempt (r : Request) (body model endpointPath : string) (isBinary : bool)
    (startTime : Z) (log : RequestLog) (last : bool) : M R (Flow (option unit)) :=
  and_then (send_attempt last log startTime model endpointPath (nonstreaming_request r body model))
    (fun '(route, resp) =>
      and_then (read_response last log startTime route resp) (fun respBody =>
        let respOut :=
          if rr_RequestedViaAlias route && negb isBinary
          then rewriteResponseModelForClient respBody model else respBody in
        if 500 <=? br_StatusCode resp then server_error last log startTime route resp respOut
        else nonstreaming_answer log startTime body isBinary route resp respOut)).

Definition exhausted (log : RequestLog) (startTime : Z) : M R (option unit) :=
  fail log startTime 503 "all attempts exhausted" (Some "all attempts exhausted") >>! mret None.

Definition proxyNonStreaming (r : Request) (body model endpointPath : string) (isBinary : bool)
    (startTime : Z) : M R unit :=
  do! trackID := beginTracking r model endpointPath in
  with_end trackID (
    do! id := new_uuid in
    let log := stamp_key r (start_log id r model startTime false "") in
    attempts maxProxyAttempts (nonstreaming_attempt r body model endpointPath isBinary startTime log)
      (exhausted log startTime) >>!
    mret tt).

(** ** [h.HandleAudioTranscriptions(w, r)] *)

(** A parsed multipart form: the values [FormValue] looks in, and the body and
    content type the form is written again with, or the error of doing so. *)
Record Multipart := mkMultipart {
  mp_FormValue : string -> string;
  mp_rebuilt : string + string * string;
}.

(** What [extractModelFromMultipart] makes of a request: the text of the
    parse error, or the form. *)
Definition extractModelFromMultipart (form : string + Multipart) : string + (string * Multipart) :=
  match form with
  | inl parseError => inl ("parsing multipart form: " +:+ parseError)
  | inr mp =>
      let model := mp_FormValue mp "model" in
      if str_empty model then inl "model field is required" else inr (model, mp)
  end.

Definition transcription_answer (log : RequestLog) (startTime : Z) (route : RouteResult)
    (resp : BackendResponse) (respOut : string) : M R (Flow (option unit)) :=
  do! ms := elapsed_ms startTime in
  let log := stamp_route route (br_StatusCode resp) ms log in
  do! log :=
    (if is_2xx (br_StatusCode resp) then
       report_success (p_ID (rr_Provider route)) >>!
       mret (applyUsageToLog (parseUsageFromBody respOut) log)
     else mret log) in
  reply_with resp respOut (br_StatusCode resp) >>!
  record log >>!
  mret (Stop None).

Definition transcription_attempt (r : Request) (multipartBody contentType model : string)
    (startTime : Z) (log : RequestLog) (last : bool) : M R (Flow (option unit)) :=
  and_then (send_attempt last log startTime model "/v1/audio/transcriptions"
              (transcription_request r multipartBody contentType))
    (fun '(route, resp) =>
      and_then (read_response last log startTime route resp) (fun respBody =>
        let respOut :=
          if rr_RequestedViaAlias route then rewriteResponseModelForClient respBody model else respBody in
        if 500 <=? br_StatusCode resp then server_error last log startTime route resp respOut
        else transcription_answer log startTime route resp respOut)).

Definition HandleAudioTranscriptions (form : string + Multipart) (r : Request) : M R unit :=
  do! startTime := now_ in
  match extractModelFromMultipart form with
  | inl text => respondError 400 text
  | inr (model, mp) =>
      match mp_rebuilt mp with
      | inl text => respondError 500 text
      | inr (multipartBody, contentType) =>
          do! id := new_uuid in
          let log := start_log id r model startTime false "" in
          attempts maxProxyAttempts (transcription_attempt r multipartBody contentType model startTime log)
            (exhausted log startTime) >>!
          mret tt
      end
  end.

(** ** [h.handleStreamingRequest(...)] *)

(** An iteration of its loop: it breaks with the route and the response. *)
Definition streaming_attempt (r : Request) (modifiedBody model endpointPath : string) (startTime : Z)
    (log : RequestLog) (last : bool) : M R (Flow (option (RouteResult * BackendResponse))) :=
  and_then (send_attempt last log startTime model endpointPath (streaming_request r modifiedBody model))
    (fun '(route, resp) =>
      if 500 <=? br_StatusCode resp then
        report_failure (p_ID (rr_Provider route)) >>!
        if last then
          do! ms := elapsed_ms startTime in
          let log := set_log_StatusCode 503 log in
          let log := set_log_ProviderID (p_ID (rr_Provider route)) log in
          let log := set_log_ProviderName (p_Name (rr_Provider route)) log in
          record (set_log_TotalTimeMs ms log) >>!
          respondError 503 "backend error" >>!
          mret (Stop None)
        else mret Again
      else mret (Stop (Some (route, resp)))).

(** The headers a stream starts with. *)
Definition start_stream : M R unit :=
  effect (fun w => log_event (EvReply 200)
    (set_writer (WriteHeader 200
      (w_set "X-Accel-Buffering" "no" (w_set "Connection" "keep-alive"
        (w_set "Cache-Control" "no-cache" (w_set "Content-Type" "text/event-stream" (wd_writer w)))))) w)).

Definition stream_error_text (e : StreamError) : string :=
  match e with
  | NoFlusher => "response writer does not support flushing (streaming impossible)"
  | WriteFailed _ => "writing to client: " +:+ he_error_text env e
  | ReadFailed _ | TokenTooLong => "reading stream: " +:+ he_error_text env e
  end.

(** [h.proxyStreaming(...)] in the world of the request; it reads the clock at
    most once. *)
Definition do_stream (startTime : Z) (model : string) (route : RouteResult) (resp : BackendResponse)
    : M R StreamResult := fun w =>
  let senv := mkStreamEnv (he_flusher env) (he_write env) (fun _ => he_now env (wd_ticks w)) startTime
    (he_config env) model (rr_RequestedViaAlias route) in
  let '(res, rw) := proxyStreaming senv (br_Body resp) (wd_writer w) in
  (Ok res, mkWorld (wd_router w) rw (wd_active w) (wd_trace w) (S (wd_ticks w)) (wd_uuids w)).

(** The usage of a stream in the log. *)
Definition apply_stream_usage (u : option UsageInfo) (log : RequestLog) : RequestLog :=
  match u with
  | None => log
  | Some u =>
      let log := set_log_PromptTokens (Some (ui_PromptTokens u)) log in
      let log := set_log_CompletionTokens (Some (ui_CompletionTokens u)) log in
      let log := set_log_TotalTokens (Some (ui_TotalTokens u)) log in
      if ui_CachedTokensReported u then set_log_CachedTokens (Some (ui_CachedTokens u)) log else log
  end.

(** The reconstructed body is added to the log, which is handed over with the
    chunks if there are any. *)
Definition finish_stream (res : StreamResult) (log : RequestLog) : M R unit :=
  let respMax := getConfigInt (he_config env) "response_body_max_bytes" DefaultResponseBodyMaxBytes in
  do! log :=
    (if negb (str_empty (sr_body res)) then
       do! responseBody := lift_panic (truncateBodyWithConfig (sr_body res) respMax) "" in
       mret (set_log_ResponseBody responseBody log)
     else mret log) in
  if (0 <? length (sr_chunks res))%nat then
    record_streaming log ((fun ch => mkLogChunk (ch_raw ch) (ch_delta ch)) <$> sr_chunks res) (sr_prefixDropped res)
  else record log.

(** After the loop: the stream is copied, reported, and logged. *)
Definition stream_answer (log : RequestLog) (startTime : Z) (model : string) (route : RouteResult)
    (resp : BackendResponse) : M R unit :=
  start_stream >>!
  do! res := do_stream startTime model route resp in
  let log := set_log_ProviderID (p_ID (rr_Provider route)) log in
  let log := set_log_ProviderName (p_Name (rr_Provider route)) log in
  let log := set_log_ResolvedModel (rr_ModelID route) log in
  let log := set_log_TTFTMs (sr_ttftMs res) log in
  do! ms := elapsed_ms startTime in
  let log := set_log_TotalTimeMs ms log in
  do! log :=
    match sr_err res with
    | Some streamErr =>
        (if negb (stream_canceled streamErr) then report_failure (p_ID (rr_Provider route)) else mret tt) >>!
        mret (set_log_ErrorMessage ("stream error: " +:+ stream_error_text streamErr) (set_log_StatusCode 200 log))
    | None =>
        report_success (p_ID (rr_Provider route)) >>!
        mret (set_log_StatusCode (br_StatusCode resp) log)
    end in
  let log := apply_stream_usage (sr_usage res) log in
  finish_stream res log.

Definition no_response (log : RequestLog) (startTime : Z) : M R (option (RouteResult * BackendResponse)) :=
  fail log startTime 503 "no backend response available" (Some "no backend response available") >>! mret None.

Definition handleStreamingRequest (r : Request) (body model endpointPath : string) (startTime : Z) : M R unit :=
  do! trackID := beginTracking r model endpointPath in
  with_end trackID (
    match injectStreamOptions body with
    | Err _ => respondError 400 ("failed to inject stream options: parsing request body: " +:+ he_json_error env body)
    | Panic msg => mpanic msg
    | Ok modifiedBody =>
        let reqMax := getConfigInt (he_config env) "request_body_max_bytes" DefaultRequestBodyMaxBytes in
        do! id := new_uuid in
        do! requestBody := lift_panic (truncateBodyWithConfig body reqMax) "" in
        let log := stamp_key r (start_log id r model startTime true requestBody) in
        do! sent := attempts maxProxyAttempts (streaming_attempt r modifiedBody model endpointPath startTime log)
          (no_response log startTime) in
        match sent with
        | None => mret tt
        | Some (route, resp) => stream_answer log startTime model route resp
        end
    end).

(** ** The endpoints *)

(** [http.MaxBytesReader(w, r.Body, 32<<20)] and [io.ReadAll]. *)
Definition max_body : Z := 33554432.

Definition read_body (r : Request) : option string :=
  if he_body_fails env || (max_body <? slen (req_Body r)) then None else Some (req_Body r).

(** The text of an extraction error. *)
Definition body_error_text (missing : string) (body : string) (e : BodyError) : string :=
  match e with
  | ErrParse => "parsing request body: " +:+ he_json_error env body
  | ErrModelRequired => missing
  end.

(** The shared beginning of the JSON endpoints: the body is read and its model
    extracted, or the client gets a 400. *)
Definition with_model (extract : string -> Outcome BodyError string) (missing : string) (r : Request)
    (k : Z -> string -> string -> M R unit) : M R unit :=
  do! startTime := now_ in
  match read_body r with
  | None => respondError 400 "failed to read request body"
  | Some body =>
      match extract body with
      | Err e => respondError 400 (body_error_text missing body e)
      | Panic msg => mpanic msg
      | Ok model => k startTime body model
      end
  end.

(** The completion endpoints: the [stream] flag chooses the proxying. *)
Definition complete (endpointPath : string) (r : Request) : M R unit :=
  with_model extractModelFromJSON "model field is required" r (fun startTime body model =>
    if stream_requested body then handleStreamingRequest r body model endpointPath startTime
    else proxyNonStreaming r body model endpointPath false startTime).

Definition HandleChatCompletions (r : Request) : M R unit := complete "/v1/chat/completions" r.

Definition HandleCompletions (r : Request) : M R unit := complete "/v1/completions" r.

Definition HandleShow (r : Request) : M R unit :=
  with_model extractModelFromShowRequest "model is required" r (fun startTime body model =>
    proxyNonStreaming r body model "/api/show" false startTime).

Definition HandleEmbeddings (r : Request) : M R unit :=
  with_model extractModelFromJSON "model field is required" r (fun startTime body model =>
    proxyNonStreaming r body model "/v1/embeddings" false startTime).

Definition HandleImageGenerations (r : Request) : M R unit :=
  with_model extractModelFromJSON "model field is required" r (fun startTime body model =>
    proxyNonStreaming r body model "/v1/images/generations" false startTime).

Definition HandleAudioSpeech (r : Request) : M R unit :=
  with_model extractModelFromJSON "model field is required" r (fun startTime body model =>
    proxyNonStreaming r body model "/v1/audio/speech" true startTime).

(** ** The models *)

(** [modelObject], with the context window its attributes repeat. *)
Record modelObject := mkModelObject { mo_ID : string; mo_MaxContext : option Z }.

Definition modelObject_json (o : modelObject) : json :=
  JObj ([("id", marshal_string (mo_ID o)); ("object", marshal_string "model"); ("created", JNum "0");
         ("owned_by", marshal_string "llmate")] ++
        match mo_MaxContext o with
        | None => []
        | Some n =>
            [("attr", JObj [("context_window", JNum (itoa n)); ("max_tokens", JNum (itoa n));
                            ("max_prompt_tokens", JNum (itoa n)); ("max_completion_tokens", JNum (itoa n))])]
        end).

(** [h.listModelObjects()]; the identifiers and each look-up load the catalog
    snapshot afresh. *)
Definition listModelObjects (ids_at : routingSnapshot) (snap_of : nat -> routingSnapshot) : list modelObject :=
  imap (fun k id =>
      mkModelObject id (ProviderModelForModelID (snap_of k) id ≫= pm_MaxContext))
    (PublicModelIDs ids_at).

(** [json.NewEncoder(w).Encode(v)] of an encoded value. *)
Definition encode_line (v : json) : string := print v +:+ nl.

Definition HandleListModels (ids_at : routingSnapshot) (snap_of : nat -> routingSnapshot) : M R unit :=
  respondJSON 200 (encode_line
    (JObj [("data", JArr (modelObject_json <$> listModelObjects ids_at snap_of)); ("object", marshal_string "list")])).

(** [url.PathUnescape(s)]: percent escapes decoded, or an error. *)
Fixpoint path_unescape (s : string) : option string :=
  match s with
  | EmptyString => Some ""
  | String c s1 =>
      if Ascii.eqb c "%" then
        match s1 with
        | String a (String b s2) =>
            match hex_val a, hex_val b with
            | Some x, Some y => String (ascii_of_nat (Z.to_nat (x * 16 + y))) <$> path_unescape s2
            | _, _ => None
            end
        | _ => None
        end
      else String c <$> path_unescape s1
  end.

(** [h.HandleGetModel(w, r)]; [param] is the route's [model] parameter. *)
Definition HandleGetModel (ids_at : routingSnapshot) (snap_of : nat -> routingSnapshot) (param : string) : M R unit :=
  if str_empty param then respondError 400 "model parameter required"
  else
    let decoded := default param (path_unescape param) in
    match List.find (fun o => String.eqb (mo_ID o) decoded) (listModelObjects ids_at snap_of) with
    | Some obj => respondJSON 200 (encode_line (modelObject_json obj))
    | None => respondError 404 ("model " +:+ he_quote env decoded +:+ " not found")
    end.

End Steps.
Arguments Again {A}.
Arguments Stop {A} a.

(** * The failover protocol

    What the trace of a proxied request may look like, without the code: up to
    two attempts that failed in a way worth retrying, then one that ends the
    request. *)

(** What came of a request a handler wants the whole answer of. *)
Inductive Answer := ClientGone | BackendFailed | Answered (resp : BackendResponse) (body : string).

Definition answer_of (res : DoResult) : Answer :=
  match res with
  | DoErr canceled _ => if canceled then ClientGone else BackendFailed
  | DoResp resp =>
      match st_error (br_Body resp) with
      | Some e => if stream_canceled e then ClientGone else BackendFailed
      | None => Answered resp (st_data (br_Body resp))
      end
  end.

Section Protocol.
Context (build : RouteResult -> BackendRequest).

(** A response that is retried, and the ends of an attempt that has one. *)
Context (retryable : BackendResponse -> Prop).
Context (ends : bool -> RouteResult -> BackendResponse -> list Event -> Prop).

Inductive Retry : list Event -> Prop :=
| retry_unrouted : Retry [EvUnrouted]
| retry_unbuilt route : Retry [EvRouted route]
| retry_unsent route text :
    Retry [EvRouted route; EvSent (build route) (DoErr false text); EvFailure (p_ID (rr_Provider route))]
| retry_response route resp :
    retryable resp ->
    Retry [EvRouted route; EvSent (build route) (DoResp resp); EvFailure (p_ID (rr_Provider route))].

(** The end of a request; the flag says that no attempt is left. *)
Inductive Final (last : bool) : list Event -> Prop :=
| final_unrouted log :
    last = true -> log_StatusCode log = 503 -> Final last [EvUnrouted; EvRecord log; EvReply 503]
| final_unbuilt route log :
    last = true -> log_StatusCode log = 500 -> Final last [EvRouted route; EvRecord log; EvReply 500]
| final_gone route text log :
    log_StatusCode log = 499 ->
    Final last [EvRouted route; EvSent (build route) (DoErr true text); EvRecord log]
| final_unsent route text log :
    last = true -> log_StatusCode log = 502 ->
    Final last [EvRouted route; EvSent (build route) (DoErr false text); EvFailure (p_ID (rr_Provider route));
                EvRecord log; EvReply 502]
| final_response route resp t :
    ends last route resp t ->
    Final last (EvRouted route :: EvSent (build route) (DoResp resp) :: t).

(** A whole request: [n] retries at most. *)
Definition Proxied (n : nat) (t : list Event) : Prop :=
  exists tried final, t = concat tried ++ final /\ (length tried <= n)%nat /\ Forall Retry tried /\
    Final (length tried =? n)%nat final.

End Protocol.

(** Without streaming, a response is read before it is judged: failing to read
    it and a 5xx status are retried. *)
Definition retry_whole (resp : BackendResponse) : Prop :=
  match answer_of (DoResp resp) with
  | ClientGone => False
  | BackendFailed => True
  | Answered resp _ => 500 <= br_StatusCode resp
  end.

Inductive EndsWhole (last : bool) (route : RouteResult) (resp : BackendResponse) : list Event -> Prop :=
| whole_gone log :
    answer_of (DoResp resp) = ClientGone -> log_StatusCode log = 499 -> EndsWhole last route resp [EvRecord log]
| whole_unread log :
    last = true -> answer_of (DoResp resp) = BackendFailed -> log_StatusCode log = 502 ->
    EndsWhole last route resp [EvFailure (p_ID (rr_Provider route)); EvRecord log; EvReply 502]
| whole_5xx body log :
    last = true -> answer_of (DoResp resp) = Answered resp body -> 500 <= br_StatusCode resp ->
    log_StatusCode log = br_StatusCode resp -> log_ProviderID log = p_ID (rr_Provider route) ->
    EndsWhole last route resp
      [EvFailure (p_ID (rr_Provider route)); EvReply (br_StatusCode resp); EvRecord log]
| whole_2xx body log :
    answer_of (DoResp resp) = Answered resp body -> is_2xx (br_StatusCode resp) = true ->
    log_StatusCode log = br_StatusCode resp -> log_ProviderID log = p_ID (rr_Provider route) ->
    EndsWhole last route resp
      [EvSuccess (p_ID (rr_Provider route)); EvReply (br_StatusCode resp); EvRecord log]
| whole_other body log :
    answer_of (DoResp resp) = Answered resp body -> is_2xx (br_StatusCode resp) = false ->
    br_StatusCode resp < 500 ->
    log_StatusCode log = br_StatusCode resp -> log_ProviderID log = p_ID (rr_Provider route) ->
    EndsWhole last route resp [EvReply (br_StatusCode resp); EvRecord log].

(** With streaming, only the status is judged before the answer starts. *)
Definition retry_stream (resp : BackendResponse) : Prop := 500 <= br_StatusCode resp.

(** The hand-over of a stream's log, with or without chunks. *)
Definition records (log : RequestLog) (e : Event) : Prop :=
  e = EvRecord log \/ exists chunks dropped, e = EvRecordStreaming log chunks dropped.

(** What follows the start of a stream: it ends, it breaks, or the client goes. *)
Inductive Streamed (route : RouteResult) (resp : BackendResponse) : list Event -> Prop :=
| stream_done log e :
    log_StatusCode log = br_StatusCode resp -> records log e ->
    Streamed route resp [EvReply 200; EvSuccess (p_ID (rr_Provider route)); e]
| stream_broken log e :
    log_StatusCode log = 200 -> records log e ->
    Streamed route resp [EvReply 200; EvFailure (p_ID (rr_Provider route)); e]
| stream_gone log e :
    log_StatusCode log = 200 -> records log e -> Streamed route resp [EvReply 200; e].

Inductive EndsStream (last : bool) (route : RouteResult) (resp : BackendResponse) : list Event -> Prop :=
| stream_5xx log :
    last = true -> 500 <= br_StatusCode resp -> log_StatusCode log = 503 ->
    EndsStream last route resp [EvFailure (p_ID (rr_Provider route)); EvRecord log; EvReply 503]
| stream_started t :
    br_StatusCode resp < 500 -> Streamed route resp t -> EndsStream last route resp t.

(** * Lemmas *)

(** ** What a handler appends to the trace *)

Section Emits.
Context {R : Type} `{Router_ : !RouterI R} (env : HandlerEnv).

Definition emits {A} (m : M R A) (P : Outcome Empty_set A -> list Event -> Prop) : Prop :=
  forall w, exists t, wd_trace (m w).2 = wd_trace w ++ t /\ P (m w).1 t.

Lemma emits_weaken {A} (m : M R A) (P Q : Outcome Empty_set A -> list Event -> Prop) :
  emits m P -> (forall o t, P o t -> Q o t) -> emits m Q.
Proof. intros Hm HPQ w. destruct (Hm w) as (t & Ht & HP). eauto. Qed.

Lemma emits_ret {A} (a : A) : emits (mret a) (fun o t => o = Ok a /\ t = []).
Proof. intros w. exists []. by rewrite app_nil_r. Qed.

Lemma emits_bind {A B} (m : M R A) (k : A -> M R B) P (K : A -> _) Q :
  emits m P -> (forall a, emits (k a) (K a)) ->
  (forall a t1 o t2, P (Ok a) t1 -> K a o t2 -> Q o (t1 ++ t2)) ->
  (forall msg t, P (Panic msg) t -> Q (Panic msg) t) ->
  emits (mbind_ m k) Q.
Proof.
  intros Hm Hk Hok Hpanic w. unfold mbind_. destruct (Hm w) as (t1 & Ht1 & HP).
  destruct (m w) as [[a|[]|msg] w1]; simpl in *; [|by eauto].
  destruct (Hk a w1) as (t2 & Ht2 & HK). exists (t1 ++ t2). rewrite Ht2, Ht1, app_assoc. eauto.
Qed.

(** A computation that leaves the trace alone. *)
Definition quiet {A} (m : M R A) : Prop := emits m (fun o t => (exists a, o = Ok a) /\ t = []).

Lemma emits_quiet {A B} (m : M R A) (k : A -> M R B) Q :
  quiet m -> (forall a, emits (k a) Q) -> emits (mbind_ m k) Q.
Proof.
  intros Hm Hk. eapply emits_bind; [exact Hm|exact Hk| |]; simpl.
  - by intros a t1 o t2 (_ & ->) HQ.
  - by intros msg t ([a [=]] & _).
Qed.

(** A computation that appends one event. *)
Lemma emits_event {B} (f : World R -> World R) (e : Event) (k : unit -> M R B) Q :
  (forall w, wd_trace (f w) = wd_trace w ++ [e]) -> emits (k tt) (fun o t => Q o (e :: t)) ->
  emits (mbind_ (effect f) k) Q.
Proof.
  intros Hf Hk. eapply (emits_bind _ _ (fun o t => o = Ok tt /\ t = [e]) (fun _ o t => Q o (e :: t))); [|intros []; exact Hk| |]; simpl.
  - intros w. exists [e]. by rewrite <- Hf.
  - by intros [] t1 o t2 (_ & ->).
  - by intros msg t ([=] & _).
Qed.

Lemma emits_of {A} (m : M R A) (Q : Outcome Empty_set A -> list Event -> Prop) :
  emits (do! x := m in mret x) Q -> emits m Q.
Proof.
  intros H w. specialize (H w). unfold mbind_, mret in H. by destruct (m w) as [[a|[]|msg] w'].
Qed.

Lemma emits_done {A} (a : A) (Q : Outcome Empty_set A -> list Event -> Prop) : Q (Ok a) [] -> emits (mret a) Q.
Proof. intros H w. exists []. by rewrite app_nil_r. Qed.

Lemma quiet_now : quiet (now_ env).
Proof. intros w. exists []. rewrite app_nil_r. eauto. Qed.

Lemma quiet_uuid : quiet (new_uuid env).
Proof. intros w. exists []. rewrite app_nil_r. eauto. Qed.

Lemma quiet_elapsed st : quiet (elapsed_ms env st).
Proof. intros w. exists []. rewrite app_nil_r. eauto. Qed.

Lemma mbind_assoc {A B C} (m : M R A) (k : A -> M R B) (h : B -> M R C) :
  forall w, mbind_ (mbind_ m k) h w = mbind_ m (fun a => mbind_ (k a) h) w.
Proof. intros w. unfold mbind_. by destruct (m w) as [[a|[]|msg] w']. Qed.

Lemma emits_ext {A} (m m' : M R A) Q : (forall w, m w = m' w) -> emits m' Q -> emits m Q.
Proof. intros He H w. rewrite He. apply H. Qed.

Lemma emits_assoc {A B C} (m : M R A) (k : A -> M R B) (h : B -> M R C) Q :
  emits (mbind_ m (fun a => mbind_ (k a) h)) Q -> emits (mbind_ (mbind_ m k) h) Q.
Proof. apply emits_ext, mbind_assoc. Qed.

Lemma emits_mret_l {A B} (a : A) (k : A -> M R B) Q : emits (k a) Q -> emits (mbind_ (mret a) k) Q.
Proof. done. Qed.

(** The end of a request: one record, and the reply if there is one. *)
Lemma emits_fail {B} log st status msg reply (k : unit -> M R B) Q :
  (forall log', log_StatusCode log' = status ->
     emits (k tt) (fun o t => Q o (EvRecord log' :: match reply with Some _ => EvReply status :: t | None => t end))) ->
  emits (mbind_ (fail env log st status msg reply) k) Q.
Proof.
  intros H. unfold fail. apply emits_assoc, emits_quiet; [apply quiet_elapsed|]. intros ms.
  apply emits_assoc. apply (emits_event _ (EvRecord (set_log_TotalTimeMs ms
    (set_log_ErrorMessage msg (set_log_StatusCode status log))))); [done|].
  destruct reply as [text|].
  - apply (emits_event _ (EvReply status)); [done|]. by apply H.
  - apply emits_mret_l. by apply H.
Qed.

End Emits.

(** Steps through a handler's code, one event at a time. *)
Ltac emit_step :=
  lazymatch goal with
  | |- emits (mbind_ (mbind_ _ _) _) _ => apply emits_assoc
  | |- emits (mbind_ (mret _) _) _ => apply emits_mret_l
  | |- emits (mbind_ (elapsed_ms _ _) _) _ => apply emits_quiet; [apply quiet_elapsed|intros ?]
  | |- emits (mbind_ (now_ _) _) _ => apply emits_quiet; [apply quiet_now|intros ?]
  | |- emits (mbind_ (new_uuid _) _) _ => apply emits_quiet; [apply quiet_uuid|intros ?]
  | |- emits (mbind_ (fail _ _ _ _ _ _) _) _ => apply emits_fail; intros ? ?
  | |- emits (mbind_ (report_failure ?id) _) _ => apply (emits_event _ (EvFailure id)); [done|]
  | |- emits (mbind_ (report_success ?id) _) _ => apply (emits_event _ (EvSuccess id)); [done|]
  | |- emits (mbind_ (record ?l) _) _ => apply (emits_event _ (EvRecord l)); [done|]
  | |- emits (mbind_ (record_streaming ?l ?c ?d) _) _ => apply (emits_event _ (EvRecordStreaming l c d)); [done|]
  | |- emits (mbind_ (reply_with _ _ ?s) _) _ => apply (emits_event _ (EvReply s)); [done|]
  | |- emits (mbind_ (respondError ?s _) _) _ => apply (emits_event _ (EvReply s)); [done|]
  | |- emits (mbind_ start_stream _) _ => apply (emits_event _ (EvReply 200)); [done|]
  | |- emits (mret _) _ => apply emits_done
  end.

Section Failover.
Context {R : Type} `{Router_ : !RouterI R} (env : HandlerEnv).

(** Nothing the handlers call panics: the router, and the cuts the configured
    sizes ask for. *)
Definition router_total : Prop :=
  forall model path (r : R) msg r', ri_route model path r <> (Panic msg, r').

Definition safe : Prop :=
  router_total /\
  0 <= getConfigInt (he_config env) "request_body_max_bytes" DefaultRequestBodyMaxBytes /\
  0 <= getConfigInt (he_config env) "response_body_max_bytes" DefaultResponseBodyMaxBytes.

Lemma emits_route {B} model path (k : option RouteResult -> M R B) Q :
  (forall route, emits (k (Some route)) (fun o t => Q o (EvRouted route :: t))) ->
  emits (k None) (fun o t => Q o (EvUnrouted :: t)) ->
  (forall msg, ~ router_total -> Q (Panic msg) []) ->
  emits (mbind_ (do_route model path) k) Q.
Proof.
  intros Hs Hn Hp w. unfold mbind_, do_route.
  destruct (ri_route model path (wd_router w)) as [[route|e|msg] r] eqn:E.
  - destruct (Hs route (log_event (EvRouted route) (set_router r w))) as (t & Ht & HQ).
    exists (EvRouted route :: t). rewrite Ht. simpl. by rewrite <- app_assoc.
  - destruct (Hn (log_event EvUnrouted (set_router r w))) as (t & Ht & HQ).
    exists (EvUnrouted :: t). rewrite Ht. simpl. by rewrite <- app_assoc.
  - exists []. split; [by rewrite app_nil_r|]. apply Hp. intros Htot. by apply (Htot _ _ _ _ _ E).
Qed.

Lemma emits_send {B} req (k : DoResult -> M R B) Q :
  (forall res, emits (k res) (fun o t => Q o (EvSent req res :: t))) ->
  emits (mbind_ (do_send env req) k) Q.
Proof.
  intros Hs w. unfold mbind_, do_send. set (res := he_do env (wd_trace w) req).
  destruct (Hs res (log_event (EvSent req res) w)) as (t & Ht & HQ).
  exists (EvSent req res :: t). rewrite Ht. simpl. by rewrite <- app_assoc.
Qed.

Lemma truncate_cases b m : (exists s, truncateBodyWithConfig b m = Ok s) \/
  (exists msg, truncateBodyWithConfig b m = Panic msg /\ m < 0).
Proof.
  unfold truncateBodyWithConfig. repeat case_match; [by left; eexists| |by left; eexists].
  right. eexists. split; [done|]. blia.
Qed.

Lemma emits_truncate {B} b m (k : string -> M R B) Q :
  (forall s, emits (k s) Q) -> (m < 0 -> forall msg, Q (Panic msg) []) ->
  emits (mbind_ (lift_panic (truncateBodyWithConfig b m) "") k) Q.
Proof.
  intros Hk Hp. destruct (truncate_cases b m) as [[s ->]|(msg & -> & Hm)]; [apply Hk|].
  intros w. exists []. rewrite app_nil_r. split; [done|]. by apply Hp.
Qed.

(** ** Iterations and the loop *)

Context (build : RouteResult -> BackendRequest) (retryable : BackendResponse -> Prop).

(** What an iteration leaves behind. *)
Definition Iter {A} (last : bool) (F : A -> list Event -> Prop) (o : Outcome Empty_set (Flow A))
    (t : list Event) : Prop :=
  match o with
  | Ok Again => last = false /\ Retry build retryable t
  | Ok (Stop a) => F a t
  | Err _ => False
  | Panic _ => ~ safe
  end.

Definition Loop {A} (n : nat) (F : bool -> A -> list Event -> Prop) (o : Outcome Empty_set A) (t : list Event)
    : Prop :=
  match o with
  | Ok a => exists tried final, t = concat tried ++ final /\ (length tried <= n)%nat /\
      Forall (Retry build retryable) tried /\ F (length tried =? n)%nat a final
  | Err _ => False
  | Panic _ => ~ safe
  end.

Lemma attempts_S {A} n (iteration : bool -> M R (Flow A)) tail w :
  attempts (S n) iteration tail w =
  match iteration (n =? 0)%nat w with
  | (Ok Again, w1) => attempts n iteration tail w1
  | (Ok (Stop a), w1) => (Ok a, w1)
  | (Err e, _) => match e with end
  | (Panic msg, w1) => (Panic msg, w1)
  end.
Proof. cbn [attempts]. unfold mbind_. by destruct (iteration _ w) as [[[|a]|[]|msg] w1]. Qed.

Local Arguments attempts : simpl never.

Lemma emits_attempts {A} n (iteration : bool -> M R (Flow A)) tail (F : bool -> A -> list Event -> Prop) :
  (forall last, emits (iteration last) (Iter last (F last))) ->
  emits (attempts (S n) iteration tail) (Loop n F).
Proof.
  intros Hit. induction n as [|n IH]; intros w; rewrite attempts_S.
  - destruct (Hit true w) as (t & Ht & HP). simpl.
    destruct (iteration true w) as [[[|a]|[]|msg] w1]; simpl in *; [by destruct HP| |by exists t].
    exists t. split; [done|]. exists [], t. by repeat split.
  - destruct (Hit false w) as (t & Ht & HP). simpl.
    destruct (iteration false w) as [[[|a]|[]|msg] w1]; simpl in *; [| |by exists t].
    + destruct HP as [_ Hr]. destruct (IH w1) as (t2 & Ht2 & HL).
      exists (t ++ t2). split; [by rewrite Ht2, Ht, app_assoc|].
      unfold Loop in *. destruct (attempts (S n) iteration tail w1) as [[a|[]|msg] w2]; simpl in *; [|done].
      destruct HL as (tried & final & -> & Hlen & Hall & HF). exists (t :: tried), final. simpl.
      rewrite app_assoc. repeat split; [lia|by constructor|done].
    + exists t. split; [done|]. exists [], t. split; [done|]. split; [simpl; lia|]. split; [constructor|done].
Qed.

(** Routing and sending, with what follows a response. *)
Lemma emits_send_attempt {A} last log st model path (F : option A -> list Event -> Prop)
    (k : RouteResult * BackendResponse -> M R (Flow (option A))) (ends : bool -> RouteResult -> BackendResponse -> list Event -> Prop) :
  (forall t, Final build ends last t -> F None t) ->
  (forall route resp, emits (k (route, resp))
     (fun o t => Iter last F o (EvRouted route :: EvSent (build route) (DoResp resp) :: t))) ->
  emits (and_then (send_attempt env last log st model path build) k) (Iter last F).
Proof.
  intros HF Hk. unfold and_then, send_attempt. emit_step. apply emits_route.
  - intros route. destruct (he_url_error env (rr_TargetURL route)) as [text|].
    + destruct last; repeat emit_step; simpl; [|split; [done|constructor]].
      apply HF. by constructor.
    + emit_step. apply emits_send. intros [[] text|resp]; repeat emit_step.
      * apply HF. by constructor.
      * destruct last; repeat emit_step; simpl; [|split; [done|constructor]]. apply HF. by constructor.
      * apply Hk.
  - destruct last; repeat emit_step; simpl; [|split; [done|constructor]]. apply HF. by constructor.
  - intros msg Hn. simpl. unfold safe. tauto.
Qed.

End Failover.

(** ** The three loops *)

Section Loops.
Context {R : Type} `{Router_ : !RouterI R} (env : HandlerEnv).

Lemma emits_read {B} last log st route resp (k : string -> M R (Flow (option B))) Q :
  (forall log', answer_of (DoResp resp) = ClientGone -> log_StatusCode log' = 499 ->
     Q (Ok (Stop None)) [EvRecord log']) ->
  (forall log', answer_of (DoResp resp) = BackendFailed -> last = true -> log_StatusCode log' = 502 ->
     Q (Ok (Stop None)) [EvFailure (p_ID (rr_Provider route)); EvRecord log'; EvReply 502]) ->
  (answer_of (DoResp resp) = BackendFailed -> last = false ->
     Q (Ok Again) [EvFailure (p_ID (rr_Provider route))]) ->
  (forall body, answer_of (DoResp resp) = Answered resp body -> emits (k body) Q) ->
  emits (and_then (read_response env last log st route resp) k) Q.
Proof.
  intros Hg Hf Hr Ha. unfold and_then, read_response, answer_of in *.
  destruct (st_error (br_Body resp)) as [e|]; [destruct (stream_canceled e)|].
  - repeat emit_step. by apply Hg.
  - repeat emit_step. destruct last; repeat emit_step; [by apply Hf|by apply Hr].
  - emit_step. by apply Ha.
Qed.

(** The two kinds of whole responses share their ends. *)
Lemma emits_whole {A} build last log st model path
    (k : RouteResult -> BackendResponse -> string -> M R (Flow (option A))) :
  (forall route resp body, answer_of (DoResp resp) = Answered resp body ->
     emits (k route resp body)
       (fun o t => match o with
                   | Ok Again => last = false /\ 500 <= br_StatusCode resp /\ t = [EvFailure (p_ID (rr_Provider route))]
                   | Ok (Stop _) => EndsWhole last route resp t
                   | Err _ => False
                   | Panic _ => ~ safe (R:=R) env
                   end)) ->
  emits (and_then (send_attempt env last log st model path build)
           (fun '(route, resp) => and_then (read_response env last log st route resp) (k route resp)))
    (Iter (R:=R) env build retry_whole last (fun _ t => Final build EndsWhole last t)).
Proof.
  intros Hk. apply (emits_send_attempt env build retry_whole last log st model path _ _ EndsWhole); [done|].
  intros route resp. apply emits_read.
  - intros log' Ha Hl. simpl. constructor. by constructor.
  - intros log' Ha -> Hl. simpl. constructor. by constructor.
  - intros Ha ->. simpl. split; [done|]. constructor. unfold retry_whole. by rewrite Ha.
  - intros body Ha. eapply emits_weaken; [by apply Hk|].
    intros [[|a]|[]|msg] t; simpl; [|by constructor|done].
    intros (-> & Hst & ->). split; [done|]. constructor. unfold retry_whole. by rewrite Ha.
Qed.

Lemma emits_server_error last log st route resp body out (Q : Outcome Empty_set (Flow (option unit)) -> _ -> Prop) :
  answer_of (DoResp resp) = Answered resp body -> 500 <= br_StatusCode resp ->
  (last = false -> Q (Ok Again) [EvFailure (p_ID (rr_Provider route))]) ->
  (forall t, EndsWhole last route resp t -> Q (Ok (Stop None)) t) ->
  emits (server_error env last log st route resp out) Q.
Proof.
  intros Ha Hst Hagain Hstop. unfold server_error. emit_step.
  destruct last; repeat emit_step; [|by apply Hagain]. apply Hstop. by eapply whole_5xx.
Qed.

Lemma usage_log u log :
  log_StatusCode (applyUsageToLog u log) = log_StatusCode log /\
  log_ProviderID (applyUsageToLog u log) = log_ProviderID log.
Proof. unfold applyUsageToLog. destruct u as [[u|]|]; [|done|done]. by destruct (u_CachedTokens u). Qed.

Lemma nonstreaming_attempt_spec r body model path isBinary st log last :
  emits (nonstreaming_attempt env r body model path isBinary st log last)
    (Iter (R:=R) env (nonstreaming_request r body model) retry_whole last
       (fun _ t => Final (nonstreaming_request r body model) EndsWhole last t)).
Proof.
  unfold nonstreaming_attempt.
  apply (emits_whole (nonstreaming_request r body model) last log st model path
    (fun route resp respBody =>
       let respOut := if rr_RequestedViaAlias route && negb isBinary
                      then rewriteResponseModelForClient respBody model else respBody in
       if 500 <=? br_StatusCode resp then server_error env last log st route resp respOut
       else nonstreaming_answer env log st body isBinary route resp respOut)).
  intros route resp rbody Ha. cbv zeta. destruct (500 <=? br_StatusCode resp) eqn:Hs.
  { bool_to_prop. by eapply emits_server_error. }
  unfold nonstreaming_answer. emit_step. cbv zeta.
  apply emits_truncate; [intros s|intros Hneg msg (_ & ? & ?); lia].
  destruct (is_2xx (br_StatusCode resp)) eqn:H2.
  - repeat emit_step. destruct isBinary; simpl negb; cbv iota.
    + repeat emit_step. by eapply whole_2xx.
    + emit_step. apply emits_truncate; [intros s'|intros Hneg msg (_ & ? & ?); lia]. repeat emit_step.
      eapply whole_2xx; try done; simpl; by rewrite ?(proj1 (usage_log _ _)), ?(proj2 (usage_log _ _)).
  - repeat emit_step. eapply whole_other; try done. blia.
Qed.

Lemma transcription_attempt_spec r mbody ct model st log last :
  emits (transcription_attempt env r mbody ct model st log last)
    (Iter (R:=R) env (transcription_request r mbody ct) retry_whole last
       (fun _ t => Final (transcription_request r mbody ct) EndsWhole last t)).
Proof.
  unfold transcription_attempt.
  apply (emits_whole (transcription_request r mbody ct) last log st model "/v1/audio/transcriptions"
    (fun route resp respBody =>
       let respOut := if rr_RequestedViaAlias route
                      then rewriteResponseModelForClient respBody model else respBody in
       if 500 <=? br_StatusCode resp then server_error env last log st route resp respOut
       else transcription_answer env log st route resp respOut)).
  intros route resp rbody Ha. cbv zeta. destruct (500 <=? br_StatusCode resp) eqn:Hs.
  { bool_to_prop. by eapply emits_server_error. }
  unfold transcription_answer. emit_step. cbv zeta.
  destruct (is_2xx (br_StatusCode resp)) eqn:H2; repeat emit_step.
  - eapply whole_2xx; try done; simpl; by rewrite ?(proj1 (usage_log _ _)), ?(proj2 (usage_log _ _)).
  - eapply whole_other; try done. blia.
Qed.

(** A stream's attempts leave the loop with a response, or end the request. *)
Lemma streaming_attempt_spec r mbody model path st log last :
  emits (streaming_attempt env r mbody model path st log last)
    (Iter (R:=R) env (streaming_request r mbody model) retry_stream last
       (fun a t => match a with
                   | None => Final (streaming_request r mbody model) EndsStream last t
                   | Some (route, resp) =>
                       br_StatusCode resp < 500 /\
                       t = [EvRouted route; EvSent (streaming_request r mbody model route) (DoResp resp)]
                   end)).
Proof.
  unfold streaming_attempt.
  apply (emits_send_attempt env (streaming_request r mbody model) retry_stream last log st model path _ _ EndsStream);
    [done|]. intros route resp.
  destruct (500 <=? br_StatusCode resp) eqn:Hs; bool_to_prop.
  - repeat emit_step. destruct last; repeat emit_step; simpl.
    + constructor. by constructor.
    + split; [done|]. by constructor.
  - repeat emit_step. simpl. done.
Qed.

Lemma stream_usage_log u log : log_StatusCode (apply_stream_usage u log) = log_StatusCode log.
Proof. unfold apply_stream_usage. destruct u as [u|]; [|done]. by destruct (ui_CachedTokensReported u). Qed.

(** Handing over the log of a stream appends one event with its status. *)
Lemma emits_finish res log :
  emits (R:=R) (finish_stream env res log)
    (fun o t => match o with
                | Ok _ => exists log' e, log_StatusCode log' = log_StatusCode log /\ records log' e /\ t = [e]
                | Err _ => False
                | Panic _ => ~ safe (R:=R) env
                end).
Proof.
  assert (forall log1, log_StatusCode log1 = log_StatusCode log -> emits (R:=R)
    (if (0 <? length (sr_chunks res))%nat
     then record_streaming log1 ((fun ch => mkLogChunk (ch_raw ch) (ch_delta ch)) <$> sr_chunks res)
            (sr_prefixDropped res)
     else record log1)
    (fun o t => match o with
                | Ok _ => exists log' e, log_StatusCode log' = log_StatusCode log /\ records log' e /\ t = [e]
                | Err _ => False
                | Panic _ => ~ safe (R:=R) env
                end)) as Hlast.
  { intros log1 H1. apply emits_of. unfold records.
    destruct (0 <? length (sr_chunks res))%nat; repeat emit_step; eauto 10. }
  unfold finish_stream. cbv zeta. destruct (negb (str_empty (sr_body res))); [|emit_step; by apply Hlast].
  emit_step. apply emits_truncate; [intros s; emit_step; by apply Hlast|intros Hneg msg (_ & ? & ?); lia].
Qed.

Lemma stream_answer_spec log st model route resp :
  emits (R:=R) (stream_answer env log st model route resp)
    (fun o t => match o with Ok _ => Streamed route resp t | Err _ => False | Panic _ => ~ safe (R:=R) env end).
Proof.
  unfold stream_answer. emit_step. apply emits_quiet.
  { intros w. unfold do_stream. destruct (proxyStreaming _ _ _). exists []. rewrite app_nil_r. eauto. }
  intros res. cbv zeta. emit_step.
  destruct (sr_err res) as [e|]; [destruct (stream_canceled e)|]; cbn [negb]; repeat emit_step;
    (eapply emits_weaken; [apply emits_finish|]); intros [[]|[]|msg] t; try done;
    intros (log' & ev & Hl & Hr & ->); rewrite stream_usage_log in Hl.
  - by eapply stream_gone.
  - by eapply stream_broken.
  - by eapply stream_done.
Qed.

End Loops.

(** ** Whole handlers *)

(** What is sent, recorded and replied in a trace. *)
Definition sent_of (e : Event) : option BackendRequest := match e with EvSent req _ => Some req | _ => None end.
Definition recorded_of (e : Event) : option RequestLog :=
  match e with EvRecord log | EvRecordStreaming log _ _ => Some log | _ => None end.
Definition reply_of (e : Event) : option Z := match e with EvReply s => Some s | _ => None end.
Definition routed_of (e : Event) : option RouteResult := match e with EvRouted r => Some r | _ => None end.

Section Handlers.
Context {R : Type} `{Router_ : !RouterI R} (env : HandlerEnv).

(** The postcondition of a handler: a trace that satisfies [P], or a panic
    that only an unsafe environment explains. *)
Definition handles (m : M R unit) (P : list Event -> Prop) : Prop :=
  emits m (fun o t => match o with Ok _ => P t | Err _ => False | Panic _ => ~ safe (R:=R) env end).

Lemma emits_tracked (r : Request) model path (m : M R unit) P :
  handles m P -> handles (do! trackID := beginTracking env r model path in with_end trackID m) P.
Proof.
  intros Hm w. unfold mbind_, beginTracking. destruct (wd_active w) as [reg|].
  - unfold with_end. destruct (Hm (mkWorld (wd_router w) (wd_writer w)
      (Some (Begin (he_uuid env (wd_uuids w)) (he_now env (wd_ticks w)) model path (clientIP r) reg))
      (wd_trace w) (S (wd_ticks w)) (S (wd_uuids w)))) as (t & Ht & HP).
    destruct (m _) as [o w']. exists t. by destruct (str_empty _).
  - unfold with_end. specialize (Hm w). by destruct (m w) as [o w'].
Qed.

Lemma loop_handles n build retryable (ends : bool -> RouteResult -> BackendResponse -> list Event -> Prop)
    iteration (tail : M R (option unit)) :
  (forall last, emits (iteration last) (Iter (R:=R) env build retryable last (fun _ t => Final build ends last t))) ->
  handles (attempts (S n) iteration tail >>! mret tt) (Proxied build retryable ends n).
Proof.
  intros Hit. eapply (emits_bind _ _ (Loop (R:=R) env build retryable n (fun last _ t => Final build ends last t))
    (fun _ o t => o = Ok tt /\ t = [])); [by apply emits_attempts|intros; apply emits_ret| |]; simpl.
  - intros a t1 o t2 (tried & final & -> & Hl & Ha & Hf) (-> & ->). exists tried, final. by rewrite app_nil_r.
  - done.
Qed.

Lemma proxyNonStreaming_handles r body model path isBinary st :
  handles (proxyNonStreaming env r body model path isBinary st)
    (Proxied (nonstreaming_request r body model) retry_whole EndsWhole 2).
Proof.
  unfold proxyNonStreaming. apply emits_tracked. unfold handles. emit_step.
  apply loop_handles. intros last. apply nonstreaming_attempt_spec.
Qed.

Lemma handleStreamingRequest_handles r body model path st :
  handles (handleStreamingRequest env r body model path st)
    (fun t => t = [EvReply 400] \/ exists mbody, injectStreamOptions body = Ok mbody /\
       Proxied (streaming_request r mbody model) retry_stream EndsStream 2 t) \/
  exists msg, injectStreamOptions body = Panic msg.
Proof.
  destruct (injectStreamOptions body) as [mbody|e|msg] eqn:Hi; [left|left|right; by exists msg];
    unfold handleStreamingRequest; rewrite Hi; apply emits_tracked; unfold handles.
  2: { apply emits_of. repeat emit_step. by left. }
  cbv zeta. emit_step. apply emits_truncate; [intros s|intros Hneg msg (_ & ? & ?); lia].
  eapply (emits_bind _ _ (Loop (R:=R) env (streaming_request r mbody model) retry_stream 2
    (fun last a t => match a with
       | None => Final (streaming_request r mbody model) EndsStream last t
       | Some (route, resp) => br_StatusCode resp < 500 /\
           t = [EvRouted route; EvSent (streaming_request r mbody model route) (DoResp resp)]
       end))
    (fun a o t => match a with
       | None => o = Ok tt /\ t = []
       | Some (route, resp) =>
           match o with Ok _ => Streamed route resp t | Err _ => False | Panic _ => ~ safe (R:=R) env end
       end)).
  - apply emits_attempts. intros last. apply streaming_attempt_spec.
  - intros [[route resp]|]; [apply stream_answer_spec|apply emits_ret].
  - intros [[route resp]|] t1 o t2 (tried & final & -> & Hl & Ha & Hf) HK; simpl in Hf, HK.
    + destruct Hf as [Hs ->]. destruct o as [[]|[]|msg]; [|done]. right. exists mbody. split; [done|].
      exists tried, ([EvRouted route; EvSent (streaming_request r mbody model route) (DoResp resp)] ++ t2).
      rewrite <- app_assoc. repeat split; try done. constructor. by constructor.
    + destruct HK as [-> ->]. right. exists mbody. split; [done|]. exists tried, final. by rewrite app_nil_r.
  - done.
Qed.

Lemma transcriptions_handles form r :
  handles (HandleAudioTranscriptions env form r)
    (fun t => t = [EvReply 400] \/ t = [EvReply 500] \/
       exists mbody ct, Proxied (transcription_request r mbody ct) retry_whole EndsWhole 2 t).
Proof.
  unfold HandleAudioTranscriptions, handles. emit_step.
  destruct (extractModelFromMultipart form) as [text|[model mp]].
  { apply emits_of. repeat emit_step. by left. }
  destruct (mp_rebuilt mp) as [text|[mbody ct]].
  { apply emits_of. repeat emit_step. by right; left. }
  emit_step. cbv zeta. eapply emits_weaken; [apply loop_handles|].
  - intros last. apply transcription_attempt_spec.
  - intros [[]|[]|msg] t; simpl; eauto.
Qed.

(** ** The endpoints *)

(** A request an endpoint takes: rejected, or proxied one way or the other. *)
Inductive Endpoint (t : list Event) : Prop :=
| ep_rejected status : t = [EvReply status] -> 400 <= status <= 500 -> Endpoint t
| ep_whole build : Proxied build retry_whole EndsWhole 2 t -> Endpoint t
| ep_stream build : Proxied build retry_stream EndsStream 2 t -> Endpoint t.

Lemma extract_total body msg : extractModelFromJSON body <> Panic msg.
Proof. unfold extractModelFromJSON. by repeat case_match. Qed.

Lemma extract_show_total body msg : extractModelFromShowRequest body <> Panic msg.
Proof. unfold extractModelFromShowRequest. by repeat case_match. Qed.

Lemma with_model_handles extract missing r k :
  (forall st model, handles (k st (req_Body r) model) Endpoint) ->
  (forall body msg, extract body <> Panic msg) ->
  handles (with_model env extract missing r k) Endpoint.
Proof.
  intros Hk Hp. unfold with_model, handles. emit_step.
  assert (forall text, emits (respondError (R:=R) 400 text) (fun o t => match o with
    Ok _ => Endpoint t | Err _ => False | Panic _ => ~ safe (R:=R) env end)) as Hrej.
  { intros text. apply emits_of. repeat emit_step. by apply (ep_rejected _ 400). }
  unfold read_body. destruct (_ || _); [apply Hrej|].
  destruct (extract (req_Body r)) as [model|e|msg] eqn:E; [apply Hk|apply Hrej|by destruct (Hp (req_Body r) msg)].
Qed.

Lemma whole_endpoint r body model path isBinary st :
  handles (proxyNonStreaming env r body model path isBinary st) Endpoint.
Proof.
  eapply emits_weaken; [apply proxyNonStreaming_handles|].
  intros [[]|[]|msg] t; [|done]. intros H. by eapply ep_whole.
Qed.

Lemma complete_endpoint path r :
  (forall msg, injectStreamOptions (req_Body r) <> Panic msg) -> handles (complete env path r) Endpoint.
Proof.
  intros Hn. apply with_model_handles; [|apply extract_total]. intros st model.
  destruct (stream_requested (req_Body r)); [|apply whole_endpoint].
  destruct (handleStreamingRequest_handles r (req_Body r) model path st) as [H|[msg H]]; [|by destruct (Hn msg)].
  eapply emits_weaken; [apply H|]. intros [[]|[]|msg] t; [|done].
  intros [->|(mbody & _ & Hp)]; [by apply (ep_rejected _ 400)|by eapply ep_stream].
Qed.

Lemma transcriptions_endpoint form r : handles (HandleAudioTranscriptions env form r) Endpoint.
Proof.
  eapply emits_weaken; [apply transcriptions_handles|]. intros [[]|[]|msg] t; [|done].
  intros [->|[->|(mbody & ct & Hp)]]; [by apply (ep_rejected _ 400)|by apply (ep_rejected _ 500)|by eapply ep_whole].
Qed.

Lemma every_endpoint form r handler :
  (forall msg, injectStreamOptions (req_Body r) <> Panic msg) ->
  handler ∈ [HandleChatCompletions env r; HandleCompletions env r; HandleShow env r; HandleEmbeddings env r;
     HandleImageGenerations env r; HandleAudioSpeech env r; HandleAudioTranscriptions env form r] ->
  handles handler Endpoint.
Proof.
  intros Hn Hh. rewrite !elem_of_cons, elem_of_nil in Hh.
  destruct Hh as [-> | [-> | [-> | [-> | [-> | [-> | [-> | []]]]]]]];
    [exact (complete_endpoint _ r Hn)|exact (complete_endpoint _ r Hn)| | | | |apply transcriptions_endpoint];
    (apply with_model_handles; [intros; apply whole_endpoint|auto using extract_total, extract_show_total]).
Qed.

End Handlers.

(** ** Consequences of the protocol *)

Lemma retry_quiet build retryable t :
  Retry build retryable t ->
  omap recorded_of t = [] /\ omap reply_of t = [] /\ (length (omap sent_of t) <= 1)%nat.
Proof. intros [| | |]; simpl; auto with lia. Qed.

Lemma tried_quiet build retryable tried :
  Forall (Retry build retryable) tried ->
  omap recorded_of (concat tried) = [] /\ omap reply_of (concat tried) = [] /\
  (length (omap sent_of (concat tried)) <= length tried)%nat.
Proof.
  induction 1 as [|t ts Ht _ (IH1 & IH2 & IH3)]; simpl; [auto|].
  destruct (retry_quiet _ _ _ Ht) as (H1 & H2 & H3).
  rewrite !omap_app, H1, H2, IH1, IH2, length_app. simpl. repeat split; lia.
Qed.

(** One record; one reply, unless the client went away. *)
Definition answered_once (t : list Event) : Prop :=
  exists log, omap recorded_of t = [log] /\
    (log_StatusCode log = 499 /\ omap reply_of t = [] \/ exists s, omap reply_of t = [s]).

(** One record, and the reply is its status unless the client went away. *)
Definition answered_as_recorded (t : list Event) : Prop :=
  exists log, omap recorded_of t = [log] /\
    (log_StatusCode log = 499 /\ omap reply_of t = [] \/ omap reply_of t = [log_StatusCode log]).

Lemma as_recorded_once t : answered_as_recorded t -> answered_once t.
Proof. intros (log & H1 & H2). exists log. split; [done|]. destruct H2 as [?|?]; eauto. Qed.

Lemma final_as_recorded build last t :
  Final build EndsWhole last t -> answered_as_recorded t /\ (length (omap sent_of t) <= 1)%nat.
Proof.
  unfold answered_as_recorded.
  intros [log _ Hl|route log _ Hl|route text log Hl|route text log _ Hl|route resp t' Ht]; simpl;
    try (split; [exists log; rewrite Hl; by eauto|lia]).
  destruct Ht as [log _ Hl|log _ _ Hl|body log _ _ _ Hl _|body log _ _ Hl _|body log _ _ _ Hl _]; simpl;
    (split; [exists log; rewrite Hl; by eauto|lia]).
Qed.

Lemma final_stream_once build last t :
  Final build EndsStream last t -> answered_once t /\ (length (omap sent_of t) <= 1)%nat.
Proof.
  unfold answered_once.
  intros [log _ Hl|route log _ Hl|route text log Hl|route text log _ Hl|route resp t' Ht]; simpl;
    try (split; [exists log; rewrite ?Hl; by eauto|lia]).
  destruct Ht as [log _ _ Hl|t' _ Ht]; simpl; [split; [exists log; by eauto|lia]|].
  destruct Ht as [log e _ He|log e _ He|log e _ He]; destruct He as [->|(c & d & ->)]; simpl;
    (split; [exists log; by eauto|lia]).
Qed.

Lemma proxied_lift build retryable ends n t (P : list Event -> Prop) :
  (forall t1 t2, omap recorded_of t1 = [] -> omap reply_of t1 = [] -> P t2 -> P (t1 ++ t2)) ->
  (forall last t, Final build ends last t -> P t /\ (length (omap sent_of t) <= 1)%nat) ->
  Proxied build retryable ends n t -> P t /\ (length (omap sent_of t) <= S n)%nat.
Proof.
  intros HP HF (tried & final & -> & Hl & Ha & Hf).
  destruct (tried_quiet _ _ _ Ha) as (H1 & H2 & H3). destruct (HF _ _ Hf) as (H4 & H5).
  split; [by apply HP|]. rewrite omap_app, length_app. lia.
Qed.

Lemma proxied_as_recorded build n t :
  Proxied build retry_whole EndsWhole n t -> answered_as_recorded t /\ (length (omap sent_of t) <= S n)%nat.
Proof.
  apply proxied_lift; [|apply final_as_recorded]. unfold answered_as_recorded.
  intros t1 t2 H1 H2 (log & H). exists log. by rewrite !omap_app, H1, H2.
Qed.

Lemma proxied_stream_once build n t :
  Proxied build retry_stream EndsStream n t -> answered_once t /\ (length (omap sent_of t) <= S n)%nat.
Proof.
  apply proxied_lift; [|apply final_stream_once]. unfold answered_once.
  intros t1 t2 H1 H2 (log & H). exists log. by rewrite !omap_app, H1, H2.
Qed.

(** ** What a handler leaves of the world

    A relation between the world before and after that the single steps keep
    is kept by the handlers. *)
Section Moves.
Context {R : Type} `{Router_ : !RouterI R} (env : HandlerEnv) (path : string).
Context (Rel : World R -> World R -> Prop).

Definition same_outside (w w' : World R) : Prop :=
  wd_writer w' = wd_writer w /\ wd_active w' = wd_active w /\ wd_trace w' = wd_trace w.

Context (Hidle : forall w w', same_outside w w' -> Rel w w').
Context (Htrans : forall w1 w2 w3, Rel w1 w2 -> Rel w2 w3 -> Rel w1 w3).
Context (Hevent : forall w r e, reply_of e = None -> Rel w (log_event e (set_router r w))).
Context (Hreply : forall w rw status,
  w_status rw = Some (default status (w_status (wd_writer w))) ->
  Rel w (log_event (EvReply status) (set_writer rw w))).

Definition moves {A} (m : M R A) : Prop := forall w, Rel w (m w).2.

Lemma moves_ret {A} (a : A) : moves (mret a).
Proof. intros w. by apply Hidle. Qed.

Lemma moves_panic {A} msg : moves (A:=A) (mpanic msg).
Proof. intros w. by apply Hidle. Qed.

Lemma moves_bind {A B} (m : M R A) (k : A -> M R B) : moves m -> (forall a, moves (k a)) -> moves (mbind_ m k).
Proof.
  intros Hm Hk w. unfold mbind_. specialize (Hm w). destruct (m w) as [[a|[]|msg] w1]; [|done].
  eapply Htrans; [done|apply Hk].
Qed.

Lemma moves_lift {A} (o : Outcome unit A) d : moves (lift_panic o d).
Proof. destruct o; simpl; auto using moves_ret, moves_panic. Qed.

Lemma moves_now : moves (now_ env).
Proof. intros w. by apply Hidle. Qed.

Lemma moves_uuid : moves (new_uuid env).
Proof. intros w. by apply Hidle. Qed.

Lemma moves_elapsed st : moves (elapsed_ms env st).
Proof. intros w. by apply Hidle. Qed.

Lemma moves_route model : moves (do_route model path).
Proof.
  intros w. unfold do_route. destruct (ri_route model path (wd_router w)) as [[route|e|msg] r] eqn:E; simpl.
  - by apply Hevent.
  - by apply Hevent.
  - by apply Hidle.
Qed.

Lemma set_router_same (w : World R) : set_router (wd_router w) w = w.
Proof. by destruct w. Qed.

Lemma moves_send req : moves (do_send env req).
Proof. intros w. simpl. rewrite <- (set_router_same w) at 2. by apply Hevent. Qed.

Lemma moves_record log : moves (record log).
Proof. intros w. simpl. rewrite <- (set_router_same w) at 2. by apply Hevent. Qed.

Lemma moves_record_streaming log c d : moves (record_streaming log c d).
Proof. intros w. simpl. rewrite <- (set_router_same w) at 2. by apply Hevent. Qed.

Lemma moves_success id : moves (report_success id).
Proof. intros w. by apply Hevent. Qed.

Lemma moves_failure id : moves (report_failure id).
Proof. intros w. by apply Hevent. Qed.

Lemma written_status status w body : w_status (Write_ body (WriteHeader status w)) = Some (default status (w_status w)).
Proof. unfold w_status, Write_, WriteHeader. by destruct (w_sent w) as [[]|] eqn:E; simpl; rewrite ?E. Qed.

Lemma moves_error status msg : moves (respondError status msg).
Proof. intros w. apply Hreply. apply (written_status _ (w_set "Content-Type" "application/json" (wd_writer w))). Qed.

(** Copying headers changes nothing but the headers to send. *)
Lemma copy_headers_frame resp w :
  w_sent (copyResponseHeaders resp w) = w_sent w /\ w_body (copyResponseHeaders resp w) = w_body w.
Proof.
  unfold copyResponseHeaders. revert w. induction (map_to_list (br_Header resp)) as [|kv l IH]; intros w; [done|].
  simpl. destruct (IH (if body_derived kv.1 then w else if is_hop_by_hop kv.1 then w
    else mkWriter (add_values (w_header w) kv) (w_sent w) (w_body w))) as [-> ->]. by repeat case_match.
Qed.

Lemma moves_reply resp body status : moves (reply_with resp body status).
Proof.
  intros w. apply Hreply. unfold copyResponseHeadersAndWrite. rewrite written_status. unfold w_status, w_set. simpl.
  by destruct (copy_headers_frame resp (wd_writer w)) as [-> _].
Qed.

Ltac go_moves :=
  repeat first
    [ apply moves_bind; [|intros ?] | apply moves_ret | apply moves_elapsed | apply moves_uuid | apply moves_now
    | apply moves_lift | apply moves_send | apply moves_record | apply moves_record_streaming | apply moves_success
    | apply moves_failure | apply moves_error | apply moves_reply | apply moves_route | apply moves_panic
    | match goal with |- moves (if ?b then _ else _) => destruct b end
    | match goal with |- moves (match ?x with _ => _ end) => destruct x end
    | progress cbv zeta ].

Lemma moves_fail log st status msg reply : moves (fail env log st status msg reply).
Proof. unfold fail. go_moves. Qed.

Lemma moves_and_then {A B} (m : M R (Flow (option A))) (k : A -> M R (Flow (option B))) :
  moves m -> (forall a, moves (k a)) -> moves (and_then m k).
Proof. intros Hm Hk. unfold and_then. apply moves_bind; [done|]. intros [|[a|]]; auto using moves_ret. Qed.

Lemma moves_send_attempt last log st model build : moves (send_attempt env last log st model path build).
Proof. unfold send_attempt. repeat (go_moves || apply moves_fail). Qed.

Lemma moves_read last log st route resp : moves (read_response env last log st route resp).
Proof. unfold read_response. repeat (go_moves || apply moves_fail). Qed.

Lemma moves_server_error last log st route resp out : moves (server_error env last log st route resp out).
Proof. unfold server_error. go_moves. Qed.

Lemma moves_attempts {A} n (iteration : bool -> M R (Flow A)) tail :
  (forall last, moves (iteration last)) -> moves tail -> moves (attempts n iteration tail).
Proof.
  intros Hit Ht. induction n as [|n IH]; [done|]. simpl. apply moves_bind; [apply Hit|].
  intros [|a]; [done|apply moves_ret].
Qed.

Lemma moves_nonstreaming_attempts r body model isBinary st log :
  moves (attempts maxProxyAttempts (nonstreaming_attempt env r body model path isBinary st log) (exhausted env log st)).
Proof.
  apply moves_attempts; [|unfold exhausted; repeat (go_moves || apply moves_fail)].
  intros last. unfold nonstreaming_attempt. apply moves_and_then; [apply moves_send_attempt|]. intros [route resp].
  apply moves_and_then; [apply moves_read|]. intros respBody. cbv zeta.
  destruct (500 <=? br_StatusCode resp); [apply moves_server_error|unfold nonstreaming_answer; go_moves].
Qed.

(** Tracking changes the registry only. *)
Context (Hactive : forall w a, Rel w (set_active a w)).

Lemma moves_tracked {A} r model (m : M R A) :
  moves m -> moves (do! trackID := beginTracking env r model path in with_end trackID m).
Proof.
  intros Hm. apply moves_bind.
  - intros w. unfold beginTracking. destruct (wd_active w) as [reg|]; [|by apply Hidle]. simpl.
    eapply (Htrans _ (set_active (Some (Begin (he_uuid env (wd_uuids w)) (he_now env (wd_ticks w)) model path
      (clientIP r) reg)) w)); [apply Hactive|by apply Hidle].
  - intros id w. unfold with_end. specialize (Hm w). destruct (m w) as [o w']. simpl in *.
    destruct (str_empty id); [done|]. eapply Htrans; [done|apply Hactive].
Qed.

Lemma moves_proxy r body model isBinary st : moves (proxyNonStreaming env r body model path isBinary st).
Proof.
  apply moves_tracked, moves_bind; [apply moves_uuid|]. intros id.
  apply moves_bind; [apply moves_nonstreaming_attempts|]. intros. apply moves_ret.
Qed.

(** Streams also change the writer outside a reply. *)
Context (Hwriter : forall w rw, Rel w (set_writer rw w)).

Lemma moves_stream_answer log st model route resp : moves (stream_answer env log st model route resp).
Proof.
  unfold stream_answer. apply moves_bind.
  { intros w. apply Hreply. unfold w_status, WriteHeader, w_set. simpl.
    by destruct (w_sent (wd_writer w)) as [[]|] eqn:E; simpl; rewrite ?E. }
  intros _. apply moves_bind.
  { intros w. unfold do_stream. destruct (proxyStreaming _ _ _) as [res rw]. simpl.
    eapply (Htrans _ (set_writer rw w)); [apply Hwriter|]. by apply Hidle. }
  intros res. unfold finish_stream. go_moves.
Qed.

Lemma moves_streaming_attempts r mbody model st log :
  moves (attempts maxProxyAttempts (streaming_attempt env r mbody model path st log) (no_response env log st)).
Proof.
  apply moves_attempts; [|unfold no_response; repeat (go_moves || apply moves_fail)].
  intros last. unfold streaming_attempt. apply moves_and_then; [apply moves_send_attempt|]. intros [route resp]. go_moves.
Qed.

End Moves.

(** ** Headers *)

(** The values a header map has for a name, after those of another one. *)
Definition with_values (base : option (list string)) (vs : option (list string)) : option (list string) :=
  match vs with Some (v :: vs) => Some (default [] base ++ v :: vs) | _ => base end.

Lemma add_values_lookup k vs h k' :
  add_values h (k, vs) !! k' = if decide (k' = k) then with_values (h !! k) (Some vs) else h !! k'.
Proof.
  unfold add_values. simpl. revert h. induction vs as [|v vs IH]; intros h; simpl.
  { by case_decide; subst. }
  rewrite IH. unfold header_add. case_decide; subst.
  - rewrite lookup_insert_eq. destruct vs; simpl; [done|]. by rewrite <- app_assoc.
  - by rewrite lookup_insert_ne.
Qed.

Lemma fold_headers_lookup (p : string -> bool) (m : Header) (h : Header) k :
  fold_left (fun h kv => if p kv.1 then add_values h kv else h) (map_to_list m) h !! k =
  if p k then with_values (h !! k) (m !! k) else h !! k.
Proof.
  rewrite <- (list_to_map_to_list m) at 2. pose proof (NoDup_fst_map_to_list m) as Hnd.
  revert Hnd h. generalize (map_to_list m) as l. induction l as [|[k1 vs] l IH]; intros Hnd h; simpl.
  { rewrite lookup_empty. by destruct (p k). }
  apply NoDup_cons in Hnd as [Hk1 Hnd]. rewrite (IH Hnd). clear IH.
  destruct (decide (k = k1)) as [->|Hne].
  - rewrite lookup_insert_eq, (not_elem_of_list_to_map_1 l k1) by done.
    destruct (p k1); [|done]. rewrite add_values_lookup, decide_True by done. done.
  - rewrite lookup_insert_ne by done. destruct (p k1); [|done].
    by rewrite add_values_lookup, decide_False.
Qed.

(** The headers of a response that reach the client. *)
Definition passes (key : string) : bool := negb (body_derived key) && negb (is_hop_by_hop key).

Lemma copy_headers_lookup resp w k :
  w_header (copyResponseHeaders resp w) !! k =
  if passes k then with_values (w_header w !! k) (br_Header resp !! k) else w_header w !! k.
Proof.
  rewrite <- (fold_headers_lookup passes). unfold copyResponseHeaders. f_equal.
  revert w. induction (map_to_list (br_Header resp)) as [|kv l IH]; intros w; [done|]. simpl.
  rewrite IH. unfold passes. by destruct (body_derived kv.1), (is_hop_by_hop kv.1).
Qed.

Lemma forward_header_lookup key r h k :
  forward_header key r h !! k =
  if decide (k = key /\ header_get (req_Header r) key <> "") then Some [header_get (req_Header r) key] else h !! k.
Proof.
  unfold forward_header, str_empty. destruct (String.eqb_spec (header_get (req_Header r) key) "") as [He|He]; simpl.
  - rewrite decide_False by tauto. done.
  - unfold header_set. destruct (decide (k = key)) as [->|Hk].
    + rewrite lookup_insert_eq, decide_True by done. done.
    + rewrite lookup_insert_ne by done. by rewrite decide_False by tauto.
Qed.

(** The headers a backend may see of a client. *)
Definition openai_header (key : string) : bool := has_prefix (to_lower key) "openai-".

Definition base_headers : list string := ["Content-Type"; "Accept"; "Authorization"].

Lemma forward_openai_lookup r h k :
  forward_openai r h !! k = if openai_header k then with_values (h !! k) (req_Header r !! k) else h !! k.
Proof. apply (fold_headers_lookup openai_header). Qed.

(** The credential for a provider: its own key, or else the client's. *)
Definition credential (r : Request) (p : Provider) : string :=
  if negb (str_empty (p_APIKey p)) then "Bearer " +:+ p_APIKey p else header_get (req_Header r) "Authorization".

Lemma backend_auth_other r p h k : k <> "Authorization" -> setBackendAuth r p h !! k = h !! k.
Proof.
  intros Hk. unfold setBackendAuth, header_set. repeat case_match; by rewrite ?lookup_insert_ne.
Qed.

(** The single steps keep the two relations the properties need. *)
Section Relations.
Context {R : Type} `{Router_ : !RouterI R} (env : HandlerEnv) (path : string).

(** The status the client sees is the first reply of the trace. *)
Definition status_ok (w : World R) : Prop := w_status (wd_writer w) = head (omap reply_of (wd_trace w)).

Definition keeps_status (w w' : World R) : Prop := status_ok w -> status_ok w'.

Definition keeps_active (w w' : World R) : Prop := wd_active w' = wd_active w.

Lemma same_cases (w w' : World R) : same_outside w w' -> keeps_status w w' /\ keeps_active w w'.
Proof. intros (H1 & H2 & H3). unfold keeps_status, status_ok, keeps_active. by rewrite H1, H2, H3. Qed.

Lemma status_reply w rw status :
  w_status rw = Some (default status (w_status (wd_writer w))) ->
  keeps_status w (log_event (EvReply status) (set_writer rw w)).
Proof.
  unfold keeps_status, status_ok. simpl. intros Hrw Hw. rewrite Hrw, Hw, omap_app. simpl.
  by destruct (omap reply_of (wd_trace w)).
Qed.

Lemma status_event w r e : reply_of e = None -> keeps_status w (log_event e (set_router r w)).
Proof. unfold keeps_status, status_ok. simpl. intros He ->. rewrite omap_app. simpl. by rewrite He, app_nil_r. Qed.

Lemma proxy_status r body model isBinary st w :
  keeps_status w (proxyNonStreaming env r body model path isBinary st w).2.
Proof.
  apply (moves_proxy env path keeps_status); unfold keeps_status.
  - intros w1 w2 H. apply (same_cases w1 w2 H).
  - auto.
  - intros. by apply status_event.
  - intros. by apply status_reply.
  - done.
Qed.

(** A body that leaves the registry alone is tracked without trace. *)
Lemma tracked_active {A} r model (m : M R A) w :
  (forall w1, keeps_active w1 (m w1).2) ->
  (forall reg, wd_active w = Some reg -> reg !! he_uuid env (wd_uuids w) = None /\ he_uuid env (wd_uuids w) <> "") ->
  keeps_active w ((do! trackID := beginTracking env r model path in with_end trackID m) w).2.
Proof.
  intros Hm Hfresh. unfold keeps_active, mbind_, beginTracking in *. destruct (wd_active w) as [reg|] eqn:Ea.
  - destruct (Hfresh reg eq_refl) as [Hn He]. unfold with_end.
    match goal with |- context [m ?x] => pose proof (Hm x) as H; destruct (m x) as [o w'] end.
    simpl in *. unfold str_empty. rewrite (proj2 (String.eqb_neq _ _) He). simpl. rewrite H. simpl.
    by rewrite Begin_End.
  - unfold with_end. specialize (Hm w). destruct (m w) as [o w']. simpl in *. by rewrite Hm.
Qed.

Lemma active_attempts_whole r body model isBinary st log w :
  keeps_active w (attempts maxProxyAttempts (nonstreaming_attempt env r body model path isBinary st log)
    (exhausted env log st) w).2.
Proof.
  apply (moves_nonstreaming_attempts env path keeps_active); unfold keeps_active; try done; [|congruence].
  intros w1 w2 H. apply (same_cases w1 w2 H).
Qed.
Lemma active_bind {A B} (m : M R A) (k : A -> M R B) :
  (forall w, keeps_active w (m w).2) -> (forall a w, keeps_active w (k a w).2) ->
  forall w, keeps_active w (mbind_ m k w).2.
Proof.
  intros Hm Hk. apply (moves_bind keeps_active); [|exact Hm|exact Hk].
  unfold keeps_active. intros. congruence.
Qed.

Lemma active_stream r body model st w :
  keeps_active w
    (match injectStreamOptions body with
     | Err _ => respondError 400 ("failed to inject stream options: parsing request body: " +:+ he_json_error env body)
     | Panic msg => mpanic msg
     | Ok modifiedBody =>
         let reqMax := getConfigInt (he_config env) "request_body_max_bytes" DefaultRequestBodyMaxBytes in
         do! id := new_uuid env in
         do! requestBody := lift_panic (truncateBodyWithConfig body reqMax) "" in
         let log := stamp_key r (start_log id r model st true requestBody) in
         do! sent := attempts maxProxyAttempts (streaming_attempt env r modifiedBody model path st log)
           (no_response env log st) in
         match sent with
         | None => mret tt
         | Some (route, resp) => stream_answer env log st model route resp
         end
     end w).2.
Proof.
  destruct (injectStreamOptions body) as [mbody|e|msg]; [|done|done]. cbv zeta. revert w.
  apply active_bind; [done|]. intros id. apply active_bind; [intros w; by destruct (truncateBodyWithConfig _ _)|].
  intros s. apply active_bind.
  - apply (moves_streaming_attempts env path keeps_active); unfold keeps_active; try done; [|congruence].
    intros w1 w2 H. apply (same_cases w1 w2 H).
  - intros [[route resp]|] w; [|done].
    apply (moves_stream_answer env keeps_active); unfold keeps_active; try done; [|congruence].
    intros w1 w2 H. apply (same_cases w1 w2 H).
Qed.
End Relations.

(** ** A stream whose first attempt is answered *)

Section FirstAnswer.
Context {R : Type} `{Router_ : !RouterI R} (env : HandlerEnv).

Lemma finish_writer res log (w : World R) : wd_writer (finish_stream env res log w).2 = wd_writer w.
Proof.
  unfold finish_stream, mbind_. destruct (negb (str_empty (sr_body res))).
  - destruct (truncate_cases (sr_body res) (getConfigInt (he_config env) "response_body_max_bytes"
      DefaultResponseBodyMaxBytes)) as [[s ->]|(msg & -> & _)]; [|done]. simpl. by case_match.
  - simpl. by case_match.
Qed.

Lemma mbind_ok {A B} (m : M R A) (k : A -> M R B) w a w' : m w = (Ok a, w') -> mbind_ m k w = k a w'.
Proof. intros E. unfold mbind_. by rewrite E. Qed.

(** The stream of a response is copied without trouble. *)
Definition calm (resp : BackendResponse) : Prop :=
  he_flusher env = true /\ (forall k, he_write env k = None) /\ lines_fit (st_data (br_Body resp)) /\
  st_error (br_Body resp) = None.

Lemma do_stream_spec st model route resp (w : World R) x :
  calm resp -> w_sent (wd_writer w) = Some x ->
  exists res w', do_stream env st model route resp w = (Ok res, w') /\ sr_err res = None /\
    wd_trace w' = wd_trace w /\ w_sent (wd_writer w') = Some x.
Proof.
  intros (Hfl & Hwr & Hfit & Hend) Hw. unfold do_stream.
  match goal with |- context [proxyStreaming ?senv ?b ?rw] =>
    pose proof (run_no_error senv b rw Hfl Hwr Hfit Hend) as Herr; pose proof (stream_keeps_sent senv b rw _ Hw) as Hkeep;
    destruct (proxyStreaming senv b rw) as [res rw'] end.
  eexists res, _. split; [reflexivity|]. done.
Qed.

Lemma stream_answer_ok log st model route resp (w : World R) :
  safe (R:=R) env -> calm resp ->
  w_sent (wd_writer w) = None ->
  let w' := (stream_answer env log st model route resp w).2 in
  w_status (wd_writer w') = Some 200 /\
  exists log' e, wd_trace w' = wd_trace w ++ [EvReply 200; EvSuccess (p_ID (rr_Provider route)); e] /\
    records log' e /\ log_StatusCode log' = br_StatusCode resp.
Proof.
  intros Hsafe Hok Hsent. cbv zeta. unfold stream_answer.
  erewrite (mbind_ok start_stream); [|reflexivity].
  match goal with |- context [mbind_ (do_stream env st model route resp) _ ?w1] => set (w1' := w1) end.
  assert (exists h, w_sent (wd_writer w1') = Some (200, h)) as [h Hh].
  { unfold w1'. simpl. unfold WriteHeader, w_set. simpl. rewrite Hsent. by eexists. }
  destruct (do_stream_spec st model route resp w1' _ Hok Hh) as (res & w2 & E & Herr & Ht2 & Hs2).
  rewrite (mbind_ok _ _ _ _ _ E). cbv zeta.
  erewrite (mbind_ok (elapsed_ms _ _)); [|reflexivity]. cbv zeta. rewrite Herr.
  erewrite mbind_ok; [|reflexivity]. cbv zeta.
  match goal with |- context [finish_stream env res ?l ?w3] =>
    rewrite (finish_writer res l w3); destruct (emits_finish env res l w3) as (t & Ht & HP);
    rewrite Ht; destruct (finish_stream env res l w3) as [o w4] end.
  split; [unfold w_status; simpl; by rewrite Hs2|].
  destruct o as [[]|[]|msg]; [|done]. destruct HP as (log' & e & Hl & He & ->). exists log', e.
  rewrite stream_usage_log in Hl. simpl. rewrite Ht2. unfold w1'. simpl. by rewrite <- !app_assoc.
Qed.

Lemma streaming_first r mbody model path st log last route resp rt (w : World R) :
  ri_route model path (wd_router w) = (Ok route, rt) -> he_url_error env (rr_TargetURL route) = None ->
  (forall t q, he_do env t q = DoResp resp) -> br_StatusCode resp < 500 ->
  streaming_attempt env r mbody model path st log last w =
  (Ok (Stop (Some (route, resp))),
   log_event (EvSent (streaming_request r mbody model route) (DoResp resp))
     (log_event (EvRouted route) (set_router rt w))).
Proof.
  intros Hr Hu Hd Hs. unfold streaming_attempt, and_then, send_attempt, mbind_, do_route. rewrite Hr, Hu.
  unfold do_send. rewrite Hd. unfold mret. by rewrite (proj2 (Z.leb_gt _ _) Hs).
Qed.

(** Tracking shows in the registry only. *)
Lemma tracked_run {A} r model path (m : M R A) (w : World R) :
  exists w0, wd_router w0 = wd_router w /\ wd_writer w0 = wd_writer w /\ wd_trace w0 = wd_trace w /\
    let w' := ((do! trackID := beginTracking env r model path in with_end trackID m) w).2 in
    wd_writer w' = wd_writer (m w0).2 /\ wd_trace w' = wd_trace (m w0).2.
Proof.
  unfold mbind_, beginTracking, with_end. destruct (wd_active w) as [reg|].
  - match goal with |- context [m ?x] => exists x; destruct (m x) as [o w'] end. by destruct (str_empty _).
  - exists w. by destruct (m w) as [o w'].
Qed.

End FirstAnswer.
(** * Properties *)

(** C1: a request that is not streamed runs the failover protocol: at most two
    failed attempts (no route, a URL that cannot be requested, a transport
    error, an unreadable or 5xx answer), each of the last three reported as a
    failure of its provider, then one attempt that ends the request; a client
    that goes away ends it unreported; a 2xx answer is reported as a success,
    and other answers below 500 are passed on unreported.  Only a router that
    panics or a negative size in the configuration makes it panic. *)
Theorem whole_requests_follow_protocol {R : Type} `{Router_ : !RouterI R} (env : HandlerEnv)
    (r : Request) (body model path : string) (isBinary : bool) (st : Z) (form : string + Multipart) :
  handles (R:=R) env (proxyNonStreaming env r body model path isBinary st)
    (Proxied (nonstreaming_request r body model) retry_whole EndsWhole 2) /\
  handles (R:=R) env (HandleAudioTranscriptions env form r)
    (fun t => t = [EvReply 400] \/ t = [EvReply 500] \/
       exists mbody ct, Proxied (transcription_request r mbody ct) retry_whole EndsWhole 2 t).
Proof. split; [apply proxyNonStreaming_handles|apply transcriptions_handles]. Qed.

(** C2: a streamed request runs the failover protocol up to the first response
    below 500, whatever that response is; from then on there is no failover:
    the stream is answered with status 200 and reported as a success when it
    ends, as a failure when it breaks, not at all when the client goes away. *)
Theorem streaming_follows_protocol {R : Type} `{Router_ : !RouterI R} (env : HandlerEnv)
    (r : Request) (body model path : string) (st : Z)
    (Hnull : forall msg, injectStreamOptions body <> Panic msg) :
  handles (R:=R) env (handleStreamingRequest env r body model path st)
    (fun t => t = [EvReply 400] \/ exists mbody, injectStreamOptions body = Ok mbody /\
       Proxied (streaming_request r mbody model) retry_stream EndsStream 2 t).
Proof. destruct (handleStreamingRequest_handles env r body model path st) as [H|[msg H]]; [done|by destruct (Hnull msg)]. Qed.

(** Every endpoint answers a request once: it is rejected with a 4xx or a
    500 before any backend is asked, or at most three requests go to backends,
    exactly one log is handed to the metrics, and exactly one status goes to
    the client, unless the client went away (and the log says 499). *)
Theorem endpoints_answer_once {R : Type} `{Router_ : !RouterI R} (env : HandlerEnv) (r : Request)
    (form : string + Multipart) (handler : M R unit)
    (Hh : handler ∈ [HandleChatCompletions env r; HandleCompletions env r; HandleShow env r; HandleEmbeddings env r;
            HandleImageGenerations env r; HandleAudioSpeech env r; HandleAudioTranscriptions env form r])
    (Hnull : forall msg, injectStreamOptions (req_Body r) <> Panic msg) :
  handles (R:=R) env handler (fun t =>
    (exists status, t = [EvReply status] /\ 400 <= status <= 500) \/
    answered_once t /\ (length (omap sent_of t) <= 3)%nat).
Proof.
  eapply emits_weaken; [by eapply every_endpoint|]. intros [[]|[]|msg] t; [|done].
  intros [status -> Hs|build Hp|build Hp]; [left; eauto|right..].
  - destruct (proxied_as_recorded _ _ _ Hp). auto using as_recorded_once.
  - by apply (proxied_stream_once build 2).
Qed.

(** The status the client of a request that is not streamed sees is the
    one the log records; when the log records that the client went away, no
    status was sent. *)
Theorem whole_status_is_recorded {R : Type} `{Router_ : !RouterI R} (env : HandlerEnv)
    (r : Request) (body model path : string) (isBinary : bool) (st : Z) (w : World R)
    (Hfresh : wd_trace w = [] /\ w_sent (wd_writer w) = None)
    (Hok : (proxyNonStreaming env r body model path isBinary st w).1 = Ok tt) :
  let w' := (proxyNonStreaming env r body model path isBinary st w).2 in
  exists log, omap recorded_of (wd_trace w') = [log] /\
    (log_StatusCode log = 499 /\ w_status (wd_writer w') = None \/
     w_status (wd_writer w') = Some (log_StatusCode log)).
Proof.
  cbv zeta. destruct Hfresh as [Htr Hsent].
  pose proof (proxy_status env path r body model isBinary st w) as Hst.
  destruct (proxyNonStreaming_handles env r body model path isBinary st w) as (t & Ht & HP).
  rewrite Hok in HP. rewrite Htr in Ht. simpl in Ht. destruct (proxied_as_recorded _ _ _ HP) as [(log & H1 & H2) _].
  unfold keeps_status, status_ok in Hst. rewrite Htr in Hst. unfold w_status in Hst at 1. rewrite Hsent in Hst.
  specialize (Hst eq_refl). rewrite Ht in *. exists log. split; [done|]. rewrite Hst.
  destruct H2 as [[? ->]| ->]; auto.
Qed.

(** C34: a response is passed on faithfully: with its status and its body byte
    for byte, a Content-Length that is the length of that body, and its headers
    after those already set, except the hop-by-hop ones and those that digest
    or measure the body it came with. *)
Theorem reply_is_faithful (resp : BackendResponse) (body : string) (status : Z) (w : ResponseWriter)
    (Hunsent : w_sent w = None) :
  let w' := copyResponseHeadersAndWrite resp body status w in
  w_body w' = w_body w +:+ body /\
  exists h, w_sent w' = Some (status, h) /\
    header_get h "Content-Length" = itoa (slen body) /\
    (forall k, k <> "Content-Length" ->
       h !! k = if passes k then with_values (w_header w !! k) (br_Header resp !! k) else w_header w !! k) /\
    passes "Etag" = false /\ passes "Connection" = false /\ passes "Transfer-Encoding" = false /\
    passes "Content-Type" = true.
Proof.
  cbv zeta. unfold copyResponseHeadersAndWrite.
  pose proof (copy_headers_lookup resp w) as Hl. destruct (copy_headers_frame resp w) as [Hs Hb].
  set (w1 := copyResponseHeaders resp w) in *. unfold WriteHeader, Write_, w_set. simpl.
  rewrite Hs, Hunsent. simpl. rewrite Hb. split; [done|].
  eexists. split; [reflexivity|]. split; [apply header_get_set|]. split; [|by vm_compute].
  intros k Hk. unfold header_set. rewrite lookup_insert_ne by done. apply Hl.
Qed.

(** C35: whatever becomes of a tracked request (an answer, an error, a panic),
    it leaves the registry of in-flight requests as it found it. *)
Theorem tracking_is_balanced {R : Type} `{Router_ : !RouterI R} (env : HandlerEnv)
    (r : Request) (body model path : string) (isBinary : bool) (st : Z) (w : World R)
    (Hfresh : forall reg, wd_active w = Some reg ->
       reg !! he_uuid env (wd_uuids w) = None /\ he_uuid env (wd_uuids w) <> "") :
  wd_active (proxyNonStreaming env r body model path isBinary st w).2 = wd_active w /\
  wd_active (handleStreamingRequest env r body model path st w).2 = wd_active w.
Proof.
  split; (apply tracked_active; [|done]); intros w1.
  - apply active_bind; [done|]. intros id. apply active_bind; [apply active_attempts_whole|done].
  - apply active_stream.
Qed.

(** A backend that answers a streamed request with a client error (4xx)
    is, for the client, a stream with status 200, and for the router a
    success; only the log says otherwise. *)
Theorem stream_hides_client_errors {R : Type} `{Router_ : !RouterI R} (env : HandlerEnv)
    (r : Request) (body mbody model path : string) (st : Z) (w : World R)
    (route : RouteResult) (resp : BackendResponse) (rt : R)
    (Hbody : injectStreamOptions body = Ok mbody)
    (Hsafe : safe (R:=R) env)
    (Hroute : ri_route model path (wd_router w) = (Ok route, rt))
    (Hurl : he_url_error env (rr_TargetURL route) = None)
    (Hdo : forall t q, he_do env t q = DoResp resp)
    (Hstatus : 400 <= br_StatusCode resp < 500)
    (Hcalm : calm env resp)
    (Hunsent : w_sent (wd_writer w) = None) :
  let w' := (handleStreamingRequest env r body model path st w).2 in
  w_status (wd_writer w') = Some 200 /\
  exists log e, wd_trace w' = wd_trace w ++
    [EvRouted route; EvSent (streaming_request r mbody model route) (DoResp resp); EvReply 200;
     EvSuccess (p_ID (rr_Provider route)); e] /\ records log e /\ log_StatusCode log = br_StatusCode resp.
Proof.
  cbv zeta. unfold handleStreamingRequest. rewrite Hbody. cbv zeta.
  match goal with |- context [with_end _ ?m] => destruct (tracked_run env r model path m w) as (w0 & Hr & Hw & Ht & E1 & E2) end.
  rewrite E1, E2. clear E1 E2. erewrite (mbind_ok (new_uuid env)); [|reflexivity].
  destruct (truncate_cases body (getConfigInt (he_config env) "request_body_max_bytes"
    DefaultRequestBodyMaxBytes)) as [[s ->]|(msg & _ & Hneg)]; [|destruct Hsafe as (_ & ? & _); lia].
  erewrite mbind_ok; [|reflexivity]. unfold maxProxyAttempts.
  erewrite mbind_ok; [|rewrite attempts_S; erewrite streaming_first; [reflexivity| |done|done|lia]; simpl; by rewrite Hr].
  cbv iota beta. set (w1 := log_event _ _).
  destruct (stream_answer_ok env (stamp_key r (start_log (he_uuid env (wd_uuids w0)) r model st true s)) st model
    route resp w1) as (H1 & log & e & H2 & H3 & H4); [done|done|unfold w1; simpl; by rewrite Hw|].
  split; [exact H1|]. exists log, e. split; [|done]. rewrite H2. unfold w1. simpl. rewrite Ht. by rewrite <- !app_assoc.
Qed.

(** A model can be looked up exactly when it is listed: for a parameter
    without percent escapes the answer is 200 when the catalog publishes the
    name, and 404 otherwise. *)
Theorem get_model_agrees_with_list {R : Type} (env : HandlerEnv) (ids_at : routingSnapshot)
    (snap_of : nat -> routingSnapshot) (param : string) (w : World R)
    (Hparam : param <> "" /\ path_unescape param = Some param) :
  wd_trace (HandleGetModel env ids_at snap_of param w).2 =
  wd_trace w ++ [EvReply (if decide (param ∈ PublicModelIDs ids_at) then 200 else 404)] /\
  mo_ID <$> listModelObjects ids_at snap_of = PublicModelIDs ids_at.
Proof.
  assert (mo_ID <$> listModelObjects ids_at snap_of = PublicModelIDs ids_at) as Hids.
  { unfold listModelObjects. generalize (PublicModelIDs ids_at) as l. intros l.
    revert snap_of. induction l as [|id l IH]; intros snap_of; csimpl; [done|]. f_equal. apply (IH (snap_of ∘ S)). }
  split; [|exact Hids]. destruct Hparam as [Hne Hun]. unfold HandleGetModel, str_empty.
  rewrite (proj2 (String.eqb_neq _ _) Hne), Hun. simpl. rewrite <- Hids.
  destruct (List.find (fun o => String.eqb (mo_ID o) param) (listModelObjects ids_at snap_of)) as [o|] eqn:Hf; simpl.
  - apply List.find_some in Hf as [Ho He]. apply String.eqb_eq in He as <-.
    rewrite decide_True; [done|]. apply list_elem_of_fmap_2. by apply list_elem_of_In.
  - rewrite decide_False; [done|]. intros (o & -> & Ho)%list_elem_of_fmap.
    apply list_elem_of_In in Ho. apply (List.find_none _ _ Hf) in Ho. by rewrite String.eqb_refl in Ho.
Qed.

(** * The router of the gateway

    [SmartRouter] keeps the promise of the interface.  Its surroundings may
    differ from call to call: the calls are numbered. *)
Section SmartRouterInterface.
Context (envs : nat -> RouterEnv) `{sorting : SortSlice}.

Lemma Route_target (env : RouterEnv) model path r route r' :
  Route (env:=env) model path r = (Ok route, r') ->
  rr_TargetURL route = target_url (p_BaseURL (rr_Provider route)) path.
Proof.
  unfold Route. destruct (resolveCandidates model) as [cs via]. unfold bind.
  destruct (filterByCircuitBreaker cs r) as [cs' r1]. destruct (filterByEndpoint 2 cs' path); [done|].
  destruct (selectWeightedPriority _ _); [|done|done]. by intros [= <- <-].
Qed.

#[export] Program Instance SmartRouterI : RouterI (SmartRouter * nat) := {|
  ri_route model path s :=
    let '(o, r) := Route (env:=envs s.2) model path s.1 in (o, (r, S s.2));
  ri_success id s :=
    let env := envs s.2 in ((ReportSuccess (env:=env) (snap_at 0) (snap_at 1) id s.1).2, S s.2);
  ri_failure id s :=
    let env := envs s.2 in ((ReportFailure (env:=env) (snap_at 0) (snap_at 1) id s.1).2, S s.2);
|}.
Next Obligation.
  intros model path [r n] route [r' n']. simpl. destruct (Route model path r) as [o r1] eqn:E.
  intros [= -> <- <-]. by eapply Route_target.
Qed.

End SmartRouterInterface.

(** * Witnesses *)

Definition quiet_router : RouterI (SmartRouter * nat) := SmartRouterI (fun _ => sample_env).

Definition sample_response (status : Z) : BackendResponse :=
  mkBackendResponse status
    (<["Content-Type" := ["application/json"]]> (<["Content-Length" := ["99"]]> (<["Connection" := ["close"]]> ∅)))
    (mkStream (jtext "{'model':'gpt','usage':{'prompt_tokens':3,'completion_tokens':4,'total_tokens':7}}") None).

Definition sample_handler_env (status : Z) : HandlerEnv :=
  mkHandlerEnv (fun k => Z.of_nat k * Millisecond) (fun k => "u" +:+ itoa (Z.of_nat k)) ∅
    (fun _ _ => DoResp (sample_response status)) (fun _ => None) (fun _ => "") (fun s => s) false true
    (fun _ => None) (fun _ => "").

Definition sample_request : Request :=
  mkRequest "POST" "/v1/chat/completions" (<["Authorization" := ["Bearer k"]]> ∅) 16 "1.2.3.4:5"
    (jtext "{'model':'fast'}") None.

Definition sample_world : World (SmartRouter * nat) :=
  mkWorld (NewSmartRouter, 0%nat) new_writer (Some NewActiveRegistry) [] 0 0.

Lemma streaming_follows_protocol_witness :
  handles (Router_:=quiet_router) (sample_handler_env 200)
    (handleStreamingRequest (Router_:=quiet_router) (sample_handler_env 200) sample_request
       (req_Body sample_request) "fast" "/v1/chat/completions" 0)
    (fun t => t = [EvReply 400] \/ exists mbody, injectStreamOptions (req_Body sample_request) = Ok mbody /\
       Proxied (streaming_request sample_request mbody "fast") retry_stream EndsStream 2 t).
Proof.
  apply (streaming_follows_protocol (Router_:=quiet_router)). intros msg. vm_compute. discriminate.
Defined.

Lemma endpoints_answer_once_witness :
  handles (Router_:=quiet_router) (sample_handler_env 500)
    (HandleChatCompletions (Router_:=quiet_router) (sample_handler_env 500) sample_request)
    (fun t => (exists status, t = [EvReply status] /\ 400 <= status <= 500) \/
       answered_once t /\ (length (omap sent_of t) <= 3)%nat).
Proof.
  apply (endpoints_answer_once (Router_:=quiet_router) (sample_handler_env 500) sample_request (inl "")).
  - constructor.
  - intros msg. vm_compute. discriminate.
Defined.

(** A lone provider that answers 500: its breaker opens at once, the next two
    attempts find no route, and the client gets a 503. *)
Example sample_failover :
  let w := (HandleChatCompletions (Router_:=quiet_router) (sample_handler_env 500) sample_request sample_world).2 in
  length (omap sent_of (wd_trace w)) = 1%nat /\ w_status (wd_writer w) = Some 503 /\
  (size <$> wd_active w) = Some 0%nat.
Proof. vm_compute. done. Qed.

Lemma whole_status_is_recorded_witness :
  let w' := (proxyNonStreaming (Router_:=quiet_router) (sample_handler_env 200) sample_request
    (req_Body sample_request) "fast" "/v1/chat/completions" false 0 sample_world).2 in
  exists log, omap recorded_of (wd_trace w') = [log] /\
    (log_StatusCode log = 499 /\ w_status (wd_writer w') = None \/
     w_status (wd_writer w') = Some (log_StatusCode log)).
Proof.
  apply (whole_status_is_recorded (Router_:=quiet_router)); [split; reflexivity|vm_compute; reflexivity].
Defined.

Lemma reply_is_faithful_witness :
  exists h, w_sent (copyResponseHeadersAndWrite (sample_response 200) "{}" 200 new_writer) = Some (200, h) /\
    header_get h "Content-Length" = "2".
Proof.
  destruct (reply_is_faithful (sample_response 200) "{}" 200 new_writer eq_refl) as (_ & h & H1 & H2 & _).
  exists h. split; [exact H1|exact H2].
Defined.

Lemma tracking_is_balanced_witness :
  wd_active (proxyNonStreaming (Router_:=quiet_router) (sample_handler_env 500) sample_request
    (req_Body sample_request) "fast" "/v1/chat/completions" false 0 sample_world).2 = Some NewActiveRegistry.
Proof.
  apply (tracking_is_balanced (Router_:=quiet_router) (sample_handler_env 500) sample_request
    (req_Body sample_request) "fast" "/v1/chat/completions" false 0 sample_world).
  intros reg Hreg. injection Hreg as <-. split; [reflexivity|vm_compute; discriminate].
Defined.

(** A router with one route for every model. *)
#[export] Program Instance fixed_router : RouterI unit := {|
  ri_route model path s :=
    (Ok (mkRouteResult sample_provider model (target_url (p_BaseURL sample_provider) path) false), s);
  ri_success _ s := s;
  ri_failure _ s := s;
|}.
Next Obligation. by intros model path r route r' [= <- <-]. Qed.

Lemma stream_hides_client_errors_witness :
  let w := mkWorld tt new_writer None [] 0 0 in
  w_status (wd_writer (handleStreamingRequest (sample_handler_env 404) sample_request
    (req_Body sample_request) "gpt" "/v1/chat/completions" 0 w).2) = Some 200.
Proof.
  destruct (injectStreamOptions (req_Body sample_request)) as [mbody|e|msg] eqn:E;
    [|vm_compute in E; discriminate E|vm_compute in E; discriminate E].
  apply (stream_hides_client_errors (sample_handler_env 404) sample_request
    (req_Body sample_request) mbody "gpt" "/v1/chat/completions" 0 (mkWorld tt new_writer None [] 0 0)
    (mkRouteResult sample_provider "gpt" (target_url (p_BaseURL sample_provider) "/v1/chat/completions") false)
    (sample_response 404) tt E); try reflexivity.
  - split; [intros m p r msg r'; simpl; congruence|]. split; vm_compute; discriminate.
  - simpl. lia.
  - split; [reflexivity|]. split; [reflexivity|]. split; [|reflexivity]. repeat constructor.
Defined.

Lemma get_model_agrees_with_list_witness :
  wd_trace (HandleGetModel (sample_handler_env 200) (buildRoutingSnapshot sample_data)
    (fun _ => buildRoutingSnapshot sample_data) "fast" sample_world).2 = [EvReply 200].
Proof.
  pose (snap := buildRoutingSnapshot sample_data).
  assert ("fast" <> "" /\ path_unescape "fast" = Some "fast") as Hp by (split; [discriminate|reflexivity]).
  assert ("fast" ∈ PublicModelIDs snap) as Hin by (vm_compute; constructor).
  pose proof (get_model_agrees_with_list (sample_handler_env 200) snap (fun _ => snap) "fast" sample_world Hp) as H.
  apply proj1 in H. rewrite decide_True in H by exact Hin. exact H.
Defined.
