(* ===== verification/Sql.v ===== *)
(** The database the gateway keeps its rows in: the tables of
    [internal/db/migrations], the constraints they declare, and statements
    and transactions as [database/sql] runs them.

    A table is the list of its rows in the order of their insertion.  Every
    statement, and the begin and the commit of a transaction, can fail for a
    reason outside the data; which ones do is given by a fault plan over the
    number of the statement. *)
From S2P Require Import Prelude GoLib Float64 Models.
Local Open Scope Z_scope.

(** * Tables *)

Record DB := mkDB {
  db_providers : list Provider;
  db_endpoints : list ProviderEndpoint;
  db_models : list ProviderModel;
  db_aliases : list ModelAlias;
  db_keys : list APIKey;
  db_logs : list RequestLog;
  db_chunks : list StreamingLog;
  db_config : gmap string string;
}.

Definition empty_db : DB := mkDB [] [] [] [] [] [] [] ∅.

Definition set_providers v db :=
  mkDB v (db_endpoints db) (db_models db) (db_aliases db) (db_keys db) (db_logs db) (db_chunks db) (db_config db).
Definition set_endpoints v db :=
  mkDB (db_providers db) v (db_models db) (db_aliases db) (db_keys db) (db_logs db) (db_chunks db) (db_config db).
Definition set_models v db :=
  mkDB (db_providers db) (db_endpoints db) v (db_aliases db) (db_keys db) (db_logs db) (db_chunks db) (db_config db).
Definition set_aliases v db :=
  mkDB (db_providers db) (db_endpoints db) (db_models db) v (db_keys db) (db_logs db) (db_chunks db) (db_config db).
Definition set_keys v db :=
  mkDB (db_providers db) (db_endpoints db) (db_models db) (db_aliases db) v (db_logs db) (db_chunks db) (db_config db).
Definition set_logs v db :=
  mkDB (db_providers db) (db_endpoints db) (db_models db) (db_aliases db) (db_keys db) v (db_chunks db) (db_config db).
Definition set_chunks v db :=
  mkDB (db_providers db) (db_endpoints db) (db_models db) (db_aliases db) (db_keys db) (db_logs db) v (db_config db).
Definition set_config v db :=
  mkDB (db_providers db) (db_endpoints db) (db_models db) (db_aliases db) (db_keys db) (db_logs db) (db_chunks db) v.

(** The keys of the unique constraints that span several columns. *)
Definition ep_key (e : ProviderEndpoint) : string * string * string := (ep_ProviderID e, ep_Path e, ep_Method e).
Definition pm_key (m : ProviderModel) : string * string := (pm_ProviderID m, pm_ModelID m).
Definition a_key (a : ModelAlias) : string * string * string := (a_Alias a, a_ProviderID a, a_ModelID a).

(** * Statements *)

(** A failed statement: a constraint, the absence of the row asked for
    ([sql.ErrNoRows]), no row to update, an integer sum out of range, a result
    that does not scan into its variable, or a fault. *)
Inductive DBError := ErrConstraint | ErrNoRows | ErrNoneAffected | ErrOverflow | ErrScan | ErrFault.

#[export] Instance DBError_eq_dec : EqDecision DBError.
Proof. solve_decision. Defined.

(** The effect of a statement on the tables. *)
Definition Stmt (A : Type) : Type := DB -> DBError + (A * DB).

Definition fresh {A K} `{EqDecision K} (key : A -> K) (x : A) (l : list A) : bool := bool_decide (key x ∉ key <$> l).

Definition update_rows {A} (sel : A -> bool) (f : A -> A) (l : list A) : list A :=
  (fun x => if sel x then f x else x) <$> l.

Definition count_rows {A} (sel : A -> bool) (l : list A) : Z := Z.of_nat (length (keep sel l)).

Definition keys_distinct {A K} `{EqDecision K} (key : A -> K) (l : list A) : bool := bool_decide (NoDup (key <$> l)).

Definition provider_exists (id : string) (db : DB) : bool := bool_decide (id ∈ p_ID <$> db_providers db).

(** The one column that is NOT NULL and can be given NULL: SQLite stores a NaN
    as NULL. *)
Definition threshold_set (p : Provider) : bool :=
  match p_CircuitBreakerErrorThreshold p with S754_nan => false | _ => true end.

(** [INSERT INTO]: the primary key, the unique constraints, the foreign keys
    and NOT NULL are checked. *)
Definition insert_provider (p : Provider) : Stmt unit := fun db =>
  if fresh p_ID p (db_providers db) && fresh p_BaseURL p (db_providers db) && threshold_set p
  then inr (tt, set_providers (db_providers db ++ [p]) db) else inl ErrConstraint.

Definition insert_endpoint (e : ProviderEndpoint) : Stmt unit := fun db =>
  if fresh ep_ID e (db_endpoints db) && fresh ep_key e (db_endpoints db) && provider_exists (ep_ProviderID e) db
  then inr (tt, set_endpoints (db_endpoints db ++ [e]) db) else inl ErrConstraint.

Definition insert_model (m : ProviderModel) : Stmt unit := fun db =>
  if fresh pm_ID m (db_models db) && fresh pm_key m (db_models db) && provider_exists (pm_ProviderID m) db
  then inr (tt, set_models (db_models db ++ [m]) db) else inl ErrConstraint.

Definition insert_alias (a : ModelAlias) : Stmt unit := fun db =>
  if fresh a_ID a (db_aliases db) && fresh a_key a (db_aliases db) && provider_exists (a_ProviderID a) db
  then inr (tt, set_aliases (db_aliases db ++ [a]) db) else inl ErrConstraint.

Definition insert_key (k : APIKey) : Stmt unit := fun db =>
  if fresh k_ID k (db_keys db) && fresh k_KeyHash k (db_keys db)
  then inr (tt, set_keys (db_keys db ++ [k]) db) else inl ErrConstraint.

Definition insert_log (l : RequestLog) : Stmt unit := fun db =>
  if fresh log_ID l (db_logs db) then inr (tt, set_logs (db_logs db ++ [l]) db) else inl ErrConstraint.

Definition insert_chunk (c : StreamingLog) : Stmt unit := fun db =>
  if fresh sl_ID c (db_chunks db) && bool_decide (sl_RequestLogID c ∈ log_ID <$> db_logs db)
  then inr (tt, set_chunks (db_chunks db ++ [c]) db) else inl ErrConstraint.

(** [INSERT OR IGNORE]: a row that would violate a uniqueness is skipped; a
    missing provider is still an error. *)
Definition insert_or_ignore_model (m : ProviderModel) : Stmt unit := fun db =>
  if fresh pm_ID m (db_models db) && fresh pm_key m (db_models db) then insert_model m db else inr (tt, db).

(** [INSERT ... ON CONFLICT(provider_id, path, method) DO UPDATE]. *)
Definition upsert_endpoint (e : ProviderEndpoint) : Stmt unit := fun db =>
  if fresh ep_key e (db_endpoints db) then insert_endpoint e db
  else
    inr (tt, set_endpoints (update_rows (fun x => bool_decide (ep_key x = ep_key e))
      (fun x => set_ep_IsEnabled (ep_IsEnabled e) (set_ep_IsSupported (ep_IsSupported e) x)) (db_endpoints db)) db).

(** [UPDATE ... WHERE]: the number of rows, unless a constraint breaks; a
    threshold the statement leaves alone is not NULL. *)
Definition update_providers (sel : Provider -> bool) (f : Provider -> Provider) : Stmt Z := fun db =>
  let rows := update_rows sel f (db_providers db) in
  let nulled x := sel x && threshold_set x && negb (threshold_set (f x)) in
  if keys_distinct p_BaseURL rows && negb (existsb nulled (db_providers db)) then inr (count_rows sel (db_providers db), set_providers rows db)
  else inl ErrConstraint.

Definition update_endpoints (sel : ProviderEndpoint -> bool) (f : ProviderEndpoint -> ProviderEndpoint) : Stmt Z :=
  fun db => inr (count_rows sel (db_endpoints db), set_endpoints (update_rows sel f (db_endpoints db)) db).

Definition update_models (sel : ProviderModel -> bool) (f : ProviderModel -> ProviderModel) : Stmt Z :=
  fun db => inr (count_rows sel (db_models db), set_models (update_rows sel f (db_models db)) db).

Definition update_aliases (sel : ModelAlias -> bool) (f : ModelAlias -> ModelAlias) : Stmt Z := fun db =>
  let rows := update_rows sel f (db_aliases db) in
  if keys_distinct a_key rows && forallb (fun a => provider_exists (a_ProviderID a) db) rows
  then inr (count_rows sel (db_aliases db), set_aliases rows db) else inl ErrConstraint.

Definition update_keys (sel : APIKey -> bool) (f : APIKey -> APIKey) : Stmt Z :=
  fun db => inr (count_rows sel (db_keys db), set_keys (update_rows sel f (db_keys db)) db).

Definition update_logs (sel : RequestLog -> bool) (f : RequestLog -> RequestLog) : Stmt Z :=
  fun db => inr (count_rows sel (db_logs db), set_logs (update_rows sel f (db_logs db)) db).

Definition update_chunks (sel : StreamingLog -> bool) (f : StreamingLog -> StreamingLog) : Stmt Z :=
  fun db => inr (count_rows sel (db_chunks db), set_chunks (update_rows sel f (db_chunks db)) db).

(** [DELETE ... WHERE]; the rows that refer to a deleted provider go with it
    ([ON DELETE CASCADE]). *)
Definition delete_providers (id : string) : Stmt Z := fun db =>
  let other {A} (owner : A -> string) (l : list A) := keep (fun x => negb (String.eqb (owner x) id)) l in
  if bool_decide (id ∈ p_ID <$> db_providers db) then
    inr (count_rows (fun p => String.eqb (p_ID p) id) (db_providers db),
      set_providers (other p_ID (db_providers db))
        (set_endpoints (other ep_ProviderID (db_endpoints db))
          (set_models (other pm_ProviderID (db_models db))
            (set_aliases (other a_ProviderID (db_aliases db)) db))))
  else inr (0, db).

Definition delete_models (sel : ProviderModel -> bool) : Stmt Z :=
  fun db => inr (count_rows sel (db_models db), set_models (keep (fun m => negb (sel m)) (db_models db)) db).

Definition delete_aliases (sel : ModelAlias -> bool) : Stmt Z :=
  fun db => inr (count_rows sel (db_aliases db), set_aliases (keep (fun a => negb (sel a)) (db_aliases db)) db).

Definition delete_keys (sel : APIKey -> bool) : Stmt Z :=
  fun db => inr (count_rows sel (db_keys db), set_keys (keep (fun k => negb (sel k)) (db_keys db)) db).

(** * Running statements *)

Record Conn := mkConn { cn_db : DB; cn_stmts : nat }.

Definition Exec (A : Type) : Type := ST Conn (DBError + A).

Section Exec.
Context (fault : nat -> bool).

Definition eret {A} (a : A) : Exec A := fun c => (inr a, c).
Definition efail {A} (e : DBError) : Exec A := fun c => (inl e, c).

Definition ebind {A B} (m : Exec A) (k : A -> Exec B) : Exec B :=
  fun c => match m c with
           | (inl e, c') => (inl e, c')
           | (inr a, c') => k a c'
           end.

(** [db.ExecContext]: a statement takes effect as a whole or not at all. *)
Definition exec {A} (s : Stmt A) : Exec A := fun c =>
  let n := cn_stmts c in
  if fault n then (inl ErrFault, mkConn (cn_db c) (S n))
  else
    match s (cn_db c) with
    | inl e => (inl e, mkConn (cn_db c) (S n))
    | inr (a, db) => (inr a, mkConn db (S n))
    end.

(** [db.QueryContext]: reads the tables. *)
Definition query {A} (f : DB -> A) : Exec A := exec (fun db => inr (f db, db)).

(** [BeginTx], the statements, [Commit]; an error on the way rolls back. *)
Definition transaction {A} (body : Exec A) : Exec A := fun c =>
  let n := cn_stmts c in
  if fault n then (inl ErrFault, mkConn (cn_db c) (S n))
  else
    match body (mkConn (cn_db c) (S n)) with
    | (inl e, c') => (inl e, mkConn (cn_db c) (cn_stmts c'))
    | (inr a, c') =>
        let n' := cn_stmts c' in
        if fault n' then (inl ErrFault, mkConn (cn_db c) (S n')) else (inr a, mkConn (cn_db c') (S n'))
    end.

(** An update that must hit a row. *)
Definition must_affect (missing : DBError) (n : Z) : Exec unit :=
  if n =? 0 then efail missing else eret tt.

(** [for _, x := range l { ... }] with an early return on the first error. *)
Fixpoint efor {A} (f : A -> Exec unit) (l : list A) : Exec unit :=
  match l with
  | [] => eret tt
  | x :: l' => ebind (f x) (fun _ => efor f l')
  end.

End Exec.

Notation "'sql!' x ':=' m 'in' k" := (ebind m (fun x => k))
  (at level 10, x pattern, m at level 200, k at level 200) : go_scope.
Notation "m '>>+' k" := (ebind m (fun _ => k)) (at level 100, right associativity) : go_scope.

(** * Integrity *)

(** What the constraints of the schema promise of the tables. *)
Record wf (db : DB) : Prop := mkWf {
  wf_p_id : NoDup (p_ID <$> db_providers db);
  wf_p_url : NoDup (p_BaseURL <$> db_providers db);
  wf_ep_id : NoDup (ep_ID <$> db_endpoints db);
  wf_ep_key : NoDup (ep_key <$> db_endpoints db);
  wf_ep_fk : Forall (fun e => ep_ProviderID e ∈ p_ID <$> db_providers db) (db_endpoints db);
  wf_pm_id : NoDup (pm_ID <$> db_models db);
  wf_pm_key : NoDup (pm_key <$> db_models db);
  wf_pm_fk : Forall (fun m => pm_ProviderID m ∈ p_ID <$> db_providers db) (db_models db);
  wf_a_id : NoDup (a_ID <$> db_aliases db);
  wf_a_key : NoDup (a_key <$> db_aliases db);
  wf_a_fk : Forall (fun a => a_ProviderID a ∈ p_ID <$> db_providers db) (db_aliases db);
  wf_k_id : NoDup (k_ID <$> db_keys db);
  wf_k_hash : NoDup (k_KeyHash <$> db_keys db);
  wf_log_id : NoDup (log_ID <$> db_logs db);
  wf_sl_id : NoDup (sl_ID <$> db_chunks db);
  wf_sl_fk : Forall (fun c => sl_RequestLogID c ∈ log_ID <$> db_logs db) (db_chunks db);
}.

(** * Lemmas *)

Section Rows.
Context {A K : Type} `{EqDecision K} (key : A -> K).

Lemma fresh_snoc (x : A) (l : list A) : fresh key x l = true -> NoDup (key <$> l) -> NoDup (key <$> l ++ [x]).
Proof.
  intros Hf%bool_decide_eq_true Hn. rewrite fmap_app. apply NoDup_app. split; [done|].
  split; [|apply NoDup_singleton]. csimpl. set_solver.
Qed.

Lemma keep_NoDup (p : A -> bool) (l : list A) : NoDup (key <$> l) -> NoDup (key <$> keep p l).
Proof.
  unfold keep. induction l as [|x l IH]; csimpl; [done|]. intros [Hx Hl]%NoDup_cons.
  destruct (p x); csimpl; [|by apply IH]. apply NoDup_cons. split; [|by apply IH].
  intros (y & Hy & Hin)%list_elem_of_fmap. apply Hx. rewrite Hy. apply list_elem_of_fmap_2.
  by apply keep_spec in Hin as [? _].
Qed.

(** Two rows with one key are one row. *)
Lemma key_unique (l : list A) (x y : A) : NoDup (key <$> l) -> x ∈ l -> y ∈ l -> key x = key y -> x = y.
Proof.
  induction l as [|z l IH]; csimpl; intros Hn Hx Hy E; [by apply elem_of_nil in Hx|].
  apply NoDup_cons in Hn as [Hz Hn].
  apply elem_of_cons in Hx as [->|Hx], Hy as [->|Hy]; [done| | |by apply IH].
  - exfalso. apply Hz. rewrite E. by apply list_elem_of_fmap_2.
  - exfalso. apply Hz. rewrite <- E. by apply list_elem_of_fmap_2.
Qed.

Lemma existsb_none (p : A -> bool) (l : list A) : (forall x, p x = false) -> existsb p l = false.
Proof. intros Hp. induction l as [|x l IH]; [done|]. simpl. by rewrite Hp. Qed.

(** An update that keeps the key of its rows keeps the keys. *)
Lemma update_keeps_key (sel : A -> bool) (f : A -> A) (l : list A) :
  (forall x, key (f x) = key x) -> key <$> update_rows sel f l = key <$> l.
Proof.
  intros Hf. unfold update_rows. rewrite <- list_fmap_compose. apply list_fmap_ext.
  intros _ x _. simpl. by destruct (sel x).
Qed.

Lemma update_Forall (P : A -> Prop) (sel : A -> bool) (f : A -> A) (l : list A) :
  (forall x, P x -> P (f x)) -> Forall P l -> Forall P (update_rows sel f l).
Proof. intros Hf Hl. unfold update_rows. apply Forall_fmap. eapply Forall_impl; [done|]. simpl. intros x. case_match; auto. Qed.

End Rows.

(** A statement that keeps the tables well formed. *)
Definition stmt_wf {A} (s : Stmt A) : Prop :=
  forall db, wf db -> match s db with inl _ => True | inr (_, db') => wf db' end.

(** An operation that does. *)
Definition keeps_wf {A} (m : Exec A) : Prop := forall c, wf (cn_db c) -> wf (cn_db (m c).2).

Create HintDb go_sql.

(** Opens a goal [stmt_wf] of a conditional statement. *)
Ltac stmt_open :=
  intros db W; cbv beta zeta; repeat (case_match; simplify_eq/=; try done); bool_to_prop;
  destruct W; split; csimpl; auto.

Lemma insert_provider_wf p : stmt_wf (insert_provider p).
Proof.
  unfold insert_provider. stmt_open; [by apply fresh_snoc|by apply fresh_snoc|..];
    (eapply Forall_impl; [eassumption|]); simpl; intros x Hx; rewrite fmap_app; set_solver.
Qed.

Lemma fk_snoc {A} (owner : A -> string) (x : A) (l : list A) (ids : list string) :
  owner x ∈ ids -> Forall (fun y => owner y ∈ ids) l -> Forall (fun y => owner y ∈ ids) (l ++ [x]).
Proof. intros. apply Forall_app. by repeat constructor. Qed.

Lemma provider_exists_spec id db : provider_exists id db = true -> id ∈ p_ID <$> db_providers db.
Proof. apply bool_decide_eq_true. Qed.

#[export] Hint Resolve fk_snoc provider_exists_spec : go_sql.
#[export] Hint Extern 1 (NoDup (_ <$> _ ++ [_])) => apply fresh_snoc; assumption : go_sql.

Lemma insert_endpoint_wf e : stmt_wf (insert_endpoint e).
Proof. unfold insert_endpoint. stmt_open; auto with go_sql. Qed.

Lemma insert_model_wf m : stmt_wf (insert_model m).
Proof. unfold insert_model. stmt_open; auto with go_sql. Qed.

Lemma insert_alias_wf a : stmt_wf (insert_alias a).
Proof. unfold insert_alias. stmt_open; auto with go_sql. Qed.

Lemma insert_key_wf k : stmt_wf (insert_key k).
Proof. unfold insert_key. stmt_open; auto with go_sql. Qed.

Lemma insert_log_wf l : stmt_wf (insert_log l).
Proof.
  unfold insert_log. stmt_open; auto with go_sql.
  eapply Forall_impl; [eassumption|]. simpl. intros c Hc. rewrite fmap_app. set_solver.
Qed.

Lemma insert_chunk_wf c : stmt_wf (insert_chunk c).
Proof.
  unfold insert_chunk. stmt_open; auto with go_sql. apply fk_snoc; [|done].
  by match goal with H : bool_decide _ = true |- _ => apply bool_decide_eq_true in H end.
Qed.

Lemma insert_or_ignore_model_wf m : stmt_wf (insert_or_ignore_model m).
Proof. intros db W. unfold insert_or_ignore_model. destruct (_ && _); [by apply insert_model_wf|done]. Qed.

Lemma update_endpoints_wf sel f :
  (forall e, ep_ID (f e) = ep_ID e /\ ep_key (f e) = ep_key e) -> stmt_wf (update_endpoints sel f).
Proof.
  intros Hf. unfold update_endpoints. stmt_open; rewrite ?update_keeps_key; try done; try apply Hf.
  apply update_Forall; [|done]. intros e He. destruct (Hf e) as [_ [= -> _ _]]. exact He.
Qed.

Lemma upsert_endpoint_wf e : stmt_wf (upsert_endpoint e).
Proof.
  intros db W. unfold upsert_endpoint. destruct (fresh _ _ _); [by apply insert_endpoint_wf|].
  apply (update_endpoints_wf (fun x => bool_decide (ep_key x = ep_key e))
    (fun x => set_ep_IsEnabled (ep_IsEnabled e) (set_ep_IsSupported (ep_IsSupported e) x)) ltac:(done) db W).
Qed.

Lemma update_models_wf sel f :
  (forall m, pm_ID (f m) = pm_ID m /\ pm_key (f m) = pm_key m) -> stmt_wf (update_models sel f).
Proof.
  intros Hf. unfold update_models. stmt_open; rewrite ?update_keeps_key; try done; try apply Hf.
  apply update_Forall; [|done]. intros m Hm. destruct (Hf m) as [_ [= -> _]]. exact Hm.
Qed.

Lemma update_providers_wf sel f : (forall p, p_ID (f p) = p_ID p) -> stmt_wf (update_providers sel f).
Proof.
  intros Hf. unfold update_providers. stmt_open; rewrite ?(update_keeps_key p_ID) by done; auto.
  by match goal with H : keys_distinct _ _ = true |- _ => apply bool_decide_eq_true in H end.
Qed.

Lemma update_aliases_wf sel f : (forall a, a_ID (f a) = a_ID a) -> stmt_wf (update_aliases sel f).
Proof.
  intros Hf. unfold update_aliases. stmt_open; rewrite ?(update_keeps_key a_ID) by done; auto.
  - by match goal with H : keys_distinct _ _ = true |- _ => apply bool_decide_eq_true in H end.
  - match goal with H : forallb _ _ = true |- _ => rewrite List.forallb_forall in H;
      apply Forall_forall; intros a Ha; apply provider_exists_spec, H; by apply list_elem_of_In end.
Qed.

Lemma update_keys_wf sel f :
  (forall k, k_ID (f k) = k_ID k /\ k_KeyHash (f k) = k_KeyHash k) -> stmt_wf (update_keys sel f).
Proof. intros Hf. unfold update_keys. stmt_open; rewrite ?update_keeps_key; try done; apply Hf. Qed.

Lemma update_logs_wf sel f : (forall l, log_ID (f l) = log_ID l) -> stmt_wf (update_logs sel f).
Proof. intros Hf. unfold update_logs. stmt_open; by rewrite ?update_keeps_key. Qed.

Lemma update_chunks_wf sel f :
  (forall c, sl_ID (f c) = sl_ID c /\ sl_RequestLogID (f c) = sl_RequestLogID c) -> stmt_wf (update_chunks sel f).
Proof.
  intros Hf. unfold update_chunks. stmt_open; rewrite ?update_keeps_key; try done; try apply Hf.
  apply update_Forall; [|done]. intros c Hc. by rewrite (proj2 (Hf c)).
Qed.

(** The rows left by a delete refer to providers that are left. *)
Lemma cascade_fk {A} (owner : A -> string) (id : string) (l : list A) (ps : list Provider) :
  Forall (fun x => owner x ∈ p_ID <$> ps) l ->
  Forall (fun x => owner x ∈ p_ID <$> keep (fun p => negb (String.eqb (p_ID p) id)) ps)
    (keep (fun x => negb (String.eqb (owner x) id)) l).
Proof.
  rewrite !Forall_forall. intros H x [Hx Hne]%keep_spec. destruct (String.eqb_spec (owner x) id); [done|].
  apply H, list_elem_of_fmap in Hx as (p & Hp & Hin). rewrite Hp. apply list_elem_of_fmap_2, keep_spec.
  split; [done|]. rewrite <- Hp. by rewrite (proj2 (String.eqb_neq _ _)).
Qed.

Lemma delete_providers_wf id : stmt_wf (delete_providers id).
Proof. unfold delete_providers. stmt_open; auto using keep_NoDup, cascade_fk. Qed.

Lemma delete_models_wf sel : stmt_wf (delete_models sel).
Proof. unfold delete_models. stmt_open; auto using keep_NoDup, keep_Forall. Qed.

Lemma delete_aliases_wf sel : stmt_wf (delete_aliases sel).
Proof. unfold delete_aliases. stmt_open; auto using keep_NoDup, keep_Forall. Qed.

Lemma delete_keys_wf sel : stmt_wf (delete_keys sel).
Proof. unfold delete_keys. stmt_open; auto using keep_NoDup. Qed.

(** ** Operations *)

Section Ops.
Context (fault : nat -> bool).

Lemma eret_wf {A} (a : A) : keeps_wf (eret a).
Proof. by intros c. Qed.

Lemma efail_wf {A} e : keeps_wf (A:=A) (efail e).
Proof. by intros c. Qed.

Lemma ebind_wf {A B} (m : Exec A) (k : A -> Exec B) :
  keeps_wf m -> (forall a, keeps_wf (k a)) -> keeps_wf (ebind m k).
Proof.
  intros Hm Hk c W. unfold ebind. specialize (Hm c W). destruct (m c) as [[e|a] c']; [done|]. by apply Hk.
Qed.

Lemma sql_exec_wf {A} (s : Stmt A) : stmt_wf s -> keeps_wf (exec fault s).
Proof.
  intros Hs c W. unfold exec. destruct (fault _); [done|]. specialize (Hs _ W).
  by destruct (s (cn_db c)) as [e|[a db]].
Qed.

Lemma query_wf {A} (f : DB -> A) : keeps_wf (query fault f).
Proof. apply sql_exec_wf. by intros db W. Qed.

Lemma transaction_wf {A} (m : Exec A) : keeps_wf m -> keeps_wf (transaction fault m).
Proof.
  intros Hm c W. unfold transaction. destruct (fault _); [done|].
  specialize (Hm (mkConn (cn_db c) (S (cn_stmts c))) W). destruct (m _) as [[e|a] c']; simpl in *; [done|].
  by destruct (fault _).
Qed.

Lemma must_affect_wf e n : keeps_wf (must_affect e n).
Proof. unfold must_affect. case_match; auto using eret_wf, efail_wf. Qed.

Lemma efor_wf {A} (f : A -> Exec unit) l : (forall x, keeps_wf (f x)) -> keeps_wf (efor f l).
Proof. intros Hf. induction l as [|x l IH]; simpl; auto using eret_wf, ebind_wf. Qed.

(** An operation that fails leaves the tables as they were. *)
Definition atomic {A} (m : Exec A) : Prop :=
  forall c, match (m c).1 with inl _ => cn_db (m c).2 = cn_db c | inr _ => True end.

Lemma exec_atomic {A} (s : Stmt A) : atomic (exec fault s).
Proof. intros c. unfold exec. destruct (fault _); [done|]. by destruct (s (cn_db c)) as [e|[a db]]. Qed.

Lemma transaction_atomic {A} (m : Exec A) : atomic (transaction fault m).
Proof.
  intros c. unfold transaction. destruct (fault _); [done|]. destruct (m _) as [[e|a] c']; [done|].
  by destruct (fault _).
Qed.

(** What a transaction commits is what its body did. *)
Lemma transaction_ok {A} (m : Exec A) c a c' :
  transaction fault m c = (inr a, c') ->
  exists c1, m (mkConn (cn_db c) (S (cn_stmts c))) = (inr a, c1) /\ cn_db c' = cn_db c1.
Proof.
  unfold transaction. destruct (fault _); [done|]. destruct (m _) as [[e|a'] c1]; [done|].
  destruct (fault _); [done|]. intros [= -> <-]. by exists c1.
Qed.

Lemma exec_ok {A} (s : Stmt A) c a c' : exec fault s c = (inr a, c') -> s (cn_db c) = inr (a, cn_db c').
Proof.
  unfold exec. destruct (fault _); [done|]. destruct (s (cn_db c)) as [e|[a' db]]; [done|]. by intros [= -> <-].
Qed.

Lemma ebind_ok {A B} (m : Exec A) (k : A -> Exec B) c b c' :
  ebind m k c = (inr b, c') -> exists a c1, m c = (inr a, c1) /\ k a c1 = (inr b, c').
Proof. unfold ebind. destruct (m c) as [[e|a] c1]; [done|]. eauto. Qed.

(** Without faults the statements run as they are. *)
Lemma exec_quiet {A} (s : Stmt A) c a db :
  (forall n, fault n = false) -> s (cn_db c) = inr (a, db) -> exec fault s c = (inr a, mkConn db (S (cn_stmts c))).
Proof. intros Hf Hs. unfold exec. by rewrite Hf, Hs. Qed.

End Ops.

#[export] Hint Resolve insert_provider_wf insert_endpoint_wf insert_model_wf insert_alias_wf insert_key_wf
  insert_log_wf insert_chunk_wf insert_or_ignore_model_wf upsert_endpoint_wf delete_providers_wf
  delete_models_wf delete_aliases_wf delete_keys_wf : go_sql.
#[export] Hint Resolve eret_wf efail_wf ebind_wf sql_exec_wf query_wf transaction_wf must_affect_wf efor_wf : go_sql.
#[export] Hint Resolve exec_atomic transaction_atomic : go_sql.
