(* ===== verification/Store.v ===== *)
(** The store of [internal/db]: the operations of [SQLiteStore] as statements
    and transactions over the tables of {!Sql}, and the promises of the
    [Store] interface.

    Instants are written in UTC, in a text whose order is the order of the
    instants, so that a comparison of columns is a comparison of instants.
    [ORDER BY] leaves rows with equal keys in an order of its own, which is
    why the order is that of any sort. *)
From stdpp Require Import pretty.
From S2P Require Import Prelude GoLib Float64 Models Catalog Sql.
Local Open Scope Z_scope.
Local Open Scope go_scope.

(** * Columns and rows *)

(** [nullStr]: an empty string is stored as NULL. *)
Definition nullStr (v : string) : option string := if str_empty v then None else Some v.

(** [nullInt], [nullInt64]: a nil pointer is stored as NULL. *)
Definition nullInt (v : option Z) : option Z := v.
Definition nullInt64 (v : option Z) : option Z := v.

(** [nullTime]. *)
Definition nullTime (v : option Z) : option Z := v.

(** [nullFloat64]; SQLite has no NaN and stores NULL for it. *)
Definition nullFloat64 (v : option f64) : option f64 :=
  match v with
  | Some S754_nan => None
  | _ => v
  end.

(** A column read into [sql.NullString] and copied when it is valid. *)
Definition valid_or_empty (v : option string) : string := match v with Some s => s | None => EmptyString end.

(** [timeFormats] and the driver's values for a time column: [time.Parse] with
    a layout is an argument. *)
Inductive DriverValue :=
| VNil
| VTime (t : Z)
| VString (s : string)
| VBytes (s : string)
| VOther.

Definition timeFormats : list string :=
  ["2006-01-02 15:04:05.999999999 -0700 MST"; "2006-01-02 15:04:05.999999999 -07:00";
   "2006-01-02 15:04:05.999999999-07:00"; "2006-01-02 15:04:05 -07:00"; "2006-01-02 15:04:05-07:00";
   "2006-01-02 15:04:05"; "2006-01-02T15:04:05.999999999Z07:00"; "2006-01-02T15:04:05Z07:00"].

Section TimeScan.
Context (time_parse : string -> string -> option Z).

(** The first layout that parses the text. *)
Fixpoint parse_time_column (formats : list string) (v : string) : option Z :=
  match formats with
  | [] => None
  | f :: formats' =>
      match time_parse f v with
      | Some t => Some t
      | None => parse_time_column formats' v
      end
  end.

(** [nullTimeScanner.Scan]: [Time] and [Valid], or an error. *)
Definition nullTimeScan (value : DriverValue) : option (Z * bool) :=
  match value with
  | VNil => Some (time_zero, false)
  | VTime t => Some (t, true)
  | VString v | VBytes v => (fun t => (t, true)) <$> parse_time_column timeFormats v
  | VOther => None
  end.

(** [timeScanner.Scan]. *)
Definition timeScan (value : DriverValue) : option Z := fst <$> nullTimeScan value.

End TimeScan.

(** [isRemoteLibSQL]. *)
Definition isRemoteLibSQL (dbPath : string) : bool :=
  has_prefix dbPath "libsql://" || has_prefix dbPath "https://" || has_prefix dbPath "http://" ||
  has_prefix dbPath "wss://" || has_prefix dbPath "ws://".

(** [scanProvider]: the columns of a row, with the nullable ones apart. *)
Definition scanProvider (cols : Provider) (apiKey : option string) (healthCheckedAt : option Z) : Provider :=
  set_p_HealthCheckedAt healthCheckedAt (set_p_APIKey (valid_or_empty apiKey) cols).

(** The row [CreateProvider] writes, as it is read back. *)
Definition provider_row (p : Provider) : Provider :=
  scanProvider p (nullStr (p_APIKey p)) (nullTime (p_HealthCheckedAt p)).

(** [scanProviderModel]. *)
Definition scanProviderModel (cols : ProviderModel) (costIn costOut costCacheRead costCacheWrite : option f64)
    (maxContext : option Z) : ProviderModel :=
  set_pm_MaxContext maxContext
    (set_pm_CostPerMillionCacheWrite costCacheWrite
      (set_pm_CostPerMillionCacheRead costCacheRead
        (set_pm_CostPerMillionOutput costOut (set_pm_CostPerMillionInput costIn cols)))).

(** [scanAPIKey]. *)
Definition scanAPIKey (cols : APIKey) (rpm tpm lastUsed : option Z) : APIKey :=
  set_k_LastUsedAt lastUsed (set_k_RateLimitTPM tpm (set_k_RateLimitRPM rpm cols)).

Definition key_row (k : APIKey) : APIKey :=
  scanAPIKey k (nullInt (k_RateLimitRPM k)) (nullInt (k_RateLimitTPM k)) (nullTime (k_LastUsedAt k)).

(** [applyRequestLogFields]: the columns that may be NULL replace the zero
    values of the log when they are not. *)
Definition applyRequestLogFields (log : RequestLog) (timestamp createdAt : Z)
    (requestedModel resolvedModel providerID providerName errorMessage apiKeyID apiKeyName : option string)
    (ttftMs promptTokens completionTokens totalTokens cachedTokens : option Z) : RequestLog :=
  let text (v : option string) (old : string) := match v with Some s => s | None => old end in
  let int (v old : option Z) := match v with Some n => Some n | None => old end in
  mkLog (log_ID log) timestamp (log_ClientIP log) (log_Method log) (log_Path log)
    (text requestedModel (log_RequestedModel log)) (text resolvedModel (log_ResolvedModel log))
    (text providerID (log_ProviderID log)) (text providerName (log_ProviderName log))
    (log_StatusCode log) (log_IsStreamed log) (int ttftMs (log_TTFTMs log)) (log_TotalTimeMs log)
    (int promptTokens (log_PromptTokens log)) (int completionTokens (log_CompletionTokens log))
    (int totalTokens (log_TotalTokens log)) (int cachedTokens (log_CachedTokens log))
    (text errorMessage (log_ErrorMessage log)) createdAt
    (text apiKeyID (log_APIKeyID log)) (text apiKeyName (log_APIKeyName log))
    (log_EstimatedCostUSD log) (log_RequestBody log) (log_ResponseBody log).

(** The columns of a row that cannot be NULL, in an otherwise empty log. *)
Definition scanned_log (row : RequestLog) : RequestLog :=
  mkLog (log_ID row) time_zero (log_ClientIP row) (log_Method row) (log_Path row) EmptyString EmptyString EmptyString
    EmptyString (log_StatusCode row) (log_IsStreamed row) None (log_TotalTimeMs row) None None None None EmptyString
    time_zero EmptyString EmptyString None EmptyString EmptyString.

(** [scanRequestLog] leaves the bodies out; [scanRequestLogFull] reads them. *)
Definition scanRequestLog (row : RequestLog) : RequestLog :=
  set_log_EstimatedCostUSD (log_EstimatedCostUSD row)
    (applyRequestLogFields (scanned_log row) (log_Timestamp row) (log_CreatedAt row)
      (Some (log_RequestedModel row)) (Some (log_ResolvedModel row)) (Some (log_ProviderID row))
      (Some (log_ProviderName row)) (Some (log_ErrorMessage row)) (Some (log_APIKeyID row)) (Some (log_APIKeyName row))
      (log_TTFTMs row) (log_PromptTokens row) (log_CompletionTokens row) (log_TotalTokens row) (log_CachedTokens row)).

Definition scanRequestLogFull (row : RequestLog) : RequestLog :=
  set_log_ResponseBody (log_ResponseBody row) (set_log_RequestBody (log_RequestBody row) (scanRequestLog row)).

(** The row [InsertRequestLog] writes. *)
Definition log_row (l : RequestLog) : RequestLog :=
  set_log_EstimatedCostUSD (nullFloat64 (log_EstimatedCostUSD l)) l.

(** * Orders *)

(** Lexicographic combination of two orders. *)
Definition less_then {A} (l1 l2 : A -> A -> bool) (x y : A) : bool := l1 x y || negb (l1 y x) && l2 x y.

Definition asc_text {A} (key : A -> string) (x y : A) : bool := string_ltb (key x) (key y).
Definition asc_int {A} (key : A -> Z) (x y : A) : bool := key x <? key y.
Definition desc_int {A} (key : A -> Z) (x y : A) : bool := key y <? key x.

(** [models.LogFilter]; an absent bound is [None], a zero one is no bound. *)
Record LogFilter := mkFilter {
  lf_Model : string;
  lf_ProviderID : string;
  lf_Since : option Z;
  lf_Until : option Z;
  lf_StatusMin : Z;
  lf_StatusMax : Z;
  lf_Limit : Z;
  lf_Offset : Z;
}.

(** The conditions both log queries share. *)
Definition filter_window (f : LogFilter) (l : RequestLog) : bool :=
  match lf_Since f with Some t => t <=? log_Timestamp l | None => true end &&
  match lf_Until f with Some t => log_Timestamp l <=? t | None => true end &&
  (if 0 <? lf_StatusMin f then lf_StatusMin f <=? log_StatusCode l else true) &&
  (if 0 <? lf_StatusMax f then log_StatusCode l <=? lf_StatusMax f else true).

(** The WHERE clause of [QueryRequestLogs]. *)
Definition filter_matches (f : LogFilter) (l : RequestLog) : bool :=
  (if str_empty (lf_Model f) then true else String.eqb (log_RequestedModel l) (lf_Model f)) &&
  (if str_empty (lf_ProviderID f) then true else String.eqb (log_ProviderID l) (lf_ProviderID f)) &&
  filter_window f l.

(** That of [QueryLogsByAPIKey]. *)
Definition key_filter_matches (apiKeyID : string) (f : LogFilter) (l : RequestLog) : bool :=
  String.eqb (log_APIKeyID l) apiKeyID && filter_window f l.

Definition page_limit (limit : Z) : Z := if limit <=? 0 then 100 else limit.

(** [LIMIT n OFFSET k]; SQLite reads a negative offset as 0. *)
Definition page {A} (limit offset : Z) (l : list A) : list A :=
  firstn (Z.to_nat limit) (skipn (Z.to_nat offset) l).

(** * Operations *)

Section Store.
Context (fault : nat -> bool) `{order : SortSlice}.

Definition order_by {A} (less : A -> A -> bool) (l : list A) : list A := sort_slice less l.

(** ** Providers *)

(** [CreateProvider]: the provider is normalized in place, which its caller
    sees. *)
Definition CreateProvider (p : Provider) : Exec Provider :=
  let p := NormalizeCircuitBreaker p in
  exec fault (insert_provider (provider_row p)) >>+ eret p.

Definition find_row {A} (table : DB -> list A) (sel : A -> bool) : Exec (option A) :=
  query fault (fun db => head (keep sel (table db))).

Definition found {A} (r : option A) : Exec A :=
  match r with
  | Some x => eret x
  | None => efail ErrNoRows
  end.

Definition GetProvider (id : string) : Exec Provider :=
  sql! r := find_row db_providers (fun p => String.eqb (p_ID p) id) in found r.

Definition ListProviders : Exec (list Provider) :=
  query fault (fun db => order_by (desc_int p_CreatedAt) (db_providers db)).

(** The columns [UpdateProvider] sets. *)
Definition provider_update (p old : Provider) : Provider :=
  set_p_CircuitBreakerCooldownSeconds (p_CircuitBreakerCooldownSeconds p)
    (set_p_CircuitBreakerWindowSeconds (p_CircuitBreakerWindowSeconds p)
      (set_p_CircuitBreakerErrorThreshold (p_CircuitBreakerErrorThreshold p)
        (set_p_CircuitBreakerEnabled (p_CircuitBreakerEnabled p)
          (set_p_UpdatedAt (p_UpdatedAt p)
            (set_p_APIKey (valid_or_empty (nullStr (p_APIKey p)))
              (set_p_BaseURL (p_BaseURL p) (set_p_Name (p_Name p) old))))))).

Definition UpdateProvider (p : Provider) : Exec Provider :=
  let p := NormalizeCircuitBreaker p in
  sql! n := exec fault (update_providers (fun x => String.eqb (p_ID x) (p_ID p)) (provider_update p)) in
  must_affect ErrNoneAffected n >>+ eret p.

Definition DeleteProvider (id : string) : Exec unit :=
  transaction fault (sql! n := exec fault (delete_providers id) in must_affect ErrNoneAffected n).

Definition UpdateProviderHealth (now : Z) (id : string) (healthy : bool) : Exec unit :=
  sql! n := exec fault (update_providers (fun x => String.eqb (p_ID x) id)
              (fun x => set_p_HealthCheckedAt (Some now) (set_p_IsHealthy healthy x))) in
  must_affect ErrNoneAffected n.

(** ** Endpoints *)

(** The row of an endpoint of the call: the provider is the one of the call. *)
Definition endpoint_of (providerID : string) (ep : ProviderEndpoint) : ProviderEndpoint :=
  mkEndpoint (ep_ID ep) providerID (ep_Path ep) (ep_Method ep) (ep_IsSupported ep) (ep_IsEnabled ep) (ep_CreatedAt ep).

Definition UpsertProviderEndpoints (providerID : string) (eps : list ProviderEndpoint) : Exec unit :=
  transaction fault (efor (fun ep => exec fault (upsert_endpoint (endpoint_of providerID ep))) eps).

Definition ListProviderEndpoints (providerID : string) : Exec (list ProviderEndpoint) :=
  query fault (fun db => order_by (less_then (asc_text ep_Path) (asc_text ep_Method))
    (keep (fun e => String.eqb (ep_ProviderID e) providerID) (db_endpoints db))).

Definition UpdateProviderEndpoint (ep : ProviderEndpoint) : Exec unit :=
  sql! n := exec fault (update_endpoints (fun x => String.eqb (ep_ID x) (ep_ID ep))
              (set_ep_IsEnabled (ep_IsEnabled ep))) in
  must_affect ErrNoneAffected n.

Definition GetEnabledEndpoint (providerID path : string) : Exec (option ProviderEndpoint) :=
  query fault (fun db => head (order_by (asc_text ep_Method)
    (keep (fun e => String.eqb (ep_ProviderID e) providerID && String.eqb (ep_Path e) path &&
                    ep_IsSupported e && ep_IsEnabled e) (db_endpoints db)))).

(** [listAllEndpoints]. *)
Definition listAllEndpoints : Exec (list ProviderEndpoint) :=
  query fault (fun db => order_by (less_then (asc_text ep_ProviderID) (asc_text ep_Path)) (db_endpoints db)).

(** ** Models *)

(** A model the sync discovers: unavailable and without prices. *)
Definition synced_model (id providerID modelID : string) (now : Z) : ProviderModel :=
  mkModel id providerID modelID now false None None None None None.

(** [SyncProviderModels]; [uuid i] is the id drawn in the [i]-th turn. *)
Definition sync_one (now : Z) (uuid : nat -> string) (providerID : string) (im : nat * string) : Exec unit :=
  let '(i, modelID) := im in
  if str_empty modelID then eret tt
  else exec fault (insert_or_ignore_model (synced_model (uuid i) providerID modelID now)).

Definition SyncProviderModels (now : Z) (uuid : nat -> string) (providerID : string) (modelIDs : list string) : Exec unit :=
  transaction fault (efor (sync_one now uuid providerID) (imap pair modelIDs)).

(** [CreateProviderModel] writes no prices. *)
Definition CreateProviderModel (m : ProviderModel) : Exec unit :=
  exec fault (insert_model (scanProviderModel m None None None None (nullInt64 (pm_MaxContext m)))).

(** A record of a model, scoped to its provider. *)
Definition model_record (providerID recordID : string) (m : ProviderModel) : bool :=
  String.eqb (pm_ID m) recordID && String.eqb (pm_ProviderID m) providerID.

Definition DeleteProviderModel (providerID recordID : string) : Exec unit :=
  sql! n := exec fault (delete_models (model_record providerID recordID)) in
  must_affect ErrNoRows n.

Definition model_of (providerID modelID : string) (m : ProviderModel) : bool :=
  String.eqb (pm_ProviderID m) providerID && String.eqb (pm_ModelID m) modelID.

Definition enable_one (providerID modelID : string) : Exec unit :=
  if str_empty modelID then eret tt
  else exec fault (update_models (model_of providerID modelID) (set_pm_IsAvailable true)) >>+ eret tt.

Definition SetProviderModelsAvailability (providerID : string) (availableModelIDs : list string) : Exec unit :=
  transaction fault
    (exec fault (update_models (fun m => String.eqb (pm_ProviderID m) providerID) (set_pm_IsAvailable false)) >>+
     efor (enable_one providerID) availableModelIDs).

Definition UpdateProviderModelAvailability (providerID recordID : string) (available : bool) : Exec unit :=
  sql! n := exec fault (update_models (model_record providerID recordID) (set_pm_IsAvailable available)) in
  must_affect ErrNoRows n.

Definition ListProviderModels (providerID : string) : Exec (list ProviderModel) :=
  query fault (fun db => order_by (asc_text pm_ModelID)
    (keep (fun m => String.eqb (pm_ProviderID m) providerID) (db_models db))).

Definition ListAllModels : Exec (list ProviderModel) :=
  query fault (fun db => order_by (less_then (asc_text pm_ProviderID) (asc_text pm_ModelID)) (db_models db)).

(** The columns [UpdateProviderModelCosts] sets. *)
Definition model_costs (m old : ProviderModel) : ProviderModel :=
  scanProviderModel old (nullFloat64 (pm_CostPerMillionInput m)) (nullFloat64 (pm_CostPerMillionOutput m))
    (nullFloat64 (pm_CostPerMillionCacheRead m)) (nullFloat64 (pm_CostPerMillionCacheWrite m))
    (nullInt64 (pm_MaxContext m)).

Definition UpdateProviderModelCosts (id : string) (m : ProviderModel) : Exec unit :=
  sql! n := exec fault (update_models (fun x => String.eqb (pm_ID x) id) (model_costs m)) in
  must_affect ErrNoRows n.

Definition GetProviderModelCosts (providerID modelID : string) : Exec (option ProviderModel) :=
  find_row db_models (model_of providerID modelID).

(** [SELECT DISTINCT] of the providers joined with their available models. *)
Definition GetHealthyProvidersForModel (modelID : string) : Exec (list Provider) :=
  query fault (fun db => order_by (asc_text p_Name)
    (keep (fun p => p_IsHealthy p &&
       existsb (fun m => model_of (p_ID p) modelID m && pm_IsAvailable m) (db_models db)) (db_providers db))).

(** ** Aliases *)

Definition CreateAlias (a : ModelAlias) : Exec unit := exec fault (insert_alias a).

Definition ListAliases : Exec (list ModelAlias) :=
  query fault (fun db => order_by (less_then (asc_text a_Alias) (desc_int a_Priority)) (db_aliases db)).

Definition alias_update (a old : ModelAlias) : ModelAlias :=
  mkAlias (a_ID old) (a_Alias a) (a_ProviderID a) (a_ModelID a) (a_Weight a) (a_Priority a) (a_IsEnabled a)
    (a_CreatedAt old) (a_UpdatedAt a).

Definition UpdateAlias (a : ModelAlias) : Exec unit :=
  sql! n := exec fault (update_aliases (fun x => String.eqb (a_ID x) (a_ID a)) (alias_update a)) in
  must_affect ErrNoneAffected n.

Definition DeleteAlias (id : string) : Exec unit :=
  exec fault (delete_aliases (fun a => String.eqb (a_ID a) id)) >>+ eret tt.

Definition ResolveAlias (alias : string) : Exec (list ModelAlias) :=
  query fault (fun db => order_by (desc_int a_Priority)
    (keep (fun a => String.eqb (a_Alias a) alias && a_IsEnabled a) (db_aliases db))).

(** ** API keys *)

Definition CreateAPIKey (k : APIKey) : Exec unit := exec fault (insert_key (key_row k)).

Definition GetAPIKeyByHash (keyHash : string) : Exec (option APIKey) :=
  find_row db_keys (fun k => String.eqb (k_KeyHash k) keyHash).

Definition GetAPIKey (id : string) : Exec APIKey :=
  sql! r := find_row db_keys (fun k => String.eqb (k_ID k) id) in found r.

Definition ListAPIKeys : Exec (list APIKey) :=
  query fault (fun db => order_by (desc_int k_CreatedAt) (db_keys db)).

Definition key_update (k old : APIKey) : APIKey :=
  set_k_RateLimitTPM (nullInt (k_RateLimitTPM k))
    (set_k_RateLimitRPM (nullInt (k_RateLimitRPM k)) (set_k_IsActive (k_IsActive k) (set_k_Name (k_Name k) old))).

Definition UpdateAPIKey (k : APIKey) : Exec unit :=
  exec fault (update_keys (fun x => String.eqb (k_ID x) (k_ID k)) (key_update k)) >>+ eret tt.

Definition DeleteAPIKey (id : string) : Exec unit :=
  exec fault (delete_keys (fun k => String.eqb (k_ID k) id)) >>+ eret tt.

Definition TouchAPIKeyLastUsed (id : string) (at_ : Z) : Exec unit :=
  exec fault (update_keys (fun k => String.eqb (k_ID k) id) (set_k_LastUsedAt (Some at_))) >>+ eret tt.

(** ** Configuration *)

Definition GetAllConfig : Exec (gmap string string) := query fault db_config.

Definition SetConfig (key value : string) : Exec unit :=
  exec fault (fun db => inr (tt, set_config (<[key := value]> (db_config db)) db)).

(** ** Request logs *)

Definition InsertRequestLog (l : RequestLog) : Exec unit := exec fault (insert_log (log_row l)).

Definition GetRequestLog (id : string) : Exec RequestLog :=
  sql! r := find_row db_logs (fun l => String.eqb (log_ID l) id) in
  sql! row := found r in eret (scanRequestLogFull row).

(** The count, then the page, of the logs that match.  Logs of one instant have
    one order in every page, that of [order]; SQLite leaves it open. *)
Definition query_logs (matches : RequestLog -> bool) (f : LogFilter) : Exec (list RequestLog * Z) :=
  sql! total := query fault (fun db => count_rows matches (db_logs db)) in
  sql! rows := query fault (fun db => page (page_limit (lf_Limit f)) (lf_Offset f)
                 (order_by (desc_int log_Timestamp) (keep matches (db_logs db)))) in
  eret (scanRequestLog <$> rows, total).

Definition QueryRequestLogs (f : LogFilter) : Exec (list RequestLog * Z) := query_logs (filter_matches f) f.

Definition QueryLogsByAPIKey (apiKeyID : string) (f : LogFilter) : Exec (list RequestLog * Z) :=
  query_logs (key_filter_matches apiKeyID f) f.

Definition PurgeRequestLogRequestBodiesOlderThan (olderThan : Z) : Exec Z :=
  exec fault (update_logs (fun l => (log_CreatedAt l <? olderThan) && negb (str_empty (log_RequestBody l)))
    (set_log_RequestBody EmptyString)).

Definition PurgeRequestLogResponseBodiesOlderThan (olderThan : Z) : Exec Z :=
  exec fault (update_logs (fun l => (log_CreatedAt l <? olderThan) && negb (str_empty (log_ResponseBody l)))
    (set_log_ResponseBody EmptyString)).

(** ** Streaming logs *)

(** The row [InsertStreamingLog] writes: missing identity and instants are
    filled in, and the body is not purged. *)
Definition chunk_row (uuid : string) (now : Z) (l : StreamingLog) : StreamingLog :=
  let l := if str_empty (sl_ID l) then set_sl_ID uuid l else l in
  let l := if time_is_zero (sl_CreatedAt l) then set_sl_CreatedAt now l else l in
  let l := if time_is_zero (sl_Timestamp l) then set_sl_Timestamp (sl_CreatedAt l) l else l in
  set_sl_BodyPurged false l.

Definition InsertStreamingLog (uuid : string) (now : Z) (l : StreamingLog) : Exec unit :=
  exec fault (insert_chunk (chunk_row uuid now l)).

Definition GetStreamingLogs (requestLogID : string) : Exec (list StreamingLog) :=
  query fault (fun db => order_by (asc_int sl_ChunkIndex)
    (keep (fun l => String.eqb (sl_RequestLogID l) requestLogID) (db_chunks db))).

Definition PurgeStreamingLogBodiesOlderThan (olderThan : Z) : Exec Z :=
  exec fault (update_chunks
    (fun l => (sl_CreatedAt l <? olderThan) &&
       (negb (sl_BodyPurged l) || negb (str_empty (sl_Data l)) || negb (str_empty (sl_ContentDelta l))))
    (fun l => set_sl_BodyPurged true (set_sl_ContentDelta EmptyString (set_sl_Data EmptyString l)))).

(** ** Routing data *)

(** [LoadRoutingData]: four queries, one after the other. *)
Definition LoadRoutingData : Exec RoutingData :=
  sql! providers := ListProviders in
  sql! models := ListAllModels in
  sql! aliases := ListAliases in
  sql! endpoints := listAllEndpoints in
  eret (mkRoutingData providers models aliases endpoints).

(** ** The operations as a whole *)

(** A call that can change the tables. *)
Inductive StoreOp :=
| OpCreateProvider (p : Provider)
| OpUpdateProvider (p : Provider)
| OpDeleteProvider (id : string)
| OpUpdateProviderHealth (now : Z) (id : string) (healthy : bool)
| OpUpsertProviderEndpoints (providerID : string) (eps : list ProviderEndpoint)
| OpUpdateProviderEndpoint (ep : ProviderEndpoint)
| OpSyncProviderModels (now : Z) (uuid : nat -> string) (providerID : string) (modelIDs : list string)
| OpCreateProviderModel (m : ProviderModel)
| OpDeleteProviderModel (providerID recordID : string)
| OpSetProviderModelsAvailability (providerID : string) (modelIDs : list string)
| OpUpdateProviderModelAvailability (providerID recordID : string) (available : bool)
| OpUpdateProviderModelCosts (id : string) (m : ProviderModel)
| OpCreateAlias (a : ModelAlias)
| OpUpdateAlias (a : ModelAlias)
| OpDeleteAlias (id : string)
| OpCreateAPIKey (k : APIKey)
| OpUpdateAPIKey (k : APIKey)
| OpDeleteAPIKey (id : string)
| OpTouchAPIKeyLastUsed (id : string) (at_ : Z)
| OpSetConfig (key value : string)
| OpInsertRequestLog (l : RequestLog)
| OpPurgeRequestBodies (olderThan : Z)
| OpPurgeResponseBodies (olderThan : Z)
| OpInsertStreamingLog (uuid : string) (now : Z) (l : StreamingLog)
| OpPurgeStreamingLogs (olderThan : Z).

Definition discard {A} (m : Exec A) : Exec unit := sql! _ := m in eret tt.

Definition run_op (op : StoreOp) : Exec unit :=
  match op with
  | OpCreateProvider p => discard (CreateProvider p)
  | OpUpdateProvider p => discard (UpdateProvider p)
  | OpDeleteProvider id => DeleteProvider id
  | OpUpdateProviderHealth now id h => UpdateProviderHealth now id h
  | OpUpsertProviderEndpoints pid eps => UpsertProviderEndpoints pid eps
  | OpUpdateProviderEndpoint ep => UpdateProviderEndpoint ep
  | OpSyncProviderModels now uuid pid ids => SyncProviderModels now uuid pid ids
  | OpCreateProviderModel m => CreateProviderModel m
  | OpDeleteProviderModel pid rid => DeleteProviderModel pid rid
  | OpSetProviderModelsAvailability pid ids => SetProviderModelsAvailability pid ids
  | OpUpdateProviderModelAvailability pid rid b => UpdateProviderModelAvailability pid rid b
  | OpUpdateProviderModelCosts id m => UpdateProviderModelCosts id m
  | OpCreateAlias a => CreateAlias a
  | OpUpdateAlias a => UpdateAlias a
  | OpDeleteAlias id => DeleteAlias id
  | OpCreateAPIKey k => CreateAPIKey k
  | OpUpdateAPIKey k => UpdateAPIKey k
  | OpDeleteAPIKey id => DeleteAPIKey id
  | OpTouchAPIKeyLastUsed id t => TouchAPIKeyLastUsed id t
  | OpSetConfig k v => SetConfig k v
  | OpInsertRequestLog l => InsertRequestLog l
  | OpPurgeRequestBodies t => discard (PurgeRequestLogRequestBodiesOlderThan t)
  | OpPurgeResponseBodies t => discard (PurgeRequestLogResponseBodiesOlderThan t)
  | OpInsertStreamingLog uuid now l => InsertStreamingLog uuid now l
  | OpPurgeStreamingLogs t => discard (PurgeStreamingLogBodiesOlderThan t)
  end.

(** A run of calls; the outcome of each is left to its caller. *)
Fixpoint run_ops (ops : list StoreOp) (c : Conn) : Conn :=
  match ops with
  | [] => c
  | op :: ops' => run_ops ops' (run_op op c).2
  end.

End Store.

(** * Integrity of the tables *)

Section StoreLemmas.
Context (fault : nat -> bool) `{order : SortSlice}.

(** An [UPDATE] of columns that are no key. *)
Ltac plain_update :=
  first [ apply update_providers_wf | apply update_endpoints_wf | apply update_models_wf
        | apply update_aliases_wf | apply update_keys_wf | apply update_logs_wf | apply update_chunks_wf ];
  by intros.

Ltac ops_wf :=
  repeat first
    [ apply ebind_wf; [|intros] | apply transaction_wf | apply eret_wf | apply must_affect_wf
    | apply efor_wf; intros | apply sql_exec_wf ]; eauto with go_sql; try plain_update.

Lemma set_config_wf k v : stmt_wf (fun db => inr (tt, set_config (<[k := v]> (db_config db)) db)).
Proof. intros db W. destruct W. by split. Qed.

Lemma sync_one_wf now uuid pid im : keeps_wf (sync_one fault now uuid pid im).
Proof. destruct im. unfold sync_one. destruct (str_empty _); ops_wf. Qed.

Lemma enable_one_wf pid mid : keeps_wf (enable_one fault pid mid).
Proof. unfold enable_one. destruct (str_empty _); ops_wf. Qed.

Lemma run_op_wf (op : StoreOp) : keeps_wf (run_op fault op).
Proof.
  pose proof set_config_wf. destruct op; ops_wf; eauto using sync_one_wf, enable_one_wf.
Qed.

Lemma run_ops_wf (ops : list StoreOp) (c : Conn) : wf (cn_db c) -> wf (cn_db (run_ops fault ops c)).
Proof. revert c. induction ops as [|op ops IH]; intros c W; simpl; [done|]. by apply IH, run_op_wf. Qed.

Lemma empty_wf : wf empty_db.
Proof. split; simpl; try apply NoDup_nil_2; apply Forall_nil_2. Qed.

Lemma query_ok {A} (f : DB -> A) c a c' :
  query fault f c = (inr a, c') -> a = f (cn_db c) /\ cn_db c' = cn_db c.
Proof. intros H%exec_ok. by simplify_eq. Qed.

Lemma order_by_perm {A} (less : A -> A -> bool) (l : list A) : Permutation (order_by less l) l.
Proof. apply sort_slice_perm. Qed.

(** What [LoadRoutingData] returns: the four tables, each in an order. *)
Lemma load_routing_data_ok c data c' :
  LoadRoutingData fault c = (inr data, c') ->
  cn_db c' = cn_db c /\
  Permutation (rd_Providers data) (db_providers (cn_db c)) /\ Permutation (rd_Models data) (db_models (cn_db c)) /\
  Permutation (rd_Aliases data) (db_aliases (cn_db c)) /\ Permutation (rd_Endpoints data) (db_endpoints (cn_db c)).
Proof.
  unfold LoadRoutingData. intros (ps & c1 & H1 & (ms & c2 & H2 & (al & c3 & H3 & (es & c4 & H4 & H)%ebind_ok)%ebind_ok)%ebind_ok)%ebind_ok.
  injection H as <- <-. apply query_ok in H1 as [-> E1], H2 as [-> E2], H3 as [-> E3], H4 as [-> E4].
  rewrite E4, E3, E2, E1. simpl. auto using order_by_perm.
Qed.

(** Belonging to a listed provider does not depend on the orders. *)
Lemma owners_perm {A} (owner : A -> string) (l l' : list A) (ps ps' : list Provider) :
  Permutation ps ps' -> Permutation l l' ->
  Forall (fun x => owner x ∈ p_ID <$> ps') l' -> Forall (fun x => owner x ∈ p_ID <$> ps) l.
Proof. intros Hp Hl H. rewrite Hl. eapply Forall_impl; [exact H|]. simpl. intros x. by rewrite Hp. Qed.

(** An [UPDATE] or a [DELETE] that hits no row changes nothing. *)
Definition zero_is_idle (s : Stmt Z) : Prop := forall db db', s db = inr (0, db') -> db' = db.

Lemma count_zero {A} (sel : A -> bool) (l : list A) : count_rows sel l = 0 -> Forall (fun x => sel x = false) l.
Proof.
  unfold count_rows, keep. induction l as [|x l IH]; simpl; [by constructor|].
  destruct (sel x) eqn:E; simpl; intros H; [lia|]. constructor; auto.
Qed.

Lemma update_none {A} (sel : A -> bool) (f : A -> A) (l : list A) :
  count_rows sel l = 0 -> update_rows sel f l = l.
Proof.
  intros H%count_zero. unfold update_rows. induction H as [|x l Hx _ IH]; csimpl; [done|]. by rewrite Hx, IH.
Qed.

Lemma delete_none {A} (sel : A -> bool) (l : list A) :
  count_rows sel l = 0 -> keep (fun x => negb (sel x)) l = l.
Proof.
  intros H%count_zero. apply keep_all. eapply Forall_impl; [exact H|]. simpl. by intros x ->.
Qed.

Ltac idle :=
  intros db db'; unfold update_providers, update_endpoints, update_models, update_aliases, delete_models;
  try case_match; intros [= Hn <-]; rewrite ?update_none, ?delete_none by done; by destruct db.

Lemma update_providers_idle sel f : zero_is_idle (update_providers sel f).
Proof. idle. Qed.

Lemma update_endpoints_idle sel f : zero_is_idle (update_endpoints sel f).
Proof. idle. Qed.

Lemma update_models_idle sel f : zero_is_idle (update_models sel f).
Proof. idle. Qed.

Lemma update_aliases_idle sel f : zero_is_idle (update_aliases sel f).
Proof. idle. Qed.

Lemma delete_models_idle sel : zero_is_idle (delete_models sel).
Proof. idle. Qed.

Lemma must_affect_atomic {A} (s : Stmt Z) (e : DBError) (a : A) :
  zero_is_idle s -> atomic (sql! n := exec fault s in must_affect e n >>+ eret a).
Proof.
  intros Hs c. unfold ebind, exec, must_affect. destruct (fault _); [done|].
  destruct (s (cn_db c)) as [e'|[n db]] eqn:E; [done|]. simpl. destruct (Z.eqb_spec n 0) as [-> |]; [|done].
  simpl. by apply Hs.
Qed.

Lemma must_affect_atomic_unit (s : Stmt Z) (e : DBError) :
  zero_is_idle s -> atomic (sql! n := exec fault s in must_affect e n).
Proof.
  intros Hs c. unfold ebind, exec, must_affect. destruct (fault _); [done|].
  destruct (s (cn_db c)) as [e'|[n db]] eqn:E; [done|]. simpl. destruct (Z.eqb_spec n 0) as [-> |]; [|done].
  simpl. by apply Hs.
Qed.

(** Nothing that follows the last statement can fail. *)
Lemma ebind_eret_atomic {A B} (m : Exec A) (f : A -> B) : atomic m -> atomic (sql! a := m in eret (f a)).
Proof. intros Hm c. unfold ebind. specialize (Hm c). by destruct (m c) as [[e|a] c']. Qed.

End StoreLemmas.

#[export] Hint Resolve update_providers_idle update_endpoints_idle update_models_idle update_aliases_idle
  delete_models_idle must_affect_atomic must_affect_atomic_unit ebind_eret_atomic : go_sql.

(** Whatever calls the store has served, and whichever of its statements
    failed, the routing data it loads is keyed (provider ids and pairs of
    provider and model are unique, what the catalog is built on), and every
    model, alias and endpoint belongs to a provider of the same data. *)
Theorem store_feeds_the_catalog (fault : nat -> bool) (order : SortSlice) (ops : list StoreOp) :
  match (LoadRoutingData fault (run_ops fault ops (mkConn empty_db 0))).1 with
  | inl _ => True
  | inr data =>
      let ids := p_ID <$> rd_Providers data in
      keyed data /\ Forall (fun m => pm_ProviderID m ∈ ids) (rd_Models data) /\
      Forall (fun a => a_ProviderID a ∈ ids) (rd_Aliases data) /\
      Forall (fun e => ep_ProviderID e ∈ ids) (rd_Endpoints data)
  end.
Proof.
  pose proof (run_ops_wf fault ops (mkConn empty_db 0) empty_wf) as W.
  destruct (LoadRoutingData _ _) as [[e|data] c'] eqn:E; simpl; [done|].
  apply load_routing_data_ok in E as (_ & Hp & Hm & Ha & He). destruct W.
  split; [unfold keyed; change model_key with pm_key; by rewrite Hp, Hm|].
  split_and!; by eapply owners_perm.
Qed.

Lemma run_op_atomic (fault : nat -> bool) (op : StoreOp) : atomic (run_op fault op).
Proof. destruct op; unfold run_op, discard; eauto 6 with go_sql. Qed.

(** C15: Every call is all or nothing: one that returns an error, because a
    constraint, a missing row or a failed statement stopped it at any point,
    has left the tables as they were.  [DeleteProvider], the upsert of the
    endpoints, the sync of the models and the setting of availability run
    several statements; the others are one statement whose error is final. *)
Theorem store_calls_are_atomic (fault : nat -> bool) (op : StoreOp) (c : Conn) :
  match (run_op fault op c).1 with
  | inl _ => cn_db (run_op fault op c).2 = cn_db c
  | inr _ => True
  end.
Proof. apply run_op_atomic. Qed.

(** * What the operations do *)

Section OpLemmas.
Context (fault : nat -> bool).

(** The loop of a transaction: a fact about the tables that each turn carries
    from a prefix of the list to the next holds for the list. *)
Lemma efor_ind {A} (f : A -> Exec unit) (l : list A) (P : list A -> DB -> Prop) c c' :
  efor f l c = (inr tt, c') -> P [] (cn_db c) ->
  (forall l1 x c1 c2, (l1 ++ [x]) `prefix_of` l -> f x c1 = (inr tt, c2) -> P l1 (cn_db c1) -> P (l1 ++ [x]) (cn_db c2)) ->
  P l (cn_db c').
Proof.
  intros H H0 Hs. assert (G : forall l2 l1 c1, l = l1 ++ l2 -> efor f l2 c1 = (inr tt, c') -> P l1 (cn_db c1) -> P l (cn_db c')).
  { clear H H0 c. induction l2 as [|x l2 IH]; intros l1 c1 -> H H1; simpl in H.
    { injection H as <-. by rewrite app_nil_r. }
    apply ebind_ok in H as ([] & c2 & Hx & H). rewrite (assoc_L _ l1 [x] l2 : l1 ++ x :: l2 = (l1 ++ [x]) ++ l2) in *.
    eapply IH; [done|exact H|]. eapply Hs; [by apply prefix_app_r|exact Hx|exact H1]. }
  by eapply (G l []).
Qed.

(** ** Availability *)

Definition with_availability (providerID : string) (ids : list string) (m : ProviderModel) : ProviderModel :=
  if String.eqb (pm_ProviderID m) providerID
  then set_pm_IsAvailable (bool_decide (pm_ModelID m ∈ ids /\ pm_ModelID m <> EmptyString)) m else m.

Lemma update_models_step sel f c n c' :
  exec fault (update_models sel f) c = (inr n, c') ->
  cn_db c' = set_models (update_rows sel f (db_models (cn_db c))) (cn_db c).
Proof. intros H%exec_ok. by injection H as _ <-. Qed.

(** One more enabled model. *)
Lemma with_availability_snoc pid ids mid m :
  mid <> EmptyString ->
  (if model_of pid mid (with_availability pid ids m) then set_pm_IsAvailable true (with_availability pid ids m)
   else with_availability pid ids m) = with_availability pid (ids ++ [mid]) m.
Proof.
  intros Hne. unfold with_availability, model_of. destruct (String.eqb (pm_ProviderID m) pid) eqn:Ep; simpl.
  - rewrite Ep. simpl. destruct (String.eqb_spec (pm_ModelID m) mid) as [Hm|Hm]; simpl.
    + transitivity (set_pm_IsAvailable true m); [done|]. f_equal. symmetry. apply bool_decide_eq_true. set_solver.
    + f_equal. apply bool_decide_ext. set_solver.
  - by rewrite Ep.
Qed.

Lemma with_availability_skip pid ids m : with_availability pid (ids ++ [EmptyString]) m = with_availability pid ids m.
Proof. unfold with_availability. case_match; [|done]. f_equal. apply bool_decide_ext. set_solver. Qed.

End OpLemmas.

(** Setting the availability of a provider's models: when it succeeds, a
    model of that provider is available exactly when its id was given (an
    empty id never counts), its other columns are as before, and neither the
    rows of other providers nor any other table have changed. *)
Theorem availability_is_set (fault : nat -> bool) (providerID : string) (ids : list string) (c c' : Conn) :
  SetProviderModelsAvailability fault providerID ids c = (inr tt, c') ->
  cn_db c' = set_models (with_availability providerID ids <$> db_models (cn_db c)) (cn_db c).
Proof.
  unfold SetProviderModelsAvailability.
  intros (c1 & (n & c2 & H1%update_models_step & H2)%ebind_ok & ->)%transaction_ok. simpl in H1.
  refine (efor_ind _ ids (fun l db => db = set_models (with_availability providerID l <$> db_models (cn_db c)) (cn_db c))
    c2 c1 H2 _ _).
  - by rewrite H1.
  - intros l mid c3 c4 _ H Hc3. revert H. unfold enable_one. destruct (str_empty mid) eqn:E.
    + apply String.eqb_eq in E as ->. intros [= <-]. rewrite Hc3. f_equal.
      apply list_fmap_ext. intros _ m _. by rewrite with_availability_skip.
    + apply String.eqb_neq in E. intros (n' & c5 & H%update_models_step & [= <-])%ebind_ok. rewrite H, Hc3. unfold set_models. simpl.
      f_equal. unfold update_rows. rewrite <- list_fmap_compose. apply list_fmap_ext. intros _ m _. simpl.
      by apply with_availability_snoc.
Qed.

(** ** Synchronisation *)

Section SyncLemmas.
Context (fault : nat -> bool).

(** Reading the two ways [INSERT OR IGNORE] can end. *)
Lemma insert_or_ignore_ok m db db' :
  insert_or_ignore_model m db = inr (tt, db') ->
  (fresh pm_ID m (db_models db) && fresh pm_key m (db_models db) = true /\ db' = set_models (db_models db ++ [m]) db) \/
  (fresh pm_ID m (db_models db) && fresh pm_key m (db_models db) = false /\ db' = db).
Proof.
  unfold insert_or_ignore_model, insert_model. destruct (_ && _) eqn:E; simpl.
  - destruct (provider_exists _ _); [|done]. intros [= <-]. by left.
  - intros [= <-]. by right.
Qed.

(** Turning one new row of the sync into one more listed pair. *)
Definition synced (base db : DB) (now : Z) (uuid : nat -> string) (pid : string) (l : list (nat * string)) : Prop :=
  exists new, db = set_models (db_models base ++ new) base /\
    Forall (fun m => exists i mid, (i, mid) ∈ l /\ m = synced_model (uuid i) pid mid now) new /\
    (forall k, k ∈ pm_key <$> db_models db <->
       k ∈ pm_key <$> db_models base \/ exists i mid, (i, mid) ∈ l /\ mid <> EmptyString /\ k = (pid, mid)).

Lemma synced_nil base now uuid pid : synced base base now uuid pid [].
Proof.
  exists []. rewrite app_nil_r. split; [by destruct base|]. split; [by constructor|]. intros k. split; [by left|].
  intros [H|(i & mid & H & _)]; [done|by apply elem_of_nil in H].
Qed.

Lemma sync_step base now uuid pid l i mid c c' :
  (forall i j, uuid i = uuid j -> i = j) -> (forall i, uuid i ∉ pm_ID <$> db_models base) ->
  (forall mid', (i, mid') ∉ l) ->
  sync_one fault now uuid pid (i, mid) c = (inr tt, c') ->
  synced base (cn_db c) now uuid pid l -> synced base (cn_db c') now uuid pid (l ++ [(i, mid)]).
Proof.
  intros Hinj Hnew Hi H (new & Hdb & Hrows & Hkeys). unfold sync_one in H. destruct (str_empty mid) eqn:E.
  { apply String.eqb_eq in E as ->. injection H as <-. exists new. split; [done|]. split.
    - eapply Forall_impl; [exact Hrows|]. simpl. set_solver.
    - intros k. rewrite Hkeys. set_solver. }
  apply String.eqb_neq in E. apply exec_ok, insert_or_ignore_ok in H as [[Hf H]|[Hf H]]; rewrite H, Hdb in *; clear H Hdb.
  - exists (new ++ [synced_model (uuid i) pid mid now]). split; [unfold set_models; simpl; by rewrite <- app_assoc|]. split.
    + apply Forall_app. split; [eapply Forall_impl; [exact Hrows|]; simpl; set_solver|].
      constructor; [|done]. exists i, mid. set_solver.
    + intros k. cbn [db_models set_models] in *. rewrite fmap_app, elem_of_app, Hkeys. set_solver.
  - exists new. split; [done|]. split; [eapply Forall_impl; [exact Hrows|]; simpl; set_solver|].
    assert (Hin : (pid, mid) ∈ pm_key <$> db_models base ++ new).
    { apply andb_false_iff in Hf as [Hf|Hf]; apply bool_decide_eq_false in Hf; cbn [db_models set_models pm_ID synced_model] in Hf;
        [|by apply dec_stable].
      apply dec_stable in Hf. rewrite fmap_app, elem_of_app in Hf. destruct Hf as [Hf|Hf]; [by apply Hnew in Hf|].
      apply list_elem_of_fmap in Hf as (m & Hm & Hin). rewrite Forall_forall in Hrows.
      apply Hrows in Hin as (j & mid' & Hj & ->). simpl in Hm. apply Hinj in Hm as ->. by apply Hi in Hj. }
    intros k. rewrite Hkeys. split; [set_solver|]. intros [Hk|(j & mid' & Hj & Hne & ->)]; [by left|].
    apply elem_of_app in Hj as [Hj|Hj]; [set_solver|]. apply list_elem_of_singleton in Hj as [= -> ->].
    by apply Hkeys in Hin.
Qed.

(** The turns of [for i, x := range l] are numbered apart. *)
Lemma imap_pair_fresh {A} (l : list A) (l1 : list (nat * A)) i x y :
  (l1 ++ [(i, x)]) `prefix_of` imap pair l -> (i, y) ∉ l1.
Proof.
  intros [l2 Hl] Hin. apply list_elem_of_lookup in Hin as [j Hj].
  assert (H1 : imap pair l !! j = Some (i, y)).
  { rewrite Hl, <- app_assoc. by apply lookup_app_l_Some. }
  assert (H2 : imap pair l !! length l1 = Some (i, x)).
  { rewrite Hl, <- app_assoc. by apply list_lookup_middle. }
  rewrite list_lookup_imap in H1, H2. apply fmap_Some in H1 as (? & _ & [= -> ->]), H2 as (? & _ & [= H ->]).
  apply lookup_lt_Some in Hj. lia.
Qed.

Lemma elem_of_imap_pair {A} (l : list A) x : x ∈ l <-> exists i, (i, x) ∈ imap pair l.
Proof.
  split.
  - intros [i Hi]%list_elem_of_lookup. exists i. apply list_elem_of_lookup. exists i. by rewrite list_lookup_imap, Hi.
  - intros [i [j Hj]%list_elem_of_lookup]. rewrite list_lookup_imap in Hj.
    apply fmap_Some in Hj as (y & Hy & [= -> ->]). by eapply list_elem_of_lookup_2.
Qed.

End SyncLemmas.

(** Synchronising the models of a provider: when it succeeds, the models
    known before are untouched and come first; each new one belongs to the
    provider, is unavailable and has no price; and when the ids drawn are new,
    the pairs of provider and model known afterwards are those known before
    and the given ones, the empty id left out. *)
Theorem sync_adds_the_missing (fault : nat -> bool) (now : Z) (uuid : nat -> string) (providerID : string)
    (ids : list string) (c c' : Conn) :
  SyncProviderModels fault now uuid providerID ids c = (inr tt, c') ->
  (forall i j, uuid i = uuid j -> i = j) -> (forall i, uuid i ∉ pm_ID <$> db_models (cn_db c)) ->
  exists new,
    cn_db c' = set_models (db_models (cn_db c) ++ new) (cn_db c) /\
    Forall (fun m => exists i mid, mid ∈ ids /\ m = synced_model (uuid i) providerID mid now) new /\
    (forall k, k ∈ pm_key <$> db_models (cn_db c') <->
       k ∈ pm_key <$> db_models (cn_db c) \/ exists mid, mid ∈ ids /\ mid <> EmptyString /\ k = (providerID, mid)).
Proof.
  unfold SyncProviderModels. intros (c1 & H & ->)%transaction_ok Hinj Hnew.
  assert (HP : synced (cn_db c) (cn_db c1) now uuid providerID (imap pair ids)).
  { apply (efor_ind _ _ (fun l db => synced (cn_db c) db now uuid providerID l) _ _ H).
    - apply synced_nil.
    - intros l1 [i mid] c2 c3 Hp Hx HP. eapply sync_step; eauto using imap_pair_fresh. }
  destruct HP as (new & Hdb & Hrows & Hkeys). exists new. split; [done|]. split.
  - eapply Forall_impl; [exact Hrows|]. simpl. intros m (i & mid & Hi & ->). exists i, mid. split; [|done].
    apply elem_of_imap_pair. by exists i.
  - intros k. rewrite Hkeys. apply or_iff_compat_l. split.
    + intros (i & mid & Hi & ?). exists mid. split; [apply elem_of_imap_pair; by exists i|done].
    + intros (mid & [i Hi]%elem_of_imap_pair & ?). by exists i, mid.
Qed.

(** ** Reading back *)

Section ReadBack.
Context (fault : nat -> bool) `{order : SortSlice}.

Lemma head_keep_last {A} (sel : A -> bool) (l : list A) (x : A) :
  Forall (fun y => sel y = false) l -> sel x = true -> head (keep sel (l ++ [x])) = Some x.
Proof. intros Hl Hx. rewrite keep_app, keep_none by done. unfold keep. simpl. by rewrite Hx. Qed.

(** A row just inserted under a fresh key is the one its key finds. *)
Lemma find_inserted {A} (table : DB -> list A) (key : A -> string) (x : A) (l : list A) c :
  (forall n, fault n = false) -> table (cn_db c) = l ++ [x] -> fresh key x l = true ->
  find_row fault table (fun y => String.eqb (key y) (key x)) c = (inr (Some x), mkConn (cn_db c) (S (cn_stmts c))).
Proof.
  intros Hf Ht Hx. unfold find_row, query. erewrite exec_quiet by done. do 2 f_equal. rewrite Ht.
  apply head_keep_last; [|apply String.eqb_refl]. apply Forall_forall. intros y Hy. apply String.eqb_neq.
  apply bool_decide_eq_true in Hx. intros He. apply Hx. rewrite <- He. by apply list_elem_of_fmap_2.
Qed.

Lemma provider_row_same p : provider_row p = p.
Proof.
  unfold provider_row, scanProvider, nullStr. destruct p as [i n u k h hc ca ua e t w cd]. simpl.
  unfold set_p_HealthCheckedAt, set_p_APIKey. simpl.
  unfold str_empty. destruct (String.eqb_spec k EmptyString) as [->|]; done.
Qed.

Lemma key_row_same k : key_row k = k.
Proof. by destruct k. Qed.

Lemma scan_full_same l : scanRequestLogFull l = l.
Proof.
  destruct l as [i ts ip me pa rm sm pi pn sc st tt_ tm pt ct tk ca er cr ki kn co rq rs].
  by destruct tt_, pt, ct, tk, ca.
Qed.

End ReadBack.

(** C38: What is written is what is read: a provider (with its circuit breaker
    settings normalized), an API key, looked up by its hash, and a request log
    with both bodies (a cost that is not a number reads as none). *)
Theorem store_reads_back (fault : nat -> bool) (p p' : Provider) (k : APIKey) (l : RequestLog) (c c' : Conn) :
  (forall n, fault n = false) ->
  (CreateProvider fault p c = (inr p', c') ->
   p' = NormalizeCircuitBreaker p /\ (GetProvider fault (p_ID p) c').1 = inr p') /\
  (CreateAPIKey fault k c = (inr tt, c') ->
   (GetAPIKeyByHash fault (k_KeyHash k) c').1 = inr (Some k) /\ (GetAPIKey fault (k_ID k) c').1 = inr k) /\
  (InsertRequestLog fault l c = (inr tt, c') ->
   (GetRequestLog fault (log_ID l) c').1 = inr (set_log_EstimatedCostUSD (nullFloat64 (log_EstimatedCostUSD l)) l)).
Proof.
  intros Hf. split; [|split].
  - unfold CreateProvider. rewrite provider_row_same. intros ([] & c1 & H%exec_ok & [= <- <-])%ebind_ok.
    split; [done|]. unfold insert_provider in H. destruct (_ && _) eqn:E; [|done]. apply andb_true_iff in E as [E _].
    apply andb_true_iff in E as [E _]. injection H as H. unfold GetProvider, ebind.
    assert (Hid : p_ID (NormalizeCircuitBreaker p) = p_ID p) by (unfold NormalizeCircuitBreaker; by repeat case_match).
    rewrite <- Hid. by rewrite (find_inserted fault db_providers p_ID _ (db_providers (cn_db c))) by (rewrite <- ?H; done).
  - unfold CreateAPIKey. rewrite key_row_same. intros H%exec_ok. unfold insert_key in H.
    destruct (_ && _) eqn:E; [|done]. apply andb_true_iff in E as [E1 E2]. injection H as H.
    unfold GetAPIKeyByHash, GetAPIKey, ebind.
    rewrite (find_inserted fault db_keys k_KeyHash _ (db_keys (cn_db c))) by (rewrite <- ?H; done).
    by rewrite (find_inserted fault db_keys k_ID _ (db_keys (cn_db c))) by (rewrite <- ?H; done).
  - unfold InsertRequestLog. intros H%exec_ok. unfold insert_log in H.
    destruct (fresh _ _ _) eqn:E; [|done]. injection H as H. unfold GetRequestLog, ebind.
    change (log_ID l) with (log_ID (log_row l)).
    rewrite (find_inserted fault db_logs log_ID _ (db_logs (cn_db c))) by (rewrite <- ?H; done). simpl.
    by rewrite scan_full_same.
Qed.

(** ** Pages of logs *)

Lemma page_concat {A} (n : nat) (l : list A) (m : nat) :
  concat (map (fun i => firstn n (skipn (n * i) l)) (seq 0 m)) = firstn (n * m) l.
Proof.
  induction m as [|m IH]; [by rewrite Nat.mul_0_r|].
  rewrite seq_S, map_app, concat_app, IH. simpl. rewrite app_nil_r, take_take_drop. f_equal. lia.
Qed.

Definition with_page (n : Z) (i : nat) (f : LogFilter) : LogFilter :=
  mkFilter (lf_Model f) (lf_ProviderID f) (lf_Since f) (lf_Until f) (lf_StatusMin f) (lf_StatusMax f) n (n * Z.of_nat i).

(** The rows of an answer. *)
Definition rows_of (r : DBError + (list RequestLog * Z)) : list RequestLog :=
  match r with
  | inr (rows, _) => rows
  | inl _ => []
  end.

Lemma query_logs_quiet (fault : nat -> bool) `{SortSlice} matches f c :
  (forall n, fault n = false) ->
  (query_logs fault matches f c).1 =
    inr (scanRequestLog <$> page (page_limit (lf_Limit f)) (lf_Offset f)
           (order_by (desc_int log_Timestamp) (keep matches (db_logs (cn_db c)))),
         count_rows matches (db_logs (cn_db c))).
Proof.
  intros Hf. unfold query_logs, ebind, query. by rewrite !(exec_quiet fault _ _ _ _ Hf eq_refl).
Qed.

#[export] Instance desc_int_weak {A} (key : A -> Z) : StrictWeak (desc_int key).
Proof. split; unfold desc_int; intros; blia || (apply Z.ltb_lt; blia) || (apply Z.ltb_ge; blia). Qed.

(** C37: Paging through the request logs: each page has at most [n] rows and
    the same total, the number of logs that match the filter; put together,
    the first pages that cover the total are exactly the matching logs, each
    once, newest first and without their bodies.  That the queries for the
    pages order logs of one instant alike is part of the model. *)
Theorem pages_cover_the_logs (fault : nat -> bool) (order : SortSlice) (f : LogFilter) (n : Z) (m : nat) (c : Conn) :
  (forall n, fault n = false) -> 0 < n ->
  let matching := keep (filter_matches f) (db_logs (cn_db c)) in
  let answer i := (QueryRequestLogs fault (with_page n i f) c).1 in
  let all := concat (map (fun i => rows_of (answer i)) (seq 0 m)) in
  (forall i, exists rows, answer i = inr (rows, Z.of_nat (length matching)) /\ (length rows <= Z.to_nat n)%nat) /\
  (Z.of_nat (length matching) <= n * Z.of_nat m ->
   Permutation all (scanRequestLog <$> matching) /\
   StronglySorted (fun x y => log_Timestamp y <= log_Timestamp x) all).
Proof.
  intros Hf Hn matching answer all.
  set (L := order_by (desc_int log_Timestamp) matching).
  assert (HL : Permutation L matching) by apply order_by_perm.
  assert (Ha : forall i, answer i = inr (scanRequestLog <$> firstn (Z.to_nat n) (skipn (Z.to_nat n * i) L),
                                         Z.of_nat (length matching))).
  { intros i. unfold answer, QueryRequestLogs. rewrite query_logs_quiet by done. unfold page, page_limit. simpl.
    rewrite (proj2 (Z.leb_gt n 0)) by lia. by rewrite Z2Nat.inj_mul, Nat2Z.id by lia. }
  split.
  { intros i. rewrite Ha. eexists. split; [done|]. rewrite length_fmap, length_take. lia. }
  intros Hm. assert (Hall : all = scanRequestLog <$> L).
  { unfold all. rewrite (map_ext _ (fun i => scanRequestLog <$> firstn (Z.to_nat n) (skipn (Z.to_nat n * i) L)))
      by (intros i; by rewrite Ha).
    rewrite <- (map_map (fun i => firstn (Z.to_nat n) (skipn (Z.to_nat n * i) L)) (map scanRequestLog)).
    rewrite <- List.concat_map, page_concat, take_ge; [done|]. rewrite HL. lia. }
  rewrite Hall. split; [by rewrite HL|].
  pose proof (sort_slice_sorted (desc_int log_Timestamp) matching _) as Hs. fold (order_by (desc_int log_Timestamp) matching) in Hs.
  fold L in Hs. clear - Hs. induction Hs as [|x l Hl IH Hx]; csimpl; constructor; [done|].
  apply Forall_fmap. eapply Forall_impl; [exact Hx|]. simpl. unfold desc_int. intros y Hy. blia.
Qed.

(** ** Purging bodies *)

Section Purge.

Lemma update_twice {A} (sel sel' : A -> bool) (f : A -> A) (l : list A) :
  (forall x, sel' x = true -> sel x = true) -> (forall x, sel' (f x) = false) ->
  count_rows sel' (update_rows sel f l) = 0.
Proof.
  intros Hs Hf. unfold count_rows. rewrite keep_none; [done|]. unfold update_rows. apply Forall_fmap, Forall_true.
  intros x. simpl. destruct (sel x) eqn:E; [done|]. destruct (sel' x) eqn:E'; [|done]. apply Hs in E'. congruence.
Qed.

End Purge.

(** The bodies a purge leaves of a request log and of a chunk. *)
Definition log_purged (req resp : option Z) (l : RequestLog) : RequestLog :=
  let due (t : option Z) := match t with Some t => log_CreatedAt l <? t | None => false end in
  set_log_ResponseBody (if due resp then EmptyString else log_ResponseBody l)
    (set_log_RequestBody (if due req then EmptyString else log_RequestBody l) l).

Definition chunk_purged (t : Z) (l : StreamingLog) : StreamingLog :=
  if sl_CreatedAt l <? t
  then set_sl_BodyPurged true (set_sl_ContentDelta EmptyString (set_sl_Data EmptyString l)) else l.

Lemma purge_request_rows t logs :
  update_rows (fun l => (log_CreatedAt l <? t) && negb (str_empty (log_RequestBody l))) (set_log_RequestBody EmptyString) logs
  = log_purged (Some t) None <$> logs.
Proof.
  apply list_fmap_ext. intros _ l _. unfold log_purged. destruct (_ <? _); simpl; [|by destruct l].
  unfold str_empty. destruct (String.eqb_spec (log_RequestBody l) EmptyString) as [E|]; [|done].
  destruct l. simpl in *. by rewrite E.
Qed.

Lemma purge_response_rows t logs :
  update_rows (fun l => (log_CreatedAt l <? t) && negb (str_empty (log_ResponseBody l))) (set_log_ResponseBody EmptyString) logs
  = log_purged None (Some t) <$> logs.
Proof.
  apply list_fmap_ext. intros _ l _. unfold log_purged. destruct (_ <? _); simpl; [|by destruct l].
  unfold str_empty. destruct (String.eqb_spec (log_ResponseBody l) EmptyString) as [E|]; [|done].
  destruct l. simpl in *. by rewrite E.
Qed.

Lemma purge_chunk_rows t chunks :
  update_rows (fun l => (sl_CreatedAt l <? t) &&
      (negb (sl_BodyPurged l) || negb (str_empty (sl_Data l)) || negb (str_empty (sl_ContentDelta l))))
    (fun l => set_sl_BodyPurged true (set_sl_ContentDelta EmptyString (set_sl_Data EmptyString l))) chunks
  = chunk_purged t <$> chunks.
Proof.
  apply list_fmap_ext. intros _ l _. unfold chunk_purged. destruct (_ <? _); simpl; [|done].
  destruct l as [i r x d cd b tr ts ca]. simpl. unfold str_empty.
  destruct b; simpl; [|done]. destruct (String.eqb_spec d EmptyString) as [->|]; simpl; [|done].
  by destruct (String.eqb_spec cd EmptyString) as [->|].
Qed.

(** * Witnesses *)

Definition no_fault (n : nat) : bool := false.

(** A gateway with one provider and a model of it. *)
Definition sample_db : DB :=
  set_models (rd_Models sample_data) (set_providers (rd_Providers sample_data) empty_db).

Definition sample_conn : Conn := mkConn sample_db 0.

Definition sample_uuid (i : nat) : string := "u-" +:+ pretty i.

Definition sample_log : RequestLog :=
  mkLog "l1" 5 "::1" "POST" "/v1/chat/completions" "fast" "gpt" "p1" "one" 200 false None 7 None None None None "" 5 "" ""
    None "in" "out".

Lemma availability_is_set_witness :
  cn_db (SetProviderModelsAvailability no_fault "p1" ["x"] sample_conn).2 =
  set_models (with_availability "p1" ["x"] <$> db_models sample_db) sample_db.
Proof.
  apply (availability_is_set no_fault "p1" ["x"] sample_conn).
  assert (H : (SetProviderModelsAvailability no_fault "p1" ["x"] sample_conn).1 = inr tt) by by vm_compute.
  rewrite <- H. by destruct (SetProviderModelsAvailability _ _ _ _).
Defined.

Lemma sync_adds_the_missing_witness :
  exists new,
    cn_db (SyncProviderModels no_fault 9 sample_uuid "p1" ["gpt"; ""; "new"; "new"] sample_conn).2 =
      set_models (db_models sample_db ++ new) sample_db.
Proof.
  destruct (sync_adds_the_missing no_fault 9 sample_uuid "p1" ["gpt"; ""; "new"; "new"] sample_conn
    (SyncProviderModels no_fault 9 sample_uuid "p1" ["gpt"; ""; "new"; "new"] sample_conn).2) as (new & H & _).
  - assert (H : (SyncProviderModels no_fault 9 sample_uuid "p1" ["gpt"; ""; "new"; "new"] sample_conn).1 = inr tt) by by vm_compute.
    rewrite <- H. by destruct (SyncProviderModels _ _ _ _ _ _).
  - intros i j H. injection H as H. by apply (inj pretty).
  - intros i H. vm_compute in H. apply list_elem_of_singleton in H. discriminate.
  - by exists new.
Defined.

Lemma store_reads_back_witness :
  (GetProvider no_fault "p1" (CreateProvider no_fault sample_provider (mkConn empty_db 0)).2).1 =
    inr (NormalizeCircuitBreaker sample_provider) /\
  (GetRequestLog no_fault "l1" (InsertRequestLog no_fault sample_log sample_conn).2).1 = inr sample_log.
Proof.
  split.
  - pose proof (proj1 (store_reads_back no_fault sample_provider (NormalizeCircuitBreaker sample_provider)
      (mkAPIKey "" "" "" true None None 0 None) sample_log (mkConn empty_db 0)
      (CreateProvider no_fault sample_provider (mkConn empty_db 0)).2 (fun _ => eq_refl))) as H.
    apply H. by vm_compute.
  - pose proof (proj2 (proj2 (store_reads_back no_fault sample_provider sample_provider
      (mkAPIKey "" "" "" true None None 0 None) sample_log sample_conn
      (InsertRequestLog no_fault sample_log sample_conn).2 (fun _ => eq_refl)))) as H.
    apply H. by vm_compute.
Defined.

Lemma pages_cover_the_logs_witness :
  let c := mkConn (set_logs [sample_log; set_log_ID "l2" sample_log; set_log_ID "l3" sample_log] empty_db) 0 in
  Permutation
    (concat (map (fun i => rows_of (QueryRequestLogs no_fault
       (with_page 2 i (mkFilter "fast" "" (Some 5) None 200 0 0 0)) c).1) (seq 0 2)))
    (scanRequestLog <$> keep (filter_matches (mkFilter "fast" "" (Some 5) None 200 0 0 0)) (db_logs (cn_db c))).
Proof.
  intros c. apply (pages_cover_the_logs no_fault _ (mkFilter "fast" "" (Some 5) None 200 0 0 0) 2 2 c);
    [done|lia|vm_compute; discriminate].
Defined.
