(* ===== verification/Retention.v ===== *)
(** Retention of bodies, [internal/logretention]: how long the bodies of
    requests, of responses and of stream chunks are kept, and the worker that
    purges them once a day. *)
From S2P Require Import Prelude GoLib Float64 Models Catalog Sql Store.
Local Open Scope Z_scope.
Local Open Scope go_scope.

Inductive RetentionError := OutOfRange | StoreFailed (e : DBError).

Definition validateRetentionDays (days : Z) : bool :=
  negb ((days <? MinStreamingLogBodyRetentionDays) || (MaxStreamingLogBodyRetentionDays <? days)).

(** [t.AddDate(0, 0, -days)] in UTC, where every day has 24 hours. *)
Definition cutoff (now days : Z) : Z := now - days * (24 * Hour).

(** [retentionDaysFromKey]: the days and whether they are usable. *)
Definition retentionDaysFromKey (config : gmap string string) (key : string) (defaultDays : Z) : Z * bool :=
  match config !! key with
  | None => (defaultDays, true)
  | Some val =>
      match atoi val with
      | None => (0, false)
      | Some d =>
          if (d <? MinStreamingLogBodyRetentionDays) || (MaxStreamingLogBodyRetentionDays <? d)
          then (0, false) else (d, true)
      end
  end.

Definition StreamingRetentionDaysFromConfig (config : gmap string string) : Z * bool :=
  retentionDaysFromKey config "streaming_log_body_retention_days" DefaultStreamingLogBodyRetentionDays.

Definition RequestLogBodyRetentionDaysFromConfig (config : gmap string string) : Z * bool :=
  retentionDaysFromKey config "request_log_body_retention_days" DefaultRequestLogBodyRetentionDays.

Definition ResponseLogBodyRetentionDaysFromConfig (config : gmap string string) : Z * bool :=
  retentionDaysFromKey config "response_log_body_retention_days" DefaultResponseLogBodyRetentionDays.

Section Retention.
Context (fault : nat -> bool).

(** A purge of the store behind the check of the days. *)
Definition purge_after_check (purge : Z -> Exec Z) (now days : Z) : ST Conn (RetentionError + Z) :=
  if validateRetentionDays days
  then let! r := purge (cutoff now days) in
       ret (match r with inl e => inl (StoreFailed e) | inr n => inr n end)
  else ret (inl OutOfRange).

Definition PurgeStreamingChunkBodies := purge_after_check (PurgeStreamingLogBodiesOlderThan fault).
Definition PurgeRequestLogRequestBodies := purge_after_check (PurgeRequestLogRequestBodiesOlderThan fault).
Definition PurgeRequestLogResponseBodies := purge_after_check (PurgeRequestLogResponseBodiesOlderThan fault).

(** One of the three blocks of [runOnce]: invalid days are skipped, an error
    is only logged. *)
Definition purge_block (setting : Z * bool) (purge : Z -> Z -> ST Conn (RetentionError + Z)) (now : Z) : ST Conn unit :=
  let '(days, ok) := setting in
  if ok then let! _ := purge now days in ret tt else ret tt.

(** [Worker.runOnce] at the instant [now]. *)
Definition runOnce (now : Z) : ST Conn unit :=
  let! r := GetAllConfig fault in
  match r with
  | inl _ => ret tt
  | inr cfg =>
      purge_block (StreamingRetentionDaysFromConfig cfg) PurgeStreamingChunkBodies now ;;!
      purge_block (RequestLogBodyRetentionDaysFromConfig cfg) PurgeRequestLogRequestBodies now ;;!
      purge_block (ResponseLogBodyRetentionDaysFromConfig cfg) PurgeRequestLogResponseBodies now
  end.

(** What wakes the worker: the daily tick, or the end of the context. *)
Inductive WorkerEvent := Tick (now : Z) | Cancelled.

Fixpoint worker_loop (es : list WorkerEvent) : ST Conn unit :=
  match es with
  | [] | Cancelled :: _ => ret tt
  | Tick now :: es' => runOnce now ;;! worker_loop es'
  end.

(** [Worker.Start]: nothing when the context is over, else a purge at once,
    then one per tick. *)
Definition Start (cancelled : bool) (now : Z) (es : list WorkerEvent) : ST Conn unit :=
  if cancelled then ret tt else runOnce now ;;! worker_loop es.

End Retention.

(** * What a purge leaves *)

(** The instant before which bodies go, if the setting is usable. *)
Definition due_before (setting : Z * bool) (now : Z) : option Z :=
  if setting.2 then Some (cutoff now setting.1) else None.

(** The tables once the bodies older than the given instants are gone. *)
Definition purged (chunks req resp : option Z) (db : DB) : DB :=
  set_logs (log_purged req resp <$> db_logs db)
    (set_chunks (match chunks with Some t => chunk_purged t <$> db_chunks db | None => db_chunks db end) db).

Lemma log_purged_none l : log_purged None None l = l.
Proof. by destruct l. Qed.

Lemma logs_unpurged (logs : list RequestLog) : log_purged None None <$> logs = logs.
Proof. rewrite <- (list_fmap_id logs) at 2. apply list_fmap_ext. intros _ l _. by rewrite log_purged_none. Qed.

Lemma purged_none db : purged None None None db = db.
Proof. unfold purged. rewrite logs_unpurged. by destruct db. Qed.

Section Worker.
Context (fault : nat -> bool).

(** A usable setting passes the second check. *)
Lemma retention_days_valid cfg key d days :
  validateRetentionDays d = true -> retentionDaysFromKey cfg key d = (days, true) -> validateRetentionDays days = true.
Proof.
  unfold retentionDaysFromKey. intros Hd H. repeat (split_match; simplify_eq/=); [|done].
  unfold validateRetentionDays. by apply negb_true_iff.
Qed.

(** A block either purges or, when it is skipped or fails, does nothing. *)
Lemma purge_block_spec (setting : Z * bool) (purge : Z -> Exec Z) (done_ : option Z -> DB -> DB) now c :
  (setting.2 = true -> validateRetentionDays setting.1 = true) ->
  (forall t c n c', purge t c = (inr n, c') -> cn_db c' = done_ (Some t) (cn_db c)) ->
  (forall t c e c', purge t c = (inl e, c') -> cn_db c' = cn_db c) ->
  (forall db, done_ None db = db) ->
  exists t, cn_db (purge_block setting (purge_after_check purge) now c).2 = done_ t (cn_db c) /\
    (t = due_before setting now \/ t = None /\ exists e, (purge (cutoff now setting.1) c).1 = inl e).
Proof.
  destruct setting as [days ok]. unfold purge_block, purge_after_check, due_before, bind. simpl. intros Hv Hok Herr Hn.
  destruct ok; simpl; [|exists None; by rewrite Hn; auto].
  rewrite Hv by done. destruct (purge (cutoff now days) c) as [[e|n] c'] eqn:E; simpl.
  - exists None. rewrite Hn. apply Herr in E as E'. split; [done|]. right. eauto.
  - exists (Some (cutoff now days)). apply Hok in E. auto.
Qed.

End Worker.

Section Purges.
Context (fault : nat -> bool).

Lemma purge_chunks_ok t c n c' :
  PurgeStreamingLogBodiesOlderThan fault t c = (inr n, c') -> cn_db c' = purged (Some t) None None (cn_db c).
Proof.
  intros H%exec_ok. injection H as _ <-. rewrite purge_chunk_rows. unfold purged. by rewrite logs_unpurged.
Qed.

Lemma purge_request_ok t c n c' :
  PurgeRequestLogRequestBodiesOlderThan fault t c = (inr n, c') -> cn_db c' = purged None (Some t) None (cn_db c).
Proof. intros H%exec_ok. injection H as _ <-. rewrite purge_request_rows. by destruct (cn_db c). Qed.

Lemma purge_response_ok t c n c' :
  PurgeRequestLogResponseBodiesOlderThan fault t c = (inr n, c') -> cn_db c' = purged None None (Some t) (cn_db c).
Proof. intros H%exec_ok. injection H as _ <-. rewrite purge_response_rows. by destruct (cn_db c). Qed.

Lemma purge_err {A} (s : Stmt A) c e c' : exec fault s c = (inl e, c') -> cn_db c' = cn_db c.
Proof. intros H. pose proof (exec_atomic fault s c) as Ha. by rewrite H in Ha. Qed.

Lemma purged_compose ch req resp db :
  purged None None resp (purged None req None (purged ch None None db)) = purged ch req resp db.
Proof.
  unfold purged. destruct db. unfold set_logs, set_chunks. simpl. f_equal.
  rewrite <- !list_fmap_compose. apply list_fmap_ext. intros _ l _. simpl. destruct l.
  unfold log_purged. simpl. done.
Qed.

(** Without faults an update succeeds. *)
Lemma exec_no_error {A} (s : Stmt A) c e :
  (forall n, fault n = false) -> (forall db, exists r, s db = inr r) -> (exec fault s c).1 <> inl e.
Proof. intros Hf Hs. unfold exec. rewrite Hf. destruct (Hs (cn_db c)) as [[a db] ->]. by destruct c. Qed.

Lemma bind_state {S A B} (m : ST S A) (k : A -> ST S B) s : (bind m k s).2 = (k (m s).1 (m s).2).2.
Proof. unfold bind. by destruct (m s). Qed.

(** One block, for each of the three purges. *)
Lemma block_result (setting : Z * bool) (s : Z -> Stmt Z) (done_ : option Z -> DB -> DB) now c :
  (setting.2 = true -> validateRetentionDays setting.1 = true) ->
  (forall t c n c', exec fault (s t) c = (inr n, c') -> cn_db c' = done_ (Some t) (cn_db c)) ->
  (forall db, done_ None db = db) -> (forall t db, exists r, s t db = inr r) ->
  exists t, cn_db (purge_block setting (purge_after_check (fun t => exec fault (s t))) now c).2 = done_ t (cn_db c) /\
    t ∈ [due_before setting now; None] /\ ((forall n, fault n = false) -> t = due_before setting now).
Proof.
  intros Hv Hok Hn Hs.
  destruct (purge_block_spec setting (fun t => exec fault (s t)) done_ now c) as (t & Ht & Hcase); [done|done| |done|].
  { intros t c0 e c'. apply purge_err. }
  exists t. split; [done|]. destruct Hcase as [->|[-> [e He]]]; [split; [set_solver|done]|].
  split; [set_solver|]. intros Hf. by destruct (exec_no_error (s (cutoff now setting.1)) c e Hf (Hs _)).
Qed.

(** What is left of each of the three blocks. *)
Definition block_leaves (setting : Z * bool) (now : Z) (m : ST Conn unit) (done_ : option Z -> DB -> DB) (c : Conn) : Prop :=
  exists t, cn_db (m c).2 = done_ t (cn_db c) /\
    t ∈ [due_before setting now; None] /\ ((forall n, fault n = false) -> t = due_before setting now).

Lemma chunk_block setting now c :
  (setting.2 = true -> validateRetentionDays setting.1 = true) ->
  block_leaves setting now (purge_block setting (PurgeStreamingChunkBodies fault) now) (fun t => purged t None None) c.
Proof.
  intros Hv. apply block_result; [done|by apply purge_chunks_ok|apply purged_none|]. intros. by eexists.
Qed.

Lemma request_block setting now c :
  (setting.2 = true -> validateRetentionDays setting.1 = true) ->
  block_leaves setting now (purge_block setting (PurgeRequestLogRequestBodies fault) now) (fun t => purged None t None) c.
Proof.
  intros Hv. apply block_result; [done|by apply purge_request_ok|apply purged_none|]. intros. by eexists.
Qed.

Lemma response_block setting now c :
  (setting.2 = true -> validateRetentionDays setting.1 = true) ->
  block_leaves setting now (purge_block setting (PurgeRequestLogResponseBodies fault) now) (fun t => purged None None t) c.
Proof.
  intros Hv. apply block_result; [done|by apply purge_response_ok|apply purged_none|]. intros. by eexists.
Qed.

End Purges.

(** C39: A run of the worker applies the three retention settings, each on its
    own: the bodies of chunks, of requests and of responses created before the
    instant the setting gives are cleared, every other column and table is as
    it was, a setting that is not a number of days between 1 and 3650 skips
    its purge only, and so does a failed statement; without the settings
    nothing is purged. *)
Theorem retention_applies_the_settings (fault : nat -> bool) (now : Z) (c : Conn) :
  let cfg := db_config (cn_db c) in
  let ch := due_before (StreamingRetentionDaysFromConfig cfg) now in
  let rq := due_before (RequestLogBodyRetentionDaysFromConfig cfg) now in
  let rs := due_before (ResponseLogBodyRetentionDaysFromConfig cfg) now in
  exists ch' rq' rs',
    cn_db (runOnce fault now c).2 = purged ch' rq' rs' (cn_db c) /\
    ch' ∈ [ch; None] /\ rq' ∈ [rq; None] /\ rs' ∈ [rs; None] /\
    ((forall n, fault n = false) -> ch' = ch /\ rq' = rq /\ rs' = rs).
Proof.
  intros cfg ch rq rs.
  assert (Hv : forall key d, validateRetentionDays d = true -> (retentionDaysFromKey cfg key d).2 = true ->
    validateRetentionDays (retentionDaysFromKey cfg key d).1 = true).
  { intros key d Hd Hok. destruct (retentionDaysFromKey cfg key d) as [days b] eqn:E. simpl in *. subst b.
    by eapply retention_days_valid. }
  unfold runOnce, GetAllConfig, query, bind at 1.
  destruct (exec fault (fun db => inr (db_config db, db)) c) as [[e|cfg'] c0] eqn:E.
  { exists None, None, None. simpl. rewrite purged_none, (purge_err fault _ _ _ _ E). split_and!; [done|set_solver..|].
    intros Hf. destruct (exec_no_error fault (fun db => inr (db_config db, db)) c e Hf); [eauto|by rewrite E]. }
  apply exec_ok in E. injection E as <- Hc0.
  rewrite !bind_state.
  destruct (chunk_block fault (StreamingRetentionDaysFromConfig cfg) now c0) as (ch' & H1 & M1 & Q1); [by apply Hv|].
  set (c1 := (purge_block (StreamingRetentionDaysFromConfig cfg) _ now c0).2) in *.
  destruct (request_block fault (RequestLogBodyRetentionDaysFromConfig cfg) now c1) as (rq' & H2 & M2 & Q2); [by apply Hv|].
  set (c2 := (purge_block (RequestLogBodyRetentionDaysFromConfig cfg) _ now c1).2) in *.
  destruct (response_block fault (ResponseLogBodyRetentionDaysFromConfig cfg) now c2) as (rs' & H3 & M3 & Q3); [by apply Hv|].
  exists ch', rq', rs'. split_and!; [|done..|intros Hf; auto]. etransitivity; [exact H3|]. by rewrite H2, H1, <- Hc0, purged_compose.
Qed.
