(* ===== verification/Stats.v ===== *)
(** Costs and statistics: [internal/pricing] (what a request costs) and
    [internal/stats] (hourly buckets kept in memory for the dashboard).

    Counters are [int]s and wrap around; averages and costs are floats.  The
    order in which Go ranges over a map is not specified, so the code is
    verified for every order. *)
From S2P Require Import Prelude GoLib Float64 Calendar Models Catalog Sql Store.
Local Open Scope Z_scope.
Local Open Scope go_scope.

(** * Pricing *)

Record Breakdown := mkBreakdown {
  b_InputUSD : f64;
  b_OutputUSD : f64;
  b_CachedReadUSD : f64;
  b_TotalUSD : f64;
}.

Definition no_cost : Breakdown := mkBreakdown f64_zero f64_zero f64_zero f64_zero.

(** [float64(tokens) / 1e6 * rate]. *)
Definition token_cost (tokens : Z) (rate : f64) : f64 := f64_mul (f64_div (f64_of_Z tokens) f64_million) rate.

(** The prompt tokens billed at the input rate. *)
Definition billed_tokens (prompt : Z) (cached : option Z) : Z :=
  match cached with
  | Some c => wrap64 (prompt - c)
  | None => prompt
  end.

(** [pricing.ForRequestLog]. *)
Definition ForRequestLog (log : RequestLog) (pm : option ProviderModel) : Breakdown :=
  match pm with
  | None => no_cost
  | Some pm =>
      let input :=
        match log_PromptTokens log, pm_CostPerMillionInput pm with
        | Some p, Some rate =>
            let billed := billed_tokens p (log_CachedTokens log) in
            if 0 <? billed then token_cost billed rate else f64_zero
        | _, _ => f64_zero
        end in
      let output :=
        match log_CompletionTokens log, pm_CostPerMillionOutput pm with
        | Some c, Some rate => token_cost c rate
        | _, _ => f64_zero
        end in
      let cached :=
        match log_CachedTokens log, pm_CostPerMillionCacheRead pm with
        | Some c, Some rate => if 0 <? c then token_cost c rate else f64_zero
        | _, _ => f64_zero
        end in
      mkBreakdown input output cached (f64_add (f64_add input output) cached)
  end.

(** * Buckets *)

(** [models.ModelStats], [models.ProviderStats] and [models.APIKeyStats]: one
    row of a breakdown, with the key it is for and the name shown for it.  A
    provider's row has no token count, which stays 0. *)
Record GroupStats := mkGroup {
  g_Key : string;
  g_Name : string;
  g_RequestCount : Z;
  g_AvgLatencyMs : f64;
  g_ErrorCount : Z;
  g_TotalTokens : Z;
}.

#[export] Instance GroupStats_eq_dec : EqDecision GroupStats.
Proof. solve_decision. Defined.

Record bucketStats := mkBucket {
  bk_requests : Z;
  bk_successCount : Z;
  bk_errorCount : Z;
  bk_latencySumMs : Z;
  bk_inputTokens : Z;
  bk_promptTokens : Z;
  bk_completionTokens : Z;
  bk_totalTokens : Z;
  bk_cachedTokens : Z;
  bk_totalCostUSD : f64;
  bk_inputCostUSD : f64;
  bk_outputCostUSD : f64;
  bk_cachedCostUSD : f64;
  bk_byModel : gmap string GroupStats;
  bk_byProvider : gmap string GroupStats;
  bk_byAPIKey : gmap string GroupStats;
}.

(** [Accumulator]: the lock makes each operation one step. *)
Record Accumulator := mkAccumulator {
  acc_hourly : gmap string bucketStats;
  acc_backfilling : bool;
}.

Definition NewAccumulator : Accumulator := mkAccumulator ∅ false.

Definition Backfilling (a : Accumulator) : bool := acc_backfilling a.

Definition retentionDays : Z := 90.

(** [hourBucketKey]. *)
Definition hourBucketKey (t : Z) : string := format_hour (time_truncate t Hour).

(** [weightedAvg]. *)
Definition weightedAvg (a : f64) (aCount : Z) (b : f64) (bCount : Z) : f64 :=
  let total := wrap64 (aCount + bCount) in
  if total =? 0 then f64_zero
  else f64_div (f64_add (f64_mul a (f64_of_Z aCount)) (f64_mul b (f64_of_Z bCount))) (f64_of_Z total).

Definition new_bucket : bucketStats :=
  mkBucket 0 0 0 0 0 0 0 0 0 f64_zero f64_zero f64_zero f64_zero ∅ ∅ ∅.

(** [ensureBucket]. *)
Definition ensureBucket (hourly : gmap string bucketStats) (key : string) : bucketStats :=
  default new_bucket (hourly !! key).

Definition is_success (log : RequestLog) : bool := (200 <=? log_StatusCode log) && (log_StatusCode log <? 300).
Definition is_error (log : RequestLog) : bool := 400 <=? log_StatusCode log.

(** One more request for a row of a breakdown. *)
Definition hit (log : RequestLog) (tokens : Z) (g : GroupStats) : GroupStats :=
  let n := wrap64 (g_RequestCount g + 1) in
  mkGroup (g_Key g) (g_Name g) n
    (weightedAvg (g_AvgLatencyMs g) (wrap64 (n - 1)) (f64_of_Z (log_TotalTimeMs log)) 1)
    (if is_error log then wrap64 (g_ErrorCount g + 1) else g_ErrorCount g)
    (wrap64 (g_TotalTokens g + tokens)).

Definition upsert_group (key name : string) (log : RequestLog) (tokens : Z) (m : gmap string GroupStats) : gmap string GroupStats :=
  <[key := hit log tokens (default (mkGroup key name 0 f64_zero 0 0) (m !! key))]> m.

(** Usage counts for the backend model, or for the requested one when no
    backend was reached. *)
Definition stats_model (log : RequestLog) : string :=
  if str_empty (log_ResolvedModel log) then log_RequestedModel log else log_ResolvedModel log.

Definition stats_key_name (log : RequestLog) : string :=
  if str_empty (log_APIKeyID log) then "No API key"
  else if str_empty (log_APIKeyName log) then log_APIKeyID log else log_APIKeyName log.

(** The counters of a log: a missing one counts 0. *)
Definition log_input_tokens (log : RequestLog) : Z :=
  match log_PromptTokens log with
  | Some p => Z.max 0 (wrap64 (p - default 0 (log_CachedTokens log)))
  | None => 0
  end.

(** [applyLog]. *)
Definition applyLog (b : bucketStats) (log : RequestLog) (costs : Breakdown) : bucketStats :=
  let tokens := default 0 (log_TotalTokens log) in
  mkBucket
    (wrap64 (bk_requests b + 1))
    (if is_success log then wrap64 (bk_successCount b + 1) else bk_successCount b)
    (if is_error log then wrap64 (bk_errorCount b + 1) else bk_errorCount b)
    (wrap64 (bk_latencySumMs b + log_TotalTimeMs log))
    (wrap64 (bk_inputTokens b + log_input_tokens log))
    (wrap64 (bk_promptTokens b + default 0 (log_PromptTokens log)))
    (wrap64 (bk_completionTokens b + default 0 (log_CompletionTokens log)))
    (wrap64 (bk_totalTokens b + tokens))
    (wrap64 (bk_cachedTokens b + default 0 (log_CachedTokens log)))
    (f64_add (bk_totalCostUSD b) (b_TotalUSD costs))
    (f64_add (bk_inputCostUSD b) (b_InputUSD costs))
    (f64_add (bk_outputCostUSD b) (b_OutputUSD costs))
    (f64_add (bk_cachedCostUSD b) (b_CachedReadUSD costs))
    (upsert_group (stats_model log) (stats_model log) log tokens (bk_byModel b))
    (upsert_group (log_ProviderID log) (log_ProviderName log) log 0 (bk_byProvider b))
    (upsert_group (log_APIKeyID log) (stats_key_name log) log tokens (bk_byAPIKey b)).

(** A bucket whose name reads as an hour before [cutoff]. *)
Definition expired (cutoff : Z) (key : string) : bool :=
  match parse_hour key with
  | Some t => time_before t cutoff
  | None => false
  end.

(** [pruneLocked]. *)
Definition pruneLocked (cutoff : Z) (hourly : gmap string bucketStats) : gmap string bucketStats :=
  filter (fun kb => expired cutoff kb.1 = false) hourly.

(** [Record] at the instant [now]. *)
Definition Record_ (now : Z) (log : RequestLog) (pm : option ProviderModel) (a : Accumulator) : Accumulator :=
  let key := hourBucketKey (log_Timestamp log) in
  let bkt := applyLog (ensureBucket (acc_hourly a) key) log (ForRequestLog log pm) in
  mkAccumulator (pruneLocked (now - retentionDays * 24 * Hour) (<[key := bkt]> (acc_hourly a))) (acc_backfilling a).

(** * Reading the buckets *)

(** [for k, v := range m]: every entry once, in an order of its own. *)
Class MapRange := {
  map_range : forall {A : Type}, gmap string A -> list (string * A);
  map_range_perm : forall {A : Type} (m : gmap string A), Permutation (map_range m) (map_to_list m);
}.

#[export] Instance some_MapRange : MapRange := {|
  map_range := fun A m => map_to_list m;
  map_range_perm := fun A m => Permutation_refl (map_to_list m);
|}.

Record DashboardStats := mkDashboard {
  ds_TotalRequests : Z;
  ds_AvgLatencyMs : f64;
  ds_ErrorRate : f64;
  ds_ByModel : list GroupStats;
  ds_ByProvider : list GroupStats;
  ds_ByAPIKey : list GroupStats;
}.

Record TimeSeriesPoint := mkPoint {
  tp_Bucket : string;
  tp_Requests : Z;
  tp_SuccessCount : Z;
  tp_ErrorCount : Z;
  tp_InputTokens : Z;
  tp_PromptTokens : Z;
  tp_CompletionTokens : Z;
  tp_TotalTokens : Z;
  tp_CachedTokens : Z;
  tp_TotalCostUSD : f64;
  tp_InputCostUSD : f64;
  tp_OutputCostUSD : f64;
  tp_CachedCostUSD : f64;
}.

Section Reading.
Context `{ranges : MapRange} `{sorts : SortSlice}.

(** A row met in one more bucket; the name of the first stays. *)
Definition merge_group (cur g : GroupStats) : GroupStats :=
  let n := wrap64 (g_RequestCount cur + g_RequestCount g) in
  mkGroup (g_Key cur) (g_Name cur) n
    (weightedAvg (g_AvgLatencyMs cur) (wrap64 (n - g_RequestCount g)) (g_AvgLatencyMs g) (g_RequestCount g))
    (wrap64 (g_ErrorCount cur + g_ErrorCount g)) (wrap64 (g_TotalTokens cur + g_TotalTokens g)).

Definition merge_entry (agg : gmap string GroupStats) (kg : string * GroupStats) : gmap string GroupStats :=
  <[kg.1 := match agg !! kg.1 with Some cur => merge_group cur kg.2 | None => kg.2 end]> agg.

Definition merge_groups (agg m : gmap string GroupStats) : gmap string GroupStats :=
  fold_left merge_entry (map_range m) agg.

(** The sums and the three breakdowns of the dashboard's loop. *)
Record DashLoop := mkLoop {
  dl_total : Z;
  dl_latencySum : Z;
  dl_errors : Z;
  dl_models : gmap string GroupStats;
  dl_providers : gmap string GroupStats;
  dl_keys : gmap string GroupStats;
}.

(** A bucket is read when its hour begins at [since] or later. *)
Definition in_window (since : Z) (key : string) : bool :=
  match parse_hour key with
  | Some t => negb (time_before t since)
  | None => false
  end.

Definition dash_turn (since : Z) (s : DashLoop) (kb : string * bucketStats) : DashLoop :=
  let '(key, b) := kb in
  if in_window since key then
    mkLoop (wrap64 (dl_total s + bk_requests b)) (wrap64 (dl_latencySum s + bk_latencySumMs b))
      (wrap64 (dl_errors s + bk_errorCount b)) (merge_groups (dl_models s) (bk_byModel b))
      (merge_groups (dl_providers s) (bk_byProvider b)) (merge_groups (dl_keys s) (bk_byAPIKey b))
  else s.

(** The rows of a breakdown, most requests first. *)
Definition breakdown (agg : gmap string GroupStats) : list GroupStats :=
  sort_slice (fun a b => g_RequestCount b <? g_RequestCount a) ((map_range agg).*2).

Definition DashboardStats_ (a : Accumulator) (since : Z) : DashboardStats :=
  let s := fold_left (dash_turn since) (map_range (acc_hourly a)) (mkLoop 0 0 0 ∅ ∅ ∅) in
  let some := 0 <? dl_total s in
  mkDashboard (dl_total s)
    (if some then f64_div (f64_of_Z (dl_latencySum s)) (f64_of_Z (dl_total s)) else f64_zero)
    (if some then f64_div (f64_of_Z (dl_errors s)) (f64_of_Z (dl_total s)) else f64_zero)
    (breakdown (dl_models s)) (breakdown (dl_providers s)) (breakdown (dl_keys s)).

Definition empty_point (key : string) : TimeSeriesPoint :=
  mkPoint key 0 0 0 0 0 0 0 0 f64_zero f64_zero f64_zero f64_zero.

(** [pointFromBucket]. *)
Definition pointFromBucket (a : Accumulator) (key : string) : TimeSeriesPoint :=
  match acc_hourly a !! key with
  | None => empty_point key
  | Some b =>
      mkPoint key (bk_requests b) (bk_successCount b) (bk_errorCount b) (bk_inputTokens b) (bk_promptTokens b)
        (bk_completionTokens b) (bk_totalTokens b) (bk_cachedTokens b) (bk_totalCostUSD b) (bk_inputCostUSD b)
        (bk_outputCostUSD b) (bk_cachedCostUSD b)
  end.

Definition add_bucket (p : TimeSeriesPoint) (b : bucketStats) : TimeSeriesPoint :=
  mkPoint (tp_Bucket p) (wrap64 (tp_Requests p + bk_requests b)) (wrap64 (tp_SuccessCount p + bk_successCount b))
    (wrap64 (tp_ErrorCount p + bk_errorCount b)) (wrap64 (tp_InputTokens p + bk_inputTokens b))
    (wrap64 (tp_PromptTokens p + bk_promptTokens b)) (wrap64 (tp_CompletionTokens p + bk_completionTokens b))
    (wrap64 (tp_TotalTokens p + bk_totalTokens b)) (wrap64 (tp_CachedTokens p + bk_cachedTokens b))
    (f64_add (tp_TotalCostUSD p) (bk_totalCostUSD b)) (f64_add (tp_InputCostUSD p) (bk_inputCostUSD b))
    (f64_add (tp_OutputCostUSD p) (bk_outputCostUSD b)) (f64_add (tp_CachedCostUSD p) (bk_cachedCostUSD b)).

(** [aggregateDay]. *)
Definition aggregateDay (a : Accumulator) (dayKey : string) : TimeSeriesPoint :=
  fold_left (fun p kb =>
      if (slen kb.1 <? 10) || negb (String.eqb (str_take 10 kb.1) dayKey) then p else add_bucket p kb.2)
    (map_range (acc_hourly a)) (empty_point dayKey).

(** [for t := start; !t.After(until); t = t.Add(step)]: out of fuel is
    [None]. *)
Fixpoint steps (fuel : nat) (t until step : Z) (f : Z -> TimeSeriesPoint) : option (list TimeSeriesPoint) :=
  match fuel with
  | O => None
  | S fuel' =>
      if time_after t until then Some []
      else cons (f t) <$> steps fuel' (time_add t step) until step f
  end.

(** [TimeSeries]; the result is nil for another granularity. *)
Definition TimeSeries (fuel : nat) (a : Accumulator) (since until : Z) (granularity : string) : option (list TimeSeriesPoint) :=
  if String.eqb granularity "hour" then
    steps fuel (time_truncate since Hour) until Hour (fun t => pointFromBucket a (format_hour t))
  else if String.eqb granularity "day" then
    steps fuel (time_truncate since Day) until Day (fun t => aggregateDay a (format_day t))
  else Some [].

End Reading.

(** * Backfill *)

Section Backfill.
Context (fault : nat -> bool) `{order : SortSlice}.
Context (costs : string -> string -> option ProviderModel) (clock : nat -> Z).

(** The logs of one page, recorded in order; [n] counts the records. *)
Fixpoint record_page (n : nat) (logs : list RequestLog) (a : Accumulator) : Accumulator :=
  match logs with
  | [] => a
  | log :: logs' =>
      record_page (S n) logs' (Record_ (clock n) log (costs (log_ProviderID log) (log_ResolvedModel log)) a)
  end.

Definition page_size : Z := 500.

Definition backfill_filter (since offset : Z) : LogFilter :=
  mkFilter EmptyString EmptyString (Some since) None 0 0 page_size offset.

(** The loop of [Backfill]: [ctx_done i] says whether the context is over at
    the [i]-th turn; out of fuel is [None]. *)
Fixpoint backfill_loop (fuel : nat) (ctx_done : nat -> bool) (i : nat) (since offset : Z) (c : Conn) (a : Accumulator) :
    option ((DBError + bool) * Conn * Accumulator) :=
  match fuel with
  | O => None
  | S fuel' =>
      if ctx_done i then Some (inr false, c, a)
      else
        match QueryRequestLogs fault (backfill_filter since offset) c with
        | (inl e, c') => Some (inl e, c', a)
        | (inr (logs, _), c') =>
            match logs with
            | [] => Some (inr true, c', a)
            | _ =>
                let a' := record_page (Z.to_nat offset) logs a in
                if Z.of_nat (length logs) <? page_size then Some (inr true, c', a')
                else backfill_loop fuel' ctx_done (S i) since (offset + page_size) c' a'
            end
        end
  end.

Definition set_backfilling (v : bool) (a : Accumulator) : Accumulator := mkAccumulator (acc_hourly a) v.

(** [Backfill]: [inr true] is the end of the logs, [inr false] the context's
    end. *)
Definition Backfill (fuel : nat) (ctx_done : nat -> bool) (now : Z) (c : Conn) (a : Accumulator) :
    option ((DBError + bool) * Conn * Accumulator) :=
  let since := now - retentionDays * 24 * Hour in
  match backfill_loop fuel ctx_done 0 since 0 c (set_backfilling true a) with
  | Some (r, c', a') => Some (r, c', set_backfilling false a')
  | None => None
  end.

End Backfill.

(** * What the counters count *)

Create HintDb go_stats.

(** The sum of [f] over a list, before it wraps. *)
Fixpoint zsum {A} (f : A -> Z) (l : list A) : Z :=
  match l with
  | [] => 0
  | x :: l' => f x + zsum f l'
  end.

Lemma zsum_app {A} (f : A -> Z) (l1 l2 : list A) : zsum f (l1 ++ l2) = zsum f l1 + zsum f l2.
Proof. induction l1 as [|x l1 IH]; simpl; lia. Qed.

#[export] Instance zsum_proper {A} (f : A -> Z) : Proper (Permutation ==> eq) (zsum f).
Proof. intros l1 l2 H. induction H; simpl; lia. Qed.

Lemma wrap64_add_l (a b : Z) : wrap64 (wrap64 a + b) = wrap64 (a + b).
Proof.
  unfold wrap64. f_equal. replace ((a + 2 ^ 63) mod 2 ^ 64 - 2 ^ 63 + b + 2 ^ 63) with ((a + 2 ^ 63) mod 2 ^ 64 + b) by lia.
  rewrite Z.add_mod_idemp_l by lia. f_equal. lia.
Qed.

Lemma wrap64_add_r (a b : Z) : wrap64 (a + wrap64 b) = wrap64 (a + b).
Proof. by rewrite Z.add_comm, wrap64_add_l, Z.add_comm. Qed.

(** A counter holds the sum of what each log adds. *)
Definition counts (f : RequestLog -> Z) (l : list RequestLog) (n : Z) : Prop := n = wrap64 (zsum f l).

Lemma counts_nil f : counts f [] 0.
Proof. done. Qed.

Lemma counts_app f l1 l2 n1 n2 : counts f l1 n1 -> counts f l2 n2 -> counts f (l1 ++ l2) (wrap64 (n1 + n2)).
Proof. unfold counts. intros -> ->. by rewrite wrap64_add_l, wrap64_add_r, zsum_app. Qed.

Lemma counts_snoc f l log n : counts f l n -> counts f (l ++ [log]) (wrap64 (n + f log)).
Proof. unfold counts. intros ->. rewrite wrap64_add_l, zsum_app. simpl. by rewrite Z.add_0_r. Qed.

(** A counter that some logs leave alone. *)
Lemma counts_if (p : RequestLog -> bool) l log n :
  counts (fun x => Z.b2z (p x)) l n ->
  counts (fun x => Z.b2z (p x)) (l ++ [log]) (if p log then wrap64 (n + 1) else n).
Proof.
  unfold counts. intros ->. rewrite zsum_app. simpl. destruct (p log); simpl.
  - by rewrite wrap64_add_l.
  - by rewrite !Z.add_0_r.
Qed.

#[export] Instance counts_proper f : Proper (Permutation ==> eq ==> iff) (counts f).
Proof. intros l1 l2 H n ? <-. unfold counts. by rewrite H. Qed.

#[export] Hint Resolve counts_nil counts_app counts_snoc counts_if : go_stats.

(** ** Breakdowns *)

Section Groups.
Context (key : RequestLog -> string) (tok : RequestLog -> Z).

Definition of_key (k : string) (l : list RequestLog) : list RequestLog := keep (fun x => String.eqb (key x) k) l.

(** The row of one key: its logs are the requests counted. *)
Record row_ok (k : string) (l : list RequestLog) (g : GroupStats) : Prop := mkRowOk {
  row_key : g_Key g = k;
  row_requests : counts (fun _ => 1) l (g_RequestCount g);
  row_errors : counts (fun x => Z.b2z (is_error x)) l (g_ErrorCount g);
  row_tokens : counts tok l (g_TotalTokens g);
}.

#[export] Instance row_ok_proper k : Proper (Permutation ==> eq ==> iff) (row_ok k).
Proof. intros l1 l2 H g ? <-. split; intros []; split; try done; by rewrite H || rewrite <- H. Qed.

(** A breakdown has a row for each key with a log, and no other. *)
Definition groups_ok (l : list RequestLog) (m : gmap string GroupStats) : Prop :=
  forall k, match m !! k with
            | None => of_key k l = []
            | Some g => of_key k l <> [] /\ row_ok k (of_key k l) g
            end.

#[export] Instance of_key_proper k : Proper (Permutation ==> Permutation) (of_key k).
Proof. intros l1 l2 H. by apply keep_perm. Qed.

#[export] Instance groups_ok_proper : Proper (Permutation ==> eq ==> iff) groups_ok.
Proof.
  assert (G : forall l1 l2 m, Permutation l1 l2 -> groups_ok l1 m -> groups_ok l2 m).
  { intros l1 l2 m H Hm k. specialize (Hm k). assert (Hk : Permutation (of_key k l1) (of_key k l2)) by by rewrite H.
    destruct (m !! k) as [g|].
    - destruct Hm as [Hne Hr]. split; [|by rewrite <- Hk]. intros E. apply Hne. rewrite E in Hk.
      by apply Permutation_nil_r in Hk.
    - rewrite Hm in Hk. by apply Permutation_nil_l in Hk. }
  intros l1 l2 H m ? <-. split; apply G; [done|by symmetry].
Qed.

Lemma groups_ok_nil : groups_ok [] ∅.
Proof. intros k. by rewrite lookup_empty. Qed.

Lemma row_hit k l log g : row_ok k l g -> row_ok k (l ++ [log]) (hit log (tok log) g).
Proof.
  intros []. split; simpl; [done|..].
  - by apply (counts_snoc (fun _ => 1)).
  - by apply counts_if.
  - by apply counts_snoc.
Qed.

Lemma of_key_snoc k l log : of_key k (l ++ [log]) = of_key k l ++ (if String.eqb (key log) k then [log] else []).
Proof. unfold of_key. by rewrite keep_app. Qed.

Lemma upsert_ok name l log m :
  groups_ok l m -> groups_ok (l ++ [log]) (upsert_group (key log) name log (tok log) m).
Proof.
  intros Hm k. unfold upsert_group. rewrite of_key_snoc. specialize (Hm k).
  destruct (String.eqb_spec (key log) k) as [<-|Hne].
  - rewrite lookup_insert_eq. split; [by destruct (of_key _ l)|]. apply row_hit.
    destruct (m !! key log) as [g|]; simpl; [by destruct Hm|]. rewrite Hm. split; simpl; auto with go_stats.
  - by rewrite lookup_insert_ne, app_nil_r by done.
Qed.

Lemma row_merge k l1 l2 g1 g2 : row_ok k l1 g1 -> row_ok k l2 g2 -> row_ok k (l1 ++ l2) (merge_group g1 g2).
Proof. intros [] []. split; simpl; auto with go_stats. Qed.

Context `{ranges : MapRange}.

Lemma map_range_keys {A} (m : gmap string A) : NoDup (map_range m).*1.
Proof. rewrite map_range_perm. apply NoDup_fst_map_to_list. Qed.

Lemma map_range_lookup {A} (m : gmap string A) : list_to_map (map_range m) = m.
Proof.
  rewrite (list_to_map_proper _ (map_to_list m)); [apply list_to_map_to_list|apply map_range_keys|apply map_range_perm].
Qed.

(** Merging entries with distinct keys, one by one, is merging by key. *)
Lemma merge_fold_lookup (es : list (string * GroupStats)) (agg : gmap string GroupStats) k :
  NoDup es.*1 ->
  fold_left merge_entry es agg !! k =
    match (list_to_map es : gmap string GroupStats) !! k with
    | Some g => Some (match agg !! k with Some cur => merge_group cur g | None => g end)
    | None => agg !! k
    end.
Proof.
  revert agg. induction es as [|[k' g'] es IH]; intros agg Hn; csimpl; [by rewrite lookup_empty|].
  apply NoDup_cons in Hn as [Hk Hn]. rewrite IH by done. unfold merge_entry. simpl.
  destruct (decide (k' = k)) as [<-|Hne].
  - rewrite !lookup_insert_eq. by rewrite (not_elem_of_list_to_map_1 es k') by done.
  - by rewrite !lookup_insert_ne by done.
Qed.

Lemma merge_ok l1 l2 agg m : groups_ok l1 agg -> groups_ok l2 m -> groups_ok (l1 ++ l2) (merge_groups agg m).
Proof.
  intros H1 H2 k. unfold merge_groups. rewrite merge_fold_lookup, map_range_lookup by apply map_range_keys.
  specialize (H1 k). specialize (H2 k). unfold of_key in *. rewrite keep_app.
  destruct (m !! k) as [g|], (agg !! k) as [cur|].
  - destruct H1 as [Hne H1], H2 as [_ H2]. split; [by destruct (keep _ l1)|]. by apply row_merge.
  - destruct H2 as [Hne H2]. by rewrite H1.
  - by rewrite H2, app_nil_r.
  - by rewrite H1, H2.
Qed.

End Groups.

(** ** Buckets *)

Definition log_tokens (log : RequestLog) : Z := default 0 (log_TotalTokens log).

(** The counters and the breakdowns of a bucket summarise its logs. *)
Record summarizes (l : list RequestLog) (b : bucketStats) : Prop := mkSummarizes {
  sum_requests : counts (fun _ => 1) l (bk_requests b);
  sum_success : counts (fun x => Z.b2z (is_success x)) l (bk_successCount b);
  sum_errors : counts (fun x => Z.b2z (is_error x)) l (bk_errorCount b);
  sum_latency : counts log_TotalTimeMs l (bk_latencySumMs b);
  sum_input : counts log_input_tokens l (bk_inputTokens b);
  sum_prompt : counts (fun x => default 0 (log_PromptTokens x)) l (bk_promptTokens b);
  sum_completion : counts (fun x => default 0 (log_CompletionTokens x)) l (bk_completionTokens b);
  sum_tokens : counts log_tokens l (bk_totalTokens b);
  sum_cached : counts (fun x => default 0 (log_CachedTokens x)) l (bk_cachedTokens b);
  sum_models : groups_ok stats_model log_tokens l (bk_byModel b);
  sum_providers : groups_ok log_ProviderID (fun _ => 0) l (bk_byProvider b);
  sum_keys : groups_ok log_APIKeyID log_tokens l (bk_byAPIKey b);
}.

Lemma summarizes_new : summarizes [] new_bucket.
Proof. split; simpl; auto using groups_ok_nil with go_stats. Qed.

Lemma summarizes_apply l b log costs : summarizes l b -> summarizes (l ++ [log]) (applyLog b log costs).
Proof.
  intros []. split; simpl.
  - by apply (counts_snoc (fun _ => 1)).
  - by apply counts_if.
  - by apply counts_if.
  - by apply (counts_snoc log_TotalTimeMs).
  - by apply (counts_snoc log_input_tokens).
  - by apply (counts_snoc (fun x => default 0 (log_PromptTokens x))).
  - by apply (counts_snoc (fun x => default 0 (log_CompletionTokens x))).
  - by apply (counts_snoc log_tokens).
  - by apply (counts_snoc (fun x => default 0 (log_CachedTokens x))).
  - by apply (upsert_ok stats_model log_tokens).
  - by apply (upsert_ok log_ProviderID (fun _ => 0)).
  - by apply (upsert_ok log_APIKeyID log_tokens).
Qed.

(** ** The accumulator *)

Definition log_key (log : RequestLog) : string := hourBucketKey (log_Timestamp log).
Definition log_hour (log : RequestLog) : Z := time_truncate (log_Timestamp log) Hour.

Lemma truncate_hour_day t : time_truncate t Hour / Day = t / Day /\ time_hour (time_truncate t Hour) = time_hour t.
Proof.
  pose proof (time_hour_range t) as Hh. rewrite <- hour_start. set (h := time_hour t) in *. unfold time_hour.
  assert (Hr : 0 <= h * Hour < Day) by (unfold Day; assert (0 < Hour) by done; nia).
  rewrite (Z.add_comm (_ * Day)), Z.div_add, Z.mod_add by done.
  rewrite Z.div_small, Z.mod_small, Z.div_mul by done. done.
Qed.

Lemma truncate_hour_twice t : time_truncate (time_truncate t Hour) Hour = time_truncate t Hour.
Proof. destruct (truncate_hour_day t) as [H1 H2]. by rewrite <- (hour_start (time_truncate t Hour)), H1, H2, hour_start. Qed.

Lemma parse_bucket_key t : four_digits t = true -> parse_hour (hourBucketKey t) = Some (time_truncate t Hour).
Proof.
  intros H. unfold hourBucketKey. rewrite parse_format_hour, truncate_hour_twice; [done|].
  unfold four_digits, time_date in *. by rewrite (proj1 (truncate_hour_day t)).
Qed.

(** Every bucket in the window summarises the logs of its hour. *)
Definition acc_ok (since : Z) (l : list RequestLog) (hourly : gmap string bucketStats) : Prop :=
  forall k, in_window since k = true ->
    match hourly !! k with
    | None => of_key log_key k l = []
    | Some b => of_key log_key k l <> [] /\ summarizes (of_key log_key k l) b
    end.

(** A bucket in the window is not old enough to be pruned. *)
Lemma not_expired since cutoff k : cutoff <= since -> in_window since k = true -> expired cutoff k = false.
Proof.
  unfold in_window, expired, time_before. intros Hc. destruct (parse_hour k); [|done].
  intros H. apply Z.ltb_ge. blia.
Qed.

Lemma prune_lookup since cutoff k hourly :
  cutoff <= since -> in_window since k = true -> pruneLocked cutoff hourly !! k = hourly !! k.
Proof.
  intros Hc Hk. unfold pruneLocked. destruct (hourly !! k) as [b|] eqn:E.
  - apply map_lookup_filter_Some. split; [done|]. simpl. by eapply not_expired.
  - apply map_lookup_filter_None. by left.
Qed.

Lemma record_ok since l a now log pm :
  now - retentionDays * 24 * Hour <= since -> acc_ok since l (acc_hourly a) ->
  acc_ok since (l ++ [log]) (acc_hourly (Record_ now log pm a)).
Proof.
  intros Hn Ha k Hk. unfold Record_. fold (log_key log). cbn [acc_hourly].
  rewrite (prune_lookup since) by done. rewrite of_key_snoc. specialize (Ha k Hk).
  destruct (String.eqb_spec (log_key log) k) as [<-|Hne].
  - rewrite lookup_insert_eq. split; [by destruct (of_key _ _ l)|]. apply summarizes_apply. unfold ensureBucket.
    destruct (acc_hourly a !! log_key log) as [b|]; simpl; [by destruct Ha|]. rewrite Ha. apply summarizes_new.
  - by rewrite lookup_insert_ne, app_nil_r by done.
Qed.

(** Records in order: the instant of each, the log and its prices. *)
Definition record_all (recs : list (Z * RequestLog * option ProviderModel)) (a : Accumulator) : Accumulator :=
  fold_left (fun a '(now, log, pm) => Record_ now log pm a) recs a.

Definition recorded_log (r : Z * RequestLog * option ProviderModel) : RequestLog := r.1.2.

(** A record that [since] makes no older than the retention. *)
Definition recent (since : Z) (r : Z * RequestLog * option ProviderModel) : Prop :=
  r.1.1 - retentionDays * 24 * Hour <= since /\ four_digits (log_Timestamp r.1.2) = true.

Lemma record_all_ok since recs :
  Forall (recent since) recs ->
  acc_ok since (recorded_log <$> recs) (acc_hourly (record_all recs NewAccumulator)).
Proof.
  induction recs as [|[[now log] pm] recs IH] using rev_ind; intros Hr.
  - intros k _. simpl. by rewrite lookup_empty.
  - apply Forall_app in Hr as [Hr Hl]. apply Forall_cons in Hl as [[Hn _] _]. unfold record_all in *.
    rewrite fold_left_app, fmap_app. apply record_ok; auto.
Qed.

(** ** The dashboard *)

Section Dash.
Context `{ranges : MapRange} `{sorts : SortSlice}.

(** The loop's sums and breakdowns over the logs of the buckets read. *)
Record loop_ok (l : list RequestLog) (s : DashLoop) : Prop := mkLoopOk {
  loop_total : counts (fun _ => 1) l (dl_total s);
  loop_latency : counts log_TotalTimeMs l (dl_latencySum s);
  loop_errors : counts (fun x => Z.b2z (is_error x)) l (dl_errors s);
  loop_models : groups_ok stats_model log_tokens l (dl_models s);
  loop_providers : groups_ok log_ProviderID (fun _ => 0) l (dl_providers s);
  loop_keys : groups_ok log_APIKeyID log_tokens l (dl_keys s);
}.

#[export] Instance loop_ok_proper : Proper (Permutation ==> eq ==> iff) loop_ok.
Proof. intros l1 l2 H s ? <-. split; intros []; split; try done; by rewrite H || rewrite <- H. Qed.

Lemma loop_nil : loop_ok [] (mkLoop 0 0 0 ∅ ∅ ∅).
Proof. split; simpl; auto using groups_ok_nil with go_stats. Qed.

Lemma loop_turn since l1 s k b l2 :
  in_window since k = true -> loop_ok l1 s -> summarizes l2 b -> loop_ok (l1 ++ l2) (dash_turn since s (k, b)).
Proof.
  intros Hk [] []. unfold dash_turn. rewrite Hk. split; simpl; auto using merge_ok with go_stats.
Qed.

(** The logs of the keys of a list, key by key. *)
Lemma logs_by_keys (l : list RequestLog) (ks : list string) :
  NoDup ks -> Permutation (concat (map (fun k => of_key log_key k l) ks)) (keep (fun x => bool_decide (log_key x ∈ ks)) l).
Proof.
  induction ks as [|k ks IH]; simpl; intros Hn.
  - by rewrite keep_none by (apply Forall_true; done).
  - apply NoDup_cons in Hn as [Hk Hn]. rewrite IH by done. clear IH. induction l as [|x l IHl]; [done|].
    unfold of_key, keep in *. simpl. destruct (String.eqb_spec (log_key x) k) as [Hx|Hx]; simpl.
    + rewrite (bool_decide_eq_false_2 (log_key x ∈ ks)) by congruence.
      rewrite bool_decide_eq_true_2 by set_solver. by constructor.
    + destruct (bool_decide_reflect (log_key x ∈ ks)).
      * rewrite bool_decide_eq_true_2 by set_solver. by rewrite <- Permutation_middle; constructor.
      * by rewrite bool_decide_eq_false_2 by set_solver.
Qed.

(** The loop over the entries of the buckets. *)
Lemma dash_fold since l hourly (es : list (string * bucketStats)) s l0 :
  acc_ok since l hourly -> (forall k b, (k, b) ∈ es -> hourly !! k = Some b) -> loop_ok l0 s ->
  loop_ok (l0 ++ concat (map (fun k => of_key log_key k l) (keep (in_window since) es.*1)))
    (fold_left (dash_turn since) es s).
Proof.
  intros Ha. revert s l0. induction es as [|[k b] es IH]; intros s l0 Hes Hs.
  { simpl. by rewrite app_nil_r. }
  assert (Hs' : in_window since k = true -> loop_ok (l0 ++ of_key log_key k l) (dash_turn since s (k, b))).
  { intros Hk. apply loop_turn; [done|done|]. specialize (Ha k Hk). rewrite (Hes k b) in Ha by set_solver. by destruct Ha. }
  assert (Hs'' : in_window since k = false -> dash_turn since s (k, b) = s) by (unfold dash_turn; by intros ->).
  cbn [fold_left]. generalize dependent (dash_turn since s (k, b)). intros s' Hs' Hs''.
  csimpl. unfold keep. simpl. destruct (in_window since k) eqn:Hk; simpl.
  - rewrite (assoc_L _ l0 (of_key log_key k l)). apply IH; [set_solver|auto].
  - rewrite Hs'' by done. apply IH; [set_solver|done].
Qed.

Lemma in_window_log since log :
  four_digits (log_Timestamp log) = true -> in_window since (log_key log) = (since <=? log_hour log).
Proof.
  intros H. unfold in_window, log_key. rewrite parse_bucket_key by done. unfold time_before, log_hour.
  rewrite Z.ltb_antisym. apply negb_involutive.
Qed.

End Dash.

(** A breakdown as a list: one row for each key with a log, most requests
    first. *)
Record breakdown_of (key : RequestLog -> string) (tok : RequestLog -> Z) (l : list RequestLog) (rows : list GroupStats) : Prop :=
  mkBreakdownOf {
  bd_keys : NoDup (g_Key <$> rows);
  bd_rows : forall g, g ∈ rows -> row_ok tok (g_Key g) (of_key key (g_Key g) l) g;
  bd_all : forall k, k ∈ g_Key <$> rows <-> exists x, x ∈ l /\ key x = k;
  bd_sorted : StronglySorted (fun a b => g_RequestCount b <= g_RequestCount a) rows;
}.

Section Breakdown.
Context `{ranges : MapRange} `{sorts : SortSlice}.

#[local] Instance requests_desc_weak : StrictWeak (fun a b => g_RequestCount b <? g_RequestCount a).
Proof. split; intros; blia || (apply Z.ltb_lt; blia) || (apply Z.ltb_ge; blia). Qed.

Lemma of_key_nonempty key k l : of_key key k l <> [] <-> exists x, x ∈ l /\ key x = k.
Proof.
  split.
  - intros H. destruct (of_key key k l) as [|x l'] eqn:E; [done|].
    assert (Hx : x ∈ of_key key k l) by (rewrite E; constructor). apply keep_spec in Hx as [Hx Hk].
    exists x. split; [done|]. by apply String.eqb_eq.
  - intros (x & Hx & Hk) E. assert (x ∈ of_key key k l) as Hin by (apply keep_spec; split; [done|by apply String.eqb_eq]).
    rewrite E in Hin. by apply elem_of_nil in Hin.
Qed.

Lemma breakdown_ok key tok l agg : groups_ok key tok l agg -> breakdown_of key tok l (breakdown agg).
Proof.
  intros H.
  assert (Hperm : Permutation (breakdown agg) (map_to_list agg).*2) by (unfold breakdown; by rewrite sort_slice_perm, map_range_perm).
  assert (Hin : forall g, g ∈ breakdown agg <-> exists k, agg !! k = Some g).
  { intros g. rewrite Hperm, list_elem_of_fmap. split.
    - intros ([k g'] & -> & Hk%elem_of_map_to_list). by exists k.
    - intros [k Hk]. exists (k, g). split; [done|]. by apply elem_of_map_to_list. }
  assert (Hkey : forall k g, agg !! k = Some g -> g_Key g = k /\ of_key key k l <> [] /\ row_ok tok k (of_key key k l) g).
  { intros k g Hk. specialize (H k). rewrite Hk in H. destruct H as [Hne Hr]. split_and!; [apply Hr|done|done]. }
  split.
  - rewrite Hperm. assert (Hf : g_Key <$> (map_to_list agg).*2 = (map_to_list agg).*1).
    { rewrite <- list_fmap_compose. apply Forall_fmap_ext_1, Forall_forall. intros [k g] Hk%elem_of_map_to_list.
      by apply Hkey in Hk as [? _]. }
    rewrite Hf. apply NoDup_fst_map_to_list.
  - intros g [k Hk]%Hin. apply Hkey in Hk as (<- & _ & ?). done.
  - intros k. rewrite <- of_key_nonempty, list_elem_of_fmap. split.
    + intros (g & -> & [k' Hk]%Hin). by apply Hkey in Hk as (-> & ? & _).
    + intros Hne. specialize (H k). destruct (agg !! k) as [g|] eqn:E; [|done].
      exists g. split; [by apply Hkey in E as [-> _]|]. apply Hin. by exists k.
  - assert (Hs : StronglySorted (fun x y => g_RequestCount x <? g_RequestCount y = false) (breakdown agg))
      by (apply sort_slice_sorted; apply _).
    clear - Hs. induction Hs as [|x rows Hs IH Hx]; constructor; [done|].
    eapply Forall_impl; [exact Hx|]. simpl. intros y Hy. blia.
Qed.

Lemma breakdown_of_perm key tok l1 l2 rows :
  Permutation l1 l2 -> breakdown_of key tok l1 rows -> breakdown_of key tok l2 rows.
Proof.
  intros Hp []. split; [done| | |done].
  - intros g Hg. rewrite <- Hp. auto.
  - intros k. rewrite bd_all0. by setoid_rewrite Hp.
Qed.

End Breakdown.

Lemma zsum_length {A} (l : list A) : zsum (fun _ => 1) l = Z.of_nat (length l).
Proof. induction l; simpl; lia. Qed.

Lemma zsum_count {A} (p : A -> bool) (l : list A) : zsum (fun x => Z.b2z (p x)) l = Z.of_nat (length (keep p l)).
Proof. induction l as [|x l IH]; [done|]. unfold keep in *. simpl. rewrite IH. destruct (p x); simpl; lia. Qed.

Section DashLoop.
Context `{ranges : MapRange}.

Definition dash_loop (since : Z) (recs : list (Z * RequestLog * option ProviderModel)) : DashLoop :=
  fold_left (dash_turn since) (map_range (acc_hourly (record_all recs NewAccumulator))) (mkLoop 0 0 0 ∅ ∅ ∅).

(** The buckets read hold exactly the logs of the window. *)
Lemma dash_ok since recs :
  Forall (recent since) recs ->
  loop_ok (keep (fun x => since <=? log_hour x) (recorded_log <$> recs)) (dash_loop since recs).
Proof.
  intros Hr. pose proof (record_all_ok since recs Hr) as Ha. unfold dash_loop.
  set (hourly := acc_hourly _) in *. set (all := recorded_log <$> recs) in *.
  assert (Hes : forall k b, (k, b) ∈ map_range hourly -> hourly !! k = Some b).
  { intros k b. rewrite map_range_perm. apply elem_of_map_to_list. }
  pose proof (dash_fold since all hourly (map_range hourly) _ [] Ha Hes loop_nil) as Hl. simpl in Hl.
  eapply loop_ok_proper; [|reflexivity|exact Hl]. rewrite logs_by_keys by (apply keep_nodup, map_range_keys).
  apply reflexive_eq, keep_ext. intros x Hx.
  assert (Hf : four_digits (log_Timestamp x) = true).
  { apply list_elem_of_fmap in Hx as (r & -> & Hin). rewrite Forall_forall in Hr. by apply Hr in Hin as [_ ?]. }
  rewrite <- in_window_log by done. destruct (in_window since (log_key x)) eqn:Hw; symmetry.
  - apply bool_decide_eq_true, keep_spec. split; [|done]. specialize (Ha _ Hw).
    destruct (hourly !! log_key x) as [b|] eqn:E.
    + apply list_elem_of_fmap. exists (log_key x, b). split; [done|]. rewrite map_range_perm. by apply elem_of_map_to_list.
    + exfalso. by apply (proj2 (of_key_nonempty log_key (log_key x) all) ltac:(by exists x)).
  - apply bool_decide_eq_false. intros [_ H]%keep_spec. congruence.
Qed.

End DashLoop.

(** C21: The dashboard is the summary of the logs: after any records, none of
    which made the accumulator drop hours from [since] on, the totals, the
    error rate and the breakdowns by model, provider and key are those of the
    recorded logs whose hour begins at [since] or later, whatever the order in
    which buckets and rows are ranged over; counters are exact modulo the wrap
    of [int]. *)
Theorem dashboard_counts_the_logs (ranges : MapRange) (sorts : SortSlice)
    (recs : list (Z * RequestLog * option ProviderModel)) (since : Z) :
  Forall (recent since) recs ->
  let logs := keep (fun x => since <=? log_hour x) (recorded_log <$> recs) in
  let d := DashboardStats_ (record_all recs NewAccumulator) since in
  let total := wrap64 (Z.of_nat (length logs)) in
  let errors := wrap64 (Z.of_nat (length (keep is_error logs))) in
  ds_TotalRequests d = total /\
  ds_ErrorRate d = (if 0 <? total then f64_div (f64_of_Z errors) (f64_of_Z total) else f64_zero) /\
  ds_AvgLatencyMs d =
    (if 0 <? total then f64_div (f64_of_Z (wrap64 (zsum log_TotalTimeMs logs))) (f64_of_Z total) else f64_zero) /\
  breakdown_of stats_model log_tokens logs (ds_ByModel d) /\
  breakdown_of log_ProviderID (fun _ => 0) logs (ds_ByProvider d) /\
  breakdown_of log_APIKeyID log_tokens logs (ds_ByAPIKey d).
Proof.
  intros Hr logs d total errors.
  pose proof (dash_ok since recs Hr) as Hd. fold logs in Hd.
  destruct Hd as [H1 H2 H3 H4 H5 H6]. unfold d, DashboardStats_. cbn [ds_TotalRequests ds_ErrorRate ds_AvgLatencyMs ds_ByModel ds_ByProvider ds_ByAPIKey].
  assert (E1 : dl_total (dash_loop since recs) = total) by (unfold counts in H1; rewrite H1; unfold total; by rewrite zsum_length).
  assert (E3 : dl_errors (dash_loop since recs) = errors) by (unfold counts in H3; rewrite H3; unfold errors; by rewrite zsum_count).
  unfold counts in H2. fold (dash_loop since recs). rewrite E1, E3, H2. split_and!; try done; by apply breakdown_ok.
Qed.

(** ** Series *)

Section Series.
Context `{ranges : MapRange}.

Definition steps_count (t until step : Z) : nat := Z.to_nat ((until - t) / step + 1).

(** The loop over instants ends, and visits each of them once. *)
Lemma steps_total (f : Z -> TimeSeriesPoint) (step until t : Z) (fuel : nat) :
  0 < step -> (steps_count t until step < fuel)%nat ->
  steps fuel t until step f = Some (map (fun i => f (t + Z.of_nat i * step)) (seq 0 (steps_count t until step))).
Proof.
  intros Hs. revert t. induction fuel as [|fuel IH]; intros t Hf; [lia|]. simpl. unfold time_after.
  destruct (Z.ltb_spec until t) as [Hlt|Hle].
  - assert (E : steps_count t until step = 0%nat).
    { unfold steps_count. assert ((until - t) / step < 0) by (apply Z.div_lt_upper_bound; lia). lia. }
    by rewrite E.
  - assert (E : steps_count t until step = S (steps_count (t + step) until step)).
    { unfold steps_count. replace (until - (t + step)) with (until - t + (-1) * step) by lia.
      rewrite Z.div_add by lia. assert (0 <= (until - t) / step) by (apply Z.div_pos; lia). lia. }
    rewrite E in *. unfold time_add. rewrite IH by lia. simpl. do 2 f_equal; [f_equal; lia|].
    rewrite <- seq_shift, List.map_map. apply map_ext. intros i. f_equal. lia.
Qed.

(** The counters of a point count the given logs. *)
Record point_counts (l : list RequestLog) (p : TimeSeriesPoint) : Prop := mkPointCounts {
  pc_requests : counts (fun _ => 1) l (tp_Requests p);
  pc_success : counts (fun x => Z.b2z (is_success x)) l (tp_SuccessCount p);
  pc_errors : counts (fun x => Z.b2z (is_error x)) l (tp_ErrorCount p);
  pc_input : counts log_input_tokens l (tp_InputTokens p);
  pc_prompt : counts (fun x => default 0 (log_PromptTokens x)) l (tp_PromptTokens p);
  pc_completion : counts (fun x => default 0 (log_CompletionTokens x)) l (tp_CompletionTokens p);
  pc_tokens : counts log_tokens l (tp_TotalTokens p);
  pc_cached : counts (fun x => default 0 (log_CachedTokens x)) l (tp_CachedTokens p);
}.

(** The logs of the hour that begins at [t] are those of its bucket. *)
Lemma of_hour (t : Z) (l : list RequestLog) :
  four_digits t = true -> time_truncate t Hour = t ->
  Forall (fun x => four_digits (log_Timestamp x) = true) l ->
  of_key log_key (format_hour t) l = keep (fun x => log_hour x =? t) l.
Proof.
  intros Ht Hal Hl. apply keep_ext. intros x Hx. rewrite Forall_forall in Hl. specialize (Hl x Hx).
  pose proof (parse_bucket_key _ Hl) as H1. pose proof (parse_format_hour _ Ht) as H2. rewrite Hal in H2.
  destruct (String.eqb_spec (log_key x) (format_hour t)) as [E|E]; symmetry.
  - apply Z.eqb_eq. unfold log_key in E. rewrite E, H2 in H1. by injection H1.
  - apply Z.eqb_neq. intros Hh. apply E. unfold log_key, hourBucketKey. unfold log_hour in Hh. by rewrite Hh.
Qed.

Lemma point_of_bucket since recs t :
  Forall (recent since) recs -> four_digits t = true -> time_truncate t Hour = t -> since <= t ->
  let p := pointFromBucket (record_all recs NewAccumulator) (format_hour t) in
  tp_Bucket p = format_hour t /\ point_counts (keep (fun x => log_hour x =? t) (recorded_log <$> recs)) p.
Proof.
  intros Hr Ht Hal Hs. pose proof (record_all_ok since recs Hr (format_hour t)) as Ha.
  rewrite of_hour in Ha; [|done|done|].
  2: { apply Forall_fmap. eapply Forall_impl; [exact Hr|]. by intros r [_ ?]. }
  assert (Hw : in_window since (format_hour t) = true).
  { unfold in_window. rewrite parse_format_hour, Hal by done. unfold time_before. apply negb_true_iff, Z.ltb_ge. lia. }
  specialize (Ha Hw). unfold pointFromBucket. simpl.
  destruct (acc_hourly _ !! format_hour t) as [b|]; simpl; (split; [done|]).
  - destruct Ha as [_ []]. by split.
  - rewrite Ha. split; simpl; auto with go_stats.
Qed.

End Series.

(** The hourly series is complete and its loop ends: with fuel for the
    hours between [since] and [until] it has exactly one point for each of
    them, in order, named after the hour, and the counters of the point are
    those of the recorded logs of that hour, zero where there are none. *)
Theorem hourly_series_is_complete (ranges : MapRange) (recs : list (Z * RequestLog * option ProviderModel))
    (since until : Z) (fuel : nat) :
  let start := time_truncate since Hour in
  let n := steps_count start until Hour in
  Forall (recent start) recs ->
  (forall t, start <= t <= until -> four_digits t = true) ->
  (n < fuel)%nat ->
  exists points,
    TimeSeries fuel (record_all recs NewAccumulator) since until "hour" = Some points /\ length points = n /\
    forall i, (i < n)%nat ->
      let t := start + Z.of_nat i * Hour in
      exists p, points !! i = Some p /\ tp_Bucket p = format_hour t /\
        point_counts (keep (fun x => log_hour x =? t) (recorded_log <$> recs)) p.
Proof.
  intros start n Hr Hy Hf. eexists. split; [unfold TimeSeries; simpl; apply steps_total; [done|exact Hf]|].
  split; [by rewrite List.length_map, length_seq|]. intros i Hi t. eexists. split.
  { change (map ?f ?l !! i) with ((f <$> l) !! i). rewrite list_lookup_fmap, lookup_seq_lt by done. done. }
  assert (Hu : t <= until).
  { unfold n, steps_count in Hi. pose proof (Z.mul_div_le (until - start) Hour ltac:(done)). unfold t.
    assert (Z.of_nat i <= (until - start) / Hour) by lia. assert (0 < Hour) by done. nia. }
  assert (0 <= Z.of_nat i * Hour) by (assert (0 < Hour) by done; nia).
  apply (point_of_bucket start); [done|apply Hy; unfold t in *; simpl; lia| |unfold t; simpl; lia].
  simpl. rewrite <- (truncate_hour_twice since) at 2. fold start. unfold time_truncate.
  replace (start + Z.of_nat i * Hour - time_zero) with (start - time_zero + Z.of_nat i * Hour) by lia.
  rewrite Z.mod_add by done. lia.
Qed.

(** ** Backfill *)

Section BackfillLemmas.
Context (fault : nat -> bool) `{order : SortSlice}.
Context (costs : string -> string -> option ProviderModel) (clock : nat -> Z).

Lemma record_page_app n l1 l2 a :
  record_page costs clock n (l1 ++ l2) a =
  record_page costs clock (n + length l1) l2 (record_page costs clock n l1 a).
Proof.
  revert n a. induction l1 as [|x l1 IH]; intros n a; simpl; [by rewrite Nat.add_0_r|].
  rewrite IH. by replace (S n + length l1)%nat with (n + S (length l1))%nat by lia.
Qed.

Lemma query_logs_keeps matches f c : cn_db (query_logs fault matches f c).2 = cn_db c.
Proof.
  unfold query_logs, ebind, query, exec. destruct (fault _); [done|]. simpl. by destruct (fault _).
Qed.

(** The logs of the window, newest first, as the pages deliver them. *)
Definition backfill_logs (since : Z) (db : DB) : list RequestLog :=
  scanRequestLog <$> order_by (desc_int log_Timestamp) (keep (filter_matches (backfill_filter since 0)) (db_logs db)).

Lemma backfill_page since (i : nat) c :
  (forall n, fault n = false) ->
  exists total c', QueryRequestLogs fault (backfill_filter since (page_size * Z.of_nat i)) c =
    (inr (firstn 500 (skipn (500 * i) (backfill_logs since (cn_db c))), total), c') /\ cn_db c' = cn_db c.
Proof.
  intros Hf. unfold QueryRequestLogs.
  pose proof (query_logs_quiet fault (filter_matches (backfill_filter since (page_size * Z.of_nat i)))
    (backfill_filter since (page_size * Z.of_nat i)) c Hf) as Hq.
  pose proof (query_logs_keeps (filter_matches (backfill_filter since (page_size * Z.of_nat i)))
    (backfill_filter since (page_size * Z.of_nat i)) c) as Hk.
  destruct (query_logs _ _ _ c) as [r c']. simpl in Hq, Hk. subst r. do 2 eexists. split; [|exact Hk].
  unfold backfill_logs, page, page_limit. cbn [lf_Limit lf_Offset backfill_filter].
  replace (Z.to_nat (page_size * Z.of_nat i)) with (500 * i)%nat by (unfold page_size; lia).
  by rewrite <- fmap_drop, <- fmap_take.
Qed.
(** From the [i]-th page on, the loop records the logs that are left. *)
Lemma backfill_loop_ends since (fuel i : nat) c a :
  (forall n, fault n = false) ->
  let logs := backfill_logs since (cn_db c) in
  (500 * i <= length logs)%nat -> (length logs < 500 * (i + fuel))%nat ->
  exists c', cn_db c' = cn_db c /\
    backfill_loop fault costs clock fuel (fun _ => false) i since (page_size * Z.of_nat i) c a =
      Some (inr true, c', record_page costs clock (500 * i) (skipn (500 * i) logs) a).
Proof.
  intros Hf. revert i c a. induction fuel as [|fuel IH]; intros i c a logs Hi Hn; [lia|]. cbn [backfill_loop].
  destruct (backfill_page since i c Hf) as (total & c' & -> & Hc'). fold logs.
  destruct (firstn 500 (skipn (500 * i) logs)) as [|x rows] eqn:E.
  - exists c'. split; [done|]. assert (Hl : length (skipn (500 * i) logs) = 0%nat).
    { assert (H : length (firstn 500 (skipn (500 * i) logs)) = 0%nat) by by rewrite E. rewrite length_take in H. lia. }
    apply nil_length_inv in Hl. by rewrite Hl.
  - rewrite <- E. replace (Z.to_nat (page_size * Z.of_nat i)) with (500 * i)%nat by (unfold page_size; lia).
    destruct (Z.ltb_spec (Z.of_nat (length (firstn 500 (skipn (500 * i) logs)))) page_size) as [Hs|Hs].
    + exists c'. split; [done|]. rewrite take_ge; [done|]. unfold page_size in Hs. rewrite length_take in Hs. lia.
    + assert (Hlen : (500 * S i <= length logs)%nat).
      { unfold page_size in Hs. rewrite length_take, length_drop in Hs. lia. }
      specialize (IH (S i) c' (record_page costs clock (500 * i) (firstn 500 (skipn (500 * i) logs)) a)).
      rewrite Hc' in IH. fold logs in IH. destruct IH as (c'' & H1 & H2); [done|lia|].
      exists c''. split; [done|]. replace (page_size * Z.of_nat i + page_size) with (page_size * Z.of_nat (S i))
        by (unfold page_size; lia).
      rewrite H2. do 2 f_equal. set (page := firstn 500 (skipn (500 * i) logs)) in *.
      transitivity (record_page costs clock (500 * i) (page ++ skipn (500 * S i) logs) a).
      * rewrite record_page_app. f_equal. unfold page. rewrite length_take, length_drop. lia.
      * f_equal. rewrite <- (take_drop 500 (skipn (500 * i) logs)). unfold page. f_equal. rewrite drop_drop. f_equal. lia.
Qed.

(** Recording a page is recording its logs, each at its instant. *)
Lemma record_page_all n logs a :
  record_page costs clock n logs a =
  record_all (imap (fun i x => (clock (n + i)%nat, x, costs (log_ProviderID x) (log_ResolvedModel x))) logs) a.
Proof.
  revert n a. induction logs as [|x logs IH]; intros n a; [done|]. simpl. rewrite IH, Nat.add_0_r.
  unfold record_all. f_equal. apply imap_ext. intros i y _. simpl. by rewrite Nat.add_succ_r.
Qed.

End BackfillLemmas.

(** C40: Backfill ends and is complete: with fuel for the pages of the stored
    logs and no failing query, it stops by itself, has left the tables alone
    and cleared its flag, and has recorded every log of the last 90 days
    exactly once, with the prices of its model. *)
Theorem backfill_records_every_log (fault : nat -> bool) (order : SortSlice)
    (costs : string -> string -> option ProviderModel) (clock : nat -> Z) (fuel : nat) (now : Z) (c : Conn) (a : Accumulator) :
  (forall n, fault n = false) ->
  let since := now - retentionDays * 24 * Hour in
  let stored := keep (fun x => since <=? log_Timestamp x) (db_logs (cn_db c)) in
  (length stored < 500 * fuel)%nat ->
  exists logs c',
    Permutation logs (scanRequestLog <$> stored) /\ cn_db c' = cn_db c /\
    Backfill fault costs clock fuel (fun _ => false) now c a =
      Some (inr true, c', set_backfilling false
        (record_all (imap (fun i x => (clock i, x, costs (log_ProviderID x) (log_ResolvedModel x))) logs)
          (set_backfilling true a))).
Proof.
  intros Hf since stored Hfuel.
  assert (Hp : Permutation (backfill_logs since (cn_db c)) (scanRequestLog <$> stored)).
  { unfold backfill_logs, order_by. rewrite sort_slice_perm. apply reflexive_eq. f_equal. apply keep_ext. intros x _.
    unfold filter_matches, filter_window, backfill_filter. simpl. by rewrite !andb_true_r. }
  destruct (backfill_loop_ends fault costs clock since fuel 0 c (set_backfilling true a) Hf) as (c' & Hc' & H); [lia| |].
  { rewrite Hp, length_fmap. lia. }
  exists (backfill_logs since (cn_db c)), c'. split_and!; [done|done|].
  unfold Backfill. fold since. rewrite Z.mul_0_r in H || simpl in H. rewrite H. simpl. by rewrite record_page_all.
Qed.

(** ** Costs *)

(** A rate that is given is not negative. *)
Definition rate_ok (rate : option f64) : Prop := match rate with Some r => f64_not_neg r | None => True end.

Lemma token_cost_not_neg tokens rate : 0 <= tokens -> f64_not_neg rate -> f64_not_neg (token_cost tokens rate).
Proof. intros Ht Hr. unfold token_cost, f64_million. auto with go_float zarith. Qed.

(** A request never has a negative cost: with rates and completion tokens
    that are not negative, whatever prompt and cached tokens a backend reports
    (more cached than prompt tokens included), no component is negative and
    neither is the total; and when the cached tokens are part of the prompt,
    each prompt token is billed once, at the input rate or at the cache rate. *)
Theorem cost_is_never_negative (log : RequestLog) (pm : ProviderModel) :
  rate_ok (pm_CostPerMillionInput pm) -> rate_ok (pm_CostPerMillionOutput pm) ->
  rate_ok (pm_CostPerMillionCacheRead pm) ->
  match log_CompletionTokens log with Some c => 0 <= c | None => True end ->
  let b := ForRequestLog log (Some pm) in
  f64_not_neg (b_InputUSD b) /\ f64_not_neg (b_OutputUSD b) /\ f64_not_neg (b_CachedReadUSD b) /\
  f64_not_neg (b_TotalUSD b) /\
  forall prompt cached, log_PromptTokens log = Some prompt -> log_CachedTokens log = Some cached ->
    0 <= cached <= prompt -> in_int64 prompt ->
    billed_tokens prompt (log_CachedTokens log) + cached = prompt.
Proof.
  intros H1 H2 H3 Hc b.
  assert (Hi : f64_not_neg (b_InputUSD b)).
  { simpl. destruct (log_PromptTokens log), (pm_CostPerMillionInput pm); try done. simpl in *.
    destruct (0 <? _) eqn:E; [|done]. apply token_cost_not_neg; [blia|done]. }
  assert (Ho : f64_not_neg (b_OutputUSD b)).
  { simpl. destruct (log_CompletionTokens log), (pm_CostPerMillionOutput pm); try done. by apply token_cost_not_neg. }
  assert (Hr : f64_not_neg (b_CachedReadUSD b)).
  { simpl. destruct (log_CachedTokens log), (pm_CostPerMillionCacheRead pm); try done. simpl in *.
    destruct (0 <? _) eqn:E; [|done]. apply token_cost_not_neg; [blia|done]. }
  split_and!; [done..|by apply f64_add_not_neg; [apply f64_add_not_neg|]|].
  intros prompt cached _ -> Hp Hr'. unfold billed_tokens, in_int64, min_int64, max_int64 in *.
  rewrite wrap64_id by (unfold in_int64, min_int64, max_int64; lia). lia.
Qed.

(** * Witnesses *)

Definition priced_model : ProviderModel :=
  mkModel "m1" "p1" "gpt" 0 true (Some f64_one) (Some f64_one) (Some f64_half) None None.

Definition priced_log : RequestLog :=
  set_log_CachedTokens (Some 40) (set_log_CompletionTokens (Some 7) (set_log_PromptTokens (Some 100) sample_log)).

Lemma cost_is_never_negative_witness :
  f64_not_neg (b_TotalUSD (ForRequestLog priced_log (Some priced_model))) /\
  billed_tokens 100 (log_CachedTokens priced_log) + 40 = 100.
Proof.
  destruct (cost_is_never_negative priced_log priced_model) as (_ & _ & _ & H & Hb);
    [by vm_compute|by vm_compute|by vm_compute|by vm_compute|].
  split; [exact H|]. apply Hb; [done|done|lia|]. unfold in_int64, min_int64, max_int64. lia.
Defined.

(** Two logs of one hour of 1970, and one of the next. *)
Definition sample_records : list (Z * RequestLog * option ProviderModel) :=
  [(0, sample_log, None); (1, set_log_ID "l2" sample_log, Some priced_model);
   (2, set_log_ID "l3" (mkLog "l3" (Hour + 5) "" "" "" "" "" "p2" "two" 500 false None 3 None None None None "" 0 "" ""
         None "" ""), None)].

Lemma sample_recent : Forall (recent 0) sample_records.
Proof. repeat constructor; vm_compute; discriminate. Qed.

Lemma dashboard_counts_the_logs_witness :
  ds_TotalRequests (DashboardStats_ (record_all sample_records NewAccumulator) 0) = 3 /\
  ds_TotalRequests (DashboardStats_ (record_all sample_records NewAccumulator) Hour) = 1.
Proof.
  assert (H : Forall (recent Hour) sample_records) by (repeat constructor; vm_compute; discriminate).
  split.
  - refine (eq_trans (proj1 (dashboard_counts_the_logs some_MapRange insertion_SortSlice sample_records 0 sample_recent)) _).
    by vm_compute.
  - refine (eq_trans (proj1 (dashboard_counts_the_logs some_MapRange insertion_SortSlice sample_records Hour H)) _).
    by vm_compute.
Defined.

Lemma years_four_digits t : 0 <= t <= 3 * Hour -> four_digits t = true.
Proof.
  intros Ht. unfold four_digits, time_date. assert (E : t / Day = 0).
  { apply Z.div_small. unfold Day, Hour, Minute, Second in *. lia. }
  rewrite E. by vm_compute.
Qed.

Lemma hourly_series_is_complete_witness :
  exists points,
    TimeSeries 4 (record_all sample_records NewAccumulator) 7 (2 * Hour) "hour" = Some points /\ length points = 3%nat.
Proof.
  destruct (hourly_series_is_complete _ sample_records 7 (2 * Hour) 4) as (points & H1 & H2 & _).
  - exact sample_recent.
  - intros t Ht. apply years_four_digits. change (time_truncate 7 Hour) with 0 in Ht. unfold Hour, Minute, Second in *. lia.
  - vm_compute. lia.
  - exists points. split; [exact H1|exact H2].
Defined.

Lemma backfill_records_every_log_witness :
  exists logs c',
    Permutation logs (scanRequestLog <$> [sample_log; set_log_ID "l2" sample_log]) /\
    Backfill no_fault (fun _ _ => None) (fun _ => 10) 1 (fun _ => false) 10
      (mkConn (set_logs [sample_log; set_log_ID "l2" sample_log] empty_db) 0) NewAccumulator =
    Some (inr true, c', set_backfilling false
      (record_all (imap (fun i x => (10, x, None)) logs) (set_backfilling true NewAccumulator))).
Proof.
  destruct (backfill_records_every_log no_fault _ (fun _ _ => None) (fun _ => 10) 1 10
    (mkConn (set_logs [sample_log; set_log_ID "l2" sample_log] empty_db) 0) NewAccumulator) as (logs & c' & H1 & _ & H2);
    [done|vm_compute; lia|].
  exists logs, c'. split; [exact H1|exact H2].
Defined.
