(* ===== verification/Metrics.v ===== *)
(** The metrics collector, [internal/metrics]: a bounded channel between the
    handlers and the goroutine that prices, stores and counts their logs.

    Handlers never wait: a job that finds the channel full, or the goroutine
    busy when the channel has no buffer, is dropped.  The
    goroutine takes jobs in order and, once its context is over, drains the
    channel before it ends. *)
From stdpp Require Import pretty.
From S2P Require Import Prelude GoLib Float64 Models Catalog Handler Sql Store Stats.
Local Open Scope Z_scope.
Local Open Scope go_scope.

Record persistJob := mkJob {
  job_log : RequestLog;
  job_chunks : list StreamingLogChunk;
  job_prefixDropped : bool;
}.

(** * Persisting a job *)

(** What [persist] works on: the connection of the store and the statistics,
    if there are any. *)
Record Sinks := mkSinks { sk_conn : Conn; sk_stats : option Accumulator }.

Section Persist.
Context (fault : nat -> bool).
(** The catalog's snapshot, if there is one; the clock of the goroutine (what
    it reads for the statistics, and for a chunk and its row); the ids drawn
    for the chunks. *)
Context (catalog : option routingSnapshot) (now : Z) (clock clock_row : nat -> Z) (uuid : nat -> string).

(** The estimate [persist] adds to a log that has none. *)
Definition with_cost (log : RequestLog) : RequestLog :=
  if negb (str_empty (log_ProviderID log)) && negb (str_empty (log_ResolvedModel log)) &&
     match log_EstimatedCostUSD log with None => true | Some _ => false end then
    match catalog with
    | None => log
    | Some s =>
        match ProviderModel_ s (log_ProviderID log) (log_ResolvedModel log) with
        | None => log
        | Some pm =>
            let b := ForRequestLog log (Some pm) in
            if f64_ltb f64_zero (b_TotalUSD b) then set_log_EstimatedCostUSD (Some (b_TotalUSD b)) log else log
        end
    end
  else log.

(** The prices [m.stats.Record] is given. *)
Definition stats_model_row (log : RequestLog) : option ProviderModel :=
  match catalog with
  | None => None
  | Some s => ProviderModel_ s (log_ProviderID log) (log_ResolvedModel log)
  end.

(** The row of the [i]-th chunk. *)
Definition chunk_log (job : persistJob) (i : nat) (ch : StreamingLogChunk) : StreamingLog :=
  mkStreamingLog EmptyString (log_ID (job_log job)) (Z.of_nat i) (lc_Raw ch) (lc_Delta ch) false
    (job_prefixDropped job && (i =? 0)%nat) (clock i) time_zero.

Definition insert_chunk_log (job : persistJob) (ich : nat * StreamingLogChunk) : Exec unit :=
  let '(i, ch) := ich in
  InsertStreamingLog fault (uuid i) (clock_row i) (chunk_log job i ch).

(** [persist]: the log, then the statistics, then the chunks, up to the first
    error. *)
Definition persist (job : persistJob) : ST Sinks (DBError + unit) := fun s =>
  let log := with_cost (job_log job) in
  match InsertRequestLog fault log (sk_conn s) with
  | (inl e, c) => (inl e, mkSinks c (sk_stats s))
  | (inr _, c) =>
      let stats := Record_ now log (stats_model_row log) <$> sk_stats s in
      let '(r, c') := efor (insert_chunk_log job) (imap pair (job_chunks job)) c in
      (r, mkSinks c' stats)
  end.

(** [process]: an error is logged. *)
Definition process (job : persistJob) : ST Sinks unit := let! _ := persist job in ret tt.

End Persist.

(** * The channel *)

(** The goroutine's select loop: waiting, draining after the end of its
    context, or ended. *)
Inductive Worker := Serving | Draining | Ended.

#[export] Instance Worker_eq_dec : EqDecision Worker.
Proof. solve_decision. Defined.

Record Collector := mkCollector {
  col_ch : list persistJob;
  col_cap : Z;
  col_closed : bool;
  col_worker : Worker;
}.

(** [NewCollector]; [make(chan, n)] panics for a negative [n]. *)
Definition NewCollector (bufferSize : Z) : Outcome unit Collector :=
  if bufferSize <? 0 then Panic "makechan: size out of range" else Ok (mkCollector [] bufferSize false Serving).

(** A send that need not wait: there is room in the buffer, or, on a channel
    without one, the goroutine waits at its select, as it does between its
    turns; a job handed over so is the next it processes. *)
Definition accepts (c : Collector) : bool :=
  (Z.of_nat (length (col_ch c)) <? col_cap c) ||
  (col_cap c =? 0) && bool_decide (col_worker c = Serving) && (length (col_ch c) =? 0)%nat.

(** [enqueue]: a select with a default; sending on a closed channel panics. *)
Definition enqueue (job : persistJob) (c : Collector) : Outcome unit (bool * Collector) :=
  if col_closed c then Panic "send on closed channel"
  else if accepts c
  then Ok (true, mkCollector (col_ch c ++ [job]) (col_cap c) false (col_worker c))
  else Ok (false, c).

(** [Record] and [RecordStreaming]. *)
Definition Collector_Record (log : RequestLog) := enqueue (mkJob log [] false).
Definition Collector_RecordStreaming (log : RequestLog) (chunks : list StreamingLogChunk) (prefixDropped : bool) :=
  enqueue (mkJob log chunks prefixDropped).

(** [Close] closes the channel and waits for the goroutine; closing twice
    panics. *)
Definition Close (c : Collector) : Outcome unit Collector :=
  if col_closed c then Panic "close of closed channel"
  else Ok (mkCollector (col_ch c) (col_cap c) true (col_worker c)).

(** One turn of the goroutine: [ctx_done] says whether the context is over and
    its case is the one the select takes.  The job taken, if any, is
    processed. *)
Definition worker_turn (ctx_done : bool) (c : Collector) : option persistJob * Collector :=
  let take (w : Worker) (idle : Worker) :=
    match col_ch c with
    | job :: rest => (Some job, mkCollector rest (col_cap c) (col_closed c) w)
    | [] => (None, mkCollector [] (col_cap c) (col_closed c) (if col_closed c then Ended else idle))
    end in
  match col_worker c with
  | Serving => if ctx_done then (None, mkCollector (col_ch c) (col_cap c) (col_closed c) Draining) else take Serving Serving
  | Draining => take Draining Ended
  | Ended => (None, c)
  end.

(** * Runs *)

(** What happens: a handler hands a job over, the goroutine makes a turn, or
    the channel is closed. *)
Inductive CollectorEvent := Submit (job : persistJob) | Turn (ctx_done : bool) | CloseCh.

(** A run and its history: the jobs accepted, dropped and processed, each in
    order, or [None] when a panic ended it. *)
Record History := mkHistory {
  hi_collector : Collector;
  hi_accepted : list persistJob;
  hi_dropped : list persistJob;
  hi_processed : list persistJob;
}.

Definition collector_step (e : CollectorEvent) (h : History) : option History :=
  let c := hi_collector h in
  match e with
  | Submit job =>
      match enqueue job c with
      | Ok (true, c') => Some (mkHistory c' (hi_accepted h ++ [job]) (hi_dropped h) (hi_processed h))
      | Ok (false, c') => Some (mkHistory c' (hi_accepted h) (hi_dropped h ++ [job]) (hi_processed h))
      | _ => None
      end
  | Turn ctx_done =>
      let '(job, c') := worker_turn ctx_done c in
      Some (mkHistory c' (hi_accepted h) (hi_dropped h) (hi_processed h ++ option_list job))
  | CloseCh =>
      match Close c with
      | Ok c' => Some (mkHistory c' (hi_accepted h) (hi_dropped h) (hi_processed h))
      | _ => None
      end
  end.

Fixpoint collector_run (es : list CollectorEvent) (h : History) : option History :=
  match es with
  | [] => Some h
  | e :: es' =>
      match collector_step e h with
      | Some h' => collector_run es' h'
      | None => None
      end
  end.

Definition new_history (cap : Z) : History := mkHistory (mkCollector [] cap false Serving) [] [] [].

(** The jobs the handlers handed over. *)
Definition submitted (es : list CollectorEvent) : list persistJob :=
  omap (fun e => match e with Submit job => Some job | _ => None end) es.

(** The goroutine's turns once its context is over. *)
Definition shutdown (n : nat) : list CollectorEvent := repeat (Turn true) n.

(** * Lemmas *)

Lemma collector_run_app es1 es2 h :
  collector_run (es1 ++ es2) h = match collector_run es1 h with Some h' => collector_run es2 h' | None => None end.
Proof. revert h. induction es1 as [|e es1 IH]; intros h; [done|]. simpl. destruct (collector_step e h); [apply IH|done]. Qed.

(** What holds after every run over a channel of size [cap]. *)
Record history_ok (cap : Z) (subs : list persistJob) (h : History) : Prop := mkHistoryOk {
  ho_cap : col_cap (hi_collector h) = cap;
  ho_fifo : hi_processed h ++ col_ch (hi_collector h) = hi_accepted h;
  ho_room : Z.of_nat (length (col_ch (hi_collector h))) <= Z.max 1 cap;
  ho_subs : Permutation (hi_accepted h ++ hi_dropped h) subs;
  ho_order : hi_accepted h `sublist_of` subs;
  ho_drop : Z.of_nat (length subs) <= cap -> hi_dropped h = [];
}.

Lemma history_ok_step cap subs e h h' :
  history_ok cap subs h -> collector_step e h = Some h' ->
  history_ok cap (subs ++ omap (fun e => match e with Submit job => Some job | _ => None end) [e]) h'.
Proof.
  intros [Hc Hf Hr Hs Ho Hd] H. destruct e as [job|b|]; simpl in H |- *; rewrite ?app_nil_r.
  - unfold enqueue in H. destruct (col_closed _); [done|]. destruct (accepts (hi_collector h)) eqn:Ha; unfold accepts in Ha.
    + assert (Hlt : Z.of_nat (length (col_ch (hi_collector h))) < Z.max 1 (col_cap (hi_collector h))).
      { apply orb_true_iff in Ha as [Ha%Z.ltb_lt|[_ Ha%Nat.eqb_eq]%andb_true_iff]; lia. }
       injection H as <-. split; simpl; [done| | | | |].
      * by rewrite (assoc_L app), Hf.
      * rewrite length_app. simpl. lia.
      * rewrite <- Hs. rewrite <- !app_assoc. apply Permutation_app_head. by rewrite Permutation_app_comm.
      * by apply sublist_app.
      * intros Hl. apply Hd. rewrite length_app in Hl. lia.
    + apply orb_false_iff in Ha as [Hge%Z.ltb_ge _]. injection H as <-. split; simpl; [done|done|lia| | |].
      * by rewrite (assoc_L app), Hs.
      * by apply sublist_inserts_r.
      * rewrite length_app. simpl. intros Hl. assert (Hlen : length subs = length (hi_accepted h ++ hi_dropped h)) by by rewrite Hs.
        rewrite length_app, <- Hf, length_app in Hlen. lia.
  - destruct (worker_turn b (hi_collector h)) as [job c'] eqn:E. injection H as <-.
    unfold worker_turn in E. destruct (hi_collector h) as [ch cp cl w]. simpl in *.
    destruct w; [destruct b| |]; try (destruct ch as [|j ch]); simplify_eq/=; split; simpl; rewrite ?app_nil_r in *; try done; try lia;
      try (by rewrite <- app_assoc).
  - unfold Close in H. destruct (col_closed _); [done|]. injection H as <-. by split.
Qed.

Lemma history_ok_run cap es h :
  0 <= cap -> collector_run es (new_history cap) = Some h -> history_ok cap (submitted es) h.
Proof.
  intros Hc. revert h. induction es as [|e es IH] using rev_ind; intros h H.
  - injection H as <-. split; simpl; auto; lia.
  - rewrite collector_run_app in H. destruct (collector_run es _) as [h1|] eqn:E; [|done]. simpl in H.
    destruct (collector_step e h1) as [h2|] eqn:E2; [|done]. injection H as <-.
    unfold submitted. rewrite omap_app. by eapply history_ok_step; [apply IH|].
Qed.

(** Turns of a draining goroutine take the whole channel. *)
Lemma drain_all h :
  col_worker (hi_collector h) = Draining ->
  exists h', collector_run (shutdown (S (length (col_ch (hi_collector h))))) h = Some h' /\
    hi_processed h' = hi_processed h ++ col_ch (hi_collector h) /\ col_worker (hi_collector h') = Ended.
Proof.
  destruct h as [[ch cp cl w] acc dr pr]. simpl. intros ->. revert pr. induction ch as [|j ch IH]; intros pr; simpl.
  - eexists. split; [done|]. simpl. rewrite !app_nil_r. split; [done|by destruct cl].
  - destruct (IH (pr ++ [j])) as (h' & H1 & H2 & H3). eexists. split; [exact H1|]. split; [|done].
    rewrite H2. by rewrite <- app_assoc.
Qed.

(** C26: The collector is a bounded queue that loses nothing it accepted: after
    any interleaving of handlers, goroutine and shutdown, the jobs processed
    followed by those waiting are the jobs accepted, in the order they were
    handed over; at most [cap] wait; a job is dropped only if more than [cap]
    were handed over; and a goroutine that has not ended, told to stop,
    processes every accepted job within as many turns as wait, plus two. *)
Theorem collector_keeps_accepted_jobs (cap : Z) (es : list CollectorEvent) (h : History) :
  0 < cap -> collector_run es (new_history cap) = Some h ->
  hi_processed h ++ col_ch (hi_collector h) = hi_accepted h /\
  Z.of_nat (length (col_ch (hi_collector h))) <= cap /\
  hi_accepted h `sublist_of` submitted es /\
  Permutation (hi_accepted h ++ hi_dropped h) (submitted es) /\
  (Z.of_nat (length (submitted es)) <= cap -> hi_dropped h = []) /\
  (col_worker (hi_collector h) <> Ended ->
   exists h', collector_run (shutdown (length (col_ch (hi_collector h)) + 2)) h = Some h' /\
     hi_processed h' = hi_accepted h /\ col_worker (hi_collector h') = Ended).
Proof.
  intros Hc H. destruct (history_ok_run cap es h) as [H1 H2 H3 H4 H5 H6]; [lia|done|].
  rewrite Z.max_r in H3 by lia. split_and!; [done..|]. intros Hw. rewrite Nat.add_comm. rewrite <- H2.
  destruct (col_worker (hi_collector h)) eqn:E; [| |done].
  - set (h1 := mkHistory (mkCollector (col_ch (hi_collector h)) (col_cap (hi_collector h)) (col_closed (hi_collector h)) Draining)
      (hi_accepted h) (hi_dropped h) (hi_processed h)).
    destruct (drain_all h1 eq_refl) as (h' & Hr & Hp & He). exists h'. split; [|done].
    change (2 + length (col_ch (hi_collector h)))%nat with (S (S (length (col_ch (hi_collector h1))))).
    unfold shutdown in *. simpl in Hr |- *. unfold worker_turn at 1. rewrite E. simpl. rewrite app_nil_r. exact Hr.
  - destruct (drain_all h E) as (h' & Hr & Hp & He).
    exists h'. split; [|done]. unfold shutdown in *.
    replace (2 + length (col_ch (hi_collector h)))%nat with (S (length (col_ch (hi_collector h))) + 1)%nat by lia.
    rewrite repeat_app, collector_run_app, Hr. simpl. unfold worker_turn. rewrite He. simpl. rewrite app_nil_r. by destruct h'.
Qed.

(** A goroutine that has ended processes nothing more, whatever is handed
    over afterwards. *)
Theorem ended_collector_loses_late_jobs (es : list CollectorEvent) (h h' : History) :
  col_worker (hi_collector h) = Ended -> collector_run es h = Some h' ->
  hi_processed h' = hi_processed h /\ col_worker (hi_collector h') = Ended.
Proof.
  revert h. induction es as [|e es IH]; intros h Hw H; simpl in H; [by injection H as <-|].
  destruct (collector_step e h) as [h1|] eqn:E; [|done].
  assert (H1 : hi_processed h1 = hi_processed h /\ col_worker (hi_collector h1) = Ended).
  { destruct e as [job|b|]; simpl in E.
    - unfold enqueue in E. destruct (col_closed _); [done|]. destruct (accepts _); injection E as <-; done.
    - unfold worker_turn in E. rewrite Hw in E. injection E as <-. simpl. by rewrite app_nil_r.
    - unfold Close in E. destruct (col_closed _); [done|]. by injection E as <-. }
  destruct H1 as [H1 H2]. destruct (IH h1 H2 H) as [H3 H4]. split; [congruence|done].
Qed.

(** Rows in strictly ascending order stay as they are under [ORDER BY]. *)
Lemma order_by_sorted {A} `{SortSlice} (key : A -> Z) (l : list A) :
  StronglySorted (fun x y => key x < key y) l -> order_by (asc_int key) l = l.
Proof.
  intros Hs. unfold order_by.
  assert (Hw : StrictWeak (asc_int key)).
  { split; unfold asc_int; intros; blia || (apply Z.ltb_lt; blia) || (apply Z.ltb_ge; blia). }
  pose proof (sort_slice_sorted (asc_int key) l Hw) as Hss. pose proof (sort_slice_perm (asc_int key) l) as Hp.
  revert Hss Hp. generalize (sort_slice (asc_int key) l) as m. clear Hw. revert Hs.
  induction l as [|y l IH]; intros Hs m Hm Hp; [by apply Permutation_nil_r in Hp|].
  apply StronglySorted_inv in Hs as [Hs Hy]. rewrite Forall_forall in Hy.
  destruct m as [|x m]; [by apply Permutation_nil_l in Hp|].
  apply StronglySorted_inv in Hm as [Hm Hx]. rewrite Forall_forall in Hx.
  assert (Hxy : x = y).
  { assert (Hin : x ∈ y :: l) by (rewrite <- Hp; constructor). apply elem_of_cons in Hin as [|Hin]; [done|].
    assert (Hin' : y ∈ x :: m) by (rewrite Hp; constructor). apply elem_of_cons in Hin' as [|Hin']; [done|].
    specialize (Hy x Hin). specialize (Hx y Hin'). unfold asc_int in Hx. blia. }
  subst x. f_equal. apply IH; [done|done|]. by apply Permutation_cons_inv in Hp.
Qed.

(** Numbered rows are in ascending order, and their numbers are distinct. *)
Lemma imap_ascending {A B} (key : B -> Z) (f : nat -> A -> B) (l : list A) (n : nat) :
  (forall i x, key (f i x) = Z.of_nat (n + i)) -> StronglySorted (fun x y => key x < key y) (imap f l).
Proof.
  revert f n. induction l as [|x l IH]; intros f n Hk; simpl; constructor.
  - apply (IH _ (S n)). intros i y. simpl. rewrite Hk. lia.
  - apply Forall_forall. intros y Hy. apply list_elem_of_lookup in Hy as [i Hi].
    rewrite list_lookup_imap in Hi. apply fmap_Some in Hi as (z & _ & ->). simpl. rewrite !Hk. lia.
Qed.

Lemma imap_pair_keys {A} (l : list A) : NoDup (imap pair l).*1.
Proof.
  assert (E : (imap pair l).*1 = seq 0 (length l)).
  { apply list_eq. intros i. rewrite list_lookup_fmap, list_lookup_imap.
    destruct (l !! i) as [x|] eqn:E.
    - simpl. symmetry. apply lookup_seq_lt. by apply lookup_lt_Some in E.
    - simpl. symmetry. apply lookup_seq_ge. by apply lookup_ge_None in E. }
  rewrite E. apply NoDup_seq.
Qed.

Section PersistLemmas.
Context (fault : nat -> bool) (clock clock_row : nat -> Z) (uuid : nat -> string) (job : persistJob).

(** The row the [i]-th chunk becomes. *)
Definition stored_chunk (i : nat) (ch : StreamingLogChunk) : StreamingLog :=
  chunk_row (uuid i) (clock_row i) (chunk_log clock job i ch).

Lemma chunk_row_key u now l : u <> EmptyString -> sl_ID l = EmptyString ->
  sl_ID (chunk_row u now l) = u /\ sl_RequestLogID (chunk_row u now l) = sl_RequestLogID l /\
  sl_ChunkIndex (chunk_row u now l) = sl_ChunkIndex l.
Proof. intros Hu Hl. unfold chunk_row. rewrite Hl. simpl. by repeat case_match. Qed.

Lemma stored_chunk_key i ch : uuid i <> EmptyString ->
  sl_ID (stored_chunk i ch) = uuid i /\ sl_RequestLogID (stored_chunk i ch) = log_ID (job_log job) /\
  sl_ChunkIndex (stored_chunk i ch) = Z.of_nat i.
Proof. intros Hu. by apply (chunk_row_key (uuid i) (clock_row i) (chunk_log clock job i ch)). Qed.

(** Without faults every chunk is stored, in order. *)
Lemma chunk_loop (l : list (nat * StreamingLogChunk)) c :
  (forall n, fault n = false) -> (forall i, uuid i <> EmptyString) ->
  NoDup l.*1 -> (forall i j, uuid i = uuid j -> i = j) ->
  (forall i, i ∈ l.*1 -> uuid i ∉ sl_ID <$> db_chunks (cn_db c)) ->
  log_ID (job_log job) ∈ log_ID <$> db_logs (cn_db c) ->
  exists c', efor (insert_chunk_log fault clock clock_row uuid job) l c = (inr tt, c') /\
    cn_db c' = set_chunks (db_chunks (cn_db c) ++ (uncurry stored_chunk <$> l)) (cn_db c).
Proof.
  intros Hf Hu Hn Hinj. revert c. induction l as [|[i ch] l IH]; intros c Hfresh Hlog.
  { exists c. simpl. rewrite app_nil_r. split; [done|by destruct (cn_db c)]. }
  apply NoDup_cons in Hn as [Hi Hn]. destruct (stored_chunk_key i ch (Hu i)) as (Hid & Hreq & _).
  assert (Hs : insert_chunk (stored_chunk i ch) (cn_db c) =
    inr (tt, set_chunks (db_chunks (cn_db c) ++ [stored_chunk i ch]) (cn_db c))).
  { unfold insert_chunk, fresh. rewrite Hid, Hreq. rewrite bool_decide_eq_true_2 by (apply Hfresh; csimpl; set_solver).
    by rewrite bool_decide_eq_true_2. }
  cbn [efor]. unfold ebind at 1. unfold insert_chunk_log at 1, InsertStreamingLog. fold (stored_chunk i ch).
  rewrite (exec_quiet fault _ _ _ _ Hf Hs).
  destruct (IH Hn (mkConn (set_chunks (db_chunks (cn_db c) ++ [stored_chunk i ch]) (cn_db c)) (S (cn_stmts c)))) as (c' & H1 & H2).
  - intros j Hj. cbn [cn_db db_chunks set_chunks]. rewrite fmap_app. intros [H|H]%elem_of_app.
    + revert H. apply Hfresh. csimpl. set_solver.
    + apply list_elem_of_fmap in H as (x & Hx & ->%list_elem_of_singleton). rewrite Hid in Hx. by apply Hinj in Hx as ->.
  - done.
  - exists c'. split; [exact H1|]. rewrite H2. unfold set_chunks. simpl. by rewrite <- app_assoc.
Qed.

End PersistLemmas.

(** Persisting a job, end to end: when no statement fails and the ids are
    new, the store afterwards returns the request log by its id, with the
    estimated cost the catalog's prices give when the log had none, and the
    chunks of the request in the order they were streamed, numbered from 0,
    only the first marked when a prefix was dropped; and the log has been
    counted in the statistics. *)
Theorem persist_stores_the_request (fault : nat -> bool) (order : SortSlice) (catalog : option routingSnapshot) (now : Z)
    (clock clock_row : nat -> Z) (uuid : nat -> string) (job : persistJob) (s : Sinks) :
  (forall n, fault n = false) -> wf (cn_db (sk_conn s)) ->
  fresh log_ID (job_log job) (db_logs (cn_db (sk_conn s))) = true ->
  (forall i, uuid i <> EmptyString) -> (forall i j, uuid i = uuid j -> i = j) ->
  (forall i, uuid i ∉ sl_ID <$> db_chunks (cn_db (sk_conn s))) ->
  let log := with_cost catalog (job_log job) in
  exists c',
    persist fault catalog now clock clock_row uuid job s =
      (inr tt, mkSinks c' (Record_ now log (stats_model_row catalog log) <$> sk_stats s)) /\
    (GetRequestLog fault (log_ID (job_log job)) c').1 = inr (log_row log) /\
    (GetStreamingLogs fault (log_ID (job_log job)) c').1 =
      inr (imap (stored_chunk clock clock_row uuid job) (job_chunks job)).
Proof.
  intros Hf W Hid Hu Hinj Hnew log.
  assert (Hlog : log_ID (log_row log) = log_ID (job_log job)).
  { unfold log, with_cost. by repeat case_match. }
  unfold persist. fold log. unfold InsertRequestLog.
  assert (Hs : insert_log (log_row log) (cn_db (sk_conn s)) =
    inr (tt, set_logs (db_logs (cn_db (sk_conn s)) ++ [log_row log]) (cn_db (sk_conn s)))).
  { unfold insert_log, fresh in *. by rewrite Hlog, Hid. }
  rewrite (exec_quiet fault _ _ _ _ Hf Hs). set (c1 := mkConn (set_logs _ _) _).
  destruct (chunk_loop fault clock clock_row uuid job (imap pair (job_chunks job)) c1 Hf Hu) as (c' & Hc' & Hdb).
  { apply imap_pair_keys. }
  { done. }
  { intros i _. apply Hnew. }
  { rewrite <- Hlog. apply list_elem_of_fmap_2. simpl. apply elem_of_app. right. by apply list_elem_of_singleton. }
  rewrite Hc'. exists c'. split; [done|]. split.
  - unfold GetRequestLog, ebind. rewrite <- Hlog.
    rewrite (find_inserted fault db_logs log_ID _ (db_logs (cn_db (sk_conn s)))).
    + simpl. by rewrite scan_full_same.
    + done.
    + by rewrite Hdb.
    + unfold fresh in *. by rewrite Hlog.
  - unfold GetStreamingLogs, query. rewrite (exec_quiet fault _ _ _ _ Hf eq_refl). simpl. do 2 f_equal.
    rewrite Hdb. cbn [db_chunks set_chunks]. change (uncurry ?f <$> imap pair ?l) with (uncurry f <$> imap pair l).
    rewrite keep_app, keep_none, app_nil_l.
    2: { apply Forall_forall. intros x Hx. apply String.eqb_neq. intros E. pose proof (wf_sl_fk _ W) as Hfk.
      rewrite Forall_forall in Hfk. apply Hfk in Hx. rewrite E in Hx. by apply bool_decide_eq_true in Hid. }
    rewrite keep_all, fmap_imap.
    + apply order_by_sorted, (imap_ascending _ _ _ 0). intros i ch. by apply stored_chunk_key.
    + apply Forall_fmap, Forall_forall. intros [i ch] _. simpl. apply String.eqb_eq. by apply stored_chunk_key.
Qed.

(** * Witnesses *)

Definition sample_job : persistJob :=
  mkJob priced_log [mkLogChunk "data: a" "a"; mkLogChunk "data: b" "b"] true.

Definition other_job : persistJob := mkJob sample_log [] false.

(** A channel of one place: the second job finds it full. *)
Definition sample_run : list CollectorEvent :=
  [Submit sample_job; Submit other_job; Turn false; Submit other_job].

Definition sample_history : History :=
  mkHistory (mkCollector [other_job] 1 false Serving) [sample_job; other_job] [other_job] [sample_job].

Lemma collector_keeps_accepted_jobs_witness :
  collector_run sample_run (new_history 1) = Some sample_history /\
  exists h', collector_run (shutdown 3) sample_history = Some h' /\ hi_processed h' = [sample_job; other_job].
Proof.
  assert (H : collector_run sample_run (new_history 1) = Some sample_history) by done.
  split; [exact H|].
  destruct (collector_keeps_accepted_jobs 1 sample_run sample_history ltac:(lia) H) as (_ & _ & _ & _ & _ & Hd).
  destruct Hd as (h' & H1 & H2 & _); [done|]. exists h'. split; [exact H1|exact H2].
Defined.

Definition sample_sinks : Sinks := mkSinks (mkConn empty_db 0) (Some NewAccumulator).

Lemma persist_stores_the_request_witness :
  exists c',
    persist no_fault (Some empty_snapshot) 0 Z.of_nat Z.of_nat sample_uuid sample_job sample_sinks =
      (inr tt, mkSinks c' (Some (Record_ 0 priced_log None NewAccumulator))) /\
    (GetStreamingLogs no_fault "l1" c').1 =
      inr (imap (stored_chunk Z.of_nat Z.of_nat sample_uuid sample_job) (job_chunks sample_job)).
Proof.
  destruct (persist_stores_the_request no_fault _ (Some empty_snapshot) 0 Z.of_nat Z.of_nat sample_uuid sample_job
    sample_sinks) as (c' & H1 & _ & H2).
  - done.
  - exact empty_wf.
  - done.
  - done.
  - intros i j H. injection H as H. by apply (inj pretty).
  - intros i H. vm_compute in H. by apply elem_of_nil in H.
  - exists c'. split; [exact H1|exact H2].
Defined.
