(* ===== verification/Health.v ===== *)
(** Background health checks, [internal/health]: every provider is probed on
    its own goroutine; the outcome goes to the store, to the circuit breaker
    and, as a change, to the routing catalog. *)
From S2P Require Import Prelude GoLib Float64 Models Circuit Catalog Router Http Sql Store.
Local Open Scope Z_scope.
Local Open Scope go_scope.

(** * The circuit breaker the checker reports to

    [CircuitBreakerReporter], with what the checker relies on: a report about
    one provider leaves what is known of the others alone. *)
Class CircuitBreakerReporter (B : Type) := {
  cr_success : string -> B -> B;
  cr_failure : string -> B -> B;
  cr_view : Type;
  cr_of : string -> B -> cr_view;
  cr_success_other : forall id id' b, id' <> id -> cr_of id (cr_success id' b) = cr_of id b;
  cr_failure_other : forall id id' b, id' <> id -> cr_of id (cr_failure id' b) = cr_of id b;
}.

Definition cr_report {B} `{CircuitBreakerReporter B} (healthy : bool) (id : string) (b : B) : B :=
  if healthy then cr_success id b else cr_failure id b.

Lemma cr_report_other {B} `{CircuitBreakerReporter B} h id id' b : id' <> id -> cr_of id (cr_report h id' b) = cr_of id b.
Proof. destruct h; [apply cr_success_other|apply cr_failure_other]. Qed.

(** * Probes *)

(** What came of a probe: the request could not be built, the transport
    failed, or a status came back. *)
Inductive ProbeResult := BadRequest | NetworkError | Status (code : Z).

Section Health.
Context (fault : nat -> bool) {B : Type} `{CircuitBreakerReporter B}.
(** What the backends answer, and the instants at which goroutine [i] writes
    the store. *)
Context (client : nat -> string -> Header -> ProbeResult) (clock : nat -> Z).

Definition probe_url (p : Provider) : string := trim_suffix (p_BaseURL p) "/" +:+ "/v1/models".

Definition probe_header (p : Provider) : Header :=
  if str_empty (p_APIKey p) then ∅ else header_set "Authorization" ("Bearer " +:+ p_APIKey p) ∅.

(** [checkProvider]: the verdict it passes on to [updateHealth]. *)
Definition probe (i : nat) (p : Provider) : bool :=
  match client i (probe_url p) (probe_header p) with
  | BadRequest | NetworkError => false
  | Status code => (200 <=? code) && (code <? 300)
  end.

(** * Reporting a verdict *)

(** The three effects of [updateHealth], in its order. *)
Inductive Effect :=
| UpdateStore (now : Z) (id : string) (healthy : bool)
| Report (id : string) (healthy : bool)
| NotifyRouting.

Definition updateHealth (now : Z) (id : string) (healthy : bool) : list Effect :=
  [UpdateStore now id healthy; Report id healthy; NotifyRouting].

Record HealthWorld := mkHealthWorld {
  hw_conn : Conn;
  hw_breaker : B;
  hw_notified : nat;
}.

(** A failed update of the store is only logged. *)
Definition run_effect (e : Effect) (w : HealthWorld) : HealthWorld :=
  match e with
  | UpdateStore now id h => mkHealthWorld (UpdateProviderHealth fault now id h (hw_conn w)).2 (hw_breaker w) (hw_notified w)
  | Report id h => mkHealthWorld (hw_conn w) (cr_report h id (hw_breaker w)) (hw_notified w)
  | NotifyRouting => mkHealthWorld (hw_conn w) (hw_breaker w) (S (hw_notified w))
  end.

(** * Goroutines *)

(** [checkProvider] in goroutine [i]: the effects it still has to make. *)
Definition checkProvider (i : nat) (p : Provider) : list Effect := updateHealth (clock i) (p_ID p) (probe i p).

(** One effect of goroutine [i]. *)
Definition schedule_step (i : nat) (s : list (list Effect) * HealthWorld) : option (list (list Effect) * HealthWorld) :=
  match s.1 !! i with
  | Some (e :: rest) => Some (<[i := rest]> s.1, run_effect e s.2)
  | _ => None
  end.

(** The goroutines in the order the scheduler runs their effects. *)
Fixpoint run_schedule (sched : list nat) (s : list (list Effect) * HealthWorld) : option (list (list Effect) * HealthWorld) :=
  match sched with
  | [] => Some s
  | i :: sched' => match schedule_step i s with Some s' => run_schedule sched' s' | None => None end
  end.

(** [wg.Wait()]: every goroutine is done. *)
Definition all_done (s : list (list Effect) * HealthWorld) : bool :=
  forallb (fun es => match es with [] => true | _ => false end) s.1.

(** [checkAll] under a schedule: [None] when the schedule is not one of its
    goroutines, run to the end. *)
Definition checkAll `{SortSlice} (sched : list nat) (w : HealthWorld) : option HealthWorld :=
  match ListProviders fault (hw_conn w) with
  | (inl _, c) => match sched with [] => Some (mkHealthWorld c (hw_breaker w) (hw_notified w)) | _ => None end
  | (inr providers, c) =>
      match run_schedule sched (imap checkProvider providers, mkHealthWorld c (hw_breaker w) (hw_notified w)) with
      | Some s => if all_done s then Some s.2 else None
      | None => None
      end
  end.

End Health.

(** [Start] runs nothing when the context is over or the interval is not
    positive. *)
Definition starts (cancelled : bool) (interval : Z) : bool := negb cancelled && (0 <? interval).

(** What wakes the checker: a tick of its timer, with the surroundings of the
    round it starts, or the end of the context. *)
Record Round := mkRound {
  rd_fault : nat -> bool;
  rd_client : nat -> string -> Header -> ProbeResult;
  rd_clock : nat -> Z;
  rd_schedule : list nat;
}.

Inductive TickerEvent := TickAt (round : Round) | ContextDone.

Section Checker.
Context {B : Type} `{CircuitBreakerReporter B} `{SortSlice}.

Definition run_round (rd : Round) (w : HealthWorld) : option HealthWorld :=
  checkAll (rd_fault rd) (rd_client rd) (rd_clock rd) (rd_schedule rd) w.

(** The loop of [Start]: rounds run one after the other. *)
Fixpoint checker_loop (es : list TickerEvent) (w : HealthWorld) : option HealthWorld :=
  match es with
  | [] | ContextDone :: _ => Some w
  | TickAt rd :: es' => match run_round rd w with Some w' => checker_loop es' w' | None => None end
  end.

(** [Start]: a round at once, then one per tick. *)
Definition Checker_Start (cancelled : bool) (interval : Z) (first : Round) (es : list TickerEvent) (w : HealthWorld) : option HealthWorld :=
  if starts cancelled interval then checker_loop (TickAt first :: es) w else Some w.

End Checker.

(** * Lemmas *)

Section HealthLemmas.
Context (fault : nat -> bool) {B : Type} `{CircuitBreakerReporter B}.
Context (client : nat -> string -> Header -> ProbeResult) (clock : nat -> Z).
Context (quiet : forall n, fault n = false).

Definition set_health (now : Z) (healthy : bool) (p : Provider) : Provider :=
  set_p_HealthCheckedAt (Some now) (set_p_IsHealthy healthy p).

(** The rows once the given verdicts are written. *)
Definition written (verdicts : gmap string (Z * bool)) (p : Provider) : Provider :=
  match verdicts !! p_ID p with Some (now, h) => set_health now h p | None => p end.

Lemma written_ID v p : p_ID (written v p) = p_ID p.
Proof. unfold written. by destruct (v !! p_ID p) as [[]|]. Qed.

Lemma written_snoc v now id h p :
  v !! id = None ->
  (if String.eqb (p_ID (written v p)) id then set_health now h (written v p) else written v p) =
  written (<[id := (now, h)]> v) p.
Proof.
  intros Hv. rewrite written_ID. unfold written. destruct (String.eqb_spec (p_ID p) id) as [<-|Hne].
  - by rewrite lookup_insert_eq, Hv.
  - by rewrite lookup_insert_ne by done.
Qed.

(** A write of the health of one provider adds its verdict. *)
Lemma update_health_written db v now id h c :
  wf db -> v !! id = None -> cn_db c = set_providers (written v <$> db_providers db) db ->
  cn_db (UpdateProviderHealth fault now id h c).2 = set_providers (written (<[id := (now, h)]> v) <$> db_providers db) db.
Proof.
  intros W Hv Hc.
  assert (Hrows : update_rows (fun x => String.eqb (p_ID x) id) (set_health now h) (db_providers (cn_db c)) =
    written (<[id := (now, h)]> v) <$> db_providers db).
  { rewrite Hc. unfold update_rows. cbn [db_providers set_providers]. rewrite <- list_fmap_compose.
    apply list_fmap_ext. intros _ p _. simpl. by apply written_snoc. }
  assert (Hurl : keys_distinct p_BaseURL (written (<[id := (now, h)]> v) <$> db_providers db) = true).
  { apply bool_decide_eq_true. rewrite <- list_fmap_compose. rewrite (list_fmap_ext _ p_BaseURL); [apply W|].
    intros _ p _. simpl. unfold written. by destruct (_ !! p_ID p) as [[]|]. }
  unfold UpdateProviderHealth, ebind, must_affect.
  erewrite exec_quiet; [|done|].
  2: { unfold update_providers. fold (set_health now h). change (fun x => set_p_HealthCheckedAt (Some now) (set_p_IsHealthy h x)) with (set_health now h).
    rewrite Hrows, Hurl, (existsb_none _ (db_providers (cn_db c))); [done|]. intros x. unfold threshold_set. simpl.
    by destruct (String.eqb _ _), (p_CircuitBreakerErrorThreshold x). }
  rewrite Hc. destruct (_ =? 0); done.
Qed.

(** ** The pool of goroutines *)

Context (db : DB) (providers : list Provider) (w0 : HealthWorld (B:=B)).

Definition todo (i : nat) (p : Provider) (k : nat) : list Effect := skipn k (checkProvider client clock i p).

(** What of goroutine [i] has happened after its first [k] effects. *)
Record progress_ok (v : gmap string (Z * bool)) (b : B) (i : nat) (p : Provider) (k : nat) : Prop := mkProgress {
  pr_store : v !! p_ID p = if (1 <=? k)%nat then Some (clock i, probe client i p) else None;
  pr_report : if (2 <=? k)%nat
              then exists b0, cr_of (p_ID p) b0 = cr_of (p_ID p) (hw_breaker w0) /\
                cr_of (p_ID p) b = cr_of (p_ID p) (cr_report (probe client i p) (p_ID p) b0)
              else cr_of (p_ID p) b = cr_of (p_ID p) (hw_breaker w0);
}.

Definition pending (pool : list (list Effect)) : nat := length (keep (fun es => negb (bool_decide (es = []))) pool).

Record pool_ok (s : list (list Effect) * HealthWorld (B:=B)) : Prop := mkPoolOk {
  po_len : length s.1 = length providers;
  po_some : exists v,
    cn_db (hw_conn s.2) = set_providers (written v <$> db_providers db) db /\
    forall i p, providers !! i = Some p ->
      exists k, (k <= 3)%nat /\ s.1 !! i = Some (todo i p k) /\ progress_ok v (hw_breaker s.2) i p k;
  po_notified : (hw_notified s.2 + pending s.1 = hw_notified w0 + length providers)%nat;
}.

Lemma pending_insert pool i e es rest :
  pool !! i = Some (e :: es) ->
  (pending (<[i := rest]> pool) + (if bool_decide (rest = []) then 1 else 0) = pending pool)%nat.
Proof.
  revert i. unfold pending, keep. induction pool as [|x pool IH]; intros [|i] Hi; simpl in *; [done..| |].
  - injection Hi as ->. simpl. destruct rest; simpl; lia.
  - specialize (IH i Hi). destruct (negb (bool_decide (x = []))); simpl; lia.
Qed.

Context (W : wf db) (Hkeys : NoDup (p_ID <$> providers)).

Lemma other_provider i j p q : providers !! i = Some p -> providers !! j = Some q -> i <> j -> p_ID p <> p_ID q.
Proof.
  intros Hi Hj Hne He. apply Hne. eapply (NoDup_lookup _ _ _ (p_ID p)); [exact Hkeys| |];
    rewrite list_lookup_fmap; [by rewrite Hi|by rewrite Hj, He].
Qed.

(** The effects of one provider leave the progress of the others. *)
Lemma progress_other v b i p k v' b' id :
  progress_ok v b i p k -> p_ID p <> id ->
  (v' = v \/ exists x, v' = <[id := x]> v) -> (b' = b \/ exists h, b' = cr_report h id b) ->
  progress_ok v' b' i p k.
Proof.
  intros [H1 H2] Hne Hv Hb.
  assert (Ev : v' !! p_ID p = v !! p_ID p) by (destruct Hv as [->|[x ->]]; [done|by rewrite lookup_insert_ne by done]).
  assert (Eb : cr_of (p_ID p) b' = cr_of (p_ID p) b) by (destruct Hb as [->|[h ->]]; [done|by apply cr_report_other]).
  split; [by rewrite Ev|]. destruct (2 <=? k)%nat; [|by rewrite Eb].
  destruct H2 as (b0 & H3 & H4). exists b0. by rewrite Eb.
Qed.

(** One effect: what changes, and the progress of its goroutine after it. *)
Lemma effect_progress v w i p k e rest :
  todo i p k = e :: rest -> (k <= 3)%nat ->
  cn_db (hw_conn w) = set_providers (written v <$> db_providers db) db -> progress_ok v (hw_breaker w) i p k ->
  let w' := run_effect fault e w in
  rest = todo i p (S k) /\ (S k <= 3)%nat /\
  hw_notified w' = (hw_notified w + (if bool_decide (rest = []) then 1 else 0))%nat /\
  (hw_breaker w' = hw_breaker w \/ exists h, hw_breaker w' = cr_report h (p_ID p) (hw_breaker w)) /\
  exists v', (v' = v \/ exists x, v' = <[p_ID p := x]> v) /\
    cn_db (hw_conn w') = set_providers (written v' <$> db_providers db) db /\ progress_ok v' (hw_breaker w') i p (S k).
Proof.
  intros He Hk Hdb [H1 H2] w'. unfold todo, checkProvider, updateHealth in *.
  destruct k as [|[|[|k]]]; simpl in He; [| | |by destruct k]; injection He as <- <-; unfold w'; simpl in *.
  - split_and!; [done|lia|by rewrite Nat.add_0_r|by left|].
    exists (<[p_ID p := (clock i, probe client i p)]> v). split; [right; by eexists|]. split; [by apply update_health_written|].
    split; simpl; [by rewrite lookup_insert_eq|done].
  - split_and!; [done|lia|by rewrite Nat.add_0_r|right; by eexists|].
    exists v. split; [by left|]. split; [done|]. split; simpl; [done|]. by exists (hw_breaker w).
  - split_and!; [done|lia|lia|by left|]. exists v. split; [by left|]. split; [done|]. by split.
Qed.

Lemma pool_step i s s' : pool_ok s -> schedule_step fault i s = Some s' -> pool_ok s'.
Proof.
  intros [Hl (v & Hdb & Hp) Hn] H'. unfold schedule_step in H'. destruct (s.1 !! i) as [[|e rest]|] eqn:E; try done.
  injection H' as <-. assert (Hi : (i < length providers)%nat) by (rewrite <- Hl; by eapply lookup_lt_Some).
  apply lookup_lt_is_Some_2 in Hi as [p Hpi]. destruct (Hp i p Hpi) as (k & Hk & Hki & Hpr).
  rewrite E in Hki. injection Hki as Hki. symmetry in Hki.
  destruct (effect_progress v s.2 i p k e rest Hki Hk Hdb Hpr) as (Hr & Hk' & Hn' & Hb & v' & Hv & Hdb' & Hpr').
  split; simpl.
  - by rewrite length_insert.
  - exists v'. split; [done|]. intros j q Hj. destruct (decide (i = j)) as [<-|Hne].
    + rewrite Hpi in Hj. injection Hj as <-. exists (S k). split; [done|]. split; [|done].
      rewrite list_lookup_insert_eq by (by eapply lookup_lt_Some). by rewrite Hr.
    + destruct (Hp j q Hj) as (k2 & Hk2 & Hkj & Hpr2). exists k2. split; [done|]. split; [by rewrite list_lookup_insert_ne|].
      eapply progress_other; [exact Hpr2| |exact Hv|exact Hb]. by eapply other_provider.
  - rewrite Hn'. pose proof (pending_insert _ _ _ _ rest E). lia.
Qed.

Lemma pool_run sched s s' : pool_ok s -> run_schedule fault sched s = Some s' -> pool_ok s'.
Proof.
  revert s. induction sched as [|i sched IH]; intros s Hs H'; simpl in H'; [by injection H' as <-|].
  destruct (schedule_step fault i s) as [s1|] eqn:E; [|done]. eapply IH; [|exact H']. by eapply pool_step.
Qed.

Lemma pool_start : cn_db (hw_conn w0) = db -> pool_ok (imap (checkProvider client clock) providers, w0).
Proof.
  intros Hdb. split; simpl.
  - by rewrite length_imap.
  - exists ∅. split.
    + rewrite Hdb. assert (E : written ∅ <$> db_providers db = db_providers db).
      { rewrite <- (list_fmap_id (db_providers db)) at 2. apply list_fmap_ext. intros _ p _. unfold written.
        by rewrite lookup_empty. }
      rewrite E. by destruct db.
    + intros i p Hi. exists 0%nat. split; [lia|]. split; [by rewrite list_lookup_imap, Hi|]. by split.
  - f_equal. unfold pending. rewrite keep_all; [by rewrite length_imap|]. apply Forall_forall. intros es Hes.
    apply list_elem_of_lookup in Hes as [i Hi]. rewrite list_lookup_imap in Hi.
    by apply fmap_Some in Hi as (p & _ & ->).
Qed.

(** Once every goroutine is done, every verdict is written and reported. *)
Lemma pool_end s : pool_ok s -> all_done s = true ->
  hw_notified s.2 = (hw_notified w0 + length providers)%nat /\
  exists v, cn_db (hw_conn s.2) = set_providers (written v <$> db_providers db) db /\
    forall i p, providers !! i = Some p -> progress_ok v (hw_breaker s.2) i p 3.
Proof.
  intros [Hl (v & Hdb & Hp) Hn] Hd. unfold all_done in Hd. rewrite List.forallb_forall in Hd.
  assert (Hempty : forall es, es ∈ s.1 -> es = []).
  { intros es Hes%list_elem_of_In%Hd. by destruct es. }
  split.
  - rewrite <- Hn. unfold pending. rewrite keep_none; [simpl; lia|]. apply Forall_forall. intros es Hes%Hempty. by rewrite Hes.
  - exists v. split; [done|]. intros i p Hi. destruct (Hp i p Hi) as (k & Hk & Hki & Hpr).
    apply list_elem_of_lookup_2, Hempty in Hki. unfold todo, checkProvider, updateHealth in Hki.
    destruct k as [|[|[|[|k]]]]; try done. lia.
Qed.

End HealthLemmas.

(** C27: A round of health checks reaches every provider, however the scheduler
    interleaves its goroutines: when all are done and no statement failed,
    each provider's row holds the verdict of its own probe and the instant of
    the check, nothing else in the tables has changed, the circuit breaker has
    been told that verdict about it, and the routing catalog has been notified
    once per provider. *)
Theorem checks_reach_every_provider (fault : nat -> bool) (B : Type) (HB : CircuitBreakerReporter B)
    (client : nat -> string -> Header -> ProbeResult) (clock : nat -> Z) (order : SortSlice)
    (sched : list nat) (w w' : HealthWorld (B:=B)) :
  (forall n, fault n = false) -> wf (cn_db (hw_conn w)) ->
  checkAll fault client clock sched w = Some w' ->
  let db := cn_db (hw_conn w) in
  exists providers rows,
    Permutation providers (db_providers db) /\
    cn_db (hw_conn w') = set_providers rows db /\
    Permutation rows (imap (fun i p => set_health (clock i) (probe client i p) p) providers) /\
    hw_notified w' = (hw_notified w + length providers)%nat /\
    forall i p, providers !! i = Some p ->
      exists b0, cr_of (p_ID p) b0 = cr_of (p_ID p) (hw_breaker w) /\
        cr_of (p_ID p) (hw_breaker w') = cr_of (p_ID p) (cr_report (probe client i p) (p_ID p) b0).
Proof.
  intros Hf W H db. unfold checkAll in H.
  destruct (ListProviders fault (hw_conn w)) as [[e|providers] c] eqn:E.
  { unfold ListProviders, query in E. by rewrite (exec_quiet fault _ _ _ _ Hf eq_refl) in E. }
  apply query_ok in E as [-> Hc]. set (providers := order_by _ _) in *.
  assert (Hperm : Permutation providers (db_providers db)) by apply order_by_perm.
  destruct (run_schedule _ _ _) as [s|] eqn:Er; [|done]. destruct (all_done s) eqn:Ed; [|done]. injection H as <-.
  assert (Hkeys : NoDup (p_ID <$> providers)) by (rewrite Hperm; apply W).
  set (w0 := mkHealthWorld c (hw_breaker w) (hw_notified w)) in *.
  assert (Hs : pool_ok client clock db providers w0 s).
  { eapply pool_run; [exact Hf|exact W|exact Hkeys| |exact Er]. by apply pool_start. }
  apply pool_end in Hs as (Hn & v & Hdb & Hp); [|done..].
  exists providers, (written v <$> db_providers db). split_and!; [done|done| |exact Hn|].
  - rewrite <- Hperm. apply reflexive_eq, list_eq. intros i. rewrite list_lookup_fmap, list_lookup_imap.
    destruct (providers !! i) as [p|] eqn:Ei; [|done]. simpl. f_equal. destruct (Hp i p Ei) as [Hv _]. simpl in Hv.
    unfold written. by rewrite Hv.
  - intros i p Hi. by destruct (Hp i p Hi) as [_ Hr].
Qed.

(** * The router as the reporter *)

Section SmartRouterReporter.
Context `{env : RouterEnv} (s1 s2 : routingSnapshot).

#[export, refine] Instance SmartRouter_Reporter : CircuitBreakerReporter SmartRouter := {|
  cr_success := fun id r => (ReportSuccess s1 s2 id r).2;
  cr_failure := fun id r => (ReportFailure s1 s2 id r).2;
  cr_view := option CircuitBreaker;
  cr_of := fun id r => sr_breakers r !! id;
|}.
Proof.
  - intros id id' r Hne. destruct (router_report_isolated s1 s2 id' r) as (H & _ & _). by apply H, not_eq_sym.
  - intros id id' r Hne. destruct (router_report_isolated s1 s2 id' r) as (_ & H & _). by apply H, not_eq_sym.
Defined.

End SmartRouterReporter.

(** * Witness *)

(** A reporter that keeps the verdicts it is told. *)
#[export, refine] Instance verdict_log : CircuitBreakerReporter (list (string * bool)) := {|
  cr_success := fun id b => b ++ [(id, true)];
  cr_failure := fun id b => b ++ [(id, false)];
  cr_view := list (string * bool);
  cr_of := fun id b => keep (fun v => String.eqb v.1 id) b;
|}.
Proof.
  - intros id id' b Hne. rewrite keep_app. unfold keep at 2. simpl. rewrite (proj2 (String.eqb_neq id' id)) by done.
    apply app_nil_r.
  - intros id id' b Hne. rewrite keep_app. unfold keep at 2. simpl. rewrite (proj2 (String.eqb_neq id' id)) by done.
    apply app_nil_r.
Defined.

Definition two_providers : DB :=
  set_providers [sample_provider; mkProvider "p2" "two" "http://two/" "key" true None 1 1 true f64_half 60 30] empty_db.

Lemma two_providers_wf : wf two_providers.
Proof.
  split; simpl; try apply NoDup_nil_2; try apply Forall_nil_2;
    (apply NoDup_cons_2; [by intros ?%list_elem_of_singleton|apply NoDup_singleton]).
Qed.

Definition sample_client (i : nat) (url : string) (h : Header) : ProbeResult :=
  if String.eqb url "http://two/v1/models" then Status 503 else Status 200.

Lemma checks_reach_every_provider_witness :
  let w := mkHealthWorld (mkConn two_providers 0) ([] : list (string * bool)) 0 in
  exists w', checkAll no_fault sample_client Z.of_nat [1; 0; 1; 0; 0; 1]%nat w = Some w' /\
    hw_notified w' = 2%nat /\ wf two_providers.
Proof.
  intros w.
  destruct (checkAll no_fault sample_client Z.of_nat [1; 0; 1; 0; 0; 1]%nat w) as [w'|] eqn:E; [|by vm_compute in E].
  exists w'. split; [reflexivity|].
  destruct (checks_reach_every_provider no_fault _ _ sample_client Z.of_nat _ [1; 0; 1; 0; 0; 1]%nat w w')
    as (ps & rows & Hp & _ & _ & Hn & _); [done|exact two_providers_wf|exact E|].
  split; [|exact two_providers_wf]. rewrite Hn, Hp. reflexivity.
Defined.
