(* ===== verification/Access.v ===== *)
(** What stands in front of the handlers: the access key of the admin API
    ([internal/auth]), the middlewares of [internal/middleware], the
    configuration read from the environment ([internal/config]) and the
    snapshot of the run-time settings. *)
From S2P Require Import Prelude GoLib Models Http Sql Store.
Local Open Scope Z_scope.
Local Open Scope go_scope.

(** * Writers and handlers *)

(** [http.ResponseWriter], with what the client sees of it to look at: its
    operations act on that view as those of {!Http} do.  [wr_Flush] is there
    when the writer is an [http.Flusher]. *)
Class Writer (S : Type) := {
  wr_view : S -> ResponseWriter;
  wr_Set : string -> string -> S -> S;
  wr_WriteHeader : Z -> S -> S;
  wr_Write : string -> S -> S;
  wr_Flush : option (S -> S);
  wr_view_Set : forall k v s, wr_view (wr_Set k v s) = w_set k v (wr_view s);
  wr_view_WriteHeader : forall c s, wr_view (wr_WriteHeader c s) = WriteHeader c (wr_view s);
  wr_view_Write : forall b s, wr_view (wr_Write b s) = Write_ b (wr_view s);
}.

(** The writer [net/http] hands out; its [Flush] sends the header. *)
#[export] Program Instance ResponseWriter_Writer : Writer ResponseWriter := {|
  wr_view w := w;
  wr_Set := w_set;
  wr_WriteHeader := WriteHeader;
  wr_Write := Write_;
  wr_Flush := Some (WriteHeader 200);
|}.
Solve Obligations with done.

(** What the middlewares write to the logger. *)
Inductive LogLine :=
| LineRequest (request_id method path : string) (status duration_ms : Z) (client_ip : string)
| LinePanic (request_id panic : string).

(** The clock and the logger around a writer. *)
Class Ambient (S : Type) `{Writer S} := {
  am_now : S -> Z * S;
  am_log : LogLine -> S -> S;
  am_lines : S -> list LogLine;
  am_view_now : forall s, wr_view (am_now s).2 = wr_view s;
  am_view_log : forall l s, wr_view (am_log l s) = wr_view s;
  am_lines_now : forall s, am_lines (am_now s).2 = am_lines s;
  am_lines_log : forall l s, am_lines (am_log l s) = am_lines s ++ [l];
  am_lines_Set : forall k v s, am_lines (wr_Set k v s) = am_lines s;
  am_lines_WriteHeader : forall c s, am_lines (wr_WriteHeader c s) = am_lines s;
  am_lines_Write : forall b s, am_lines (wr_Write b s) = am_lines s;
}.

Create HintDb go_writer.
#[export] Hint Rewrite @wr_view_Set @wr_view_WriteHeader @wr_view_Write @am_view_log @am_view_now
  @am_lines_now @am_lines_log @am_lines_Set @am_lines_WriteHeader @am_lines_Write : go_writer.

(** A [http.HandlerFunc]: what it does to its writer, and the panic that
    ended it, if one did. *)
Definition HandlerFunc (S : Type) : Type := Request -> ST S (option string).

Section Middlewares.
Context {S : Type} `{W : Writer S}.

Definition w_header_set (key v : string) : ST S unit := modify (wr_Set key v).
Definition w_write_header (code : Z) : ST S unit := modify (wr_WriteHeader code).
Definition w_write (b : string) : ST S unit := modify (wr_Write b).

(** * The access key *)

(** [extractAccessKey]. *)
Definition extractAccessKey (r : Request) : string :=
  let authHeader := header_get (req_Header r) "Authorization" in
  if negb (str_empty authHeader) && has_prefix authHeader "Bearer " then trim_space (str_drop 7 authHeader)
  else trim_space (header_get (req_Header r) "X-Access-Key").

(** [subtle.ConstantTimeCompare(x, y)], 1 for equal byte strings. *)
Definition ConstantTimeCompare (x y : string) : Z := if String.eqb x y then 1 else 0.

(** [isValidKey]. *)
Definition isValidKey (candidateKey accessKey : string) : bool :=
  if negb (slen candidateKey =? slen accessKey) then false else ConstantTimeCompare candidateKey accessKey =? 1.

(** [ValidateAccessKey]. *)
Definition ValidateAccessKey (accessKey : string) (r : Request) : bool := isValidKey (extractAccessKey r) accessKey.

Definition unauthorized_body : string :=
  "{" +:+ String dquote ("error" +:+ String dquote (":" +:+ String dquote ("unauthorized" +:+ String dquote "}"))).

(** [AccessKeyMiddleware]. *)
Definition AccessKeyMiddleware (accessKey : string) (next : HandlerFunc S) : HandlerFunc S := fun r =>
  if negb (isValidKey (extractAccessKey r) accessKey) then
    w_header_set "Content-Type" "application/json" ;;!
    w_write_header 401 ;;!
    w_write unauthorized_body ;;!
    ret None
  else next r.

(** [CORSMiddleware]. *)
Definition CORSMiddleware (next : HandlerFunc S) : HandlerFunc S := fun r =>
  w_header_set "Access-Control-Allow-Origin" "*" ;;!
  w_header_set "Access-Control-Allow-Methods" "GET, POST, PUT, DELETE, OPTIONS" ;;!
  w_header_set "Access-Control-Allow-Headers" "Authorization, Content-Type, X-Access-Key" ;;!
  if String.eqb (req_Method r) "OPTIONS" then w_write_header 204 ;;! ret None
  else next r.

(** * The other middlewares *)

(** The value under [requestIDKey] of a request's context, and
    [GetRequestID(ctx)]. *)
Abbreviation ContextID := (option string).

Definition GetRequestID (ctx : ContextID) : string := default "" ctx.

(** [RequestID]: [uuid] is what [uuid.NewString] draws; the handlers behind it
    get the context it makes. *)
Definition request_id (uuid : string) (r : Request) : string :=
  let id := header_get (req_Header r) "X-Request-Id" in
  if str_empty id then uuid else id.

Definition RequestID (uuid : string) (next : ContextID -> HandlerFunc S) : HandlerFunc S := fun r =>
  let id := request_id uuid r in
  w_header_set "X-Request-Id" id ;;!
  next (Some id) r.

Definition internal_error_body : string :=
  "{" +:+ String dquote ("error" +:+ String dquote (":" +:+ String dquote
    ("internal server error" +:+ String dquote ("}" +:+ nl)))).

(** [statusRecorder]: the writer it wraps, and the code of the last
    [WriteHeader].  [Unwrap] is the first projection. *)
Record statusRecorder := mkRecorder { sr_ResponseWriter : S; sr_statusCode : Z }.

Definition on_recorded (f : S -> S) (sr : statusRecorder) : statusRecorder :=
  mkRecorder (f (sr_ResponseWriter sr)) (sr_statusCode sr).

Definition recorder_WriteHeader (code : Z) (sr : statusRecorder) : statusRecorder :=
  mkRecorder (wr_WriteHeader code (sr_ResponseWriter sr)) code.

(** It is a Flusher whatever it wraps, so that streams can be sent. *)
Definition recorder_Flush (sr : statusRecorder) : statusRecorder :=
  match wr_Flush with Some flush => on_recorded flush sr | None => sr end.

#[export] Program Instance statusRecorder_Writer : Writer statusRecorder := {|
  wr_view sr := wr_view (sr_ResponseWriter sr);
  wr_Set k v := on_recorded (wr_Set k v);
  wr_WriteHeader := recorder_WriteHeader;
  wr_Write b := on_recorded (wr_Write b);
  wr_Flush := Some recorder_Flush;
|}.
Next Obligation. intros. apply wr_view_Set. Qed.
Next Obligation. intros. apply wr_view_WriteHeader. Qed.
Next Obligation. intros. apply wr_view_Write. Qed.

Context `{A : !Ambient S}.

(** [Recovery]: a panic is logged and becomes a 500, as far as the response
    still allows. *)
Definition Recovery (ctx : ContextID) (next : HandlerFunc S) : HandlerFunc S := fun r =>
  let! panic := next r in
  match panic with
  | None => ret None
  | Some v =>
      modify (am_log (LinePanic (GetRequestID ctx) v)) ;;!
      w_header_set "Content-Type" "application/json" ;;!
      w_write_header 500 ;;!
      w_write internal_error_body ;;!
      ret None
  end.

(** The client address [Logging] writes; [split_host_port] is
    [net.SplitHostPort], [None] for an error. *)
Definition logged_client_ip (split_host_port : string -> option string) (r : Request) : string :=
  let xff := header_get (req_Header r) "X-Forwarded-For" in
  if negb (str_empty xff) then trim_space (before_byte "," xff)
  else match split_host_port (req_RemoteAddr r) with Some host => host | None => req_RemoteAddr r end.

(** [Logging]: the line is written when [next] returns; a panic passes it by. *)
Definition Logging (split_host_port : string -> option string) (ctx : ContextID)
    (next : HandlerFunc statusRecorder) : HandlerFunc S := fun r s =>
  let '(start, s) := am_now s in
  match next r (mkRecorder s 200) with
  | (Some v, rec) => (Some v, sr_ResponseWriter rec)
  | (None, rec) =>
      let '(now, s) := am_now (sr_ResponseWriter rec) in
      (None, am_log (LineRequest (GetRequestID ctx) (req_Method r) (req_Path r) (sr_statusCode rec)
        (milliseconds (time_sub now start)) (logged_client_ip split_host_port r)) s)
  end.

End Middlewares.
Arguments statusRecorder : clear implicits.

(** The chain of [main]: request id, recovery, logging, CORS, then the
    routes. *)
Definition middlewares {S} `{Ambient S} (split_host_port : string -> option string) (uuid : string)
    (routes : HandlerFunc (statusRecorder S)) : HandlerFunc S :=
  RequestID uuid (fun ctx => Recovery ctx (Logging split_host_port ctx (CORSMiddleware routes))).

(** * Configuration from the environment *)

Record Config := mkConfig {
  c_AccessKey : string;
  c_Port : string;
  c_DBDriver : string;
  c_DBPath : string;
  c_LegacyDBPath : string;
  c_HealthInterval : Z;
  c_LogLevel : string;
  c_MaxBodySize : Z;
}.

Section Load.
(** [os.Getenv], and [time.ParseDuration]. *)
Context (getenv : string -> string) (ParseDuration : string -> option Z).

Definition getEnvOrDefault (key defaultVal : string) : string :=
  let v := getenv key in if str_empty v then defaultVal else v.

Definition parseDurationOrDefault (key : string) (defaultVal : Z) : Z :=
  let v := getenv key in
  if str_empty v then defaultVal else match ParseDuration v with Some d => d | None => defaultVal end.

Definition parseIntOrDefault (key : string) (defaultVal : Z) : Z :=
  let v := getenv key in
  if str_empty v then defaultVal else match atoi v with Some n => n | None => defaultVal end.

(** [config.Load]: [None] is an error. *)
Definition Load_ : option Config :=
  let accessKey := getenv "ACCESS_KEY" in
  if str_empty accessKey then None
  else
    let cfg := mkConfig accessKey (getEnvOrDefault "PORT" "8080") (getEnvOrDefault "DB_DRIVER" "libsql")
      (getEnvOrDefault "DB_PATH" "./llmate.db") (getEnvOrDefault "LEGACY_DB_PATH" "./llmate.db")
      (parseDurationOrDefault "HEALTH_INTERVAL" (30 * Second)) (getEnvOrDefault "LOG_LEVEL" "info")
      (parseIntOrDefault "MAX_BODY_SIZE" (10 * 1024 * 1024)) in
    if bool_decide (c_DBDriver cfg ∈ ["sqlite"; "libsql"]) then Some cfg else None.

End Load.

(** * The snapshot of the run-time settings *)

(** [ConfigSnapshot]. *)
Definition ConfigSnapshot : Type := gmap string string.

Definition NewConfigSnapshot : ConfigSnapshot := ∅.

(** [Reload]: a failed query leaves the snapshot as it is. *)
Definition ConfigSnapshot_Reload (fault : nat -> bool) (s : ConfigSnapshot) : ST Conn (option DBError * ConfigSnapshot) :=
  let! r := GetAllConfig fault in
  ret (match r with
       | inl e => (Some e, s)
       | inr cfg => (None, cfg)
       end).

Definition ConfigSnapshot_Get (s : ConfigSnapshot) : gmap string string := s.

(** * Properties *)

Lemma isValidKey_eq c k : isValidKey c k = String.eqb c k.
Proof.
  unfold isValidKey, ConstantTimeCompare, slen. destruct (String.eqb_spec c k) as [->|Hne].
  - by rewrite Z.eqb_refl.
  - by destruct (negb _).
Qed.

(** The admin API answers only to the access key: a request reaches the
    wrapped handler exactly when the key it carries, the text after [Bearer ]
    in Authorization or else the X-Access-Key header, with the space around it
    removed, is the configured key; any other request is answered 401 and the
    handler sees nothing of it.  A configured key with space around it lets
    nobody in. *)
Theorem access_key_decides {S} `{Writer S} (accessKey : string) (next : HandlerFunc S) (r : Request) (s : S) :
  let granted := extractAccessKey r = accessKey in
  (granted -> AccessKeyMiddleware accessKey next r s = next r s) /\
  (extractAccessKey r <> accessKey ->
   let '(panic, s') := AccessKeyMiddleware accessKey next r s in
   panic = None /\
   (w_sent (wr_view s) = None ->
    w_status (wr_view s') = Some 401 /\ w_body (wr_view s') = w_body (wr_view s) +:+ unauthorized_body)) /\
  (ValidateAccessKey accessKey r = true <-> granted).
Proof.
  intros granted. unfold AccessKeyMiddleware, ValidateAccessKey. rewrite !isValidKey_eq. split_and!.
  - intros ->. by rewrite String.eqb_refl.
  - intros Hne. apply String.eqb_neq in Hne. rewrite Hne. simpl. split; [done|]. intros Hw.
    autorewrite with go_writer. unfold Write_, WriteHeader, w_set, w_status. simpl. by rewrite Hw.
  - apply String.eqb_eq.
Qed.

(** The view of the response a route is given. *)
Definition cors_view (w : ResponseWriter) : ResponseWriter :=
  w_set "Access-Control-Allow-Headers" "Authorization, Content-Type, X-Access-Key"
    (w_set "Access-Control-Allow-Methods" "GET, POST, PUT, DELETE, OPTIONS" (w_set "Access-Control-Allow-Origin" "*" w)).

Lemma cors_view_status w code b : w_sent w = None ->
  w_status (Write_ b (WriteHeader code (cors_view w))) = Some code /\ w_sent (cors_view w) = None.
Proof. unfold cors_view, Write_, WriteHeader, w_set, w_status. simpl. by intros ->. Qed.

(** What becomes of a response when an error is written after it. *)
Lemma late_error w k v code b :
  w_body (Write_ b (WriteHeader code (w_set k v w))) = w_body w +:+ b /\
  w_status (Write_ b (WriteHeader code (w_set k v w))) = Some (default code (w_status w)).
Proof. unfold w_status, Write_, WriteHeader, w_set. cbn. by destruct (w_sent w) as [[]|] eqn:E; cbn; rewrite ?E. Qed.

(** No panic of a route escapes the middlewares, every response names the
    request, and a preflight is answered 204 before any route.  A route that
    returns is logged once, with the code of its last [WriteHeader]; one that
    panics is logged as a panic and has no line of its own: the response
    becomes a 500 with the error as its body, or keeps the status it sent. *)
Theorem middlewares_contain_panics {S} `{Ambient S} (split_host_port : string -> option string) (uuid : string)
    (routes : HandlerFunc (statusRecorder S)) (r : Request) (s : S) (Hfresh : w_sent (wr_view s) = None) :
  let '(panic, s') := middlewares split_host_port uuid routes r s in
  let id := request_id uuid r in
  let line status ms := LineRequest id (req_Method r) (req_Path r) status ms (logged_client_ip split_host_port r) in
  panic = None /\
  (req_Method r = "OPTIONS" ->
   w_status (wr_view s') = Some 204 /\ exists ms, am_lines s' = am_lines s ++ [line 204 ms]) /\
  (req_Method r <> "OPTIONS" ->
   exists rec, sr_statusCode rec = 200 /\ wr_view rec = cors_view (w_set "X-Request-Id" id (wr_view s)) /\
   match routes r rec with
   | (None, rec1) =>
       wr_view s' = wr_view rec1 /\
       exists ms, am_lines s' = am_lines (sr_ResponseWriter rec1) ++ [line (sr_statusCode rec1) ms]
   | (Some v, rec1) =>
       w_body (wr_view s') = w_body (wr_view rec1) +:+ internal_error_body /\
       w_status (wr_view s') = Some (default 500 (w_status (wr_view rec1))) /\
       am_lines s' = am_lines (sr_ResponseWriter rec1) ++ [LinePanic id v]
   end).
Proof.
  unfold middlewares, RequestID, Recovery, Logging, CORSMiddleware, bind, ret, w_header_set, w_write_header, w_write, modify.
  cbn [fst snd]. set (s1 := wr_Set _ _ s). destruct (am_now s1) as [start s2] eqn:E2.
  assert (Hv : wr_view s2 = w_set "X-Request-Id" (request_id uuid r) (wr_view s) /\ am_lines s2 = am_lines s).
  { pose proof (am_view_now s1) as V. pose proof (am_lines_now s1) as L. rewrite E2 in *. simpl in *. subst s1.
    autorewrite with go_writer in *. done. }
  destruct Hv as [Hv Hl]. destruct (String.eqb_spec (req_Method r) "OPTIONS") as [Ho|Ho]; cbn [fst snd].
  - cbn [wr_Set wr_WriteHeader statusRecorder_Writer on_recorded recorder_WriteHeader sr_ResponseWriter sr_statusCode].
    set (s3 := wr_WriteHeader _ _). pose proof (am_view_now s3) as V. pose proof (am_lines_now s3) as L.
    destruct (am_now s3) as [now s4]. simpl in V, L. split; [done|]. split; [intros _|done].
    cbn [fst snd]. autorewrite with go_writer. rewrite V, L. subst s3. autorewrite with go_writer. rewrite Hv, Hl.
    split; [|by eexists]. unfold WriteHeader, w_set, w_status. simpl. by rewrite Hfresh.
  - match goal with |- context [routes r ?x] => set (rec := x) end.
    assert (Hrec : sr_statusCode rec = 200 /\ wr_view rec = cors_view (w_set "X-Request-Id" (request_id uuid r) (wr_view s))).
    { split; [done|]. subst rec. autorewrite with go_writer. cbn [wr_view statusRecorder_Writer sr_ResponseWriter]. by rewrite Hv. }
    destruct (routes r rec) as [[v|] rec1] eqn:Er; cbn [fst snd].
    + split; [done|]. split; [done|]. intros _. exists rec. split_and!; [apply Hrec..|]. rewrite Er.
      autorewrite with go_writer. split_and!; [apply late_error..|done].
    + pose proof (am_view_now (sr_ResponseWriter rec1)) as V. pose proof (am_lines_now (sr_ResponseWriter rec1)) as L.
      destruct (am_now (sr_ResponseWriter rec1)) as [now s4]. simpl in V, L. split; [done|]. split; [done|]. intros _.
      exists rec. split_and!; [apply Hrec..|]. rewrite Er. cbn [fst snd GetRequestID default].
      autorewrite with go_writer. rewrite V, L. split; [done|by eexists].
Qed.

(** * Witness *)

(** A writer with a clock and a logger. *)
Record Console := mkConsole { co_writer : ResponseWriter; co_clock : Z; co_lines : list LogLine }.

Definition on_console (f : ResponseWriter -> ResponseWriter) (c : Console) : Console :=
  mkConsole (f (co_writer c)) (co_clock c) (co_lines c).

#[export] Program Instance Console_Writer : Writer Console := {|
  wr_view := co_writer;
  wr_Set k v := on_console (w_set k v);
  wr_WriteHeader code := on_console (WriteHeader code);
  wr_Write b := on_console (Write_ b);
  wr_Flush := None;
|}.
Solve Obligations with done.

#[export] Program Instance Console_Ambient : Ambient Console := {|
  am_now c := (co_clock c, mkConsole (co_writer c) (co_clock c + Millisecond) (co_lines c));
  am_log l c := mkConsole (co_writer c) (co_clock c) (co_lines c ++ [l]);
  am_lines := co_lines;
|}.
Solve Obligations with done.

(** A route that panics after it has answered. *)
Definition late_panic : HandlerFunc (statusRecorder Console) := fun _ =>
  w_write_header 201 ;;! w_write "{}" ;;! ret (Some "boom").

Definition plain_request : Request := mkRequest "GET" "/x" ∅ 0 "[::1]:80" "" None.

Definition fresh_console : Console := mkConsole new_writer 0 [].

Lemma middlewares_contain_panics_witness :
  let out := middlewares (fun _ => None) "id-1" late_panic plain_request fresh_console in
  out.1 = None /\ w_status (co_writer out.2) = Some 201 /\ co_lines out.2 = [LinePanic "id-1" "boom"].
Proof.
  pose proof (middlewares_contain_panics (fun _ => None) "id-1" late_panic plain_request fresh_console eq_refl) as H.
  intros out. fold out in H. assert (Hl : co_lines out.2 = [LinePanic "id-1" "boom"]) by (vm_compute; reflexivity).
  destruct out as [panic c]. destruct H as (H1 & _ & H2). split; [exact H1|]. split; [|exact Hl].
  assert (Hm : req_Method plain_request <> "OPTIONS") by (vm_compute; discriminate).
  destruct (H2 Hm) as (rec & _ & Hrec & K). unfold late_panic, bind, ret, w_write_header, w_write, modify in K. cbn [fst snd] in K.
  destruct K as (_ & K & _). cbn [co_writer wr_view Console_Writer snd] in K |- *. rewrite K.
  cbn. cbn in Hrec. rewrite Hrec. reflexivity.
Defined.
