(* ===== verification/Reports.v ===== *)
(** The aggregate queries of the store, [internal/db/sqlite_stats.go] and the
    usage queries of [sqlite_api_key.go]: dashboard, time series, lifetime
    cost and usage per key, computed by SQL over the request logs.

    [COUNT] and the integer [SUM]s are exact, and a [SUM] that leaves 64 bits
    is an error.  In which order and with which compensation SQLite adds REAL
    values is its own affair: [SUM] and [AVG] of a list of floats are
    arguments, and so is the row of a group from which a column outside the
    [GROUP BY] is taken. *)
From S2P Require Import Prelude GoLib Float64 Calendar Models Catalog Sql Store Stats.
Local Open Scope Z_scope.
Local Open Scope go_scope.

(** * Values *)

Definition fits64 (z : Z) : bool := (min_int64 <=? z) && (z <=? max_int64).

(** The integer [SUM]: every partial sum must fit. *)
Fixpoint sum_from (acc : Z) (l : list Z) : option Z :=
  match l with
  | [] => Some acc
  | x :: l' => if fits64 (acc + x) then sum_from (acc + x) l' else None
  end.

Definition sum_int (l : list Z) : option Z := sum_from 0 l.

(** [a - b] of two integers, scanned into an [int]: past 64 bits it is a REAL,
    which does not scan. *)
Definition sub_int (a b : Z) : option Z := if fits64 (a - b) then Some (a - b) else None.

(** [CAST(MAX(0, p - c) AS REAL)]; a difference past 64 bits is a REAL. *)
Definition billed_real (p c : Z) : f64 :=
  if fits64 (p - c) then f64_of_Z (Z.max 0 (p - c))
  else let r := f64_sub (f64_of_Z p) (f64_of_Z c) in if f64_ltb f64_zero r then r else f64_zero.

Definition per_million (x rate : f64) : f64 := f64_mul (f64_div x f64_million) rate.

(** The summands of [sqlInputCostExpr], [sqlOutputCostExpr] and
    [sqlCachedCostExpr] for a log joined with its model. *)
Definition sql_input_cost (pm : option ProviderModel) (l : RequestLog) : f64 :=
  match pm ≫= pm_CostPerMillionInput, log_PromptTokens l with
  | Some rate, Some p => per_million (billed_real p (default 0 (log_CachedTokens l))) rate
  | _, _ => f64_zero
  end.

Definition sql_output_cost (pm : option ProviderModel) (l : RequestLog) : f64 :=
  match pm ≫= pm_CostPerMillionOutput, log_CompletionTokens l with
  | Some rate, Some c => per_million (f64_of_Z c) rate
  | _, _ => f64_zero
  end.

Definition sql_cached_cost (pm : option ProviderModel) (l : RequestLog) : f64 :=
  match pm ≫= pm_CostPerMillionCacheRead, log_CachedTokens l with
  | Some rate, Some c => if 0 <? c then per_million (f64_of_Z c) rate else f64_zero
  | _, _ => f64_zero
  end.

(** [LEFT JOIN provider_models] and [LEFT JOIN api_keys], [LEFT JOIN
    providers]: the joined columns are unique, so there is one row at most. *)
Definition joined_model (db : DB) (l : RequestLog) : option ProviderModel :=
  head (keep (model_of (log_ProviderID l) (log_ResolvedModel l)) (db_models db)).
Definition joined_key (db : DB) (id : string) : option APIKey :=
  head (keep (fun k => String.eqb (k_ID k) id) (db_keys db)).
Definition joined_provider (db : DB) (id : string) : option Provider :=
  head (keep (fun p => String.eqb (p_ID p) id) (db_providers db)).

(** [timestamp >= ? AND timestamp <= ?] and, for a key, [AND api_key_id = ?]. *)
Definition in_range (since until : Z) (apiKeyID : string) (l : RequestLog) : bool :=
  (since <=? log_Timestamp l) && (log_Timestamp l <=? until) &&
  (if str_empty apiKeyID then true else String.eqb (log_APIKeyID l) apiKeyID).

(** [MAX] of a text column, and [MIN] and [MAX] of the instants. *)
Definition max_text (l : list string) : option string :=
  match l with
  | [] => None
  | s :: l' => Some (fold_left (fun a b => if string_ltb a b then b else a) l' s)
  end.
Definition max_time (l : list Z) : option Z :=
  match l with [] => None | t :: l' => Some (fold_left Z.max l' t) end.
Definition min_time (l : list Z) : option Z :=
  match l with [] => None | t :: l' => Some (fold_left Z.min l' t) end.

(** [t.Format(time.RFC3339)] in UTC. *)
Definition format_rfc3339 (t : Z) : string :=
  format_date (time_date t) (String "T" (pad2 (time_hour t) (String ":" (pad2 (t mod Hour / Minute)
    (String ":" (pad2 (t mod Minute / Second) "Z")))))).

Example format_rfc3339_leap : format_rfc3339 (1709209805 * Second) = "2024-02-29T12:30:05Z".
Proof. vm_compute. reflexivity. Qed.

(** [models.APIKeyUsage] and [models.LifetimeCost]. *)
Record APIKeyUsage := mkUsageRow {
  au_APIKeyID : string;
  au_APIKeyName : string;
  au_RequestCount : Z;
  au_TotalTokens : Z;
  au_TotalCostUSD : f64;
  au_LastUsedAt : option Z;
}.

Record LifetimeCost := mkLifetime {
  lt_TotalCostUSD : f64;
  lt_InputCostUSD : f64;
  lt_OutputCostUSD : f64;
  lt_CachedCostUSD : f64;
  lt_TotalRequests : Z;
  lt_TotalTokens : Z;
  lt_FirstRequest : option string;
  lt_LastRequest : option string;
}.

(** * Queries *)

Section Reports.
Context (fault : nat -> bool) `{order : SortSlice}.
Context (sum_real avg_real : list f64 -> f64) (bare_row : list RequestLog -> option RequestLog).

(** A query whose result may not be computable. *)
Definition query_or {A} (e : DBError) (f : DB -> option A) : Exec A :=
  exec fault (fun db => match f db with Some a => inr (a, db) | None => inl e end).

Definition count_rows64 (l : list RequestLog) : Z := wrap64 (Z.of_nat (length l)).

(** [AVG(CAST(total_time_ms AS REAL))] is NULL without rows. *)
Definition avg_latency (l : list RequestLog) : f64 :=
  match l with [] => f64_zero | _ => avg_real ((fun x => f64_of_Z (log_TotalTimeMs x)) <$> l) end.

(** [SUM(CASE WHEN status_code >= 400 THEN 1 ELSE 0 END)]. *)
Definition error_count (l : list RequestLog) : option Z := sum_int ((fun x => Z.b2z (is_error x)) <$> l).

(** The groups of [GROUP BY key]. *)
Definition groups (key : RequestLog -> string) (rows : list RequestLog) : list (string * list RequestLog) :=
  (fun k => (k, of_key key k rows)) <$> remove_dups (key <$> rows).

(** One row of a breakdown. *)
Definition group_row (name : string -> list RequestLog -> string) (tok : RequestLog -> Z)
    (kl : string * list RequestLog) : option GroupStats :=
  errors ← error_count kl.2;
  tokens ← sum_int (tok <$> kl.2);
  Some (mkGroup kl.1 (name kl.1 kl.2) (count_rows64 kl.2) (avg_latency kl.2) errors tokens).

Definition breakdown_rows (key : RequestLog -> string) (name : string -> list RequestLog -> string)
    (tok : RequestLog -> Z) (rows : list RequestLog) : option (list GroupStats) :=
  order_by (desc_int g_RequestCount) <$> mapM (group_row name tok) (groups key rows).

Definition breakdown_query (key : RequestLog -> string) (name : DB -> string -> list RequestLog -> string)
    (tok : RequestLog -> Z) (sel : RequestLog -> bool) : Exec (list GroupStats) :=
  query_or ErrOverflow (fun db => breakdown_rows key (name db) tok (keep sel (db_logs db))).

(** The name columns of the three breakdowns. *)
Definition model_name (db : DB) (k : string) (l : list RequestLog) : string := k.

Definition provider_name (db : DB) (k : string) (l : list RequestLog) : string :=
  match joined_provider db k with
  | Some p => p_Name p
  | None => match bare_row l with Some r => log_ProviderName r | None => EmptyString end
  end.

Definition key_name (db : DB) (k : string) (l : list RequestLog) : string :=
  let stored := match bare_row l with Some r => log_APIKeyName r | None => EmptyString end in
  if str_empty k then "No API key"
  else
    match joined_key db k with
    | Some ak => if str_empty (k_Name ak) then (if str_empty stored then k else stored) else k_Name ak
    | None => if str_empty stored then k else stored
    end.

(** [dashboardStats]; an empty key id stands for all keys. *)
Definition dashboardStats (since until : Z) (apiKeyID : string) : Exec DashboardStats :=
  let sel := in_range since until apiKeyID in
  sql! total := query fault (fun db => count_rows64 (keep sel (db_logs db))) in
  sql! (avg, rate) :=
    (if 0 <? total then
       sql! avg := query fault (fun db => avg_latency (keep sel (db_logs db))) in
       sql! errors := query_or ErrOverflow (fun db => error_count (keep sel (db_logs db))) in
       eret (avg, f64_div (f64_of_Z errors) (f64_of_Z total))
     else eret (f64_zero, f64_zero)) in
  sql! byModel := breakdown_query stats_model model_name log_tokens sel in
  if negb (str_empty apiKeyID) then eret (mkDashboard total avg rate byModel [] [])
  else
    sql! byProvider := breakdown_query log_ProviderID provider_name (fun _ => 0) sel in
    sql! byAPIKey := breakdown_query log_APIKeyID key_name log_tokens sel in
    eret (mkDashboard total avg rate byModel byProvider byAPIKey).

Definition GetDashboardStats (since until : Z) : Exec DashboardStats := dashboardStats since until EmptyString.
Definition GetDashboardStatsForAPIKey (apiKeyID : string) (since until : Z) : Exec DashboardStats :=
  dashboardStats since until apiKeyID.

(** ** Time series *)

(** [bucketExpr]: NULL outside the years the text has four digits for. *)
Definition bucket_expr (granularity : string) (t : Z) : option string :=
  if four_digits t then Some (if String.eqb granularity "hour" then format_hour t else format_day t) else None.

(** One row of the query: the sums over a bucket. *)
Definition series_row (db : DB) (kl : string * list RequestLog) : option TimeSeriesPoint :=
  let '(bucket, l) := kl in
  let sum f := sum_int (f <$> l) in
  success ← sum (fun x => Z.b2z (is_success x));
  errors ← error_count l;
  prompt ← sum (fun x => default 0 (log_PromptTokens x));
  cached ← sum (fun x => default 0 (log_CachedTokens x));
  input ← sub_int prompt cached;
  completion ← sum (fun x => default 0 (log_CompletionTokens x));
  tokens ← sum log_tokens;
  let cost (f : option ProviderModel -> RequestLog -> f64) := sum_real ((fun x => f (joined_model db x) x) <$> l) in
  Some (mkPoint bucket (count_rows64 l) success errors input prompt completion tokens cached
    (f64_add (f64_add (cost sql_input_cost) (cost sql_output_cost)) (cost sql_cached_cost))
    (cost sql_input_cost) (cost sql_output_cost) (cost sql_cached_cost)).

Definition series_rows (granularity : string) (sel : RequestLog -> bool) : Exec (gmap string TimeSeriesPoint) :=
  query_or ErrScan (fun db =>
    let rows := keep sel (db_logs db) in
    if forallb (fun x => four_digits (log_Timestamp x)) rows then
      points ← mapM (series_row db) (groups (fun x => default EmptyString (bucket_expr granularity (log_Timestamp x))) rows);
      Some (list_to_map ((fun p => (tp_Bucket p, p)) <$> points))
    else None).

(** The axis: every bucket between the bounds, filled from the rows. *)
Definition point_or_empty (data : gmap string TimeSeriesPoint) (bucket : string) : TimeSeriesPoint :=
  default (empty_point bucket) (data !! bucket).

Definition axis (fuel : nat) (granularity : string) (since until : Z) (data : gmap string TimeSeriesPoint) :
    option (list TimeSeriesPoint) :=
  if String.eqb granularity "hour" then
    steps fuel (time_truncate since Hour) until Hour (fun t => point_or_empty data (format_hour t))
  else steps fuel (time_truncate since Day) until Day (fun t => point_or_empty data (format_day t)).

(** [timeSeries]: out of fuel is [inr None]; [inl None] is the error of an
    unknown granularity. *)
Definition timeSeries (fuel : nat) (since until : Z) (granularity apiKeyID : string) :
    Exec (option (list TimeSeriesPoint)) :=
  if negb (String.eqb granularity "hour" || String.eqb granularity "day") then efail ErrScan
  else
    sql! data := series_rows granularity (in_range since until apiKeyID) in
    eret (axis fuel granularity since until data).

Definition GetTimeSeries (fuel : nat) (since until : Z) (granularity : string) : Exec (option (list TimeSeriesPoint)) :=
  timeSeries fuel since until granularity EmptyString.
Definition TimeSeriesByAPIKey (fuel : nat) (apiKeyID : string) (since until : Z) (granularity : string) :
    Exec (option (list TimeSeriesPoint)) := timeSeries fuel since until granularity apiKeyID.

(** ** Lifetime cost *)

Definition lifetime_row (db : DB) (l : list RequestLog) : option LifetimeCost :=
  tokens ← sum_int (log_tokens <$> l);
  let cost (f : option ProviderModel -> RequestLog -> f64) := sum_real ((fun x => f (joined_model db x) x) <$> l) in
  let input := cost sql_input_cost in
  let output := cost sql_output_cost in
  let cached := cost sql_cached_cost in
  Some (mkLifetime (f64_add (f64_add input output) cached) input output cached (count_rows64 l) tokens
    (format_rfc3339 <$> min_time (log_Timestamp <$> l)) (format_rfc3339 <$> max_time (log_Timestamp <$> l))).

(** [lifetimeCost]. *)
Definition lifetimeCost (apiKeyID : string) : Exec LifetimeCost :=
  query_or ErrOverflow (fun db =>
    lifetime_row db (keep (fun l => if str_empty apiKeyID then true else String.eqb (log_APIKeyID l) apiKeyID) (db_logs db))).

Definition GetLifetimeCost : Exec LifetimeCost := lifetimeCost EmptyString.
Definition GetLifetimeCostForAPIKey (apiKeyID : string) : Exec LifetimeCost := lifetimeCost apiKeyID.

(** ** Usage per key *)

Definition usage_row (db : DB) (kl : string * list RequestLog) : option APIKeyUsage :=
  let '(k, l) := kl in
  tokens ← sum_int (log_tokens <$> l);
  let name :=
    match joined_key db k with
    | Some ak => k_Name ak
    | None => default EmptyString (max_text (log_APIKeyName <$> l))
    end in
  Some (mkUsageRow k name (count_rows64 l) tokens
    (sum_real ((fun x => default f64_zero (log_EstimatedCostUSD x)) <$> l)) (max_time (log_Timestamp <$> l))).

Definition cost_desc (a b : APIKeyUsage) : bool := f64_ltb (au_TotalCostUSD b) (au_TotalCostUSD a).

Definition UsageByAPIKey (since until : Z) : Exec (list APIKeyUsage) :=
  query_or ErrOverflow (fun db =>
    order_by cost_desc <$> mapM (usage_row db)
      (groups log_APIKeyID (keep (fun l => negb (str_empty (log_APIKeyID l)) && in_range since until EmptyString l) (db_logs db)))).

Definition UsageByAPIKeyModel (apiKeyID : string) (since until : Z) : Exec (list GroupStats) :=
  breakdown_query stats_model model_name log_tokens
    (fun l => String.eqb (log_APIKeyID l) apiKeyID && in_range since until EmptyString l).

End Reports.

(** * Lemmas *)

(** ** Sums *)

Lemma fits64_spec z : fits64 z = true <-> in_int64 z.
Proof. unfold fits64, in_int64. split; intros; [blia|]. apply andb_true_iff. split; apply Z.leb_le; lia. Qed.

Lemma sum_from_spec l acc n : fits64 acc = true -> sum_from acc l = Some n -> n = acc + zsum id l /\ in_int64 n.
Proof.
  revert acc. induction l as [|x l IH]; intros acc Ha; simpl.
  - intros [= <-]. split; [lia|by apply fits64_spec].
  - destruct (fits64 (acc + x)) eqn:E; [|done]. intros H. destruct (IH _ E H) as [-> ?]. split; [simpl; unfold id; lia|done].
Qed.

Lemma zsum_fmap {A} (f : A -> Z) (l : list A) : zsum id (f <$> l) = zsum f l.
Proof. induction l as [|x l IH]; csimpl; [done|]. by rewrite IH. Qed.

(** An integer [SUM] that returns is exact. *)
Lemma sum_int_counts (f : RequestLog -> Z) l n : sum_int (f <$> l) = Some n -> n = zsum f l /\ counts f l n.
Proof.
  intros [H1 H2]%sum_from_spec; [|done]. rewrite zsum_fmap, Z.add_0_l in H1. split; [done|].
  unfold counts. by rewrite <- H1, wrap64_id.
Qed.

Lemma count_rows64_counts l : counts (fun _ => 1) l (count_rows64 l).
Proof. unfold counts, count_rows64. by rewrite zsum_length. Qed.

(** ** Groups *)

Section GroupLemmas.
Context `{order : SortSlice} (avg_real : list f64 -> f64).

Lemma groups_spec key rows k l : (k, l) ∈ groups key rows <-> l = of_key key k rows /\ exists x, x ∈ rows /\ key x = k.
Proof.
  unfold groups. rewrite list_elem_of_fmap. setoid_rewrite elem_of_remove_dups. setoid_rewrite list_elem_of_fmap. split.
  - intros (k' & [= -> ->] & x & -> & Hx). split; [done|by exists x].
  - intros (-> & x & Hx & <-). exists (key x). split; [done|by exists x].
Qed.

Lemma groups_keys key rows : (groups key rows).*1 = remove_dups (key <$> rows).
Proof. unfold groups. rewrite <- list_fmap_compose. apply list_fmap_id. Qed.

(** Rows computed group by group carry the keys of the groups. *)
Lemma rows_of_groups {B} (f : string * list RequestLog -> option B) (bkey : B -> string) key rows bs :
  (forall kl b, f kl = Some b -> bkey b = kl.1) ->
  mapM f (groups key rows) = Some bs ->
  NoDup (bkey <$> bs) /\ bkey <$> bs = remove_dups (key <$> rows) /\
  (forall b, b ∈ bs -> f (bkey b, of_key key (bkey b) rows) = Some b) /\
  (forall k, k ∈ bkey <$> bs <-> exists x, x ∈ rows /\ key x = k).
Proof.
  intros Hf H%mapM_Some.
  assert (Hk : bkey <$> bs = (groups key rows).*1).
  { clear -Hf H. induction H as [|kl b gs bs Hb _ IH]; csimpl; [done|]. by rewrite IH, (Hf _ _ Hb). }
  rewrite groups_keys in Hk. split_and!; [rewrite Hk; apply NoDup_remove_dups|done| |].
  - intros b [i Hi]%list_elem_of_lookup_1. destruct (Forall2_lookup_r _ _ _ _ _ H Hi) as ([k l] & Hin%list_elem_of_lookup_2 & Hb). pose proof (Hf _ _ Hb) as E. simpl in E. subst k.
    by apply groups_spec in Hin as [-> _].
  - intros k. rewrite Hk, elem_of_remove_dups, list_elem_of_fmap. naive_solver.
Qed.

(** The rows of a breakdown are the summary of the logs by key. *)
Lemma breakdown_rows_ok key name tok rows gs :
  breakdown_rows avg_real key name tok rows = Some gs -> breakdown_of key tok rows gs.
Proof.
  unfold breakdown_rows. intros (gs' & H & ->)%fmap_Some.
  assert (Hrow : forall kl g, group_row avg_real name tok kl = Some g -> row_ok tok kl.1 kl.2 g).
  { intros [k l] g. unfold group_row, error_count.
    intros (e & He & (t & Ht & [= <-])%bind_Some)%bind_Some. apply sum_int_counts in He as [_ He], Ht as [_ Ht].
    split; simpl; auto using count_rows64_counts. }
  apply (rows_of_groups _ g_Key) in H as (Hn & _ & Hg & Hall); [|by intros kl g Hg; apply Hrow in Hg as []].
  pose proof (order_by_perm (desc_int g_RequestCount) gs') as Hp. split.
  - by rewrite Hp.
  - intros g Hin. rewrite Hp in Hin. by apply Hg, Hrow in Hin.
  - intros k. by rewrite Hp.
  - pose proof (sort_slice_sorted (desc_int g_RequestCount) gs' _) as Hs. clear -Hs.
    unfold order_by. induction Hs as [|x l Hs IH Hx]; constructor; [done|].
    eapply Forall_impl; [exact Hx|]. unfold desc_int. simpl. intros y Hy. blia.
Qed.

End GroupLemmas.

Section QueryLemmas.
Context (fault : nat -> bool).

Lemma query_or_ok {A} e (f : DB -> option A) c a c' :
  query_or fault e f c = (inr a, c') -> f (cn_db c) = Some a /\ cn_db c' = cn_db c.
Proof. intros H%exec_ok. destruct (f (cn_db c)) as [x|]; by simplify_eq/=. Qed.

End QueryLemmas.

(** The logs a report is about: those between the two instants, both
    included, and of the key when one is given. *)
Definition window_logs (since until : Z) (apiKeyID : string) (db : DB) : list RequestLog :=
  keep (fun l => bool_decide (since <= log_Timestamp l <= until /\ (apiKeyID = EmptyString \/ log_APIKeyID l = apiKeyID)))
    (db_logs db).

Lemma window_logs_in_range since until apiKeyID db :
  window_logs since until apiKeyID db = keep (in_range since until apiKeyID) (db_logs db).
Proof.
  apply keep_ext. intros l _. apply eq_true_iff_eq. rewrite bool_decide_eq_true. unfold in_range, str_empty.
  destruct (String.eqb_spec apiKeyID EmptyString), (String.eqb_spec (log_APIKeyID l) apiKeyID);
    rewrite ?andb_true_r, ?andb_false_r, ?andb_true_iff, ?Z.leb_le; naive_solver.
Qed.

(** C33: The SQL dashboard is the summary of the logs of its window, the
    specification the in-memory dashboard meets as well: when the queries
    succeed they change nothing, the total is the number of logs in the
    window, the error rate the correctly rounded share of those with status
    400 or more, and each breakdown has one row per model, provider and key
    with a log, most requests first, with exact request, error and token
    counts.  The dashboard of one key counts the logs of that key only and
    names no provider and no other key. *)
Theorem sql_dashboard_counts_the_logs (fault : nat -> bool) (order : SortSlice) (avg_real : list f64 -> f64)
    (bare_row : list RequestLog -> option RequestLog) (since until : Z) (apiKeyID : string) (c c' : Conn)
    (d : DashboardStats) :
  dashboardStats fault avg_real bare_row since until apiKeyID c = (inr d, c') ->
  let logs := window_logs since until apiKeyID (cn_db c) in
  let total := wrap64 (Z.of_nat (length logs)) in
  let errors := Z.of_nat (length (keep is_error logs)) in
  cn_db c' = cn_db c /\
  ds_TotalRequests d = total /\
  ds_ErrorRate d = (if 0 <? total then f64_div (f64_of_Z errors) (f64_of_Z total) else f64_zero) /\
  breakdown_of stats_model log_tokens logs (ds_ByModel d) /\
  (if str_empty apiKeyID then
     breakdown_of log_ProviderID (fun _ => 0) logs (ds_ByProvider d) /\
     breakdown_of log_APIKeyID log_tokens logs (ds_ByAPIKey d)
   else ds_ByProvider d = [] /\ ds_ByAPIKey d = []).
Proof.
  rewrite window_logs_in_range. intros H logs total errors. unfold dashboardStats in H.
  apply ebind_ok in H as (n & c1 & [-> E1]%query_ok & H). apply ebind_ok in H as ([avg rate] & c2 & H2 & H).
  assert (cn_db c2 = cn_db c /\ rate = if 0 <? total then f64_div (f64_of_Z errors) (f64_of_Z total) else f64_zero) as [E2 ->].
  { change (count_rows64 _) with total in H2. destruct (0 <? total).
    - apply ebind_ok in H2 as (a & c3 & [-> E3]%query_ok & H2). apply ebind_ok in H2 as (e & c4 & [He E4]%query_or_ok & H2).
      injection H2 as <- <- <-. split; [congruence|]. rewrite E3, E1 in He. apply sum_int_counts in He as [-> _].
      by rewrite zsum_count.
    - by injection H2 as <- <- <-. }
  apply ebind_ok in H as (ms & c3 & [Hm E3]%query_or_ok & H). rewrite E2 in Hm. apply breakdown_rows_ok in Hm.
  destruct (str_empty apiKeyID) eqn:Ek; simpl in H.
  - apply ebind_ok in H as (ps & c4 & [Hp E4]%query_or_ok & H). apply ebind_ok in H as (ks & c5 & [Hk E5]%query_or_ok & H).
    rewrite E3, E2 in Hp. rewrite E4, E3, E2 in Hk. apply breakdown_rows_ok in Hp, Hk.
    injection H as <- <-. by split; [congruence|].
  - injection H as <- <-. by split; [congruence|].
Qed.

(** ** Time series *)

Definition bucket_step (granularity : string) : Z := if String.eqb granularity "hour" then Hour else Day.
Definition bucket_name (granularity : string) (t : Z) : string :=
  if String.eqb granularity "hour" then format_hour t else format_day t.

Lemma bucket_expr_name granularity t : four_digits t = true -> bucket_expr granularity t = Some (bucket_name granularity t).
Proof. unfold bucket_expr. by intros ->. Qed.

Lemma truncate_day_twice t : time_truncate (time_truncate t Day) Day = time_truncate t Day.
Proof. rewrite <- !day_start, Z.div_mul; done. Qed.

Lemma bucket_name_start granularity t :
  bucket_name granularity (time_truncate t (bucket_step granularity)) = bucket_name granularity t.
Proof.
  unfold bucket_name, bucket_step. destruct (String.eqb granularity "hour").
  - unfold format_hour, time_date. by destruct (truncate_hour_day t) as [-> ->].
  - rewrite <- day_start. unfold format_day. by rewrite (proj1 (day_of_start t)).
Qed.

Lemma bucket_name_inj granularity t u : four_digits t = true -> four_digits u = true ->
  bucket_name granularity t = bucket_name granularity u ->
  time_truncate t (bucket_step granularity) = time_truncate u (bucket_step granularity).
Proof.
  unfold bucket_name, bucket_step. destruct (String.eqb granularity "hour"); eauto using format_hour_inj, format_day_inj.
Qed.

(** An instant of the axis is the start of its bucket. *)
Lemma axis_aligned granularity t (i : nat) :
  let step := bucket_step granularity in
  let u := time_truncate t step + Z.of_nat i * step in time_truncate u step = u.
Proof.
  intros step u. assert (Hs : time_truncate (time_truncate t step) step = time_truncate t step).
  { unfold step, bucket_step. destruct (String.eqb _ _); [apply truncate_hour_twice|apply truncate_day_twice]. }
  assert (0 < step) by (unfold step, bucket_step; by destruct (String.eqb _ _)).
  unfold u, time_truncate in *. set (s := t - (t - time_zero) mod step) in *.
  replace (s + Z.of_nat i * step - time_zero) with (s - time_zero + Z.of_nat i * step) by lia.
  rewrite Z.mod_add by lia. lia.
Qed.

(** The counters of a point are the sums over the given logs. *)
Record point_sums (l : list RequestLog) (p : TimeSeriesPoint) : Prop := mkPointSums {
  ps_requests : counts (fun _ => 1) l (tp_Requests p);
  ps_success : counts (fun x => Z.b2z (is_success x)) l (tp_SuccessCount p);
  ps_errors : counts (fun x => Z.b2z (is_error x)) l (tp_ErrorCount p);
  ps_prompt : counts (fun x => default 0 (log_PromptTokens x)) l (tp_PromptTokens p);
  ps_completion : counts (fun x => default 0 (log_CompletionTokens x)) l (tp_CompletionTokens p);
  ps_tokens : counts log_tokens l (tp_TotalTokens p);
  ps_cached : counts (fun x => default 0 (log_CachedTokens x)) l (tp_CachedTokens p);
  ps_input : tp_InputTokens p = tp_PromptTokens p - tp_CachedTokens p;
}.

Section SeriesLemmas.
Context (fault : nat -> bool) (sum_real : list f64 -> f64).

Lemma series_row_ok db kl p :
  series_row sum_real db kl = Some p -> tp_Bucket p = kl.1 /\ point_sums kl.2 p.
Proof.
  destruct kl as [k l]. unfold series_row, error_count.
  intros (s & Hs & (e & He & (pr & Hp & (ca & Hc & (i & Hi & (co & Hco & (t & Ht & [= <-])%bind_Some)%bind_Some)%bind_Some)%bind_Some)%bind_Some)%bind_Some)%bind_Some.
  apply sum_int_counts in Hs as [_ Hs], He as [_ He], Hp as [_ Hp], Hc as [_ Hc], Hco as [_ Hco], Ht as [_ Ht].
  split; [done|]. unfold sub_int in Hi. destruct (fits64 _); simplify_eq/=. split; simpl; auto using count_rows64_counts.
Qed.

Lemma empty_point_sums k : point_sums [] (empty_point k).
Proof. by split. Qed.

Lemma list_to_map_rows (ps : list TimeSeriesPoint) k p :
  NoDup (tp_Bucket <$> ps) ->
  (list_to_map ((fun p => (tp_Bucket p, p)) <$> ps) : gmap string TimeSeriesPoint) !! k = Some p <-> p ∈ ps /\ tp_Bucket p = k.
Proof.
  intros Hn. rewrite <- elem_of_list_to_map.
  - rewrite list_elem_of_fmap. naive_solver.
  - by rewrite <- list_fmap_compose.
Qed.

(** The rows of the series by bucket: the logs of the bucket, or none. *)
Lemma series_rows_ok granularity sel c data c' :
  series_rows fault sum_real granularity sel c = (inr data, c') ->
  cn_db c' = cn_db c /\
  let logs := keep sel (db_logs (cn_db c)) in
  Forall (fun x => four_digits (log_Timestamp x) = true) logs /\
  forall t, four_digits t = true -> time_truncate t (bucket_step granularity) = t ->
    tp_Bucket (point_or_empty data (bucket_name granularity t)) = bucket_name granularity t /\
    point_sums (keep (fun x => time_truncate (log_Timestamp x) (bucket_step granularity) =? t) logs)
      (point_or_empty data (bucket_name granularity t)).
Proof.
  intros [H E]%query_or_ok. split; [done|]. intros logs. fold logs in H.
  cbv zeta in H. destruct (forallb (fun x => four_digits (log_Timestamp x)) logs) eqn:Hd; [|done]. rewrite forallb_forall in Hd.
  split; [apply Forall_forall; intros x Hx; apply Hd; by rewrite <- list_elem_of_In|].
  apply bind_Some in H as (ps & H & [= <-]). set (key := fun x => default EmptyString (bucket_expr granularity (log_Timestamp x))) in H.
  apply (rows_of_groups _ tp_Bucket) in H as (Hn & _ & Hrow & Hall); [|by intros kl p Hp; apply series_row_ok in Hp as [? _]].
  intros t Ht Hal.
  assert (Hl : of_key key (bucket_name granularity t) logs =
    keep (fun x => time_truncate (log_Timestamp x) (bucket_step granularity) =? t) logs).
  { apply keep_ext. intros x Hx. rewrite list_elem_of_In in Hx. specialize (Hd _ Hx). unfold key.
    rewrite bucket_expr_name by done. simpl.
    destruct (Z.eqb_spec (time_truncate (log_Timestamp x) (bucket_step granularity)) t) as [Et|Et].
    - apply String.eqb_eq. by rewrite <- Et, bucket_name_start.
    - apply String.eqb_neq. intros En. apply Et. rewrite <- Hal. by apply bucket_name_inj. }
  unfold point_or_empty. destruct (_ !! bucket_name granularity t) as [p|] eqn:Ep; simpl.
  - apply list_to_map_rows in Ep as [Hp Hk]; [|done]. apply Hrow in Hp. rewrite Hk, Hl in Hp.
    by apply series_row_ok in Hp.
  - split; [done|]. rewrite <- Hl. replace (of_key key _ logs) with (@nil RequestLog); [apply empty_point_sums|].
    symmetry. destruct (of_key key (bucket_name granularity t) logs) as [|x l'] eqn:El; [done|]. exfalso.
    assert (bucket_name granularity t ∈ tp_Bucket <$> ps) as Hin.
    { apply Hall. apply of_key_nonempty. by rewrite El. }
    apply list_elem_of_fmap in Hin as (p & Hk & Hp).
    assert ((list_to_map ((fun p => (tp_Bucket p, p)) <$> ps) : gmap string TimeSeriesPoint) !! bucket_name granularity t = Some p)
      by (by apply list_to_map_rows). congruence.
Qed.

End SeriesLemmas.

(** C32: The time series accounts for every request of its window: when the
    query succeeds it changes nothing and, with fuel for the buckets between
    the bounds, the axis has exactly one point for each hour (or day) of the
    window, in order and named after it; the counters of a point are the exact
    sums over the logs of the window in that bucket, zero where there are
    none, and every log of the window is counted by some point. *)
Theorem sql_series_accounts_for_every_request (fault : nat -> bool) (sum_real : list f64 -> f64) (fuel : nat)
    (since until : Z) (granularity apiKeyID : string) (c c' : Conn) (r : option (list TimeSeriesPoint)) :
  let step := bucket_step granularity in
  let start := time_truncate since step in
  let n := steps_count start until step in
  let logs := window_logs since until apiKeyID (cn_db c) in
  (n < fuel)%nat -> (forall t, start <= t <= until -> four_digits t = true) ->
  timeSeries fault sum_real fuel since until granularity apiKeyID c = (inr r, c') ->
  cn_db c' = cn_db c /\
  exists points, r = Some points /\ length points = n /\
    (forall i, (i < n)%nat ->
       let t := start + Z.of_nat i * step in
       exists p, points !! i = Some p /\ tp_Bucket p = bucket_name granularity t /\
         point_sums (keep (fun x => time_truncate (log_Timestamp x) step =? t) logs) p) /\
    (forall x, x ∈ logs -> exists i, (i < n)%nat /\ time_truncate (log_Timestamp x) step = start + Z.of_nat i * step).
Proof.
  rewrite window_logs_in_range. intros step start n logs Hf Hy H. unfold timeSeries in H.
  destruct (String.eqb granularity "hour" || String.eqb granularity "day") eqn:Hg; [|done]. simpl in H.
  apply ebind_ok in H as (data & c1 & [E Hrows]%series_rows_ok & H). injection H as <- <-. split; [done|].
  destruct Hrows as [_ Hrows]. fold logs in Hrows.
  assert (Hstep : 0 < step) by (unfold step, bucket_step; by destruct (String.eqb _ _)).
  assert (Ha : axis fuel granularity since until data =
    Some (map (fun i => point_or_empty data (bucket_name granularity (start + Z.of_nat i * step))) (seq 0 n))).
  { unfold axis, n, start, step, bucket_step, bucket_name in *. destruct (String.eqb granularity "hour"); by rewrite steps_total. }
  eexists. split; [exact Ha|]. split; [by rewrite List.length_map, length_seq|]. split.
  - intros i Hi t. eexists. split.
    { change (map ?f ?l !! i) with ((f <$> l) !! i). rewrite list_lookup_fmap, lookup_seq_lt by done. done. }
    simpl. apply Hrows; [|apply axis_aligned]. apply Hy.
    assert (0 <= Z.of_nat i * step) by nia. unfold n, steps_count in Hi.
    pose proof (Z.mul_div_le (until - start) step ltac:(done)). assert (Z.of_nat i <= (until - start) / step) by lia. nia.
  - intros x [_ Hx]%keep_spec. unfold in_range in Hx. apply andb_true_iff in Hx as [Hx _]. bool_to_prop.
    set (u := log_Timestamp x) in *.
    assert (Hd : exists k, time_truncate u step = start + k * step /\ 0 <= k /\ time_truncate u step <= u).
    { exists ((u - time_zero) / step - (since - time_zero) / step). unfold start, time_truncate.
      pose proof (Z.div_mod (u - time_zero) step ltac:(lia)). pose proof (Z.div_mod (since - time_zero) step ltac:(lia)).
      pose proof (Z.mod_pos_bound (u - time_zero) step Hstep). pose proof (Z.div_le_mono (since - time_zero) (u - time_zero) step Hstep ltac:(lia)).
      split_and!; nia. }
    destruct Hd as (k & Hk & Hk0 & Hku). exists (Z.to_nat k). rewrite Z2Nat.id by done. split; [|done].
    unfold n, steps_count. assert (k <= (until - start) / step) by (apply Z.div_le_lower_bound; nia). lia.
Qed.

(** ** Costs *)

(** A rate that is a price: finite and not negative. *)
Definition price (r : f64) : bool :=
  match r with
  | S754_zero false | S754_finite false _ _ => true
  | _ => false
  end.

Definition prices_ok (m : ProviderModel) : bool :=
  forallb price (omap id [pm_CostPerMillionInput m; pm_CostPerMillionOutput m; pm_CostPerMillionCacheRead m]).

(** The prompt tokens left after the cached ones fit an [int]. *)
Definition tokens_ok (l : RequestLog) : bool :=
  match log_PromptTokens l with
  | Some p => fits64 (p - default 0 (log_CachedTokens l))
  | None => true
  end.

Lemma per_million_zero r : price r = true -> per_million (f64_of_Z 0) r = f64_zero.
Proof. destruct r as [[]|[]| |[] m e]; done. Qed.

(** The three cost expressions of the reports are the three parts of the
    estimate a request was logged with. *)
Lemma cost_exprs_are_the_estimate pm l :
  from_option prices_ok true pm = true -> tokens_ok l = true ->
  sql_input_cost pm l = b_InputUSD (ForRequestLog l pm) /\ sql_output_cost pm l = b_OutputUSD (ForRequestLog l pm) /\
  sql_cached_cost pm l = b_CachedReadUSD (ForRequestLog l pm).
Proof.
  intros Hp Ht. destruct pm as [m|]; [|done]. simpl in Hp. unfold prices_ok in Hp.
  split_and!; unfold sql_input_cost, sql_output_cost, sql_cached_cost; simpl.
  - destruct (pm_CostPerMillionInput m) as [r|]; [|by destruct (log_PromptTokens l)].
    unfold tokens_ok in Ht. destruct (log_PromptTokens l) as [p|]; [|done]. simpl in Hp.
    apply andb_true_iff in Hp as [Hr _]. unfold billed_real. rewrite Ht.
    assert (E : billed_tokens p (log_CachedTokens l) = p - default 0 (log_CachedTokens l)).
    { apply fits64_spec in Ht. unfold billed_tokens. destruct (log_CachedTokens l); simpl in *; [by apply wrap64_id|lia]. }
    rewrite E. destruct (Z.ltb_spec 0 (p - default 0 (log_CachedTokens l))).
    + by rewrite Z.max_r by lia.
    + rewrite Z.max_l by lia. by apply per_million_zero.
  - by destruct (pm_CostPerMillionOutput m), (log_CompletionTokens l).
  - by destruct (pm_CostPerMillionCacheRead m), (log_CachedTokens l).
Qed.

Lemma head_keep_in {A} (p : A -> bool) (l : list A) (x : A) : head (keep p l) = Some x -> x ∈ l /\ p x = true.
Proof. intros H. apply keep_spec. by apply head_Some_elem_of in H. Qed.

(** The join with [provider_models] finds the one row of the pair. *)
Lemma joined_model_unique db l m :
  wf db -> m ∈ db_models db -> model_of (log_ProviderID l) (log_ResolvedModel l) m = true -> joined_model db l = Some m.
Proof.
  intros W Hm Hof. unfold joined_model. destruct (head (keep _ _)) as [m'|] eqn:E.
  - apply head_keep_in in E as [Hm' Hof']. f_equal. unfold model_of in *. bool_to_prop.
    apply (key_unique pm_key (db_models db)); [apply W|done|done|]. unfold pm_key. congruence.
  - exfalso. assert (Hin : m ∈ keep (model_of (log_ProviderID l) (log_ResolvedModel l)) (db_models db)) by (by apply keep_spec).
    destruct (keep _ _); [by apply elem_of_nil in Hin|done].
Qed.

(** C22: Reports charge what the requests were estimated at: over well formed
    tables with sane prices and token counts, the input, output and cached
    sums of the lifetime cost are the SUM of the very floats [ForRequestLog]
    computed for each request of the report with the model row of its provider
    and backend model, and the total is their sum; the join counts no request
    twice and loses none, and a request whose model is not listed costs
    nothing. *)
Theorem lifetime_cost_sums_the_estimates (fault : nat -> bool) (sum_real : list f64 -> f64) (apiKeyID : string)
    (c c' : Conn) (lt : LifetimeCost) :
  let db := cn_db c in
  let logs := keep (fun l => if str_empty apiKeyID then true else String.eqb (log_APIKeyID l) apiKeyID) (db_logs db) in
  let estimate l := ForRequestLog l (joined_model db l) in
  wf db -> forallb prices_ok (db_models db) = true -> forallb tokens_ok (db_logs db) = true ->
  lifetimeCost fault sum_real apiKeyID c = (inr lt, c') ->
  cn_db c' = db /\
  lt_TotalRequests lt = wrap64 (Z.of_nat (length logs)) /\ lt_TotalTokens lt = zsum log_tokens logs /\
  lt_InputCostUSD lt = sum_real ((fun l => b_InputUSD (estimate l)) <$> logs) /\
  lt_OutputCostUSD lt = sum_real ((fun l => b_OutputUSD (estimate l)) <$> logs) /\
  lt_CachedCostUSD lt = sum_real ((fun l => b_CachedReadUSD (estimate l)) <$> logs) /\
  lt_TotalCostUSD lt = f64_add (f64_add (lt_InputCostUSD lt) (lt_OutputCostUSD lt)) (lt_CachedCostUSD lt) /\
  (forall l m, m ∈ db_models db -> pm_key m = (log_ProviderID l, log_ResolvedModel l) -> joined_model db l = Some m) /\
  (forall l, (log_ProviderID l, log_ResolvedModel l) ∉ pm_key <$> db_models db -> estimate l = no_cost).
Proof.
  intros db logs estimate W Hp Ht [H E]%query_or_ok. fold db logs in H.
  rewrite forallb_forall in Hp, Ht.
  assert (Hexpr : forall l, l ∈ logs ->
    sql_input_cost (joined_model db l) l = b_InputUSD (estimate l) /\
    sql_output_cost (joined_model db l) l = b_OutputUSD (estimate l) /\
    sql_cached_cost (joined_model db l) l = b_CachedReadUSD (estimate l)).
  { intros l [Hl _]%keep_spec. apply cost_exprs_are_the_estimate; [|apply Ht; by rewrite <- list_elem_of_In].
    destruct (joined_model db l) as [m|] eqn:Em; [|done]. apply head_keep_in in Em as [Em _]. apply Hp.
    by rewrite <- list_elem_of_In. }
  unfold lifetime_row in H. apply bind_Some in H as (t & Htok & [= <-]). apply sum_int_counts in Htok as [-> _].
  cbn [lt_TotalCostUSD lt_InputCostUSD lt_OutputCostUSD lt_CachedCostUSD lt_TotalRequests lt_TotalTokens].
  split_and!; try done.
  - f_equal. apply list_fmap_ext. intros i l Hl%list_elem_of_lookup_2. apply (Hexpr l Hl).
  - f_equal. apply list_fmap_ext. intros i l Hl%list_elem_of_lookup_2. apply (Hexpr l Hl).
  - f_equal. apply list_fmap_ext. intros i l Hl%list_elem_of_lookup_2. apply (Hexpr l Hl).
  - intros l m Hm [= H1 H2]. apply joined_model_unique; [done|done|]. unfold model_of. by rewrite H1, H2, !String.eqb_refl.
  - intros l Hl. unfold estimate. destruct (joined_model db l) as [m|] eqn:Em; [|done]. exfalso. apply Hl.
    apply head_keep_in in Em as [Em Hof]. unfold model_of in Hof. bool_to_prop.
    apply list_elem_of_fmap. exists m. split; [unfold pm_key; congruence|done].
Qed.

(** * Witnesses *)

Definition float_sum (l : list f64) : f64 := fold_left f64_add l f64_zero.
Definition float_avg (l : list f64) : f64 := f64_div (float_sum l) (f64_of_Z (Z.of_nat (length l))).

Definition report_logs : list RequestLog :=
  [priced_log; set_log_StatusCode 503 (set_log_ID "l2" sample_log)].

Definition report_db : DB := set_models [priced_model] (set_logs report_logs sample_db).
Definition report_conn : Conn := mkConn report_db 0.

Lemma report_db_wf : wf report_db.
Proof.
  split; match goal with |- ?P => refine (bool_decide_unpack P _) end; vm_compute; exact I.
Qed.

Example report_dashboard :
  (fun d => (ds_TotalRequests d, ds_ErrorRate d, g_Key <$> ds_ByModel d)) <$>
    match (dashboardStats no_fault (order := insertion_SortSlice) float_avg head 0 9 "" report_conn).1 with inr d => Some d | inl _ => None end
  = Some (2, f64_half, ["gpt"]).
Proof. vm_compute. reflexivity. Qed.

Lemma sql_dashboard_counts_the_logs_witness :
  exists d c', dashboardStats no_fault (order := insertion_SortSlice) float_avg head 0 9 "" report_conn = (inr d, c') /\
    ds_TotalRequests d = 2 /\ breakdown_of stats_model log_tokens report_logs (ds_ByModel d).
Proof.
  destruct (dashboardStats no_fault (order := insertion_SortSlice) float_avg head 0 9 "" report_conn) as [[e|d] c'] eqn:E.
  { exfalso. vm_compute in E. discriminate E. }
  exists d, c'. split; [done|].
  destruct (sql_dashboard_counts_the_logs no_fault insertion_SortSlice float_avg head 0 9 "" report_conn c' d E)
    as (_ & H1 & _ & H2 & _).
  split; [exact H1|exact H2].
Defined.

Lemma sql_series_accounts_for_every_request_witness :
  exists points c', timeSeries no_fault float_sum 9 0 (2 * Hour) "hour" "" report_conn = (inr (Some points), c') /\
    length points = 3%nat.
Proof.
  destruct (timeSeries no_fault float_sum 9 0 (2 * Hour) "hour" "" report_conn) as [[e|r] c'] eqn:E.
  { exfalso. vm_compute in E. discriminate E. }
  assert (H1 : (steps_count (time_truncate 0 Hour) (2 * Hour) Hour < 9)%nat) by (apply Nat.ltb_lt; vm_compute; reflexivity).
  assert (H2 : forall t, time_truncate 0 Hour <= t <= 2 * Hour -> four_digits t = true).
  { intros t [Ht1 Ht2]. apply years_four_digits. change (time_truncate 0 Hour) with 0 in Ht1. unfold Hour in *. lia. }
  destruct (sql_series_accounts_for_every_request no_fault float_sum 9 0 (2 * Hour) "hour" "" report_conn c' r H1 H2 E)
    as (_ & points & -> & H & _).
  exists points, c'. split; [done|exact H].
Defined.

Lemma lifetime_cost_sums_the_estimates_witness :
  exists lt c', lifetimeCost no_fault float_sum "" report_conn = (inr lt, c') /\
    lt_InputCostUSD lt = f64_add (f64_add f64_zero (b_InputUSD (ForRequestLog priced_log (Some priced_model)))) f64_zero.
Proof.
  destruct (lifetimeCost no_fault float_sum "" report_conn) as [[e|lt] c'] eqn:E.
  { exfalso. vm_compute in E. discriminate E. }
  exists lt, c'. split; [done|].
  destruct (lifetime_cost_sums_the_estimates no_fault float_sum "" report_conn c' lt report_db_wf eq_refl eq_refl E)
    as (_ & _ & _ & H & _).
  rewrite H. vm_compute. reflexivity.
Defined.
