(* ===== verification/QueryWorker.v ===== *)
(** The query worker of the admin API, [internal/admin/query_worker.go]: one
    goroutine runs the log queries of all admin requests, one after the other.

    A run of the program is a sequence of events of the goroutines involved:
    the requests that call [Run], and the worker.  An event that its goroutine
    could not perform in the state it finds is no step. *)
From S2P Require Import Prelude GoLib Models Sql Store.
Local Open Scope Z_scope.

Section QueryWorker.
Context {A : Type} (bufferSize : nat).

(** [queryJob], with the request its result channel belongs to. *)
Definition queryJob : Type := nat * Exec A.

(** [queryResult]. *)
Definition queryResult : Type := DBError + A.

(** A request inside [Run]: at the first select, at the second, or returned,
    with the result of its job or with the error of its context or of the
    30 seconds. *)
Inductive Client :=
| Sending (fn : Exec A)
| Waiting
| Returned (r : option queryResult).

(** The worker's goroutine: at its select, inside [job.fn], or ended. *)
Inductive Worker := Idle | Running (job : queryJob) | Stopped.

(** [w.ch], the result channels (each holds one result at most), the
    goroutines, the worker's context and the connection; [jobs], [sent] and
    [executed] only record what happened. *)
Record State := mkState {
  qs_ch : list queryJob;
  qs_results : gmap nat queryResult;
  qs_clients : gmap nat Client;
  qs_worker : Worker;
  qs_done : bool;
  qs_conn : Conn;
  qs_jobs : gmap nat (Exec A);
  qs_sent : list nat;
  qs_executed : list nat;
}.

Definition NewQueryWorker (c : Conn) : State := mkState [] ∅ ∅ Idle false c ∅ [] [].

Inductive Event :=
| Call (i : nat) (fn : Exec A)
| Send (i : nat)
| GiveUpSend (i : nat)
| Receive (i : nat)
| GiveUp (i : nat)
| Take
| Execute
| CtxDone
| Stop.

Definition set_client (i : nat) (cl : Client) (s : State) : State :=
  mkState (qs_ch s) (qs_results s) (<[i := cl]> (qs_clients s)) (qs_worker s) (qs_done s) (qs_conn s) (qs_jobs s)
    (qs_sent s) (qs_executed s).

(** The request's side: [Run]. *)
Definition call_step (i : nat) (fn : Exec A) (s : State) : option State :=
  match qs_clients s !! i with
  | Some _ => None
  | None =>
      Some (mkState (qs_ch s) (qs_results s) (<[i := Sending fn]> (qs_clients s)) (qs_worker s) (qs_done s) (qs_conn s)
        (<[i := fn]> (qs_jobs s)) (qs_sent s) (qs_executed s))
  end.

(** [w.ch <- job]: into the buffer, or, when nothing is buffered, straight to
    a worker that waits. *)
Definition send_step (i : nat) (s : State) : option State :=
  match qs_clients s !! i with
  | Some (Sending fn) =>
      if (length (qs_ch s) <? bufferSize)%nat then
        Some (mkState (qs_ch s ++ [(i, fn)]) (qs_results s) (<[i := Waiting]> (qs_clients s)) (qs_worker s) (qs_done s)
          (qs_conn s) (qs_jobs s) (qs_sent s ++ [i]) (qs_executed s))
      else
        match qs_worker s, qs_ch s with
        | Idle, [] =>
            Some (mkState [] (qs_results s) (<[i := Waiting]> (qs_clients s)) (Running (i, fn)) (qs_done s)
              (qs_conn s) (qs_jobs s) (qs_sent s ++ [i]) (qs_executed s))
        | _, _ => None
        end
  | _ => None
  end.

Definition give_up_send_step (i : nat) (s : State) : option State :=
  match qs_clients s !! i with
  | Some (Sending _) => Some (set_client i (Returned None) s)
  | _ => None
  end.

Definition receive_step (i : nat) (s : State) : option State :=
  match qs_clients s !! i, qs_results s !! i with
  | Some Waiting, Some r =>
      Some (mkState (qs_ch s) (delete i (qs_results s)) (<[i := Returned (Some r)]> (qs_clients s)) (qs_worker s)
        (qs_done s) (qs_conn s) (qs_jobs s) (qs_sent s) (qs_executed s))
  | _, _ => None
  end.

Definition give_up_step (i : nat) (s : State) : option State :=
  match qs_clients s !! i with
  | Some Waiting => Some (set_client i (Returned None) s)
  | _ => None
  end.

(** The worker's side: [Start].  The job runs with the worker's context, not
    with the request's; handing over the result would block on a full result
    channel. *)
Definition take_step (s : State) : option State :=
  match qs_worker s, qs_ch s with
  | Idle, job :: ch =>
      Some (mkState ch (qs_results s) (qs_clients s) (Running job) (qs_done s) (qs_conn s) (qs_jobs s) (qs_sent s)
        (qs_executed s))
  | _, _ => None
  end.

Definition execute_step (s : State) : option State :=
  match qs_worker s with
  | Running (i, fn) =>
      match qs_results s !! i with
      | Some _ => None
      | None =>
          let '(r, c) := fn (qs_conn s) in
          Some (mkState (qs_ch s) (<[i := r]> (qs_results s)) (qs_clients s) Idle (qs_done s) c (qs_jobs s) (qs_sent s)
            (qs_executed s ++ [i]))
      end
  | _ => None
  end.

Definition stop_step (s : State) : option State :=
  match qs_worker s, qs_done s with
  | Idle, true =>
      Some (mkState (qs_ch s) (qs_results s) (qs_clients s) Stopped true (qs_conn s) (qs_jobs s) (qs_sent s) (qs_executed s))
  | _, _ => None
  end.

Definition step (e : Event) (s : State) : option State :=
  match e with
  | Call i fn => call_step i fn s
  | Send i => send_step i s
  | GiveUpSend i => give_up_send_step i s
  | Receive i => receive_step i s
  | GiveUp i => give_up_step i s
  | Take => take_step s
  | Execute => execute_step s
  | CtxDone =>
      Some (mkState (qs_ch s) (qs_results s) (qs_clients s) (qs_worker s) true (qs_conn s) (qs_jobs s) (qs_sent s)
        (qs_executed s))
  | Stop => stop_step s
  end.

Fixpoint run_events (es : list Event) (s : State) : option State :=
  match es with
  | [] => Some s
  | e :: es' => s' ← step e s; run_events es' s'
  end.

(** * Lemmas *)

(** The jobs accepted and not yet executed, oldest first. *)
Definition pending (s : State) : list queryJob :=
  match qs_worker s with Running job => job :: qs_ch s | _ => qs_ch s end.

(** A result of the request's own job. *)
Definition own_result (s : State) (i : nat) (r : queryResult) : Prop :=
  exists fn c, qs_jobs s !! i = Some fn /\ r = (fn c).1.

Record Inv (s : State) : Prop := mkInv {
  inv_fifo : qs_sent s = qs_executed s ++ (pending s).*1;
  inv_once : NoDup (qs_sent s);
  inv_room : (length (qs_ch s) <= bufferSize)%nat;
  inv_jobs : forall i fn, (i, fn) ∈ pending s -> qs_jobs s !! i = Some fn;
  inv_sending : forall i fn, qs_clients s !! i = Some (Sending fn) -> i ∉ qs_sent s /\ qs_jobs s !! i = Some fn;
  inv_unknown : forall i, qs_clients s !! i = None -> i ∉ qs_sent s;
  inv_waiting : forall i, qs_clients s !! i = Some Waiting -> i ∈ qs_sent s /\ (i ∈ qs_executed s -> is_Some (qs_results s !! i));
  inv_results : forall i r, qs_results s !! i = Some r -> i ∈ qs_executed s /\ own_result s i r;
  inv_returned : forall i r, qs_clients s !! i = Some (Returned (Some r)) -> own_result s i r;
}.

Lemma inv_init c : Inv (NewQueryWorker c).
Proof. split; simpl; try done; [apply NoDup_nil_2|lia| |..]; intros; set_solver. Qed.

Lemma pending_sent s i fn : Inv s -> (i, fn) ∈ pending s -> i ∈ qs_sent s.
Proof. intros I H. rewrite (inv_fifo _ I), elem_of_app. right. by apply (list_elem_of_fmap_2 fst) in H. Qed.

Lemma executed_sent s i : Inv s -> i ∈ qs_executed s -> i ∈ qs_sent s.
Proof. intros I H. rewrite (inv_fifo _ I), elem_of_app. by left. Qed.

Lemma result_sent s i r : Inv s -> qs_results s !! i = Some r -> i ∈ qs_sent s.
Proof. intros I H. by eapply executed_sent, inv_results. Qed.

(** A job that is not executed yet has no result. *)
Lemma pending_no_result s i fn : Inv s -> (i, fn) ∈ pending s -> qs_results s !! i = None.
Proof.
  intros I H. destruct (qs_results s !! i) as [r|] eqn:E; [|done]. exfalso.
  apply (inv_results _ I) in E as [E _]. pose proof (inv_once _ I) as Hn. rewrite (inv_fifo _ I) in Hn.
  apply NoDup_app in Hn as (_ & Hd & _). apply (Hd i E). by apply (list_elem_of_fmap_2 fst) in H.
Qed.

(** Looks up the client of an event in an updated map. *)
Ltac client j :=
  let k := fresh "k" in let Hk := fresh "Hk" in
  intros k; destruct (decide (k = j)) as [->|Hk];
  [rewrite ?lookup_insert_eq, ?lookup_delete_eq | rewrite ?lookup_insert_ne, ?lookup_delete_ne by done].

Lemma call_inv i fn s s' : Inv s -> call_step i fn s = Some s' -> Inv s'.
Proof.
  intros I. unfold call_step. destruct (qs_clients s !! i) as [?|] eqn:E; [done|]. intros [= <-].
  pose proof (inv_unknown _ I i E) as Hi. pose proof I as [H1 H2 H3 H4 H5 H6 H7 H8 H9]. split; simpl; try done.
  - client i; intros fn' H; [|by apply H4]. exfalso. by eapply Hi, pending_sent.
  - client i; intros fn'; [by intros [= <-]|apply H5].
  - client i; [done|apply H6].
  - client i; [done|apply H7].
  - intros k r Hr. destruct (H8 k r Hr) as [He (fn' & c & Hj & Hc)]. split; [done|]. exists fn', c. simpl.
    rewrite lookup_insert_ne; [done|]. intros ->. by eapply Hi, executed_sent.
  - client i; intros r; [done|]. intros Hr. destruct (H9 k r Hr) as (fn' & c & Hj & Hc). exists fn', c. simpl.
    by rewrite lookup_insert_ne.
Qed.

Lemma send_inv i s s' : Inv s -> send_step i s = Some s' -> Inv s'.
Proof.
  intros I. unfold send_step. destruct (qs_clients s !! i) as [[fn| |]|] eqn:E; try done.
  destruct (inv_sending _ I i fn E) as [Hi Hj]. pose proof I as [H1 H2 H3 H4 H5 H6 H7 H8 H9].
  assert (Hgen : forall ch w, pending (mkState ch (qs_results s) (<[i := Waiting]> (qs_clients s)) w (qs_done s) (qs_conn s)
      (qs_jobs s) (qs_sent s ++ [i]) (qs_executed s)) = pending s ++ [(i, fn)] -> (length ch <= bufferSize)%nat ->
    Inv (mkState ch (qs_results s) (<[i := Waiting]> (qs_clients s)) w (qs_done s) (qs_conn s) (qs_jobs s)
      (qs_sent s ++ [i]) (qs_executed s))).
  { intros ch w Hp Hl. split; try done.
    - rewrite Hp. cbn [qs_sent qs_executed]. by rewrite H1, fmap_app, <- (assoc_L (++)).
    - simpl. apply NoDup_app. split; [done|]. split; [set_solver|apply NoDup_singleton].
    - intros k fn'. rewrite Hp, elem_of_app, list_elem_of_singleton. intros [Hk|[= -> ->]]; [by apply H4|done].
    - simpl. client i; intros fn'; [done|]. intros Hk'. destruct (H5 k fn' Hk'). set_solver.
    - simpl. client i; [done|]. intros Hk'. pose proof (H6 k Hk'). set_solver.
    - simpl. client i; [|intros Hk'; destruct (H7 k Hk'); set_solver]. intros _. split; [set_solver|].
      intros He. exfalso. by eapply Hi, executed_sent.
    - simpl. client i; intros r; [done|apply H9]. }
  destruct (Nat.ltb_spec (length (qs_ch s)) bufferSize) as [Hr|_].
  - intros [= <-]. apply Hgen; [|rewrite length_app; simpl; lia]. unfold pending. simpl. by destruct (qs_worker s).
  - destruct (qs_worker s) eqn:Ew; try done. destruct (qs_ch s) eqn:Ec; [|done]. intros [= <-]. apply Hgen; [|simpl; lia].
    unfold pending. simpl. by rewrite Ew, Ec.
Qed.

(** A request that returns without a result. *)
Lemma return_none_inv i s : Inv s -> is_Some (qs_clients s !! i) -> Inv (set_client i (Returned None) s).
Proof.
  intros [H1 H2 H3 H4 H5 H6 H7 H8 H9] _. split; simpl; try done.
  - client i; intros fn; [done|apply H5].
  - client i; [done|apply H6].
  - client i; [done|apply H7].
  - client i; intros r; [done|apply H9].
Qed.

Lemma receive_inv i s s' : Inv s -> receive_step i s = Some s' -> Inv s'.
Proof.
  intros I. unfold receive_step. destruct (qs_clients s !! i) as [[| |]|] eqn:E; try done.
  destruct (qs_results s !! i) as [r|] eqn:Er; [|done]. intros [= <-].
  pose proof I as [H1 H2 H3 H4 H5 H6 H7 H8 H9]. split; simpl; try done.
  - client i; intros fn; [done|apply H5].
  - client i; [done|apply H6].
  - client i; [done|apply H7].
  - client i; intros r'; [done|apply H8].
  - client i; intros r'; [|apply H9]. intros [= <-]. by apply H8.
Qed.

Lemma take_inv s s' : Inv s -> take_step s = Some s' -> Inv s'.
Proof.
  intros [H1 H2 H3 H4 H5 H6 H7 H8 H9]. unfold take_step. destruct (qs_worker s) eqn:Ew; try done.
  destruct (qs_ch s) as [|job ch] eqn:Ec; [done|]. intros [= <-].
  unfold pending in *. rewrite Ew, Ec in *. split; simpl in *; try done. lia.
Qed.

Lemma execute_inv s s' : Inv s -> execute_step s = Some s' -> Inv s'.
Proof.
  intros I. pose proof I as [H1 H2 H3 H4 H5 H6 H7 H8 H9]. unfold execute_step. destruct (qs_worker s) as [|[i fn]|] eqn:Ew; try done.
  destruct (qs_results s !! i) eqn:Er; [done|]. destruct (fn (qs_conn s)) as [r c] eqn:Ef. intros [= <-].
  unfold pending in *. rewrite Ew in *. split; unfold pending; simpl in *; try done.
  - by rewrite H1, <- (assoc_L (++)).
  - intros k fn' Hk. apply H4. set_solver.
  - intros k Hk. destruct (H7 k Hk) as [Hs He]. split; [done|]. intros Hin. destruct (decide (k = i)) as [->|Hne].
    + rewrite lookup_insert_eq. by eexists.
    + rewrite lookup_insert_ne by done. apply He. set_solver.
  - client i; intros r'; [|intros Hr; destruct (H8 k r' Hr); set_solver]. intros [= <-]. split; [set_solver|].
    exists fn, (qs_conn s). simpl. split; [|by rewrite Ef]. apply H4. set_solver.
Qed.

Lemma step_inv e s s' : Inv s -> step e s = Some s' -> Inv s'.
Proof.
  intros I. destruct e; simpl; eauto using call_inv, send_inv, receive_inv, take_inv, execute_inv.
  - unfold give_up_send_step. destruct (qs_clients s !! i) as [[| |]|] eqn:E; try done. intros [= <-]. by apply return_none_inv.
  - unfold give_up_step. destruct (qs_clients s !! i) as [[| |]|] eqn:E; try done. intros [= <-]. by apply return_none_inv.
  - intros [= <-]. by destruct I.
  - unfold stop_step. destruct (qs_worker s) eqn:Ew, (qs_done s); try done. intros [= <-].
    destruct I as [H1 H2 H3 H4 H5 H6 H7 H8 H9]. unfold pending in *. rewrite Ew in *. by split.
Qed.

Lemma run_inv es s s' : Inv s -> run_events es s = Some s' -> Inv s'.
Proof.
  revert s. induction es as [|e es IH]; intros s I; simpl; [by intros [= <-]|].
  intros (s1 & H1 & H2)%bind_Some. eauto using step_inv.
Qed.

(** The worker works off what was accepted. *)
Definition drain (s : State) : list Event :=
  match qs_worker s with
  | Running _ => Execute :: concat (replicate (length (qs_ch s)) [Take; Execute])
  | _ => concat (replicate (length (qs_ch s)) [Take; Execute])
  end.

Lemma execute_enabled s job : Inv s -> qs_worker s = Running job ->
  exists s', execute_step s = Some s' /\ qs_worker s' = Idle /\ qs_ch s' = qs_ch s /\ qs_clients s' = qs_clients s.
Proof.
  intros I E. unfold execute_step. rewrite E. destruct job as [i fn].
  assert (Hn : qs_results s !! i = None) by (apply (pending_no_result s i fn I); unfold pending; rewrite E; constructor).
  rewrite Hn. destruct (fn (qs_conn s)) as [r c]. by eexists.
Qed.

Lemma drain_at_rest n s : Inv s -> qs_worker s = Idle -> length (qs_ch s) = n ->
  exists s', run_events (concat (replicate n [Take; Execute])) s = Some s' /\ qs_ch s' = [] /\ qs_worker s' = Idle /\
    qs_clients s' = qs_clients s.
Proof.
  revert s. induction n as [|n IH]; intros s I Ew Hl.
  { exists s. split_and!; try done. by destruct (qs_ch s). }
  destruct (qs_ch s) as [|job ch] eqn:Ec; [done|]. simpl in Hl. injection Hl as Hl.
  assert (Ht : exists s1, take_step s = Some s1 /\ qs_worker s1 = Running job /\ qs_ch s1 = ch /\ qs_clients s1 = qs_clients s).
  { unfold take_step. rewrite Ew, Ec. by eexists. }
  destruct Ht as (s1 & Ht & E1 & E2 & E3). pose proof (take_inv _ _ I Ht) as I1.
  destruct (execute_enabled s1 job I1 E1) as (s2 & Hx & E4 & E5 & E6). pose proof (execute_inv _ _ I1 Hx) as I2.
  destruct (IH s2 I2 E4) as (s' & Hr & H1 & H2 & H3); [congruence|].
  exists s'. simpl. rewrite Ht. simpl. rewrite Hx. simpl. split_and!; try done. congruence.
Qed.

Lemma drain_works s : Inv s -> qs_worker s <> Stopped ->
  exists s', run_events (drain s) s = Some s' /\ pending s' = [] /\ qs_clients s' = qs_clients s.
Proof.
  intros I Hw. unfold drain. destruct (qs_worker s) as [|job|] eqn:Ew; [| |done].
  - destruct (drain_at_rest _ s I Ew eq_refl) as (s' & H1 & H2 & H3 & H4). exists s'. split_and!; try done.
    unfold pending. by rewrite H3.
  - destruct (execute_enabled s job I Ew) as (s1 & Hx & E1 & E2 & E3). pose proof (execute_inv _ _ I Hx) as I1.
    destruct (drain_at_rest _ s1 I1 E1 eq_refl) as (s' & H1 & H2 & H3 & H4). exists s'. simpl. rewrite Hx. simpl.
    rewrite <- E2. split_and!; try done; [|congruence]. unfold pending. by rewrite H3.
Qed.

End QueryWorker.

Arguments Event A : clear implicits.
Arguments State A : clear implicits.

(** C23: A request of the admin API gets the answer to its own query: in every
    run of the requests and the worker, a result a request returns with is one
    its own job produced; accepted jobs run in the order they were accepted,
    each at most once, and never more than [bufferSize] of them wait in the
    channel; the worker is never stuck on handing a result over, not even to
    a request that gave up; and, as long as it has not ended, a bounded number
    of its steps leaves no job waiting and a result for every request that
    still waits for one. *)
Theorem query_worker_answers_its_client {A} (bufferSize : nat) (c : Conn) (es : list (Event A)) (s : State A) :
  run_events bufferSize es (NewQueryWorker c) = Some s ->
  (forall i r, qs_clients s !! i = Some (Returned (Some r)) -> own_result s i r) /\
  qs_sent s = qs_executed s ++ (pending s).*1 /\ NoDup (qs_sent s) /\ (length (qs_ch s) <= bufferSize)%nat /\
  (forall job, qs_worker s = Running job -> is_Some (step bufferSize Execute s)) /\
  (qs_worker s <> Stopped ->
   exists s', run_events bufferSize (drain s) s = Some s' /\ pending s' = [] /\ qs_clients s' = qs_clients s /\
     forall i, qs_clients s' !! i = Some Waiting -> is_Some (qs_results s' !! i)).
Proof.
  intros H. pose proof (run_inv bufferSize es _ _ (inv_init bufferSize c) H) as I.
  split_and!; [apply I|apply I|apply I|apply I| |].
  - intros job E. destruct (execute_enabled bufferSize s job I E) as (s' & Hx & _). by exists s'.
  - intros Hw. destruct (drain_works bufferSize s I Hw) as (s' & Hr & Hp & Hc). exists s'. split_and!; try done.
    pose proof (run_inv bufferSize _ _ _ I Hr) as I'. intros i Hi. destruct (inv_waiting _ _ I' i Hi) as [Hs He].
    apply He. by rewrite (inv_fifo _ _ I'), Hp, app_nil_r in Hs.
Qed.

(** A job, and two requests for it: the second gives up while its job waits. *)
Definition count_logs : Exec Z := query no_fault (fun db => Z.of_nat (length (db_logs db))).

Lemma query_worker_answers_its_client_witness :
  exists s, run_events 1 [Call 1 count_logs; Send 1; Take; Call 2 count_logs; Send 2; Execute; GiveUp 2; Receive 1] (NewQueryWorker sample_conn) = Some s /\
    qs_clients s !! 1%nat = Some (Returned (Some (inr 0))) /\ own_result s 1 (inr 0).
Proof.
  set (es := [Call 1 count_logs; Send 1; Take; Call 2 count_logs; Send 2; Execute; GiveUp 2; Receive 1]).
  destruct (run_events 1 es (NewQueryWorker sample_conn)) as [s|] eqn:E.
  2: { exfalso. vm_compute in E. discriminate E. }
  assert (H1 : qs_clients s !! 1%nat = Some (Returned (Some (inr 0)))).
  { assert (Hs : from_option (fun s => qs_clients s !! 1%nat) None (run_events 1 es (NewQueryWorker sample_conn)) =
      Some (Returned (Some (inr 0)))) by (vm_compute; reflexivity). by rewrite E in Hs. }
  exists s. split; [done|]. split; [exact H1|].
  exact (proj1 (query_worker_answers_its_client 1 sample_conn es s E) 1%nat (inr 0) H1).
Defined.
