(* ===== verification/Migrate.v ===== *)
(** Opening the database, [internal/db/sqlite.go] and [internal/db/migrate.go]:
    the schema migrations, applied in order and once each, and the copy of a
    legacy database into an empty target.

    The SQL engine is used through the class [Engine]: what a statement of a
    migration file does to a database is the engine's business; that it leaves
    the [_migrations] table alone is a law.  Any statement, begin or commit
    can fail, as the fault plan says. *)
From S2P Require Import Prelude GoLib Store.
Local Open Scope Z_scope.
Local Open Scope go_scope.

(** * The engine *)

Class Engine (T : Type) := {
  db_exec : string -> T -> option T;
  db_has_migrations : T -> bool;
  db_create_migrations : T -> T;
  db_applied : T -> list string;
  db_record : string -> Z -> T -> option T;
}.

(** The [_migrations] table is created once, keeps its rows, and is touched by
    no migration. *)
Class EngineLaws (T : Type) `{Engine T} : Prop := {
  exec_applied : forall s t t', db_exec s t = Some t' -> db_applied t' = db_applied t;
  exec_created : forall s t t', db_exec s t = Some t' -> db_has_migrations t' = db_has_migrations t;
  create_applied : forall t, db_applied (db_create_migrations t) = db_applied t;
  create_created : forall t, db_has_migrations (db_create_migrations t) = true;
  create_once : forall t, db_has_migrations t = true -> db_create_migrations t = t;
  record_applied : forall n at_ t t', db_record n at_ t = Some t' -> db_applied t' = db_applied t ++ [n];
  record_created : forall n at_ t t', db_record n at_ t = Some t' -> db_has_migrations t' = db_has_migrations t;
}.

(** * Statements of a file *)

(** [strings.Split(s, sep)] for a separator of one byte. *)
Fixpoint split_byte (c : ascii) (s : string) : list string :=
  match s with
  | EmptyString => [EmptyString]
  | String d s' =>
      if Ascii.eqb d c then EmptyString :: split_byte c s'
      else match split_byte c s' with
           | w :: ws => String d w :: ws
           | [] => [String d EmptyString]
           end
  end.

(** A segment whose lines are blank or comments. *)
Definition all_comment (stmt : string) : bool :=
  forallb (fun line => let l := trim_space line in str_empty l || has_prefix l "--") (split_byte lf stmt).

(** The statements of a migration file, in order. *)
Definition statements (data : string) : list string :=
  keep (fun stmt => negb (str_empty stmt) && negb (all_comment stmt)) (trim_space <$> split_byte ";" data).

(** An entry of the embedded directory, and what [ReadFile] returns for it. *)
Record Entry := mkEntry { e_name : string; e_is_dir : bool; e_data : option string }.

Definition up_files (entries : list Entry) : list string :=
  sort_strings (e_name <$> keep (fun e => negb (e_is_dir e) && has_suffix (e_name e) ".up.sql") entries).

Definition read_file (entries : list Entry) (name : string) : option string :=
  head (keep (fun e => String.eqb (e_name e) name) entries) ≫= e_data.

(** * Running the migrations *)

Inductive MigrateError :=
| ErrCreateTable
| ErrReadDir
| ErrCheck (name : string)
| ErrReadFile (name : string)
| ErrBegin (name : string)
| ErrStatement (name : string)
| ErrRecord (name : string)
| ErrCommit (name : string).

Section Run.
Context {T : Type} `{Engine T} (fault : nat -> bool) (clock : nat -> Z).

(** The database, the number of statements run, and the calls of [logf]. *)
Record Session := mkSession { ss_db : T; ss_stmts : nat; ss_log : list (string * string) }.

Definition Migration (A : Type) : Type := ST Session (MigrateError + A).

Definition m_ret {A} (a : A) : Migration A := fun s => (inr a, s).
Definition m_fail {A} (e : MigrateError) : Migration A := fun s => (inl e, s).
Definition m_bind {A B} (m : Migration A) (k : A -> Migration B) : Migration B :=
  fun s => match m s with
           | (inl e, s') => (inl e, s')
           | (inr a, s') => k a s'
           end.

(** One statement, with the error its failure is wrapped in. *)
Definition run_stmt {A} (e : MigrateError) (f : T -> option (A * T)) : Migration A := fun s =>
  let n := ss_stmts s in
  if fault n then (inl e, mkSession (ss_db s) (S n) (ss_log s))
  else
    match f (ss_db s) with
    | None => (inl e, mkSession (ss_db s) (S n) (ss_log s))
    | Some (a, t) => (inr a, mkSession t (S n) (ss_log s))
    end.

Definition logf (msg name : string) : Migration unit :=
  fun s => (inr tt, mkSession (ss_db s) (ss_stmts s) (ss_log s ++ [(msg, name)])).

(** [db.Begin], the statements, [tx.Commit]; an error rolls back. *)
Definition in_transaction (name : string) (body : Migration unit) : Migration unit := fun s =>
  let n := ss_stmts s in
  if fault n then (inl (ErrBegin name), mkSession (ss_db s) (S n) (ss_log s))
  else
    match body (mkSession (ss_db s) (S n) (ss_log s)) with
    | (inl e, s') => (inl e, mkSession (ss_db s) (ss_stmts s') (ss_log s'))
    | (inr _, s') =>
        let n' := ss_stmts s' in
        if fault n' then (inl (ErrCommit name), mkSession (ss_db s) (S n') (ss_log s'))
        else (inr tt, mkSession (ss_db s') (S n') (ss_log s'))
    end.

Fixpoint run_all (name : string) (stmts : list string) : Migration unit :=
  match stmts with
  | [] => m_ret tt
  | stmt :: stmts' =>
      m_bind (run_stmt (ErrStatement name) (fun t => pair tt <$> db_exec stmt t)) (fun _ => run_all name stmts')
  end.

Definition record_migration (name : string) : Migration unit := fun s =>
  run_stmt (ErrRecord name) (fun t => pair tt <$> db_record name (clock (ss_stmts s)) t) s.

(** One turn of the loop over the files. *)
Definition migrate_one (entries : list Entry) (name : string) : Migration unit :=
  m_bind (run_stmt (ErrCheck name) (fun t => Some (bool_decide (name ∈ db_applied t), t))) (fun applied =>
  if applied : bool then logf "skip" name
  else
    match read_file entries name with
    | None => m_fail (ErrReadFile name)
    | Some data =>
        m_bind (in_transaction name (m_bind (run_all name (statements data)) (fun _ => record_migration name))) (fun _ =>
        logf "apply" name)
    end).

Fixpoint migrate_files (entries : list Entry) (names : list string) : Migration unit :=
  match names with
  | [] => m_ret tt
  | name :: names' => m_bind (migrate_one entries name) (fun _ => migrate_files entries names')
  end.

(** [runMigrationsWithLog]; [dir] is what [ReadDir] returns. *)
Definition runMigrationsWithLog (dir : option (list Entry)) : Migration unit :=
  m_bind (run_stmt ErrCreateTable (fun t => Some (tt, db_create_migrations t))) (fun _ =>
  match dir with
  | None => m_fail ErrReadDir
  | Some entries => migrate_files entries (up_files entries)
  end).

End Run.

Arguments Session T : clear implicits.

(** * The data source *)

Definition sqliteQuery : string := "_time_format=sqlite&_pragma=busy_timeout(5000)&_pragma=foreign_keys(1)".

(** The [dsn] of [openDB]; [abs] is [filepath.Abs].  [None] is an error. *)
Definition dsn (abs : string -> option string) (driver dbPath : string) : option string :=
  if String.eqb driver "sqlite" then
    Some (if String.eqb dbPath ":memory:" then "file::memory:?" +:+ sqliteQuery else "file:" +:+ dbPath +:+ "?" +:+ sqliteQuery)
  else if String.eqb driver "libsql" then
    if String.eqb dbPath ":memory:" then Some ("file::memory:?" +:+ sqliteQuery)
    else if isRemoteLibSQL dbPath then Some dbPath
    else (fun p => "file://" +:+ p +:+ "?" +:+ sqliteQuery) <$> abs dbPath
  else None.

(** The PRAGMAs [openDB] runs once. *)
Definition pragmas (dbPath : string) : list string :=
  ["PRAGMA busy_timeout = 5000"; "PRAGMA foreign_keys = ON"] ++
  (if String.eqb dbPath ":memory:" then [] else ["PRAGMA journal_mode = WAL"]).

(** * The legacy database *)

(** [strings.Repeat(s, n)], [strings.Join(l, sep)]. *)
Fixpoint str_repeat (s : string) (n : nat) : string :=
  match n with O => EmptyString | S n' => s +:+ str_repeat s n' end.
Fixpoint str_join (sep : string) (l : list string) : string :=
  match l with
  | [] => EmptyString
  | [x] => x
  | x :: l' => x +:+ sep +:+ str_join sep l'
  end.

(** [quoteIdent] doubles the quotes inside. *)
Fixpoint double_quotes (s : string) : string :=
  match s with
  | EmptyString => EmptyString
  | String c s' =>
      if Ascii.eqb c dquote then String dquote (String dquote (double_quotes s')) else String c (double_quotes s')
  end.
Definition quoteIdent (s : string) : string := String dquote (double_quotes s +:+ String dquote EmptyString).
Definition quoteAll (names : list string) : list string := quoteIdent <$> names.

Definition insertSQL (name : string) (cols : list string) : string :=
  "INSERT INTO " +:+ quoteIdent name +:+ " (" +:+ str_join ", " (quoteAll cols) +:+ ") VALUES (" +:+
  trim_suffix (str_repeat "?, " (length cols)) ", " +:+ ")".

Section Legacy.
Context {V T : Type}.

(** A table of the legacy file: its row in [sqlite_master] and its content. *)
Record Table := mkTable { t_name : string; t_create : string; t_cols : list string; t_rows : list (list V) }.

Record Source := mkSource { src_tables : list Table; src_indexes : list (string * option string) }.

(** [os.Stat] of the legacy path. *)
Inductive Stat := NotExist | StatError | Exists.

Inductive LegacyError := ErrStat | ErrTarget | ErrSource.

Context (fault : nat -> bool) (exec_target : string -> list V -> T -> option T) (user_tables : T -> nat).

(** Statements on the target change it, queries of either file do not. *)
Definition Copy (A : Type) : Type := ST (T * nat) (LegacyError + A).

Definition c_ret {A} (a : A) : Copy A := fun s => (inr a, s).
Definition c_bind {A B} (m : Copy A) (k : A -> Copy B) : Copy B :=
  fun s => match m s with
           | (inl e, s') => (inl e, s')
           | (inr a, s') => k a s'
           end.

Definition target_exec (sql : string) (args : list V) : Copy unit := fun '(t, n) =>
  if fault n then (inl ErrTarget, (t, S n))
  else match exec_target sql args t with Some t' => (inr tt, (t', S n)) | None => (inl ErrTarget, (t, S n)) end.

Definition source_query {A} (a : A) : Copy A := fun '(t, n) =>
  if fault n then (inl ErrSource, (t, S n)) else (inr a, (t, S n)).

Fixpoint c_for {A} (f : A -> Copy unit) (l : list A) : Copy unit :=
  match l with
  | [] => c_ret tt
  | x :: l' => c_bind (f x) (fun _ => c_for f l')
  end.

(** [hasUserTables]. *)
Definition hasUserTables : Copy bool := fun '(t, n) =>
  if fault n then (inl ErrTarget, (t, S n)) else (inr (Nat.ltb 0 (user_tables t)), (t, S n)).

(** [listTables], [listIndexes]: by name; an index without text is one SQLite
    makes itself. *)
Definition listTables (src : Source) : list Table := insertion_sort (asc_text t_name) (src_tables src).
Definition listIndexes (src : Source) : list string := omap snd (insertion_sort (asc_text fst) (src_indexes src)).

(** [copyTable]. *)
Definition copyTable (tbl : Table) : Copy unit :=
  c_bind (target_exec (t_create tbl) []) (fun _ =>
  c_bind (source_query (t_rows tbl)) (fun rows =>
  c_for (target_exec (insertSQL (t_name tbl) (t_cols tbl))) rows)).

(** [migrateLegacySQLite]. *)
Definition migrateLegacySQLite (legacyPath : string) (stat : Stat) (src : Source) : Copy unit :=
  if str_empty legacyPath then c_ret tt
  else
    match stat with
    | NotExist => c_ret tt
    | StatError => fun s => (inl ErrStat, s)
    | Exists =>
        c_bind hasUserTables (fun has =>
        if has : bool then c_ret tt
        else
          c_bind (source_query (listTables src)) (fun tables =>
          c_bind (c_for copyTable tables) (fun _ =>
          c_bind (source_query (listIndexes src)) (fun indexes =>
          c_for (fun sql => target_exec sql []) indexes))))
    end.

End Legacy.

Arguments Table V : clear implicits.
Arguments Source V : clear implicits.

Example insertSQL_two : insertSQL "config" ["key"; "value"] =
  "INSERT INTO " +:+ quoteIdent "config" +:+ " (" +:+ quoteIdent "key" +:+ ", " +:+ quoteIdent "value" +:+ ") VALUES (?, ?)".
Proof. vm_compute. reflexivity. Qed.

(** * The migrations: lemmas *)

Section Lemmas.
Context {T : Type} `{EngineLaws T} (entries : list Entry).

Fixpoint exec_all (stmts : list string) (t : T) : option T :=
  match stmts with
  | [] => Some t
  | stmt :: stmts' => db_exec stmt t ≫= exec_all stmts'
  end.

(** Specification: files applied one after the other, each completely, and
    recorded. *)
Inductive applies : list string -> T -> T -> Prop :=
| applies_nil t : applies [] t t
| applies_cons name names data at_ t t1 t2 t3 :
    read_file entries name = Some data -> exec_all (statements data) t = Some t1 ->
    db_record name at_ t1 = Some t2 -> applies names t2 t3 -> applies (name :: names) t t3.

Definition pending_of (applied files : list string) : list string :=
  keep (fun name => negb (bool_decide (name ∈ applied))) files.

Lemma applies_app l1 l2 t1 t2 t3 : applies l1 t1 t2 -> applies l2 t2 t3 -> applies (l1 ++ l2) t1 t3.
Proof. induction 1; simpl; eauto using applies. Qed.

Lemma exec_all_keeps stmts t t' : exec_all stmts t = Some t' ->
  db_applied t' = db_applied t /\ db_has_migrations t' = db_has_migrations t.
Proof.
  revert t. induction stmts as [|stmt stmts IH]; intros t; simpl; [by intros [= <-]|].
  intros (t1 & H1 & H2)%bind_Some. apply IH in H2 as [-> ->]. eauto using exec_applied, exec_created.
Qed.

Lemma applies_keeps l t t' : applies l t t' ->
  db_applied t' = db_applied t ++ l /\ db_has_migrations t' = db_has_migrations t.
Proof.
  induction 1 as [t|name names data at_ t t1 t2 t3 Hd H1 H2 _ [IH1 IH2]]; [by rewrite app_nil_r|].
  apply exec_all_keeps in H1 as [E1 E2]. pose proof (record_applied _ _ _ _ H2) as E3.
  pose proof (record_created _ _ _ _ H2) as E4. split; [|congruence].
  by rewrite IH1, E3, E1, <- (assoc_L (++)).
Qed.

(** What is pending after the first [k] pending files are applied. *)
Lemma pending_after applied files k : NoDup files ->
  pending_of (applied ++ take k (pending_of applied files)) files = drop k (pending_of applied files).
Proof.
  intros Hn. set (P := pending_of applied files).
  assert (HP : NoDup P) by (by apply keep_nodup).
  assert (E : pending_of (applied ++ take k P) files = keep (fun name => negb (bool_decide (name ∈ take k P))) P).
  { unfold P, pending_of, keep. clear. generalize (take k (List.filter (fun name => negb (bool_decide (name ∈ applied))) files)) as d.
    intros d. induction files as [|x files IH]; simpl; [done|].
    rewrite (bool_decide_ext (x ∈ applied ++ d) (x ∈ applied \/ x ∈ d)) by apply elem_of_app.
    destruct (bool_decide_reflect (x ∈ applied)) as [Ha|Ha]; simpl.
    - rewrite bool_decide_eq_true_2 by tauto. simpl. exact IH.
    - rewrite (bool_decide_ext (x ∈ applied \/ x ∈ d) (x ∈ d)) by tauto. destruct (bool_decide (x ∈ d)); simpl; by rewrite IH. }
  rewrite <- (take_drop k P) in HP. apply NoDup_app in HP as (_ & Hd & _).
  rewrite E. set (p := fun name => _). transitivity (keep p (take k P ++ drop k P)); [by rewrite take_drop|].
  rewrite keep_app. unfold p.
  rewrite keep_none, keep_all; [done| |].
  - apply Forall_forall. intros x Hx. apply negb_true_iff, bool_decide_eq_false. intros Hx'. by apply (Hd x).
  - apply Forall_forall. intros x Hx. by apply negb_false_iff, bool_decide_eq_true.
Qed.

Context (fault : nat -> bool) (clock : nat -> Z).

Lemma run_stmt_inv {A} e (f : T -> option (A * T)) s r s' :
  run_stmt fault e f s = (r, s') ->
  match r with
  | inl _ => ss_db s' = ss_db s
  | inr a => f (ss_db s) = Some (a, ss_db s')
  end.
Proof. unfold run_stmt. destruct (fault _); [by intros [= <- <-]|]. destruct (f (ss_db s)) as [[a t]|]; by intros [= <- <-]. Qed.

Lemma m_bind_inv {A B} (m : Migration A) (k : A -> Migration B) (s : Session T) r s' :
  m_bind m k s = (r, s') ->
  (exists e, m s = (inl e, s') /\ r = inl e) \/ (exists a s1, m s = (inr a, s1) /\ k a s1 = (r, s')).
Proof. unfold m_bind. destruct (m s) as [[e|a] s1]; [intros [= <- <-]; left; by exists e|right; by exists a, s1]. Qed.

Lemma run_all_inv name stmts s s' :
  run_all fault name stmts s = (inr tt, s') -> exec_all stmts (ss_db s) = Some (ss_db s').
Proof.
  revert s. induction stmts as [|stmt stmts IH]; intros s; simpl; [by intros [= <-]|].
  intros [(e & _ & ?)|([] & s1 & H1 & H2)]%m_bind_inv; [done|]. apply run_stmt_inv in H1.
  destruct (db_exec stmt (ss_db s)) as [t|] eqn:E; simplify_eq/=. by apply IH.
Qed.

(** A turn of the loop applies its file completely or not at all. *)
Lemma migrate_one_inv name s r s' :
  migrate_one fault clock entries name s = (r, s') ->
  if bool_decide (name ∈ db_applied (ss_db s)) then ss_db s' = ss_db s
  else match r with
       | inl _ => ss_db s' = ss_db s
       | inr _ => applies [name] (ss_db s) (ss_db s')
       end.
Proof.
  unfold migrate_one. intros [(e & H1 & ->)|(b & s1 & H1 & H2)]%m_bind_inv; apply run_stmt_inv in H1.
  { by case_bool_decide. }
  injection H1 as <- E1. rewrite E1 in H2 |- *. case_bool_decide as Hin.
  { unfold logf in H2. by injection H2 as <- <-. }
  destruct (read_file entries name) as [data|] eqn:Ed; [|by injection H2 as <- <-].
  apply m_bind_inv in H2 as [(e & H2 & ->)|([] & s2 & H2 & H3)].
  - unfold in_transaction in H2. destruct (fault _); [by simplify_eq/=|].
    destruct (m_bind _ _ _) as [[e'|[]] s3]; [by simplify_eq/=|]. destruct (fault _); by simplify_eq/=.
  - unfold logf in H3. injection H3 as <- <-. simpl. unfold in_transaction in H2.
    destruct (fault _); [done|]. destruct (m_bind _ _ _) as [[e'|[]] s3] eqn:Eb; [done|].
    destruct (fault _); [done|]. injection H2 as <-. simpl.
    apply m_bind_inv in Eb as [(e & _ & ?)|([] & s4 & Hr%run_all_inv & Hrec)]; [done|]. simpl in Hr.
    apply run_stmt_inv in Hrec. destruct (db_record _ _ _) as [t2|] eqn:Et; simplify_eq/=.
    eapply applies_cons; eauto using applies_nil.
Qed.

Lemma migrate_files_inv names s r s' : NoDup names ->
  migrate_files fault clock entries names s = (r, s') ->
  exists k, applies (take k (pending_of (db_applied (ss_db s)) names)) (ss_db s) (ss_db s') /\
    (r = inr tt -> take k (pending_of (db_applied (ss_db s)) names) = pending_of (db_applied (ss_db s)) names).
Proof.
  revert s. induction names as [|name names IH]; intros s Hn; simpl.
  { intros [= <- <-]. exists 0%nat. split; [constructor|done]. }
  apply NoDup_cons in Hn as [Hnin Hn]. intros H2.
  assert (Hfail : forall e, r = inl e -> ss_db s' = ss_db s ->
    exists k, applies (take k (pending_of (db_applied (ss_db s)) (name :: names))) (ss_db s) (ss_db s') /\
      (r = inr tt -> take k (pending_of (db_applied (ss_db s)) (name :: names)) = pending_of (db_applied (ss_db s)) (name :: names))).
  { intros e -> ->. exists 0%nat. by split; [constructor|]. }
  apply m_bind_inv in H2 as [(e & H2 & ->)|([] & s1 & H2 & H3)]; apply migrate_one_inv in H2.
  { eapply Hfail; [done|]. by destruct (bool_decide _). }
  unfold pending_of, keep in *. cbn [List.filter]. destruct (bool_decide_reflect (name ∈ db_applied (ss_db s))) as [Hin|Hin]; simpl.
  - rewrite <- H2. by apply IH.
  - pose proof (applies_keeps _ _ _ H2) as [Ea _]. destruct (IH s1 Hn H3) as (k & Hk1 & Hk2).
    assert (Ep : List.filter (fun n => negb (bool_decide (n ∈ db_applied (ss_db s1)))) names =
      List.filter (fun n => negb (bool_decide (n ∈ db_applied (ss_db s)))) names).
    { apply (keep_ext _ _ names). intros x Hx. f_equal. apply bool_decide_ext. rewrite Ea. set_solver. }
    rewrite Ep in *. exists (S k). simpl. split; [|intros Hr; by rewrite Hk2].
    by apply (applies_app [name] _ _ (ss_db s1)).
Qed.

End Lemmas.

(** ** Boots *)

Section Boots.
Context {T : Type} `{EngineLaws T} (entries : list Entry).

(** A boot has its own faults and its own clock. *)
Definition Boot : Type := (nat -> bool) * (nat -> Z).

Definition boot (b : Boot) (s : Session T) : (MigrateError + unit) * Session T :=
  runMigrationsWithLog b.1 b.2 (Some entries) s.

Definition boots (bs : list Boot) (s : Session T) : Session T := fold_left (fun s b => (boot b s).2) bs s.

(** How far the migrations have come from the database [t]. *)
Definition progress (t : T) (k : nat) (s : Session T) : Prop :=
  let pending := pending_of (db_applied t) (up_files entries) in
  (k = 0%nat /\ ss_db s = t) \/ applies entries (take k pending) (db_create_migrations t) (ss_db s).

Lemma progress_create t k s : progress t k s ->
  let pending := pending_of (db_applied t) (up_files entries) in
  applies entries (take k pending) (db_create_migrations t) (db_create_migrations (ss_db s)).
Proof.
  intros [[-> ->]|Ha] pending; [constructor|]. pose proof (applies_keeps _ _ _ _ Ha) as [_ Hc].
  rewrite (create_once (ss_db s)); [exact Ha|]. by rewrite Hc, create_created.
Qed.

Lemma boot_progress t k s b r s' : NoDup (up_files entries) ->
  let pending := pending_of (db_applied t) (up_files entries) in
  progress t k s -> boot b s = (r, s') ->
  exists k', progress t k' s' /\ (r = inr tt -> applies entries pending (db_create_migrations t) (ss_db s')).
Proof.
  intros Hn pending Hp Hb. pose proof (progress_create t k s Hp) as Ha. fold pending in Ha.
  unfold boot, runMigrationsWithLog in Hb.
  apply m_bind_inv in Hb as [(e & H1 & ->)|([] & s1 & H1 & H2)]; apply run_stmt_inv in H1.
  { exists k. split; [|done]. unfold progress in *. by rewrite H1. }
  injection H1 as E1. rewrite E1 in Ha. apply migrate_files_inv in H2 as (j & Hj1 & Hj2); [|done].
  pose proof (applies_keeps _ _ _ _ Ha) as [Eapp _]. rewrite create_applied in Eapp.
  rewrite Eapp in *. unfold pending in *. rewrite pending_after in * by done.
  set (P := pending_of (db_applied t) (up_files entries)) in *.
  exists (k + j)%nat. split.
  - right. fold P. rewrite <- (take_drop k (take (k + j) P)), take_take, skipn_firstn_comm.
    replace (k `min` (k + j))%nat with k by lia. replace (k + j - k)%nat with j by lia. by eapply applies_app.
  - intros Hr. rewrite <- (take_drop k P). eapply applies_app; [done|]. by rewrite Hj2 in Hj1.
Qed.

Lemma boots_progress t bs s k : NoDup (up_files entries) -> progress t k s -> exists k', progress t k' (boots bs s).
Proof.
  intros Hn. revert s k. induction bs as [|b bs IH]; intros s k Hp; simpl; [by exists k|].
  destruct (boot b s) as [r s'] eqn:E. destruct (boot_progress t k s b r s' Hn Hp E) as (k' & Hp' & _).
  by apply (IH _ k').
Qed.

(** Files that can be read, statements the engine accepts and no fault: the
    boot succeeds. *)
Lemma quiet_run_stmt {A} (fault : nat -> bool) e (f : T -> option (A * T)) (s : Session T) a t :
  (forall n, fault n = false) -> f (ss_db s) = Some (a, t) ->
  run_stmt fault e f s = (inr a, mkSession t (S (ss_stmts s)) (ss_log s)).
Proof. intros Hf Hs. unfold run_stmt. by rewrite Hf, Hs. Qed.

Lemma quiet_run_all (fault : nat -> bool) name stmts (s : Session T) :
  (forall n, fault n = false) -> (forall stmt (t : T), db_exec stmt t <> None) -> exists s', run_all fault name stmts s = (inr tt, s').
Proof.
  intros Hf He. revert s. induction stmts as [|stmt stmts IH]; intros s; simpl; [by exists s|].
  destruct (db_exec stmt (ss_db s)) as [t|] eqn:E; [|by destruct (He stmt (ss_db s))].
  unfold m_bind. rewrite (quiet_run_stmt _ _ _ _ tt t Hf) by by rewrite E. apply IH.
Qed.

Lemma quiet_migrate_one (fault : nat -> bool) (clock : nat -> Z) name (s : Session T) :
  (forall n, fault n = false) -> (forall stmt (t : T), db_exec stmt t <> None) ->
  (forall n at_ (t : T), db_record n at_ t <> None) -> is_Some (read_file entries name) ->
  exists s', migrate_one fault clock entries name s = (inr tt, s').
Proof.
  intros Hf He Hr [data Hd]. unfold migrate_one, m_bind at 1.
  rewrite (quiet_run_stmt _ _ _ _ (bool_decide (name ∈ db_applied (ss_db s))) (ss_db s) Hf) by done.
  destruct (bool_decide _); [by eexists|]. rewrite Hd. unfold m_bind at 1, in_transaction. rewrite Hf.
  set (s1 := mkSession _ _ _). unfold m_bind. destruct (quiet_run_all fault name (statements data) s1 Hf He) as [s2 ->].
  unfold record_migration.
  destruct (db_record name (clock (ss_stmts s2)) (ss_db s2)) as [t|] eqn:E; [|by destruct (Hr name (clock (ss_stmts s2)) (ss_db s2))].
  rewrite (quiet_run_stmt _ _ _ _ tt t Hf) by by rewrite E. rewrite Hf. by eexists.
Qed.

Lemma quiet_boot b s :
  (forall n, b.1 n = false) -> (forall stmt (t : T), db_exec stmt t <> None) ->
  (forall n at_ (t : T), db_record n at_ t <> None) -> (forall n, n ∈ up_files entries -> is_Some (read_file entries n)) ->
  exists s', boot b s = (inr tt, s').
Proof.
  intros Hf He Hr Hread. unfold boot, runMigrationsWithLog, m_bind at 1. rewrite (quiet_run_stmt _ _ _ _ tt _ Hf eq_refl).
  set (s1 := mkSession _ _ _). clearbody s1. revert s1. induction (up_files entries) as [|name names IH]; intros s1; simpl.
  - by eexists.
  - destruct (quiet_migrate_one b.1 b.2 name s1 Hf He Hr (Hread name ltac:(constructor))) as [s2 E].
    unfold m_bind. rewrite E. apply IH. intros n Hn. apply Hread. by constructor.
Qed.

End Boots.

(** C20: Migrations are applied exactly once each, in order, whatever happens
    on the way: after any number of boots, each failing where it may, the
    database is the one it was, or the one with the first so many pending
    files applied, each of them completely and recorded; as soon as one boot
    succeeds, all of the pending files are applied and every later boot, even
    one that fails, leaves the database as it is; and a boot without faults,
    on an engine that accepts the files, succeeds. *)
Theorem migrations_apply_exactly_once {T : Type} (E : Engine T) (L : EngineLaws T) (entries : list Entry)
    (bs : list Boot) (s : Session T) :
  NoDup (up_files entries) ->
  let t := ss_db s in
  let pending := pending_of (db_applied t) (up_files entries) in
  let s1 := boots entries bs s in
  (ss_db s1 = t \/ exists k, applies entries (take k pending) (db_create_migrations t) (ss_db s1)) /\
  (forall b s2, boot entries b s1 = (inr tt, s2) ->
     applies entries pending (db_create_migrations t) (ss_db s2) /\
     db_applied (ss_db s2) = db_applied t ++ pending /\
     forall bs', ss_db (boots entries bs' s2) = ss_db s2) /\
  ((forall stmt (t : T), db_exec stmt t <> None) -> (forall n at_ (t : T), db_record n at_ t <> None) ->
   (forall n, n ∈ up_files entries -> is_Some (read_file entries n)) ->
   forall b, (forall n, b.1 n = false) -> exists s2, boot entries b s1 = (inr tt, s2)).
Proof.
  intros Hn t pending s1.
  assert (H0 : progress entries t 0 s) by (by left).
  destruct (boots_progress entries t bs s 0 Hn H0) as (k & Hk). fold s1 in Hk. split_and!.
  - destruct Hk as [[_ ?]|?]; [by left|right; by exists k].
  - intros b s2 Hb. destruct (boot_progress entries t k s1 b _ s2 Hn Hk Hb) as (_ & _ & Ha). specialize (Ha eq_refl).
    fold pending in Ha. pose proof (applies_keeps _ _ _ _ Ha) as [Eapp Ecr]. rewrite create_applied in Eapp.
    split; [done|]. split; [done|]. intros bs'.
    assert (Hidle : forall b s, ss_db s = ss_db s2 -> ss_db (boot entries b s).2 = ss_db s2).
    { clear -Eapp Ecr Hn L. intros b s0 Es. destruct (boot entries b s0) as [r s'] eqn:Hb. simpl.
      unfold boot, runMigrationsWithLog in Hb.
      apply m_bind_inv in Hb as [(e & H1 & ->)|([] & s3 & H1 & H2)]; apply run_stmt_inv in H1; [congruence|].
      injection H1 as H1. rewrite Es, create_once in H1 by (by rewrite Ecr, create_created).
      apply migrate_files_inv in H2 as (j & Hj & _); [|done]. rewrite <- H1, Eapp in Hj.
      pose proof (pending_after (db_applied t) (up_files entries) (length pending) Hn) as Hp. fold pending in Hp.
      rewrite take_ge, drop_ge in Hp by lia. rewrite Hp, take_nil in Hj. by inversion Hj. }
    assert (Hgen : forall s, ss_db s = ss_db s2 -> ss_db (boots entries bs' s) = ss_db s2); [|by apply Hgen].
    induction bs' as [|b' bs' IH]; intros s3 E3; simpl; [done|]. by apply IH, Hidle.
  - intros He Hr Hread b Hf. by apply quiet_boot.
Qed.

(** * The legacy copy: lemmas *)

Section LegacyLemmas.
Context {V T : Type} (fault : nat -> bool) (exec_target : string -> list V -> T -> option T) (user_tables : T -> nat).

Fixpoint exec_plan (plan : list (string * list V)) (t : T) : option T :=
  match plan with
  | [] => Some t
  | (sql, args) :: plan' => exec_target sql args t ≫= exec_plan plan'
  end.

Lemma exec_plan_app p1 p2 t : exec_plan (p1 ++ p2) t = exec_plan p1 t ≫= exec_plan p2.
Proof.
  revert t. induction p1 as [|[sql args] p1 IH]; intros t; simpl; [done|].
  destruct (exec_target sql args t); simpl; [apply IH|done].
Qed.

(** An operation that runs the statements of a plan, or the first of them when
    it fails. *)
Definition runs_plan {A} (m : Copy A) (plan : list (string * list V)) : Prop :=
  forall s r s', m s = (r, s') ->
    (exists k, exec_plan (take k plan) s.1 = Some s'.1) /\ (forall a, r = inr a -> exec_plan plan s.1 = Some s'.1).

Lemma runs_nothing {A} (m : @Copy T A) : (forall s, (m s).2.1 = s.1) -> runs_plan m [].
Proof. intros H s r s' E. specialize (H s). rewrite E in H. simpl in H. rewrite H. split; [by exists 0%nat|done]. Qed.

Lemma runs_bind {A B} (m : Copy A) (k : A -> Copy B) p1 p2 :
  runs_plan m p1 -> (forall a, runs_plan (k a) p2) -> runs_plan (c_bind m k) (p1 ++ p2).
Proof.
  intros H1 H2 s r s'. unfold c_bind. destruct (m s) as [[e|a] s1] eqn:E; destruct (H1 _ _ _ E) as [(j & Hj) Hall].
  - intros [= <- <-]. split; [|done]. exists (j `min` length p1)%nat. rewrite take_app_le by lia.
    rewrite <- take_take, (take_ge p1) by lia. done.
  - intros E'. destruct (H2 a _ _ _ E') as [(i & Hi) Hall']. specialize (Hall a eq_refl). split.
    + exists (length p1 + i)%nat. rewrite take_app_add, exec_plan_app, Hall. done.
    + intros b ->. rewrite exec_plan_app, Hall. by eapply Hall'.
Qed.

Lemma runs_exec sql args : runs_plan (target_exec fault exec_target sql args) [(sql, args)].
Proof.
  intros [t n] r s'. unfold target_exec. destruct (fault n).
  { intros [= <- <-]. by split; [exists 0%nat|]. }
  destruct (exec_target sql args t) as [t'|] eqn:E; intros [= <- <-].
  - split; [exists 1%nat|intros _ _]; simpl; by rewrite E.
  - by split; [exists 0%nat|].
Qed.

Lemma runs_query {A B} (a : A) (k : A -> @Copy T B) plan :
  runs_plan (k a) plan -> runs_plan (c_bind (source_query fault a) k) plan.
Proof.
  intros Hk [t n] r s'. unfold c_bind, source_query. destruct (fault n); [|intros H; by apply (Hk _ _ _ H)].
  intros [= <- <-]. by split; [exists 0%nat|].
Qed.

Lemma runs_for {A} (f : A -> Copy unit) (plan : A -> list (string * list V)) l :
  (forall x, runs_plan (f x) (plan x)) -> runs_plan (c_for f l) (concat (plan <$> l)).
Proof.
  intros Hf. induction l as [|x l IH]; simpl; [by apply runs_nothing|]. apply runs_bind; auto.
Qed.

Definition table_plan (tbl : Table V) : list (string * list V) :=
  (t_create tbl, []) :: (pair (insertSQL (t_name tbl) (t_cols tbl)) <$> t_rows tbl).

Definition copy_plan (src : Source V) : list (string * list V) :=
  concat (table_plan <$> listTables src) ++ ((fun sql => (sql, [])) <$> listIndexes src).

Lemma concat_singletons {A B} (f : A -> B) (l : list A) : concat ((fun x => [f x]) <$> l) = f <$> l.
Proof. induction l as [|x l IH]; csimpl; [done|]. by rewrite IH. Qed.

Lemma runs_copyTable tbl : runs_plan (copyTable fault exec_target tbl) (table_plan tbl).
Proof.
  unfold copyTable, table_plan. apply (runs_bind _ _ [_]); [apply runs_exec|]. intros _.
  assert (Hr : forall rows, runs_plan (c_for (target_exec fault exec_target (insertSQL (t_name tbl) (t_cols tbl))) rows)
    (pair (insertSQL (t_name tbl) (t_cols tbl)) <$> rows)).
  { intros rows. rewrite <- concat_singletons. apply runs_for. intros x. apply runs_exec. }
  by apply runs_query.
Qed.

End LegacyLemmas.

(** The copy of the legacy database runs the whole plan: every table in the
    order of its name, with all of its rows, then the indexes; a failure stops
    it after some statement, and nothing is rolled back.  Without a legacy
    file, or when the target has tables, it touches nothing. *)
Theorem legacy_copy_runs_its_plan {V T : Type} (fault : nat -> bool) (exec_target : string -> list V -> T -> option T)
    (user_tables : T -> nat) (legacyPath : string) (stat : Stat) (src : Source V) (t t' : T) (n n' : nat)
    (r : LegacyError + unit) :
  migrateLegacySQLite fault exec_target user_tables legacyPath stat src (t, n) = (r, (t', n')) ->
  (user_tables t <> 0%nat \/ legacyPath = "" \/ stat <> Exists -> t' = t) /\
  (exists k, exec_plan exec_target (take k (copy_plan src)) t = Some t') /\
  (legacyPath <> "" -> stat = Exists -> user_tables t = 0%nat -> r = inr tt ->
   exec_plan exec_target (copy_plan src) t = Some t').
Proof.
  unfold migrateLegacySQLite. destruct (String.eqb_spec legacyPath "") as [->|Hp].
  { simpl. intros [= <- <- <-]. split_and!; [done|by exists 0%nat|done]. }
  assert (Hne : str_empty legacyPath = false) by by apply String.eqb_neq. rewrite Hne.
  destruct stat; [intros [= <- <- <-]; split_and!; [done|by exists 0%nat|done]..|].
  unfold c_bind at 1. unfold hasUserTables. destruct (fault n); [intros [= <- <- <-]; split_and!; [done|by exists 0%nat|done]|].
  destruct (Nat.ltb_spec 0 (user_tables t)) as [Ht|Ht].
  { intros [= <- <- <-]. split_and!; [done|by exists 0%nat|lia]. }
  unfold c_bind at 1. unfold source_query at 1. destruct (fault (S n)).
  { intros [= <- <- <-]. split_and!; [|by exists 0%nat|done]. done. }
  intros H. assert (Hrun : runs_plan exec_target
    (c_bind (c_for (copyTable fault exec_target) (listTables src)) (fun _ =>
      c_bind (source_query fault (listIndexes src)) (fun indexes =>
      c_for (fun sql => target_exec fault exec_target sql []) indexes))) (copy_plan src)).
  { apply runs_bind; [apply runs_for; intros x; apply runs_copyTable|]. intros _. apply runs_query.
    pose proof (runs_for exec_target (fun sql => target_exec fault exec_target sql []) (fun sql => [(sql, [])]) (listIndexes src)
      ltac:(intros; apply runs_exec)) as Hi. rewrite concat_singletons in Hi. apply Hi. }
  destruct (Hrun _ _ _ H) as [(k & Hk) Hall]. split_and!.
  - intros [?|[?|?]]; [lia|done|done].
  - by exists k.
  - intros _ _ _ ->. by eapply Hall.
Qed.

(** * Witnesses *)

(** An engine that keeps the statements it ran. *)
#[export] Instance log_Engine : Engine (bool * list string * list string) := {|
  db_exec := fun s t => if String.eqb s "BAD" then None else Some (t.1.1, t.1.2, t.2 ++ [s]);
  db_has_migrations := fun t => t.1.1;
  db_create_migrations := fun t => (true, t.1.2, t.2);
  db_applied := fun t => t.1.2;
  db_record := fun n _ t => Some (t.1.1, t.1.2 ++ [n], t.2);
|}.

#[export] Instance log_EngineLaws : EngineLaws (bool * list string * list string).
Proof.
  split; simpl.
  - intros s t t' H. destruct (String.eqb s "BAD"); by simplify_eq/=.
  - intros s t t' H. destruct (String.eqb s "BAD"); by simplify_eq/=.
  - done.
  - done.
  - by intros [[[] a] l].
  - intros n at_ t t' H. by simplify_eq/=.
  - intros n at_ t t' H. by simplify_eq/=.
Qed.

Definition sample_files : list Entry :=
  [mkEntry "0002_b.up.sql" false (Some ("ALTER x;" +:+ nl +:+ "-- a note" +:+ nl +:+ "UPDATE y;"));
   mkEntry "0001_a.down.sql" false (Some "DROP x;"); mkEntry "0001_a.up.sql" false (Some " CREATE x; ")].

(** The first boot fails in the second file, the second succeeds. *)
Definition sample_boots : list Boot := [((fun n => Nat.eqb n 9), (fun _ => 0)); (no_fault, (fun _ => 1))].

Example sample_boots_run :
  ss_db (boots sample_files sample_boots (mkSession (false, [], []) 0 [])) =
  (true, ["0001_a.up.sql"; "0002_b.up.sql"], ["CREATE x"; "ALTER x"; "-- a note" +:+ nl +:+ "UPDATE y"]).
Proof. vm_compute. reflexivity. Qed.

Lemma migrations_apply_exactly_once_witness :
  exists s2, boot sample_files (no_fault, fun _ => 7) (boots sample_files sample_boots (mkSession (false, [], []) 0 [])) = (inr tt, s2) /\
    db_applied (ss_db s2) = ["0001_a.up.sql"; "0002_b.up.sql"].
Proof.
  set (s0 := mkSession (false, [], []) 0 []).
  assert (Hn : NoDup (up_files sample_files)).
  { refine (bool_decide_unpack (NoDup (up_files sample_files)) _). vm_compute. exact I. }
  destruct (migrations_apply_exactly_once log_Engine log_EngineLaws sample_files sample_boots s0 Hn) as (_ & H & _).
  destruct (boot sample_files (no_fault, fun _ => 7) (boots sample_files sample_boots s0)) as [r s2] eqn:E.
  assert (Hr : r = inr tt).
  { change r with ((r, s2).1). rewrite <- E. vm_compute. reflexivity. }
  subst r. exists s2. split; [done|]. destruct (H (no_fault, fun _ => 7) s2 E) as (_ & H2 & _). exact H2.
Defined.

(** A copy that fails after the first of two tables is not made up for: the
    next boot finds tables in the target and copies nothing. *)
Definition two_tables : Source nat :=
  mkSource [mkTable "a" "CREATE a" ["x"] [[1%nat]; [2%nat]]; mkTable "b" "CREATE b" ["y"] [[3%nat]]] [].

Definition run_statement (sql : string) (args : list nat) (t : list (string * list nat)) : option (list (string * list nat)) :=
  Some (t ++ [(sql, args)]).

Example interrupted_copy_is_lost :
  let first := migrateLegacySQLite (fun n => Nat.eqb n 5) run_statement length "old.db" Exists two_tables ([], 0%nat) in
  let second := migrateLegacySQLite no_fault run_statement length "old.db" Exists two_tables (first.2.1, 0%nat) in
  first.1 = inl ErrTarget /\ second.1 = inr tt /\ length second.2.1 = 2%nat /\ length (copy_plan two_tables) = 5%nat.
Proof. vm_compute. done. Qed.
