(* ===== verification/Reply.v ===== *)
(** What the handlers of the admin API are made of: the requests they read,
    the JSON bodies they decode, the replies they write, and their effects, as
    a monad with the early return of a Go handler. *)
From S2P Require Import Prelude GoLib Float64 Calendar Models Http Json Active Sql Store Stats Reports.
Local Open Scope Z_scope.
Local Open Scope go_scope.

(** * Request bodies *)

(** [json.NewDecoder(r.Body).Decode]: the first value of the body; what
    follows it is not looked at.  [None] is an error. *)
Definition decode_first (body : string) : option json :=
  fst <$> parse_value (2 * String.length body + 1) 0 body.

Definition decode_request {A} (f : json -> A -> Decoded A) (zero : A) (body : string) : option A :=
  match decode_first body with
  | None => None
  | Some v => let '(a, e) := f v zero in if e : bool then None else Some a
  end.

(** The fields of a struct, one decoder after the other. *)
Definition Fields (A : Type) : Type := list (string * json) -> A -> Decoded A.

Definition field {A B} (name : string) (f : json -> B -> Decoded B) (get : A -> B) (set : B -> A -> A) : Fields A :=
  fun l a => let '(b, e) := decode_field name f l (get a) in (set b a, e).

Definition fields {A} (l : list (Fields A)) : Fields A :=
  fun ms a => fold_left (fun '(a, e) f => let '(a, e') := f ms a in (a, e || e')) l (a, false).

(** [*string], [*bool], [*int]. *)
Definition ptr_string := decode_ptr EmptyString decode_string.
Definition ptr_bool := decode_ptr false decode_bool.
Definition ptr_int := decode_ptr 0 decode_int.

(** ** Floats

    [strconv.ParseFloat] on the grammar of JSON numbers: the decimal value,
    correctly rounded; past the largest float it is an error. *)
Definition digits_value (s : string) : Z :=
  fold_left (fun n c => 10 * n + (code c - 48)) (String.list_ascii_of_string s) 0.

Definition decimal_f64 (neg : bool) (m e : Z) (digits : Z) : f64 :=
  match m with
  | Zpos p =>
      if digits + e <? -330 then S754_zero neg
      else if 310 <? e then S754_infinity neg
      else if 0 <=? e then binary_normalize 53 1024 (if neg then - (m * 10 ^ e) else m * 10 ^ e) 0 neg
      else f64_div (S754_finite neg p 0) (S754_finite false (Z.to_pos (10 ^ (- e))) 0)
  | _ => S754_zero neg
  end.

Definition parse_float (raw : string) : f64 :=
  let '(neg, s) := match raw with String "-"%char s => (true, s) | _ => (false, raw) end in
  let '(ip, s) := span_digits s in
  let '(fp, s) := match s with String "."%char s => span_digits s | _ => (EmptyString, s) end in
  let exp :=
    match s with
    | String _ (String "-"%char s) => - digits_value s
    | String _ (String "+"%char s) => digits_value s
    | String _ s => digits_value s
    | EmptyString => 0
    end in
  let m := ip +:+ fp in
  decimal_f64 neg (digits_value m) (exp - slen fp) (slen m).

Definition decode_float (v : json) (a : f64) : Decoded f64 :=
  match v with
  | JNum raw => match parse_float raw with S754_infinity _ => (a, true) | x => (x, false) end
  | JNull => (a, false)
  | _ => (a, true)
  end.

Definition ptr_float := decode_ptr f64_zero decode_float.

Example parse_tenth : parse_float "0.1" = S754_finite false 7205759403792794 (-56).
Proof. vm_compute. reflexivity. Qed.

Example parse_exp : parse_float "-25e-1" = f64_sub f64_zero (f64_div (f64_of_Z 5) (f64_of_Z 2)).
Proof. vm_compute. reflexivity. Qed.

Example parse_range : parse_float "1e400" = S754_infinity false /\ parse_float "1e-400" = f64_zero.
Proof. vm_compute. done. Qed.

(** [hex.EncodeToString]. *)
Fixpoint hex_encode (s : string) : string :=
  match s with
  | EmptyString => EmptyString
  | String c s' => String (hex_digit (code c / 16)) (String (hex_digit (code c mod 16)) (hex_encode s'))
  end.

(** * Replies *)

(** An endpoint as discovery reports it; [None] is unknown. *)
Record discoverEndpoint := mkDiscover { de_Path : string; de_Method : string; de_IsSupported : option bool }.

(** An entry of the configuration's definition. *)
Inductive SettingDefault := DefaultInt (n : Z) | DefaultBool (b : bool).
Record SettingDef := mkSettingDef { sd_Type : string; sd_Default : SettingDefault; sd_Min : option Z; sd_Max : option Z }.

(** The data a handler encodes; a nil slice, which is encoded as null, is not
    told apart from an empty one. *)
Inductive Datum :=
| DBool (b : bool)
| DText (s : string)
| DInt (n : Z)
| DFloat (x : f64)
| DKey (k : APIKey)
| DKeys (l : list APIKey)
| DProvider (p : Provider)
| DProviders (l : list (Provider * list string))
| DEndpoint (e : ProviderEndpoint)
| DEndpoints (l : list ProviderEndpoint)
| DModels (l : list ProviderModel)
| DAlias (a : ModelAlias)
| DAliases (l : list ModelAlias)
| DLogs (l : list RequestLog)
| DLog (l : RequestLog) (costs : option Breakdown)
| DChunks (l : list (StreamingLog * string))
| DActive (l : list ActiveRequest)
| DUsage (u : APIKeyUsage)
| DUsages (l : list APIKeyUsage)
| DGroups (l : list GroupStats)
| DPoints (l : list TimeSeriesPoint)
| DLifetime (c : LifetimeCost)
| DConfig (c : Configuration)
| DTexts (l : list string)
| DDiscovered (l : list discoverEndpoint)
| DDefinition (l : list (string * SettingDef))
| DMap (members : list (string * Datum)).

(** [json.Encode] fails on NaN and the infinities, and on an instant whose
    year has not four digits. *)
Definition float_ok (x : f64) : bool := match x with S754_zero _ | S754_finite _ _ _ => true | _ => false end.
Definition ofloat_ok (x : option f64) : bool := from_option float_ok true x.
Definition otime_ok (t : option Z) : bool := from_option four_digits true t.

Definition key_ok (k : APIKey) : bool := four_digits (k_CreatedAt k) && otime_ok (k_LastUsedAt k).
Definition provider_ok (p : Provider) : bool :=
  float_ok (p_CircuitBreakerErrorThreshold p) && otime_ok (p_HealthCheckedAt p) && four_digits (p_CreatedAt p) &&
  four_digits (p_UpdatedAt p).
Definition model_ok (m : ProviderModel) : bool :=
  four_digits (pm_CreatedAt m) && ofloat_ok (pm_CostPerMillionInput m) && ofloat_ok (pm_CostPerMillionOutput m) &&
  ofloat_ok (pm_CostPerMillionCacheRead m) && ofloat_ok (pm_CostPerMillionCacheWrite m).
Definition alias_ok (a : ModelAlias) : bool := four_digits (a_CreatedAt a) && four_digits (a_UpdatedAt a).
Definition log_ok (l : RequestLog) : bool :=
  four_digits (log_Timestamp l) && four_digits (log_CreatedAt l) && ofloat_ok (log_EstimatedCostUSD l).
Definition cost_ok (b : Breakdown) : bool :=
  float_ok (b_InputUSD b) && float_ok (b_OutputUSD b) && float_ok (b_CachedReadUSD b) && float_ok (b_TotalUSD b).
Definition group_ok (g : GroupStats) : bool := float_ok (g_AvgLatencyMs g).
Definition usage_ok (u : APIKeyUsage) : bool := float_ok (au_TotalCostUSD u) && otime_ok (au_LastUsedAt u).
Definition point_ok (p : TimeSeriesPoint) : bool :=
  float_ok (tp_TotalCostUSD p) && float_ok (tp_InputCostUSD p) && float_ok (tp_OutputCostUSD p) &&
  float_ok (tp_CachedCostUSD p).
Definition lifetime_ok (c : LifetimeCost) : bool :=
  float_ok (lt_TotalCostUSD c) && float_ok (lt_InputCostUSD c) && float_ok (lt_OutputCostUSD c) &&
  float_ok (lt_CachedCostUSD c).

Fixpoint encodable (d : Datum) : bool :=
  match d with
  | DBool _ | DText _ | DInt _ | DConfig _ | DTexts _ | DDiscovered _ | DDefinition _ => true
  | DFloat x => float_ok x
  | DKey k => key_ok k
  | DKeys l => forallb key_ok l
  | DProvider p => provider_ok p
  | DProviders l => forallb (fun pm => provider_ok pm.1) l
  | DEndpoint e => four_digits (ep_CreatedAt e)
  | DEndpoints l => forallb (fun e => four_digits (ep_CreatedAt e)) l
  | DModels l => forallb model_ok l
  | DAlias a => alias_ok a
  | DAliases l => forallb alias_ok l
  | DLogs l => forallb log_ok l
  | DLog l b => log_ok l && from_option cost_ok true b
  | DChunks l => forallb (fun cl => four_digits (sl_Timestamp cl.1) && four_digits (sl_CreatedAt cl.1)) l
  | DActive l => forallb (fun a => four_digits (ar_StartedAt a)) l
  | DUsage u => usage_ok u
  | DUsages l => forallb usage_ok l
  | DGroups l => forallb group_ok l
  | DPoints l => forallb point_ok l
  | DLifetime c => lifetime_ok c
  | DMap members => forallb (fun kd => encodable kd.2) members
  end.

(** A reply: an error body [{"error":msg}], an encoded datum, or a status
    without a body. *)
Inductive Reply :=
| RError (status : Z) (msg : string)
| RJson (status : Z) (d : Datum)
| RStatus (status : Z).

Definition reply_status (r : Reply) : Z :=
  match r with RError s _ | RJson s _ | RStatus s => s end.

(** * Handlers *)

(** What a handler does besides reading and writing the tables: it replies,
    and it calls the hooks for routing changes, for configuration changes and
    for the idle timeout of the outbound client. *)
Inductive Event :=
| EvReply (r : Reply)
| EvRoutingChanged
| EvConfigChanged
| EvIdleTimeout (seconds : Z).

Record World := mkWorld { aw_conn : Conn; aw_events : list Event }.

(** A handler that has returned is [None]. *)
Definition Act (A : Type) : Type := ST World (option A).

Definition act {A} (a : A) : Act A := fun w => (Some a, w).
Definition return_ {A} : Act A := fun w => (None, w).
Definition abind {A B} (m : Act A) (k : A -> Act B) : Act B :=
  fun w => match m w with
           | (None, w') => (None, w')
           | (Some a, w') => k a w'
           end.

Notation "'do!' x ':=' m 'in' k" := (abind m (fun x => k))
  (at level 10, x pattern, m at level 200, k at level 200) : go_scope.
Notation "m '>>!' k" := (abind m (fun _ => k)) (at level 100, right associativity) : go_scope.

Definition emit (e : Event) : Act unit := fun w => (Some tt, mkWorld (aw_conn w) (aw_events w ++ [e])).

(** [respondJSON] and [respondError]. *)
Definition respondError (status : Z) (msg : string) : Act unit := emit (EvReply (RError status msg)).
Definition respondJSON (status : Z) (d : Datum) : Act unit :=
  if encodable d then emit (EvReply (RJson status d)) else respondError 500 "failed to encode response".

(** [respondError(...); return]. *)
Definition fail_with {A} (status : Z) (msg : string) : Act A := respondError status msg >>! return_.

(** A call of the store. *)
Definition call {A} (m : Exec A) : Act (DBError + A) :=
  fun w => let '(r, c) := m (aw_conn w) in (Some r, mkWorld c (aw_events w)).

(** [if err != nil { respondError(w, 500, msg); return }]. *)
Definition try_ {A} (m : Exec A) (msg : string) : Act A :=
  do! r := call m in
  match r with
  | inl _ => fail_with 500 msg
  | inr a => act a
  end.

(** The same, with another answer for [sql.ErrNoRows]. *)
Definition try_found {A} (m : Exec A) (status : Z) (missing msg : string) : Act A :=
  do! r := call m in
  match r with
  | inl ErrNoRows => fail_with status missing
  | inl _ => fail_with 500 msg
  | inr a => act a
  end.

(** [if cond { respondError(w, status, msg); return }]. *)
Definition refuse_if (cond : bool) (status : Z) (msg : string) : Act unit :=
  if cond then fail_with status msg else act tt.

Definition some_or {A} (o : option A) (status : Z) (msg : string) : Act A :=
  match o with Some a => act a | None => fail_with status msg end.
