(* ===== verification/Admin.v ===== *)
(** The admin API, [internal/admin/handler.go]: one definition per handler, on
    the tables of the store and the replies of {!Reply}.

    A handler gets the path parameters the router found and the query
    parameters as a function; the instant, the identifiers and the random
    bytes it draws are arguments of the section. *)
From S2P Require Import Prelude GoLib Float64 Models Http Json Active Limiter Access Sql Store Stats Reports Reply.
Local Open Scope Z_scope.
Local Open Scope go_scope.

(** [Handler] with [HandlerConfig]: which hooks are set, the registry of
    in-flight requests and the access key. *)
Record Handler := mkHandler {
  h_onRoutingChanged : bool;
  h_onConfigChanged : bool;
  h_onHTTPIdleSaved : bool;
  h_active : option ActiveRegistry;
  h_accessKey : string;
}.

(** [NewHandler] with its [HandlerConfig], and [h.SetActiveRegistry]. *)
Definition NewHandler (onHTTPIdleSaved onRoutingChanged onConfigChanged : bool) (accessKey : string) : Handler :=
  mkHandler onRoutingChanged onConfigChanged onHTTPIdleSaved None accessKey.

Definition set_registry (r : option ActiveRegistry) (h : Handler) : Handler :=
  mkHandler (h_onRoutingChanged h) (h_onConfigChanged h) (h_onHTTPIdleSaved h) (SetActiveRegistry r (h_active h)) (h_accessKey h).

Section Admin.
Context (fault : nat -> bool) `{order : SortSlice}.
Context (sum_real avg_real : list f64 -> f64) (bare_row : list RequestLog -> option RequestLog).
Context (h : Handler).
(** [time.Now], [uuid.NewString], [rand.Read] ([None] is its error). *)
Context (now : Z) (uuid : string) (random : option string).
(** [proxy.HashKey], [strings.ToLower], the [%q] verb. *)
Context (HashKey lower quoted : string -> string).
(** [time.Parse] and [time.ParseDuration]. *)
Context (time_parse : string -> string -> option Z) (ParseDuration : string -> option Z).
(** Whether the query worker answers in time. *)
Context (answers : bool).

(** [notifyRoutingChanged]. *)
Definition notifyRoutingChanged : Act unit := if h_onRoutingChanged h then emit EvRoutingChanged else act tt.

(** [h.queryWorker.Run]: the result of the job, or an error without one. *)
Definition run_query {A} (m : Exec A) : Act (option DBError + A) :=
  do! r := call m in
  act (if answers then match r with inl e => inl (Some e) | inr a => inr a end else inl None).

(** ** Credentials *)

(** [authenticateAPIKey]. *)
Definition authenticateAPIKey (r : Request) : Act (option APIKey) :=
  let token := BearerToken r in
  if str_empty token then act None
  else
    do! k := call (GetAPIKeyByHash fault (HashKey token)) in
    match k with
    | inr (Some key) => act (if k_IsActive key then Some key else None)
    | _ => act None
    end.

Definition HandleAuth (r : Request) : Act unit :=
  if ValidateAccessKey (h_accessKey h) r then respondJSON 200 (DMap [("valid", DBool true)])
  else
    do! key := authenticateAPIKey r in
    match key with
    | Some _ => respondJSON 200 (DMap [("valid", DBool true)])
    | None => respondError 401 "unauthorized"
    end.

Definition HandleMe (r : Request) : Act unit :=
  if ValidateAccessKey (h_accessKey h) r then respondJSON 200 (DMap [("role", DText "admin")])
  else
    do! key := authenticateAPIKey r in
    match key with
    | Some key =>
        respondJSON 200 (DMap [("role", DText "key"); ("api_key_id", DText (k_ID key)); ("api_key_name", DText (k_Name key))])
    | None => respondError 401 "unauthorized"
    end.

(** ** API keys *)

Definition HandleListAPIKeys : Act unit :=
  do! keys := try_ (ListAPIKeys fault) "failed to list api keys" in
  respondJSON 200 (DMap [("keys", DKeys keys)]).

(** [models.APIKeyCreateRequest] and [models.APIKeyUpdateRequest]. *)
Record KeyRequest := mkKeyRequest {
  kr_Name : string;
  kr_IsActive : option bool;
  kr_RateLimitRPM : option Z;
  kr_RateLimitTPM : option Z;
}.

Definition zero_KeyRequest : KeyRequest := mkKeyRequest EmptyString None None None.
Definition kr_name : Fields KeyRequest := field "name" decode_string kr_Name
  (fun v k => mkKeyRequest v (kr_IsActive k) (kr_RateLimitRPM k) (kr_RateLimitTPM k)).
Definition kr_active : Fields KeyRequest := field "is_active" ptr_bool kr_IsActive
  (fun v k => mkKeyRequest (kr_Name k) v (kr_RateLimitRPM k) (kr_RateLimitTPM k)).
Definition kr_rpm : Fields KeyRequest := field "rate_limit_rpm" ptr_int kr_RateLimitRPM
  (fun v k => mkKeyRequest (kr_Name k) (kr_IsActive k) v (kr_RateLimitTPM k)).
Definition kr_tpm : Fields KeyRequest := field "rate_limit_tpm" ptr_int kr_RateLimitTPM
  (fun v k => mkKeyRequest (kr_Name k) (kr_IsActive k) (kr_RateLimitRPM k) v).

Definition decode_key_create : json -> KeyRequest -> Decoded KeyRequest := decode_struct (fields [kr_name; kr_rpm; kr_tpm]).
Definition decode_key_update : json -> KeyRequest -> Decoded KeyRequest :=
  decode_struct (fields [kr_name; kr_active; kr_rpm; kr_tpm]).

(** [if p != nil && *p <= 0]. *)
Definition not_positive (p : option Z) : bool := from_option (fun v => v <=? 0) false p.

(** [apiKeyNameTaken]. *)
Definition name_key (k : APIKey) : string := lower (trim_space (k_Name k)).

Definition name_taken (name excludeID : string) (keys : list APIKey) : bool :=
  existsb (fun k => negb (String.eqb (k_ID k) excludeID) && String.eqb (name_key k) (lower name)) keys.

(** The checks both handlers make before they touch the tables; the result is
    the trimmed name. *)
Definition check_key_request (body : KeyRequest) (excludeID msg : string) : Act string :=
  let name := trim_space (kr_Name body) in
  refuse_if (str_empty name) 400 "name is required" >>!
  refuse_if (not_positive (kr_RateLimitRPM body)) 400 "rate_limit_rpm must be > 0" >>!
  refuse_if (not_positive (kr_RateLimitTPM body)) 400 "rate_limit_tpm must be > 0" >>!
  (do! keys := try_ (ListAPIKeys fault) msg in
   refuse_if (name_taken name excludeID keys) 409 ("an API key named " +:+ quoted name +:+ " already exists") >>!
   act name).

(** The row [HandleCreateAPIKey] makes of a request. *)
Definition new_key (name rawKey : string) (body : KeyRequest) : APIKey :=
  mkAPIKey uuid (HashKey rawKey) name true (kr_RateLimitRPM body) (kr_RateLimitTPM body) now None.

Definition HandleCreateAPIKey (r : Request) : Act unit :=
  do! body := some_or (decode_request decode_key_create zero_KeyRequest (req_Body r)) 400 "invalid JSON body" in
  do! name := check_key_request body EmptyString "failed to create api key" in
  do! raw := some_or random 500 "failed to generate api key" in
  let rawKey := hex_encode raw in
  let k := new_key name rawKey body in
  do! _ := try_ (CreateAPIKey fault k) "failed to create api key" in
  respondJSON 201 (DMap [("api_key", DKey k); ("key", DText rawKey)]).

Definition merged_key (name : string) (body : KeyRequest) (existing : APIKey) : APIKey :=
  set_k_RateLimitTPM (kr_RateLimitTPM body)
    (set_k_RateLimitRPM (kr_RateLimitRPM body)
      (set_k_IsActive (default (k_IsActive existing) (kr_IsActive body)) (set_k_Name name existing))).

Definition HandleUpdateAPIKey (id : string) (r : Request) : Act unit :=
  refuse_if (str_empty id) 400 "id is required" >>!
  (do! body := some_or (decode_request decode_key_update zero_KeyRequest (req_Body r)) 400 "invalid JSON body" in
   do! name := check_key_request body id "failed to update api key" in
   do! existing := try_found (GetAPIKey fault id) 404 "api key not found" "failed to get api key" in
   let merged := merged_key name body existing in
   do! _ := try_ (UpdateAPIKey fault merged) "failed to update api key" in
   respondJSON 200 (DMap [("api_key", DKey merged)])).

Definition HandleDeleteAPIKey (id : string) : Act unit :=
  refuse_if (str_empty id) 400 "id is required" >>!
  (do! _ := try_found (DeleteAPIKey fault id) 404 "api key not found" "failed to delete api key" in
   emit (EvReply (RStatus 204))).

(** ** Usage *)

(** [parseTimeRange]. *)
Definition rfc3339 : string := "2006-01-02T15:04:05Z07:00".

Definition time_param (s : string) (dflt : Z) : option Z :=
  if str_empty s then Some dflt else time_parse rfc3339 s.

Definition parseTimeRange (q : string -> string) : string + (Z * Z) :=
  match time_param (q "since") (now - 24 * Hour) with
  | None => inl "invalid since: must be RFC3339"
  | Some since =>
      match time_param (q "until") now with
      | None => inl "invalid until: must be RFC3339"
      | Some until => inr (since, until)
      end
  end.

(** [if err != nil { respondError(w, 400, err.Error()); return }]. *)
Definition valid_or_400 {A} (r : string + A) : Act A :=
  match r with
  | inl msg => fail_with 400 msg
  | inr a => act a
  end.

Definition HandleUsageByKey (q : string -> string) : Act unit :=
  do! (since, until) := valid_or_400 (parseTimeRange q) in
  do! usage := try_ (UsageByAPIKey fault sum_real since until) "failed to get usage" in
  respondJSON 200 (DMap [("usage", DUsages usage)]).

(** The zero value of [models.APIKeyUsage]. *)
Definition no_usage : APIKeyUsage := mkUsageRow EmptyString EmptyString 0 0 f64_zero None.

Definition HandleMyUsage (r : Request) (q : string -> string) : Act unit :=
  do! key := authenticateAPIKey r in
  do! key := some_or key 401 "unauthorized" in
  do! (since, until) := valid_or_400 (parseTimeRange q) in
  do! usage := try_ (UsageByAPIKey fault sum_real since until) "failed to get usage" in
  let my := default no_usage (head (keep (fun u => String.eqb (au_APIKeyID u) (k_ID key)) usage)) in
  do! byModel := try_ (UsageByAPIKeyModel fault avg_real (k_ID key) since until) "failed to get usage by model" in
  respondJSON 200 (DMap [("usage", DUsage my); ("api_key", DText (k_Name key)); ("by_model", DGroups byModel)]).

(** [defaultGranularity], and the check of a given one. *)
Definition defaultGranularity (d : Z) : string := if d <=? 48 * Hour then "hour" else "day".

Definition granularity_of (q : string -> string) (since until : Z) : Act string :=
  let g := q "granularity" in
  let g := if str_empty g then defaultGranularity (time_sub until since) else g in
  refuse_if (negb (String.eqb g "hour") && negb (String.eqb g "day")) 400 "granularity must be hour or day" >>! act g.

(** Fuel for the axis of a series: one turn for each bucket, and the last. *)
Definition series_fuel (granularity : string) (since until : Z) : nat :=
  let step := bucket_step granularity in S (steps_count (time_truncate since step) until step).

(** The reply of a time series; a loop out of fuel would not answer. *)
Definition respond_points (points : option (list TimeSeriesPoint)) : Act unit :=
  match points with
  | Some points => respondJSON 200 (DMap [("points", DPoints points)])
  | None => return_
  end.

Definition HandleMyTimeSeries (r : Request) (q : string -> string) : Act unit :=
  do! key := authenticateAPIKey r in
  do! key := some_or key 401 "unauthorized" in
  do! (since, until) := valid_or_400 (parseTimeRange q) in
  do! granularity := granularity_of q since until in
  do! points := try_ (TimeSeriesByAPIKey fault sum_real (series_fuel granularity since until) (k_ID key) since until granularity) "failed to load time series" in
  respond_points points.

Definition HandleActive : Act unit :=
  match h_active h with
  | None => respondJSON 200 (DMap [("active", DInt 0); ("requests", DActive [])])
  | Some reg => respondJSON 200 (DMap [("active", DInt (Count reg)); ("requests", DActive (Snapshot reg))])
  end.

(** ** Providers *)

(** [modelsByProvider[id]]: the model ids of a provider, in the order listed. *)
Definition models_of (id : string) (allModels : list ProviderModel) : list string :=
  pm_ModelID <$> keep (fun m => String.eqb (pm_ProviderID m) id) allModels.

Definition HandleListProviders : Act unit :=
  do! providers := try_ (ListProviders fault) "failed to list providers" in
  do! allModels := try_ (ListAllModels fault) "failed to list models" in
  respondJSON 200 (DMap [("providers", DProviders ((fun p => (p, models_of (p_ID p) allModels)) <$> providers))]).

Record ProviderRequest := mkProviderRequest {
  pr_Name : string;
  pr_BaseURL : string;
  pr_APIKey : string;
  pr_Enabled : option bool;
  pr_Threshold : option f64;
  pr_Window : option Z;
  pr_Cooldown : option Z;
}.

Definition zero_ProviderRequest : ProviderRequest := mkProviderRequest EmptyString EmptyString EmptyString None None None None.
Definition pr_name : Fields ProviderRequest := field "name" decode_string pr_Name
  (fun v p => mkProviderRequest v (pr_BaseURL p) (pr_APIKey p) (pr_Enabled p) (pr_Threshold p) (pr_Window p) (pr_Cooldown p)).
Definition pr_url : Fields ProviderRequest := field "base_url" decode_string pr_BaseURL
  (fun v p => mkProviderRequest (pr_Name p) v (pr_APIKey p) (pr_Enabled p) (pr_Threshold p) (pr_Window p) (pr_Cooldown p)).
Definition pr_key : Fields ProviderRequest := field "api_key" decode_string pr_APIKey
  (fun v p => mkProviderRequest (pr_Name p) (pr_BaseURL p) v (pr_Enabled p) (pr_Threshold p) (pr_Window p) (pr_Cooldown p)).
Definition pr_enabled : Fields ProviderRequest := field "circuit_breaker_enabled" ptr_bool pr_Enabled
  (fun v p => mkProviderRequest (pr_Name p) (pr_BaseURL p) (pr_APIKey p) v (pr_Threshold p) (pr_Window p) (pr_Cooldown p)).
Definition pr_threshold : Fields ProviderRequest := field "circuit_breaker_error_threshold" ptr_float pr_Threshold
  (fun v p => mkProviderRequest (pr_Name p) (pr_BaseURL p) (pr_APIKey p) (pr_Enabled p) v (pr_Window p) (pr_Cooldown p)).
Definition pr_window : Fields ProviderRequest := field "circuit_breaker_window_seconds" ptr_int pr_Window
  (fun v p => mkProviderRequest (pr_Name p) (pr_BaseURL p) (pr_APIKey p) (pr_Enabled p) (pr_Threshold p) v (pr_Cooldown p)).
Definition pr_cooldown : Fields ProviderRequest := field "circuit_breaker_cooldown_seconds" ptr_int pr_Cooldown
  (fun v p => mkProviderRequest (pr_Name p) (pr_BaseURL p) (pr_APIKey p) (pr_Enabled p) (pr_Threshold p) (pr_Window p) v).

Definition decode_provider_create : json -> ProviderRequest -> Decoded ProviderRequest :=
  decode_struct (fields [pr_name; pr_url; pr_key]).
Definition decode_provider_update : json -> ProviderRequest -> Decoded ProviderRequest :=
  decode_struct (fields [pr_name; pr_url; pr_key; pr_enabled; pr_threshold; pr_window; pr_cooldown]).

Definition blank (s : string) : bool := str_empty (trim_space s).

Definition new_provider (body : ProviderRequest) : Provider :=
  mkProvider uuid (pr_Name body) (pr_BaseURL body) (pr_APIKey body) false None now now true
    DefaultCircuitBreakerErrorThreshold DefaultCircuitBreakerWindowSeconds DefaultCircuitBreakerCooldownSeconds.

Definition HandleCreateProvider (r : Request) : Act unit :=
  do! body := some_or (decode_request decode_provider_create zero_ProviderRequest (req_Body r)) 400 "invalid JSON body" in
  refuse_if (blank (pr_Name body)) 400 "name is required" >>!
  refuse_if (blank (pr_BaseURL body)) 400 "base_url is required" >>!
  (do! p := try_ (CreateProvider fault (new_provider body)) "failed to create provider" in
   notifyRoutingChanged >>!
   respondJSON 201 (DMap [("provider", DProvider p)])).

Definition HandleGetProvider (id : string) : Act unit :=
  refuse_if (str_empty id) 400 "id is required" >>!
  (do! provider := try_found (GetProvider fault id) 404 "provider not found" "failed to get provider" in
   do! endpoints := try_ (ListProviderEndpoints fault id) "failed to list endpoints" in
   do! models := try_ (ListProviderModels fault id) "failed to list models" in
   respondJSON 200 (DMap [("provider", DProvider provider); ("endpoints", DEndpoints endpoints); ("models", DModels models)])).

(** [t <= 0 || t > 1]. *)
Definition bad_threshold (t : option f64) : bool :=
  from_option (fun t => f64_leb t f64_zero || f64_ltb f64_one t) false t.

Definition merged_provider (body : ProviderRequest) (existing : Provider) : Provider :=
  let p := set_p_BaseURL (pr_BaseURL body) (set_p_Name (pr_Name body) existing) in
  let p := if str_empty (pr_APIKey body) then p else set_p_APIKey (pr_APIKey body) p in
  let p := from_option (fun v => set_p_CircuitBreakerEnabled v p) p (pr_Enabled body) in
  let p := from_option (fun v => set_p_CircuitBreakerErrorThreshold v p) p (pr_Threshold body) in
  let p := from_option (fun v => set_p_CircuitBreakerWindowSeconds v p) p (pr_Window body) in
  let p := from_option (fun v => set_p_CircuitBreakerCooldownSeconds v p) p (pr_Cooldown body) in
  set_p_UpdatedAt now (NormalizeCircuitBreaker p).

Definition HandleUpdateProvider (id : string) (r : Request) : Act unit :=
  refuse_if (str_empty id) 400 "id is required" >>!
  (do! body := some_or (decode_request decode_provider_update zero_ProviderRequest (req_Body r)) 400 "invalid JSON body" in
   refuse_if (blank (pr_Name body)) 400 "name is required" >>!
   refuse_if (blank (pr_BaseURL body)) 400 "base_url is required" >>!
   refuse_if (bad_threshold (pr_Threshold body)) 400 "circuit_breaker_error_threshold must be > 0 and <= 1" >>!
   refuse_if (not_positive (pr_Window body)) 400 "circuit_breaker_window_seconds must be > 0" >>!
   refuse_if (not_positive (pr_Cooldown body)) 400 "circuit_breaker_cooldown_seconds must be > 0" >>!
   (do! existing := try_found (GetProvider fault id) 404 "provider not found" "failed to get provider" in
    do! merged := try_ (UpdateProvider fault (merged_provider body existing)) "failed to update provider" in
    notifyRoutingChanged >>!
    respondJSON 200 (DMap [("provider", DProvider merged)]))).

Definition HandleDeleteProvider (id : string) : Act unit :=
  refuse_if (str_empty id) 400 "id is required" >>!
  (do! _ := try_found (DeleteProvider fault id) 404 "provider not found" "failed to delete provider" in
   notifyRoutingChanged >>!
   emit (EvReply (RStatus 204))).

Definition decode_is_enabled : json -> option bool -> Decoded (option bool) :=
  decode_struct (fields [field "is_enabled" ptr_bool id (fun v _ => v)]).

Definition HandleUpdateEndpoint (providerID endpointID : string) (r : Request) : Act unit :=
  refuse_if (str_empty providerID || str_empty endpointID) 400 "provider id and endpoint id are required" >>!
  (do! body := some_or (decode_request decode_is_enabled None (req_Body r)) 400 "invalid JSON body" in
   do! enabled := some_or body 400 "is_enabled is required" in
   do! endpoints := try_ (ListProviderEndpoints fault providerID) "failed to list endpoints" in
   do! target := some_or (head (keep (fun e => String.eqb (ep_ID e) endpointID) endpoints)) 404 "endpoint not found" in
   let target := set_ep_IsEnabled enabled target in
   do! _ := try_ (UpdateProviderEndpoint fault target) "failed to update endpoint" in
   notifyRoutingChanged >>!
   respondJSON 200 (DMap [("endpoint", DEndpoint target)])).

(** ** Aliases *)

Definition HandleListAliases : Act unit :=
  do! aliases := try_ (ListAliases fault) "failed to list aliases" in
  respondJSON 200 (DMap [("aliases", DAliases aliases)]).

Record AliasRequest := mkAliasRequest {
  al_Alias : option string;
  al_ProviderID : option string;
  al_ModelID : option string;
  al_Weight : option Z;
  al_Priority : option Z;
  al_IsEnabled : option bool;
}.

Definition zero_AliasRequest : AliasRequest := mkAliasRequest None None None None None None.
Definition al_alias : Fields AliasRequest := field "alias" ptr_string al_Alias
  (fun v a => mkAliasRequest v (al_ProviderID a) (al_ModelID a) (al_Weight a) (al_Priority a) (al_IsEnabled a)).
Definition al_provider : Fields AliasRequest := field "provider_id" ptr_string al_ProviderID
  (fun v a => mkAliasRequest (al_Alias a) v (al_ModelID a) (al_Weight a) (al_Priority a) (al_IsEnabled a)).
Definition al_model : Fields AliasRequest := field "model_id" ptr_string al_ModelID
  (fun v a => mkAliasRequest (al_Alias a) (al_ProviderID a) v (al_Weight a) (al_Priority a) (al_IsEnabled a)).
Definition al_weight : Fields AliasRequest := field "weight" ptr_int al_Weight
  (fun v a => mkAliasRequest (al_Alias a) (al_ProviderID a) (al_ModelID a) v (al_Priority a) (al_IsEnabled a)).
Definition al_priority : Fields AliasRequest := field "priority" ptr_int al_Priority
  (fun v a => mkAliasRequest (al_Alias a) (al_ProviderID a) (al_ModelID a) (al_Weight a) v (al_IsEnabled a)).
Definition al_enabled : Fields AliasRequest := field "is_enabled" ptr_bool al_IsEnabled
  (fun v a => mkAliasRequest (al_Alias a) (al_ProviderID a) (al_ModelID a) (al_Weight a) (al_Priority a) v).

(** A new alias has plain strings, empty when they are missing. *)
Definition al_alias_text : Fields AliasRequest := field "alias" decode_string (fun a => default EmptyString (al_Alias a))
  (fun v a => mkAliasRequest (Some v) (al_ProviderID a) (al_ModelID a) (al_Weight a) (al_Priority a) (al_IsEnabled a)).
Definition al_provider_text : Fields AliasRequest := field "provider_id" decode_string (fun a => default EmptyString (al_ProviderID a))
  (fun v a => mkAliasRequest (al_Alias a) (Some v) (al_ModelID a) (al_Weight a) (al_Priority a) (al_IsEnabled a)).
Definition al_model_text : Fields AliasRequest := field "model_id" decode_string (fun a => default EmptyString (al_ModelID a))
  (fun v a => mkAliasRequest (al_Alias a) (al_ProviderID a) (Some v) (al_Weight a) (al_Priority a) (al_IsEnabled a)).

Definition decode_alias_create : json -> AliasRequest -> Decoded AliasRequest :=
  decode_struct (fields [al_alias_text; al_provider_text; al_model_text; al_weight; al_priority]).
Definition decode_alias_update : json -> AliasRequest -> Decoded AliasRequest :=
  decode_struct (fields [al_alias; al_provider; al_model; al_weight; al_priority; al_enabled]).

(** The check that a provider exists. *)
Definition known_provider (id : string) : Act unit :=
  do! _ := try_found (GetProvider fault id) 400 "unknown provider" "failed to verify provider" in act tt.

Definition new_alias (alias providerID modelID : string) (body : AliasRequest) : ModelAlias :=
  mkAlias uuid alias providerID modelID (default 1 (al_Weight body)) (default 0 (al_Priority body)) true now now.

Definition HandleCreateAlias (r : Request) : Act unit :=
  do! body := some_or (decode_request decode_alias_create zero_AliasRequest (req_Body r)) 400 "invalid JSON body" in
  let alias := default EmptyString (al_Alias body) in
  let providerID := default EmptyString (al_ProviderID body) in
  let modelID := default EmptyString (al_ModelID body) in
  refuse_if (blank alias) 400 "alias is required" >>!
  refuse_if (blank providerID) 400 "provider_id is required" >>!
  refuse_if (blank modelID) 400 "model_id is required" >>!
  known_provider providerID >>!
  (let a := new_alias alias providerID modelID body in
   do! _ := try_ (CreateAlias fault a) "failed to create alias" in
   notifyRoutingChanged >>!
   respondJSON 201 (DMap [("alias", DAlias a)])).

(** A text of an update, trimmed, with the check of its own. *)
Definition trimmed_field (v : option string) (old empty_msg : string) (check : string -> Act unit) : Act string :=
  match v with
  | None => act old
  | Some s =>
      let s := trim_space s in
      refuse_if (str_empty s) 400 empty_msg >>! check s >>! act s
  end.

Definition updated_alias (alias providerID modelID : string) (body : AliasRequest) (a : ModelAlias) : ModelAlias :=
  mkAlias (a_ID a) alias providerID modelID (default (a_Weight a) (al_Weight body)) (default (a_Priority a) (al_Priority body))
    (default (a_IsEnabled a) (al_IsEnabled body)) (a_CreatedAt a) now.

Definition HandleUpdateAlias (id : string) (r : Request) : Act unit :=
  refuse_if (str_empty id) 400 "id is required" >>!
  (do! body := some_or (decode_request decode_alias_update zero_AliasRequest (req_Body r)) 400 "invalid JSON body" in
   do! aliases := try_ (ListAliases fault) "failed to list aliases" in
   do! target := some_or (head (keep (fun a => String.eqb (a_ID a) id) aliases)) 404 "alias not found" in
   do! alias := trimmed_field (al_Alias body) (a_Alias target) "alias cannot be empty" (fun _ => act tt) in
   do! providerID := trimmed_field (al_ProviderID body) (a_ProviderID target) "provider_id cannot be empty" known_provider in
   do! modelID := trimmed_field (al_ModelID body) (a_ModelID target) "model_id cannot be empty" (fun _ => act tt) in
   let target := updated_alias alias providerID modelID body target in
   do! _ := try_ (UpdateAlias fault target) "failed to update alias" in
   notifyRoutingChanged >>!
   respondJSON 200 (DMap [("alias", DAlias target)])).

Definition HandleDeleteAlias (id : string) : Act unit :=
  refuse_if (str_empty id) 400 "id is required" >>!
  (do! _ := try_found (DeleteAlias fault id) 404 "alias not found" "failed to delete alias" in
   notifyRoutingChanged >>!
   emit (EvReply (RStatus 204))).

(** ** Logs *)

(** [parseRFC3339Param]: with a fraction of the second, then without. *)
Definition rfc3339nano : string := "2006-01-02T15:04:05.999999999Z07:00".
Definition parseRFC3339Param (s : string) : option Z :=
  match time_parse rfc3339nano s with
  | Some t => Some t
  | None => time_parse rfc3339 s
  end.

(** An optional parameter with a check of its own. *)
Definition param {A} (s : string) (dflt : A) (parse : string -> option A) (msg : string) : Act A :=
  if str_empty s then act dflt else some_or (parse s) 400 msg.

Definition parse_limit (s : string) : option Z :=
  v ← atoi s; if v <? 1 then None else Some (if 1000 <? v then 1000 else v).
Definition parse_offset (s : string) : option Z :=
  v ← atoi s; if v <? 0 then None else Some v.

(** The status classes; an unknown one does not filter. *)
Definition status_range (status : string) : Z * Z :=
  if String.eqb status "2xx" || String.eqb status "success" then (200, 299)
  else if String.eqb status "3xx" then (300, 399)
  else if String.eqb status "4xx" then (400, 499)
  else if String.eqb status "5xx" then (500, 599)
  else if String.eqb status "error" then (400, 0)
  else (0, 0).

Definition HandleQueryLogs (q : string -> string) : Act unit :=
  do! since := param (q "since") None (fun s => Some <$> parseRFC3339Param s) "invalid since: must be RFC3339" in
  do! until := param (q "until") None (fun s => Some <$> parseRFC3339Param s) "invalid until: must be RFC3339" in
  do! limit := param (q "limit") 50 parse_limit "invalid limit" in
  do! offset := param (q "offset") 0 parse_offset "invalid offset" in
  let '(statusMin, statusMax) := status_range (q "status") in
  let filter := mkFilter (q "model") (q "provider_id") since until statusMin statusMax limit offset in
  do! res := run_query (QueryRequestLogs fault filter) in
  match res with
  | inl _ => respondError 500 "failed to query logs"
  | inr (logs, total) => respondJSON 200 (DMap [("logs", DLogs logs); ("total", DInt total)])
  end.

(** The cost breakdown of a log, when its model is known. *)
Definition log_costs (log : RequestLog) : Act (option Breakdown) :=
  if negb (str_empty (log_ProviderID log)) && negb (str_empty (log_ResolvedModel log)) then
    do! pm := call (GetProviderModelCosts fault (log_ProviderID log) (log_ResolvedModel log)) in
    act (match pm with inr (Some pm) => Some (ForRequestLog log (Some pm)) | _ => None end)
  else act None.

Definition HandleGetLog (id : string) : Act unit :=
  refuse_if (str_empty id) 400 "id is required" >>!
  (do! res := run_query (GetRequestLog fault id) in
   match res with
   | inl (Some ErrNoRows) => respondError 404 "log not found"
   | inl _ => respondError 500 "failed to get log"
   | inr log =>
       do! costs := log_costs log in
       respondJSON 200 (DMap [("log", DLog log costs)])
   end).

(** [logs[i].CumulativeBody]: the deltas up to and including the [i]-th. *)
Fixpoint cumulative (acc : string) (logs : list StreamingLog) : list (StreamingLog * string) :=
  match logs with
  | [] => []
  | l :: logs' => let acc := acc +:+ sl_ContentDelta l in (l, acc) :: cumulative acc logs'
  end.

Definition HandleGetStreamingLogs (id : string) : Act unit :=
  refuse_if (str_empty id) 400 "id is required" >>!
  (do! res := run_query (GetStreamingLogs fault id) in
   match res with
   | inl _ => respondError 500 "failed to get streaming logs"
   | inr logs => respondJSON 200 (DMap [("streaming_logs", DChunks (cumulative EmptyString logs))])
   end).

(** ** Models of a provider *)

Record ModelRequest := mkModelRequest {
  mr_IsAvailable : option bool;
  mr_Input : option f64;
  mr_Output : option f64;
  mr_CacheRead : option f64;
  mr_CacheWrite : option f64;
  mr_MaxContext : option Z;
  mr_ModelID : string;
}.

Definition zero_ModelRequest : ModelRequest := mkModelRequest None None None None None None EmptyString.
Definition mr_available : Fields ModelRequest := field "is_available" ptr_bool mr_IsAvailable
  (fun v m => mkModelRequest v (mr_Input m) (mr_Output m) (mr_CacheRead m) (mr_CacheWrite m) (mr_MaxContext m) (mr_ModelID m)).
Definition mr_input : Fields ModelRequest := field "cost_per_million_input" ptr_float mr_Input
  (fun v m => mkModelRequest (mr_IsAvailable m) v (mr_Output m) (mr_CacheRead m) (mr_CacheWrite m) (mr_MaxContext m) (mr_ModelID m)).
Definition mr_output : Fields ModelRequest := field "cost_per_million_output" ptr_float mr_Output
  (fun v m => mkModelRequest (mr_IsAvailable m) (mr_Input m) v (mr_CacheRead m) (mr_CacheWrite m) (mr_MaxContext m) (mr_ModelID m)).
Definition mr_read : Fields ModelRequest := field "cost_per_million_cache_read" ptr_float mr_CacheRead
  (fun v m => mkModelRequest (mr_IsAvailable m) (mr_Input m) (mr_Output m) v (mr_CacheWrite m) (mr_MaxContext m) (mr_ModelID m)).
Definition mr_write : Fields ModelRequest := field "cost_per_million_cache_write" ptr_float mr_CacheWrite
  (fun v m => mkModelRequest (mr_IsAvailable m) (mr_Input m) (mr_Output m) (mr_CacheRead m) v (mr_MaxContext m) (mr_ModelID m)).
Definition mr_context : Fields ModelRequest := field "max_context" ptr_int mr_MaxContext
  (fun v m => mkModelRequest (mr_IsAvailable m) (mr_Input m) (mr_Output m) (mr_CacheRead m) (mr_CacheWrite m) v (mr_ModelID m)).
Definition mr_model : Fields ModelRequest := field "model_id" decode_string mr_ModelID
  (fun v m => mkModelRequest (mr_IsAvailable m) (mr_Input m) (mr_Output m) (mr_CacheRead m) (mr_CacheWrite m) (mr_MaxContext m) v).

Definition decode_model_update : json -> ModelRequest -> Decoded ModelRequest :=
  decode_struct (fields [mr_available; mr_input; mr_output; mr_read; mr_write; mr_context]).
Definition decode_model_add : json -> ModelRequest -> Decoded ModelRequest := decode_struct (fields [mr_model; mr_context]).

(** The costs of a request, in a model that is otherwise zero. *)
Definition cost_update (body : ModelRequest) : ProviderModel :=
  mkModel EmptyString EmptyString EmptyString time_zero false (mr_Input body) (mr_Output body) (mr_CacheRead body)
    (mr_CacheWrite body) (mr_MaxContext body).

Definition is_given {A} (o : option A) : bool := match o with Some _ => true | None => false end.

Definition has_cost_update (body : ModelRequest) : bool :=
  is_given (mr_Input body) || is_given (mr_Output body) || is_given (mr_CacheRead body) || is_given (mr_CacheWrite body) ||
  is_given (mr_MaxContext body).

(** The models of the provider, as the reply of a change. *)
Definition respond_models (providerID : string) (status : Z) : Act unit :=
  do! models := try_ (ListProviderModels fault providerID) "failed to list models" in
  respondJSON status (DMap [("models", DModels models)]) >>!
  notifyRoutingChanged.

Definition HandleUpdateProviderModel (providerID modelRecordID : string) (r : Request) : Act unit :=
  refuse_if (str_empty providerID || str_empty modelRecordID) 400 "provider id and model id are required" >>!
  (do! body := some_or (decode_request decode_model_update zero_ModelRequest (req_Body r)) 400 "invalid JSON body" in
   do! _ :=
     match mr_IsAvailable body with
     | Some available =>
         try_found (UpdateProviderModelAvailability fault providerID modelRecordID available) 404 "model not found"
           "failed to update model availability"
     | None => act tt
     end in
   do! _ :=
     (if has_cost_update body then
        try_found (UpdateProviderModelCosts fault modelRecordID (cost_update body)) 404 "model not found"
          "failed to update model costs"
      else act tt) in
   refuse_if (negb (is_given (mr_IsAvailable body)) && negb (has_cost_update body)) 400 "no fields to update" >>!
   respond_models providerID 200).

Definition HandleAddProviderModel (providerID : string) (r : Request) : Act unit :=
  refuse_if (str_empty providerID) 400 "provider id is required" >>!
  (do! _ := try_found (GetProvider fault providerID) 404 "provider not found" "failed to get provider" in
   do! body := some_or (decode_request decode_model_add zero_ModelRequest (req_Body r)) 400 "invalid JSON body" in
   let modelID := trim_space (mr_ModelID body) in
   refuse_if (str_empty modelID) 400 "model_id is required" >>!
   (do! existing := try_ (GetProviderModelCosts fault providerID modelID) "failed to check existing model" in
    refuse_if (is_given existing) 409 "model already configured for this provider" >>!
    (let pm := mkModel uuid providerID modelID now false None None None None (mr_MaxContext body) in
     do! _ := try_ (CreateProviderModel fault pm) "failed to add model" in
     respond_models providerID 201))).

Definition HandleDeleteProviderModel (providerID modelRecordID : string) : Act unit :=
  refuse_if (str_empty providerID || str_empty modelRecordID) 400 "provider id and model id are required" >>!
  (do! _ := try_found (DeleteProviderModel fault providerID modelRecordID) 404 "model not found" "failed to delete model" in
   respond_models providerID 200).

(** ** Statistics: [internal/admin/stats.go]

    [err_text] is the text of the error of parsing a duration. *)
Context (err_text : string -> string).

(** [parseDurationParam]. *)
Definition parseDurationParam (s : string) : option Z :=
  if str_empty s then None
  else if has_suffix s "d" then
    (fun days => dur_mul (dur_mul days 24) Hour) <$> atoi (str_take (String.length s - 1) s)
  else ParseDuration s.

(** [parseStatsWindow]. *)
Definition parseStatsWindow (q : string -> string) : string + (Z * Z) :=
  let fromStr := q "from" in
  let toStr := q "to" in
  if negb (str_empty fromStr) || negb (str_empty toStr) then
    if str_empty fromStr || str_empty toStr then inl "from and to must both be provided"
    else
      match parseRFC3339Param fromStr with
      | None => inl "invalid from: must be RFC3339"
      | Some since =>
          match parseRFC3339Param toStr with
          | None => inl "invalid to: must be RFC3339"
          | Some until => if time_before until since then inl "from must be before or equal to to" else inr (since, until)
          end
      end
  else
    let s := q "since" in
    match (if str_empty s then Some (24 * Hour) else parseDurationParam s) with
    | None => inl ("invalid since: " +:+ err_text s)
    | Some d => inr (time_add now (wrap64 (- d)), now)
    end.

Definition HandleGetStats (q : string -> string) : Act unit :=
  do! (since, until) := valid_or_400 (parseStatsWindow q) in
  do! stats := try_ (GetDashboardStats fault avg_real bare_row since until) "failed to load stats" in
  respondJSON 200 (DMap [("total_requests", DInt (ds_TotalRequests stats)); ("avg_latency_ms", DFloat (ds_AvgLatencyMs stats));
    ("error_rate", DFloat (ds_ErrorRate stats)); ("by_model", DGroups (ds_ByModel stats));
    ("by_provider", DGroups (ds_ByProvider stats)); ("by_api_key", DGroups (ds_ByAPIKey stats));
    ("active_requests", DInt (ActiveCount (h_active h)))]).

Definition HandleGetTimeSeries (q : string -> string) : Act unit :=
  do! (since, until) := valid_or_400 (parseStatsWindow q) in
  do! granularity := granularity_of q since until in
  do! points := try_ (GetTimeSeries fault sum_real (series_fuel granularity since until) since until granularity)
                  "failed to load time series" in
  respond_points points.

Definition HandleMyStats (r : Request) (q : string -> string) : Act unit :=
  do! key := authenticateAPIKey r in
  do! key := some_or key 401 "unauthorized" in
  do! (since, until) := valid_or_400 (parseStatsWindow q) in
  do! stats := try_ (GetDashboardStatsForAPIKey fault avg_real bare_row (k_ID key) since until) "failed to load stats" in
  respondJSON 200 (DMap [("total_requests", DInt (ds_TotalRequests stats)); ("avg_latency_ms", DFloat (ds_AvgLatencyMs stats));
    ("error_rate", DFloat (ds_ErrorRate stats)); ("by_model", DGroups (ds_ByModel stats))]).

Definition HandleMyStatsTimeSeries (r : Request) (q : string -> string) : Act unit :=
  do! key := authenticateAPIKey r in
  do! key := some_or key 401 "unauthorized" in
  do! (since, until) := valid_or_400 (parseStatsWindow q) in
  do! granularity := granularity_of q since until in
  do! points := try_ (TimeSeriesByAPIKey fault sum_real (series_fuel granularity since until) (k_ID key) since until granularity)
                  "failed to load time series" in
  respond_points points.

Definition HandleMyLifetimeCost (r : Request) : Act unit :=
  do! key := authenticateAPIKey r in
  do! key := some_or key 401 "unauthorized" in
  do! cost := try_ (GetLifetimeCostForAPIKey fault sum_real (k_ID key)) "failed to load lifetime cost" in
  respondJSON 200 (DLifetime cost).

Definition HandleGetLifetimeCost : Act unit :=
  do! cost := try_ (GetLifetimeCost fault sum_real) "failed to load lifetime cost" in
  respondJSON 200 (DLifetime cost).

End Admin.
