(* ===== verification/AdminConfig.v ===== *)
(** The run-time settings in the admin API, [internal/admin/config_handler.go]:
    reading them, checking and saving an update, and what a saved update sets
    off. *)
From S2P Require Import Prelude GoLib Float64 Models Http Json Body Sql Store Retention Stats Reply Admin.
Local Open Scope Z_scope.
Local Open Scope go_scope.

Section ConfigHandler.
Context (fault : nat -> bool) `{ranges : MapRange} (h : Handler) (now : Z).

(** * Reading *)

(** [HandleGetConfig]: the defaults, overridden by what is stored and reads as
    a value of its type. *)
Definition configuration_of (config : gmap string string) : Configuration := {|
  cfg_RequestBodyMaxBytes := getConfigInt config "request_body_max_bytes" DefaultRequestBodyMaxBytes;
  cfg_ResponseBodyMaxBytes := getConfigInt config "response_body_max_bytes" DefaultResponseBodyMaxBytes;
  cfg_TrackStreaming := getConfigBool config "track_streaming" DefaultTrackStreaming;
  cfg_StreamingBufferSize := getConfigInt config "streaming_buffer_size" DefaultStreamingBufferSize;
  cfg_HTTPIdleConnTimeoutSeconds := HTTPIdleConnTimeoutSecondsFromConfig config;
  cfg_StreamingLogBodyRetentionDays :=
    getConfigInt config "streaming_log_body_retention_days" DefaultStreamingLogBodyRetentionDays;
  cfg_RequestLogBodyRetentionDays :=
    getConfigInt config "request_log_body_retention_days" DefaultRequestLogBodyRetentionDays;
  cfg_ResponseLogBodyRetentionDays :=
    getConfigInt config "response_log_body_retention_days" DefaultResponseLogBodyRetentionDays;
  cfg_RequireAPIKeys := getConfigBool config "require_api_keys" DefaultRequireAPIKeys;
|}.

Definition HandleGetConfig : Act unit :=
  do! config := try_ (GetAllConfig fault) "failed to load configuration" in
  respondJSON 200 (DConfig (configuration_of config)).

(** * Checking an update *)

(** An integer between two bounds, as the text that is stored; [inl] is the
    message of the refusal. *)
Definition int_setting (key : string) (lo hi : Z) (raw : json) : string + string :=
  let '(v, e) := decode_int raw 0 in
  if e : bool then inl (key +:+ " must be an integer")
  else if (v <? lo) || (hi <? v) then inl (key +:+ " must be between " +:+ itoa lo +:+ " and " +:+ itoa hi)
  else inr (itoa v).

Definition bool_setting (key : string) (raw : json) : string + string :=
  let '(v, e) := decode_bool raw false in
  if e : bool then inl (key +:+ " must be a boolean") else inr (format_bool v).

(** The switch over the key. *)
Definition check_setting (key : string) (raw : json) : string + string :=
  if String.eqb key "request_body_max_bytes" then int_setting key 0 MaxBodyMaxBytes raw
  else if String.eqb key "response_body_max_bytes" then int_setting key 0 MaxBodyMaxBytes raw
  else if String.eqb key "track_streaming" then bool_setting key raw
  else if String.eqb key "streaming_buffer_size" then int_setting key MinStreamingBufferSize MaxStreamingBufferSize raw
  else if String.eqb key "streaming_log_body_retention_days" then
    int_setting key MinStreamingLogBodyRetentionDays MaxStreamingLogBodyRetentionDays raw
  else if String.eqb key "request_log_body_retention_days" then
    int_setting key MinStreamingLogBodyRetentionDays MaxStreamingLogBodyRetentionDays raw
  else if String.eqb key "response_log_body_retention_days" then
    int_setting key MinStreamingLogBodyRetentionDays MaxStreamingLogBodyRetentionDays raw
  else if String.eqb key "http_idle_conn_timeout_seconds" then
    int_setting key MinHTTPIdleConnTimeoutSeconds MaxHTTPIdleConnTimeoutSeconds raw
  else if String.eqb key "require_api_keys" then bool_setting key raw
  else inl ("unknown config key: " +:+ key).

(** The loop over the updates: the first refusal ends it. *)
Fixpoint check_all (updates : list (string * json)) (config : gmap string string) : string + gmap string string :=
  match updates with
  | [] => inr config
  | (key, raw) :: updates' =>
      match check_setting key raw with
      | inl msg => inl msg
      | inr v => check_all updates' (<[key := v]> config)
      end
  end.

(** * Saving *)

Fixpoint save_all (config : list (string * string)) : Act unit :=
  match config with
  | [] => act tt
  | (k, v) :: config' => do! _ := try_ (SetConfig fault k v) "failed to save configuration" in save_all config'
  end.

(** A saved number read back; it was written by [strconv.Itoa]. *)
Definition saved_int (config : gmap string string) (key : string) : Act (option Z) :=
  match config !! key with
  | None => act None
  | Some raw =>
      do! v := some_or (atoi raw) 500 ("invalid " +:+ key +:+ " after save") in act (Some v)
  end.

(** A purge after the save; its error is only logged. *)
Definition purge_now (purge : Z -> Z -> ST Conn (RetentionError + Z)) (days : option Z) : Act unit :=
  match days with
  | None => act tt
  | Some d => fun w => (Some tt, mkWorld (purge now d (aw_conn w)).2 (aw_events w))
  end.

(** [HandleUpdateConfig]. *)
Definition idle_saved (config : gmap string string) : Act unit :=
  if h_onHTTPIdleSaved h then
    do! sec := saved_int config "http_idle_conn_timeout_seconds" in
    match sec with Some s => emit (EvIdleTimeout s) | None => act tt end
  else act tt.

Definition purge_setting (config : gmap string string) (key : string) (purge : Z -> Z -> ST Conn (RetentionError + Z)) : Act unit :=
  do! days := saved_int config key in purge_now purge days.

Definition decode_updates (body : string) : option RawMap := decode_first body ≫= unmarshal_map.

Definition HandleUpdateConfig (r : Request) : Act unit :=
  do! updates := some_or (decode_updates (req_Body r)) 400 "invalid JSON body" in
  do! config := valid_or_400 (check_all (from_option map_range [] updates) ∅) in
  save_all (map_range config) >>!
  (if h_onConfigChanged h then emit EvConfigChanged else act tt) >>!
  idle_saved config >>!
  purge_setting config "streaming_log_body_retention_days" (PurgeStreamingChunkBodies fault) >>!
  purge_setting config "request_log_body_retention_days" (PurgeRequestLogRequestBodies fault) >>!
  purge_setting config "response_log_body_retention_days" (PurgeRequestLogResponseBodies fault) >>!
  HandleGetConfig.

(** * The definition shown to the user *)

Definition intPtr (v : Z) : option Z := Some v.

Definition int_def (dflt lo hi : Z) : SettingDef := mkSettingDef "integer" (DefaultInt dflt) (intPtr lo) (intPtr hi).
Definition bool_def (dflt : bool) : SettingDef := mkSettingDef "boolean" (DefaultBool dflt) None None.

(** [HandleConfigDefinition], without its descriptions. *)
Definition definition : list (string * SettingDef) :=
  [("request_body_max_bytes", int_def DefaultRequestBodyMaxBytes 0 MaxBodyMaxBytes);
   ("response_body_max_bytes", int_def DefaultResponseBodyMaxBytes 0 MaxBodyMaxBytes);
   ("track_streaming", bool_def DefaultTrackStreaming);
   ("streaming_buffer_size", int_def DefaultStreamingBufferSize MinStreamingBufferSize MaxStreamingBufferSize);
   ("streaming_log_body_retention_days",
     int_def DefaultStreamingLogBodyRetentionDays MinStreamingLogBodyRetentionDays MaxStreamingLogBodyRetentionDays);
   ("request_log_body_retention_days",
     int_def DefaultRequestLogBodyRetentionDays MinStreamingLogBodyRetentionDays MaxStreamingLogBodyRetentionDays);
   ("response_log_body_retention_days",
     int_def DefaultResponseLogBodyRetentionDays MinStreamingLogBodyRetentionDays MaxStreamingLogBodyRetentionDays);
   ("http_idle_conn_timeout_seconds",
     int_def DefaultHTTPIdleConnTimeoutSeconds MinHTTPIdleConnTimeoutSeconds MaxHTTPIdleConnTimeoutSeconds);
   ("require_api_keys", bool_def DefaultRequireAPIKeys)].

Definition HandleConfigDefinition : Act unit := respondJSON 200 (DDefinition definition).

End ConfigHandler.

(** * The definition is what an update is checked against *)

(** A value the definition allows, and the text it is stored as. *)
Definition allows (d : SettingDef) (raw : json) (v : string) : Prop :=
  match sd_Default d with
  | DefaultInt _ =>
      exists n lo hi, sd_Min d = Some lo /\ sd_Max d = Some hi /\ decode_int raw 0 = (n, false) /\ lo <= n <= hi /\ v = itoa n
  | DefaultBool _ => exists b, decode_bool raw false = (b, false) /\ v = format_bool b
  end.

Lemma int_setting_allows key dflt lo hi raw v : int_setting key lo hi raw = inr v <-> allows (int_def dflt lo hi) raw v.
Proof.
  unfold int_setting, allows. simpl. destruct (decode_int raw 0) as [n e]. split.
  - destruct e; [done|]. destruct (_ || _) eqn:E; [done|]. intros [= <-]. exists n, lo, hi. split_and!; try done; blia.
  - intros (n' & lo' & hi' & [= <-] & [= <-] & [= <- ->] & Hn & ->).
    rewrite (proj2 (orb_false_iff _ _)); [done|]. split; apply Z.ltb_ge; lia.
Qed.

Lemma bool_setting_allows key dflt raw v : bool_setting key raw = inr v <-> allows (bool_def dflt) raw v.
Proof.
  unfold bool_setting, allows. simpl. destruct (decode_bool raw false) as [b e]. split.
  - destruct e; [done|]. intros [= <-]. by exists b.
  - by intros (b' & [= <- ->] & ->).
Qed.

(** The entry of a key. *)
Definition entry_of (key : string) : option SettingDef := snd <$> List.find (fun e => String.eqb key e.1) definition.

Lemma check_setting_allows key raw v :
  check_setting key raw = inr v <-> exists d, entry_of key = Some d /\ allows d raw v.
Proof.
  unfold check_setting, entry_of, definition. simpl.
  repeat match goal with |- context [String.eqb key ?k] =>
    destruct (String.eqb_spec key k); [subst; simpl;
      first [rewrite int_setting_allows | rewrite bool_setting_allows]; split; [eauto|by intros (? & [= <-] & ?)]|] end.
  simpl. split; [done|by intros (? & ? & _)].
Qed.

(** Why an entry is refused, and the message that says so: each names the
    key. *)
Inductive refused (key : string) (raw : json) : string -> Prop :=
| refused_unknown : entry_of key = None -> refused key raw ("unknown config key: " +:+ key)
| refused_integer d n : entry_of key = Some d -> sd_Default d = DefaultInt n -> (decode_int raw 0).2 = true ->
    refused key raw (key +:+ " must be an integer")
| refused_boolean d b : entry_of key = Some d -> sd_Default d = DefaultBool b -> (decode_bool raw false).2 = true ->
    refused key raw (key +:+ " must be a boolean")
| refused_range d n lo hi : entry_of key = Some d -> sd_Min d = Some lo -> sd_Max d = Some hi ->
    decode_int raw 0 = (n, false) -> ~ lo <= n <= hi ->
    refused key raw (key +:+ " must be between " +:+ itoa lo +:+ " and " +:+ itoa hi).

Lemma int_setting_refused key dflt lo hi raw msg :
  entry_of key = Some (int_def dflt lo hi) -> int_setting key lo hi raw = inl msg -> refused key raw msg.
Proof.
  intros Hd. unfold int_setting. destruct (decode_int raw 0) as [n e] eqn:E. destruct e.
  - intros [= <-]. eapply refused_integer; [exact Hd|reflexivity|by rewrite E].
  - destruct (_ || _) eqn:Er; [|done]. intros [= <-]. eapply refused_range; [exact Hd|reflexivity..|exact E|].
    apply orb_true_iff in Er as [Er|Er]; apply Z.ltb_lt in Er; lia.
Qed.

Lemma bool_setting_refused key dflt raw msg :
  entry_of key = Some (bool_def dflt) -> bool_setting key raw = inl msg -> refused key raw msg.
Proof.
  intros Hd. unfold bool_setting. destruct (decode_bool raw false) as [b e] eqn:E. destruct e; [|done].
  intros [= <-]. eapply refused_boolean; [exact Hd|reflexivity|by rewrite E].
Qed.

Lemma check_setting_refuses key raw msg : check_setting key raw = inl msg -> refused key raw msg.
Proof.
  unfold check_setting.
  repeat match goal with |- context [String.eqb key ?k] =>
    destruct (String.eqb_spec key k) as [->|];
      [first [eapply int_setting_refused; reflexivity | eapply bool_setting_refused; reflexivity]|] end.
  intros [= <-]. apply refused_unknown. unfold entry_of, definition. cbn [List.find fst].
  by repeat match goal with |- context [String.eqb key ?k] => destruct (String.eqb_spec key k); [done|] end.
Qed.

(** A definition in order: the default is between the bounds, which fit a
    32-bit int. *)
Definition well_bounded (d : SettingDef) : bool :=
  match sd_Default d, sd_Min d, sd_Max d with
  | DefaultInt n, Some lo, Some hi => (0 <=? lo) && (lo <=? n) && (n <=? hi) && (hi <? 2 ^ 31)
  | DefaultInt _, _, _ => false
  | DefaultBool _, _, _ => true
  end.

Lemma definition_bounded : forallb (fun e => well_bounded e.2) definition = true.
Proof. reflexivity. Qed.

Lemma entry_in key d : entry_of key = Some d -> (key, d) ∈ definition.
Proof.
  unfold entry_of. intros ([k d'] & H & [= <-])%fmap_Some. apply find_some in H as [H E]. apply String.eqb_eq in E. simpl in E. subst k.
  by apply list_elem_of_In.
Qed.

(** What an update stores of an integer reads back. *)
Lemma checked_int key raw v n0 d : check_setting key raw = inr v -> entry_of key = Some d -> sd_Default d = DefaultInt n0 ->
  exists n, atoi v = Some n /\ from_option (fun lo => lo <= n) False (sd_Min d) /\ from_option (fun hi => n <= hi) False (sd_Max d).
Proof.
  intros Hc He Hd. apply check_setting_allows in Hc as (d' & He' & Ha). rewrite He in He'. injection He' as <-.
  apply entry_in in He. pose proof definition_bounded as HB. rewrite forallb_forall in HB.
  specialize (HB _ (proj1 (list_elem_of_In _ _) He)). unfold allows, well_bounded in *. simpl in HB. rewrite Hd in *.
  destruct Ha as (n & lo & hi & Hlo & Hhi & _ & Hn & ->). rewrite Hlo, Hhi in *. bool_to_prop.
  exists n. split; [|simpl; lia]. apply atoi_itoa. unfold in_int64, min_int64, max_int64. lia.
Qed.

(** * An update as a whole *)

Definition accepted (key : string) (raw : json) : option string :=
  match check_setting key raw with inr v => Some v | inl _ => None end.

(** What an update of which every entry is accepted stores. *)
Definition saved (m : gmap string json) : gmap string string := map_imap accepted m.

Lemma check_all_lookup l acc res : check_all l acc = inr res -> NoDup l.*1 ->
  forall k, res !! k = match (list_to_map l : gmap string json) !! k with Some raw => accepted k raw | None => acc !! k end.
Proof.
  revert acc. induction l as [|[key raw] l IH]; intros acc; simpl; [by intros [= <-]|].
  destruct (check_setting key raw) as [msg|v] eqn:E; [done|]. intros H [Hk Hn]%NoDup_cons k. rewrite (IH _ H Hn).
  destruct (decide (k = key)) as [->|Hne].
  - rewrite lookup_insert_eq, not_elem_of_list_to_map_1 by done. rewrite lookup_insert_eq. unfold accepted. by rewrite E.
  - by rewrite !lookup_insert_ne by done.
Qed.

Lemma check_all_accepts l acc res : check_all l acc = inr res -> forall key raw, (key, raw) ∈ l -> accepted key raw <> None.
Proof.
  revert acc. induction l as [|[key raw] l IH]; intros acc H k w; simpl in H; [by intros ?%elem_of_nil|].
  destruct (check_setting key raw) as [msg|v] eqn:E; [done|]. intros [[= -> ->]|Hin]%elem_of_cons; [|by eapply IH].
  unfold accepted. by rewrite E.
Qed.

Lemma check_all_refuses l acc msg : check_all l acc = inl msg -> exists key raw, (key, raw) ∈ l /\ check_setting key raw = inl msg.
Proof.
  revert acc. induction l as [|[key raw] l IH]; intros acc H; simpl in H; [done|].
  destruct (check_setting key raw) as [msg'|v] eqn:E.
  - exists key, raw. split; [by left|]. by simplify_eq.
  - apply IH in H as (k & w & Hin & Ha). exists k, w. split; [by right|done].
Qed.

Section Update.
Context (fault : nat -> bool) `{ranges : MapRange} (h : Handler) (now : Z).

Lemma range_elem {A} (m : gmap string A) k v : (k, v) ∈ map_range m <-> m !! k = Some v.
Proof. rewrite map_range_perm. apply elem_of_map_to_list. Qed.

(** The checks do not depend on the order the map is walked in. *)
Lemma check_all_map (m : gmap string json) :
  match check_all (map_range m) ∅ with
  | inl msg => exists key raw, m !! key = Some raw /\ check_setting key raw = inl msg
  | inr config => config = saved m /\ forall key raw, m !! key = Some raw -> accepted key raw <> None
  end.
Proof.
  destruct (check_all (map_range m) ∅) as [msg|config] eqn:E.
  - apply check_all_refuses in E as (key & raw & Hin & Ha). exists key, raw. by rewrite <- range_elem.
  - split.
    + apply map_eq. intros k. rewrite (check_all_lookup _ _ _ E) by apply map_range_keys. rewrite map_range_lookup.
      unfold saved. rewrite map_lookup_imap, lookup_empty. by destruct (m !! k).
    + intros key raw Hk. eapply check_all_accepts; [exact E|]. by apply range_elem.
Qed.

Hypothesis quiet : forall n, fault n = false.

Lemma save_all_quiet l w : NoDup l.*1 ->
  exists n, save_all fault l w =
    (Some tt, mkWorld (mkConn (set_config (list_to_map l ∪ db_config (cn_db (aw_conn w))) (cn_db (aw_conn w))) n) (aw_events w)).
Proof.
  revert w. induction l as [|[k v] l IH]; intros [[db n] evs]; simpl.
  - intros _. exists n. rewrite (left_id_L ∅ (∪)). by destruct db.
  - intros [Hk Hn]%NoDup_cons. unfold try_, call, abind, SetConfig, exec. simpl. rewrite quiet. simpl.
    destruct (IH (mkWorld (mkConn (set_config (<[k:=v]> (db_config db)) db) (S n)) evs) Hn) as [n' ->].
    exists n'. assert (E : (list_to_map l : gmap string string) ∪ <[k:=v]> (db_config db) = <[k:=v]> (list_to_map l) ∪ db_config db)
      by (rewrite <- insert_union_r by (by apply not_elem_of_list_to_map_1); by rewrite insert_union_l).
    unfold set_config. simpl. by rewrite E.
Qed.

Lemma purge_keeps_config (purge : Z -> Exec Z) days w :
  (forall t c, db_config (cn_db (purge t c).2) = db_config (cn_db c)) ->
  exists c, purge_now now (purge_after_check purge) days w = (Some tt, mkWorld c (aw_events w)) /\
    db_config (cn_db c) = db_config (cn_db (aw_conn w)).
Proof.
  intros Hp. destruct days as [d|]; simpl; [|destruct w as [c evs]; by exists c].
  eexists. split; [reflexivity|]. unfold purge_after_check, bind, ret. destruct (validateRetentionDays d); [|done].
  specialize (Hp (cutoff now d) (aw_conn w)). by destruct (purge _ _).
Qed.

Lemma exec_keeps_config {A} (s : Stmt A) c :
  (forall db, match s db with inl _ => True | inr (_, db') => db_config db' = db_config db end) ->
  db_config (cn_db (exec fault s c).2) = db_config (cn_db c).
Proof.
  intros Hs. unfold exec. rewrite quiet. specialize (Hs (cn_db c)). by destruct (s (cn_db c)) as [e|[a db]].
Qed.

(** A saved number reads back. *)
Lemma saved_int_quiet (m : gmap string json) key n0 d w :
  entry_of key = Some d -> sd_Default d = DefaultInt n0 ->
  saved_int (saved m) key w = (Some (saved m !! key ≫= atoi), w).
Proof.
  intros He Hd. unfold saved_int. destruct (saved m !! key) as [v|] eqn:E; [|done]. simpl.
  unfold saved in E. rewrite map_lookup_imap in E. destruct (m !! key) as [raw|]; [|done]. simpl in E.
  unfold accepted in E. destruct (check_setting key raw) as [|v'] eqn:Ec; [done|]. injection E as ->.
  destruct (checked_int _ _ _ _ _ Ec He Hd) as (n & -> & _). done.
Qed.

End Update.

(** The value of a key in a configuration, as the text that is stored. *)
Definition setting_text (cfg : Configuration) (key : string) : option string :=
  if String.eqb key "request_body_max_bytes" then Some (itoa (cfg_RequestBodyMaxBytes cfg))
  else if String.eqb key "response_body_max_bytes" then Some (itoa (cfg_ResponseBodyMaxBytes cfg))
  else if String.eqb key "track_streaming" then Some (format_bool (cfg_TrackStreaming cfg))
  else if String.eqb key "streaming_buffer_size" then Some (itoa (cfg_StreamingBufferSize cfg))
  else if String.eqb key "streaming_log_body_retention_days" then Some (itoa (cfg_StreamingLogBodyRetentionDays cfg))
  else if String.eqb key "request_log_body_retention_days" then Some (itoa (cfg_RequestLogBodyRetentionDays cfg))
  else if String.eqb key "response_log_body_retention_days" then Some (itoa (cfg_ResponseLogBodyRetentionDays cfg))
  else if String.eqb key "http_idle_conn_timeout_seconds" then Some (itoa (cfg_HTTPIdleConnTimeoutSeconds cfg))
  else if String.eqb key "require_api_keys" then Some (format_bool (cfg_RequireAPIKeys cfg))
  else None.

Lemma saved_lookup m key v : saved m !! key = Some v <-> exists raw, m !! key = Some raw /\ check_setting key raw = inr v.
Proof.
  unfold saved. rewrite map_lookup_imap. destruct (m !! key) as [raw|]; simpl.
  - unfold accepted. split.
    + intros H. exists raw. split; [done|]. destruct (check_setting key raw); [done|]. by injection H as ->.
    + intros (raw' & [= <-] & ->). done.
  - split; [done|]. by intros (? & ? & _).
Qed.

Lemma get_int_saved config key n d : config !! key = Some (itoa n) -> in_int64 n -> getConfigInt config key d = n.
Proof. intros H Hn. unfold getConfigInt. by rewrite H, atoi_itoa. Qed.

Lemma get_bool_saved config key b d : config !! key = Some (format_bool b) -> getConfigBool config key d = b.
Proof. intros H. unfold getConfigBool. rewrite H. by destruct b. Qed.

Lemma int_setting_value key lo hi raw v : int_setting key lo hi raw = inr v -> exists n, lo <= n <= hi /\ v = itoa n.
Proof. intros (n & lo' & hi' & [= <-] & [= <-] & _ & Hn & ->)%(int_setting_allows _ 0). by exists n. Qed.

Lemma bool_setting_value key raw v : bool_setting key raw = inr v -> exists b, v = format_bool b.
Proof. intros (b & _ & ->)%(bool_setting_allows _ true). by exists b. Qed.

(** What was checked and stored is what the configuration shows. *)
Lemma setting_shown config key raw v :
  check_setting key raw = inr v -> config !! key = Some v -> setting_text (configuration_of config) key = Some v.
Proof.
  intros Hc Hl. revert Hc. unfold check_setting, setting_text.
  repeat match goal with |- context [String.eqb key ?k] => destruct (String.eqb_spec key k) as [->|_] end; [..|done].
  all: intros Hc; first
    [ apply int_setting_value in Hc as (n & Hn & ->);
      cbv delta [MaxBodyMaxBytes MinStreamingBufferSize MaxStreamingBufferSize MinStreamingLogBodyRetentionDays
        MaxStreamingLogBodyRetentionDays MinHTTPIdleConnTimeoutSeconds MaxHTTPIdleConnTimeoutSeconds] in Hn;
      assert (in_int64 n) by (unfold in_int64, min_int64, max_int64; lia)
    | apply bool_setting_value in Hc as (b & ->) ].
  all: cbn [configuration_of cfg_RequestBodyMaxBytes cfg_ResponseBodyMaxBytes cfg_TrackStreaming cfg_StreamingBufferSize
    cfg_StreamingLogBodyRetentionDays cfg_RequestLogBodyRetentionDays cfg_ResponseLogBodyRetentionDays
    cfg_HTTPIdleConnTimeoutSeconds cfg_RequireAPIKeys].
  all: try (by erewrite get_int_saved); try (by erewrite get_bool_saved).
  unfold HTTPIdleConnTimeoutSecondsFromConfig. rewrite Hl, atoi_itoa by done. unfold ClampHTTPIdleConnTimeoutSeconds,
    MinHTTPIdleConnTimeoutSeconds, MaxHTTPIdleConnTimeoutSeconds.
  rewrite (proj2 (Z.ltb_ge n 10)), (proj2 (Z.ltb_ge 86400 n)) by lia. done.
Qed.

(** The hooks a saved update calls. *)
Definition announcements (h : Handler) (m : gmap string json) : list Event :=
  (if h_onConfigChanged h then [EvConfigChanged] else []) ++
  (if h_onHTTPIdleSaved h then
     from_option (fun s => [EvIdleTimeout s]) [] (saved m !! "http_idle_conn_timeout_seconds" ≫= atoi)
   else []).

Section Quiet.
Context (fault : nat -> bool) `{ranges : MapRange} (h : Handler) (now : Z).
Hypothesis quiet : forall n, fault n = false.

Lemma announce_quiet (w : World) : (if h_onConfigChanged h then emit EvConfigChanged else act tt) w =
  (Some tt, mkWorld (aw_conn w) (aw_events w ++ (if h_onConfigChanged h then [EvConfigChanged] else []))).
Proof. destruct (h_onConfigChanged h); [done|]. rewrite app_nil_r. by destruct w. Qed.

Lemma idle_quiet m (w : World) : idle_saved h (saved m) w =
  (Some tt, mkWorld (aw_conn w) (aw_events w ++
    (if h_onHTTPIdleSaved h then
       from_option (fun s => [EvIdleTimeout s]) [] (saved m !! "http_idle_conn_timeout_seconds" ≫= atoi) else []))).
Proof.
  unfold idle_saved. destruct (h_onHTTPIdleSaved h); [|rewrite app_nil_r; by destruct w].
  unfold abind. erewrite saved_int_quiet by done. destruct (_ ≫= atoi); simpl; [done|]. rewrite app_nil_r. by destruct w.
Qed.

Lemma purge_quiet m key n0 d purge (w : World) :
  entry_of key = Some d -> sd_Default d = DefaultInt n0 ->
  (forall t c, db_config (cn_db (purge t c).2) = db_config (cn_db c)) ->
  exists c, purge_setting now (saved m) key (purge_after_check purge) w = (Some tt, mkWorld c (aw_events w)) /\
    db_config (cn_db c) = db_config (cn_db (aw_conn w)).
Proof.
  intros He Hd Hp. unfold purge_setting, abind. erewrite saved_int_quiet by done. by apply purge_keeps_config.
Qed.

(** Runs the next purge of a handler. *)
Ltac run_purge m purge Hex c' :=
  unfold abind at 1;
  match goal with |- context [purge_setting now (saved m) ?key ?f ?W] =>
    change f with (purge_after_check purge);
    let E := fresh "E" in
    let D := fresh "D" in
    destruct (purge_quiet m key _ _ purge W eq_refl eq_refl) as (c' & E & D); [intros; by apply Hex|rewrite E; clear E]
  end.

Lemma saved_update_quiet m (w : World) :
  exists c,
    (save_all fault (map_range (saved m)) >>!
     (if h_onConfigChanged h then emit EvConfigChanged else act tt) >>!
     idle_saved h (saved m) >>!
     purge_setting now (saved m) "streaming_log_body_retention_days" (PurgeStreamingChunkBodies fault) >>!
     purge_setting now (saved m) "request_log_body_retention_days" (PurgeRequestLogRequestBodies fault) >>!
     purge_setting now (saved m) "response_log_body_retention_days" (PurgeRequestLogResponseBodies fault) >>!
     HandleGetConfig fault) w =
    (Some tt, mkWorld c (aw_events w ++ announcements h m ++
       [EvReply (RJson 200 (DConfig (configuration_of (saved m ∪ db_config (cn_db (aw_conn w))))))])) /\
    db_config (cn_db c) = saved m ∪ db_config (cn_db (aw_conn w)).
Proof.
  destruct (save_all_quiet fault quiet (map_range (saved m)) w (map_range_keys _)) as [n1 E1]. rewrite map_range_lookup in E1.
  unfold abind at 1. rewrite E1. unfold abind at 1. rewrite announce_quiet. unfold abind at 1. rewrite idle_quiet.
  cbn [aw_conn aw_events].
  assert (Hex : forall {A} (s : Stmt A) c, (forall db, match s db with inl _ => True | inr (_, db') => db_config db' = db_config db end) ->
    db_config (cn_db (exec fault s c).2) = db_config (cn_db c)) by (intros; by apply exec_keeps_config).
  run_purge m (PurgeStreamingLogBodiesOlderThan fault) Hex c2. run_purge m (PurgeRequestLogRequestBodiesOlderThan fault) Hex c3.
  run_purge m (PurgeRequestLogResponseBodiesOlderThan fault) Hex c4. cbn [aw_conn aw_events cn_db] in *.
  assert (Hdb : db_config (cn_db c4) = saved m ∪ db_config (cn_db (aw_conn w))) by (simpl in *; congruence).
  unfold HandleGetConfig, try_, abind, call, GetAllConfig, query, exec. rewrite quiet. simpl. rewrite Hdb.
  unfold respondJSON, emit. cbn [encodable aw_conn aw_events].
  eexists. split; [unfold announcements; rewrite <- !(assoc_L (++)); reflexivity|exact Hdb].
Qed.

End Quiet.

(** An entry the published definition allows. *)
Definition allowed (key : string) (raw : json) : Prop := exists d v, entry_of key = Some d /\ allows d raw v.

Lemma accepted_allowed key raw : accepted key raw <> None <-> allowed key raw.
Proof.
  unfold accepted. split.
  - destruct (check_setting key raw) as [msg|v] eqn:E; [done|]. intros _. apply check_setting_allows in E as (d & ? & ?). by exists d, v.
  - intros (d & v & Hd & Hv). by rewrite (proj2 (check_setting_allows key raw v)) by eauto.
Qed.

Lemma check_updates `{MapRange} (updates : RawMap) :
  match check_all (from_option map_range [] updates) ∅ with
  | inl msg => exists key raw, default ∅ updates !! key = Some raw /\ ~ allowed key raw /\ refused key raw msg
  | inr config => config = saved (default ∅ updates) /\ forall key raw, default ∅ updates !! key = Some raw -> allowed key raw
  end.
Proof.
  destruct updates as [m|]; simpl.
  - pose proof (check_all_map m) as Hm. destruct (check_all _ ∅) as [msg|config].
    + destruct Hm as (key & raw & Hk & Hn). exists key, raw. split; [done|split; [|by apply check_setting_refuses]].
      intros Ha%accepted_allowed. apply Ha. unfold accepted. by rewrite Hn.
    + destruct Hm as [-> Hm]. split; [done|]. intros key raw Hk. by eapply accepted_allowed, Hm.
  - split; [|by intros key raw ?%lookup_empty_Some]. symmetry. apply map_eq. intros k. unfold saved.
    by rewrite map_lookup_imap, !lookup_empty.
Qed.

(** C19: An update of the settings is decided as a whole, whatever order its
    map is walked in: a body that is no JSON object, or one with a single
    entry the published definition does not allow, is answered 400 and saves
    nothing; the answer names such an entry and says what is wrong with it.
    Otherwise, when no statement fails, exactly the given entries are replaced,
    the hooks are called, and the reply is the configuration as it now stands,
    in which every given entry shows the value it was given. *)
Theorem config_update_is_all_or_nothing (fault : nat -> bool) (ranges : MapRange) (h : Handler) (now : Z) (r : Request)
    (c : Conn) :
  let w := (HandleUpdateConfig fault h now r (mkWorld c [])).2 in
  match decode_updates (req_Body r) with
  | None => w = mkWorld c [EvReply (RError 400 "invalid JSON body")]
  | Some updates =>
      let m := default ∅ updates in
      ((exists key raw, m !! key = Some raw /\ ~ allowed key raw) ->
       exists key raw msg, m !! key = Some raw /\ ~ allowed key raw /\ refused key raw msg /\
         w = mkWorld c [EvReply (RError 400 msg)]) /\
      ((forall key raw, m !! key = Some raw -> allowed key raw) -> (forall n, fault n = false) ->
         let config := saved m ∪ db_config (cn_db c) in
         db_config (cn_db (aw_conn w)) = config /\
         aw_events w = announcements h m ++ [EvReply (RJson 200 (DConfig (configuration_of config)))] /\
         (forall key raw, m !! key = Some raw -> exists d v, entry_of key = Some d /\ allows d raw v /\
            config !! key = Some v /\ setting_text (configuration_of config) key = Some v))
  end.
Proof.
  intros w. assert (Ew : w = (HandleUpdateConfig fault h now r (mkWorld c [])).2) by done. clearbody w.
  unfold HandleUpdateConfig in Ew. destruct (decode_updates (req_Body r)) as [updates|]; [|done]. intros m.
  unfold abind at 1 in Ew. cbn [some_or act] in Ew. pose proof (check_updates updates) as Hm. fold m in Hm.
  destruct (check_all _ ∅) as [msg|config].
  - destruct Hm as (key & raw & Hk & Hn & Hr). split; [intros _; by exists key, raw, msg|].
    intros Hall _. by destruct (Hn (Hall key raw Hk)).
  - destruct Hm as [-> Hacc]. split; [intros (key & raw & Hk & Hn); by destruct (Hn (Hacc key raw Hk))|]. intros _ Hq.
    destruct (saved_update_quiet fault h now Hq m (mkWorld c [])) as (c' & E & Hdb). unfold abind at 1 in Ew. cbn [valid_or_400 act] in Ew.
    rewrite E in Ew. subst w. cbn [fst snd aw_conn aw_events]. split; [done|split; [done|]]. intros key raw Hk.
    destruct (Hacc key raw Hk) as (d & v & Hd & Hv). exists d, v. split; [done|split; [done|]].
    assert (Hc : check_setting key raw = inr v) by (apply check_setting_allows; eauto).
    assert (Hl : (saved m ∪ db_config (cn_db c)) !! key = Some v)
      by (apply lookup_union_Some_l, saved_lookup; eauto).
    split; [done|]. by eapply setting_shown.
Qed.

(** * Witness *)

Definition settings_request : Request :=
  mkRequest "PUT" "/admin/config" ∅ 0 "::1" (jtext "{'track_streaming':true,'streaming_buffer_size':2048}") None.

Lemma config_update_is_all_or_nothing_witness :
  let h := mkHandler false true false None EmptyString in
  let w := (HandleUpdateConfig no_fault h 0 settings_request (mkWorld (mkConn empty_db 0) [])).2 in
  exists cfg, aw_events w = [EvConfigChanged; EvReply (RJson 200 (DConfig cfg))] /\ cfg_StreamingBufferSize cfg = 2048.
Proof.
  intros h w.
  pose proof (config_update_is_all_or_nothing no_fault some_MapRange h 0 settings_request (mkConn empty_db 0)) as H.
  assert (E : exists updates, decode_updates (req_Body settings_request) = Some updates /\
    default ∅ updates = {["track_streaming" := JBool true; "streaming_buffer_size" := JNum "2048"]})
    by (eexists; split; vm_compute; reflexivity).
  destruct E as (updates & E1 & E2). cbv zeta in H. rewrite E1 in H. destruct H as [_ H]. rewrite E2 in H.
  destruct H as (_ & Hev & _); [|done|].
  - intros key raw Hk. apply lookup_insert_Some in Hk as [[<- <-]|[_ Hk%lookup_singleton_Some]].
    + eexists _, _. split; [reflexivity|]. exists true. split; reflexivity.
    + destruct Hk as [<- <-]. eexists _, _. split; [reflexivity|]. exists 2048, MinStreamingBufferSize, MaxStreamingBufferSize.
      split_and!; done.
  - eexists. split; [exact Hev|vm_compute; reflexivity].
Defined.
