(* ===== verification/Onboard.v ===== *)
(** Onboarding of providers, [internal/admin/onboard.go]: discovery of models
    and endpoints of a backend, and the confirmation that stores them. *)
From stdpp Require Import pretty.
From S2P Require Import Prelude GoLib Float64 Models Http Json Body Sql Store Stats Reply Admin.
Local Open Scope Z_scope.
Local Open Scope go_scope.

(** * Talking to the backend *)

(** An outgoing request. *)
Record Outgoing := mkOutgoing {
  og_method : string;
  og_url : string;
  og_header : Header;
  og_body : string;
}.

(** What became of it: it could not be built, the transport failed, or a
    response came, whose body may fail to read. *)
Inductive Answer :=
| BadURL
| NoResponse
| Response (status : Z) (body : option string).

Definition is_2xx (status : Z) : bool := (200 <=? status) && (status <? 300).

Section Onboard.
Context (fault : nat -> bool) `{order : SortSlice} (h : Handler) (now : Z) (uuid : nat -> string).
(** The client, numbered by request, and the texts of its errors. *)
Context (client : nat -> Outgoing -> Answer) (err_text : Outgoing -> string).

Definition bearer (apiKey : string) (hd : Header) : Header :=
  if str_empty apiKey then hd else header_set "Authorization" ("Bearer " +:+ apiKey) hd.

(** ** Models *)

Definition decode_model_entry : json -> string -> Decoded string := decode_struct (decode_field "id" decode_string).

Definition decode_models : json -> Slice string -> Decoded (Slice string) :=
  decode_struct (decode_field "data" (decode_slice EmptyString decode_model_entry)).

Definition models_request (baseURL apiKey : string) : Outgoing :=
  mkOutgoing "GET" (baseURL +:+ "/v1/models") (bearer apiKey ∅) EmptyString.

(** [discoverModels]: the ids, or the text of the error. *)
Definition discoverModels (baseURL apiKey : string) : string + list string :=
  let req := models_request baseURL apiKey in
  match client 0 req with
  | BadURL => inl ("building models request: " +:+ err_text req)
  | NoResponse => inl ("fetching models: " +:+ err_text req)
  | Response status body =>
      if negb (is_2xx status) then inl ("models endpoint returned status " +:+ itoa status)
      else
        match body with
        | None => inl ("reading models response: " +:+ err_text req)
        | Some raw =>
            match decode_body decode_models nil_slice raw with
            | Some (data, false) =>
                match sl_elems data with
                | [] => inl "provider returned no models"
                | ids => inr ids
                end
            | _ => inl ("parsing models response: " +:+ err_text req)
            end
        end
  end.

(** ** Endpoints *)

(** [probeEndpoint]: [Some] when it is known whether the endpoint exists. *)
Definition probeEndpoint (i : nat) (baseURL apiKey path probeBody : string) : option bool :=
  let req := mkOutgoing "POST" (baseURL +:+ path)
    (bearer apiKey (header_set "Content-Type" "application/json" ∅)) probeBody in
  match client i req with
  | BadURL | NoResponse => None
  | Response status _ =>
      if is_2xx status then Some true
      else if status =? 404 then Some false
      else None
  end.

(** The probe bodies: [json.Marshal] of maps, whose keys it sorts. *)
Definition json_obj (l : list (string * json)) : string := print (JObj l).
Definition chat_message : json := JObj [("content", JStr "hi"); ("role", JStr "user")].
Definition chatBody (model : string) : string :=
  json_obj [("max_tokens", JNum "1"); ("messages", JArr [chat_message]); ("model", marshal_string model)].
Definition completionsBody (model : string) : string :=
  json_obj [("max_tokens", JNum "1"); ("model", marshal_string model); ("prompt", JStr "hi")].
Definition embeddingsBody (model : string) : string :=
  json_obj [("input", JStr "test"); ("model", marshal_string model)].
Definition showBody (model : string) : string := json_obj [("model", marshal_string model)].

(** [probeSpec]: a path and the body to probe it with; [None] is skipped. *)
Definition specs (model : string) : list (string * option string) :=
  [("/v1/chat/completions", Some (chatBody model)); ("/v1/completions", Some (completionsBody model));
   ("/v1/embeddings", Some (embeddingsBody model)); ("/api/show", Some (showBody model));
   ("/v1/images/generations", None); ("/v1/audio/speech", None); ("/v1/audio/transcriptions", None)].

(** The probes of a discovery, one after the other. *)
Definition probe_all (baseURL apiKey model : string) : list discoverEndpoint :=
  imap (fun i (spec : string * option string) =>
    mkDiscover spec.1 "POST" (spec.2 ≫= probeEndpoint (S i) baseURL apiKey spec.1)) (specs model).

(** [HandleDiscover]: nothing is stored. *)
Definition HandleDiscover (id : string) : Act unit :=
  do! provider := try_found (GetProvider fault id) 404 "provider not found" "failed to get provider" in
  let baseURL := trim_right slash (p_BaseURL provider) in
  match discoverModels baseURL (p_APIKey provider) with
  | inl msg => fail_with 502 ("failed to reach provider: " +:+ msg)
  | inr [] => fail_with 502 "provider returned no models"
  | inr ((firstModel :: _) as modelIDs) =>
      respondJSON 200 (DMap [("models", DTexts modelIDs);
        ("endpoints", DDiscovered (probe_all baseURL (p_APIKey provider) firstModel))])
  end.

(** * Confirmation *)

(** [confirmEndpointEntry] and [confirmRequest]. *)
Record EndpointEntry := mkEndpointEntry { ee_Path : string; ee_Method : string; ee_IsSupported : bool; ee_IsEnabled : bool }.

Definition zero_entry : EndpointEntry := mkEndpointEntry EmptyString EmptyString false false.

Definition decode_entry : json -> EndpointEntry -> Decoded EndpointEntry :=
  decode_struct (fields [
    field "path" decode_string ee_Path (fun v e => mkEndpointEntry v (ee_Method e) (ee_IsSupported e) (ee_IsEnabled e));
    field "method" decode_string ee_Method (fun v e => mkEndpointEntry (ee_Path e) v (ee_IsSupported e) (ee_IsEnabled e));
    field "is_supported" decode_bool ee_IsSupported (fun v e => mkEndpointEntry (ee_Path e) (ee_Method e) v (ee_IsEnabled e));
    field "is_enabled" decode_bool ee_IsEnabled (fun v e => mkEndpointEntry (ee_Path e) (ee_Method e) (ee_IsSupported e) v)]).

Record ConfirmRequest := mkConfirm { cf_Endpoints : Slice EndpointEntry; cf_Models : Slice string }.

Definition zero_confirm : ConfirmRequest := mkConfirm nil_slice nil_slice.

Definition decode_confirm : json -> ConfirmRequest -> Decoded ConfirmRequest :=
  decode_struct (fields [
    field "endpoints" (decode_slice zero_entry decode_entry) cf_Endpoints (fun v c => mkConfirm v (cf_Models c));
    field "models" (decode_slice EmptyString decode_string) cf_Models (fun v c => mkConfirm (cf_Endpoints c) v)]).

(** The rows of the endpoints; [uuid i] is the [i]-th id drawn. *)
Definition confirmed_endpoint (providerID : string) (i : nat) (e : EndpointEntry) : ProviderEndpoint :=
  mkEndpoint (uuid i) providerID (ee_Path e) (ee_Method e) (ee_IsSupported e) (ee_IsEnabled e) now.

(** [mergeProviderModelIDs]: the set of the ids that are not empty, sorted. *)
Definition id_set (ids : list string) : gset string := list_to_set (keep (fun id => negb (str_empty id)) ids).

Definition mergeProviderModelIDs (requested : list string) (existing : list ProviderModel) : list string :=
  sort_strings (elements (id_set (pm_ModelID <$> existing) ∪ id_set requested)).

(** [HandleConfirm]. *)
Definition HandleConfirm (id : string) (r : Request) : Act unit :=
  do! body := some_or (decode_request decode_confirm zero_confirm (req_Body r)) 400 "invalid JSON body" in
  do! provider := try_found (GetProvider fault id) 404 "provider not found" "failed to get provider" in
  let pid := p_ID provider in
  let eps := imap (confirmed_endpoint pid) (sl_elems (cf_Endpoints body)) in
  let requested := sl_elems (cf_Models body) in
  do! _ := try_ (UpsertProviderEndpoints fault pid eps) "failed to upsert endpoints" in
  do! existing := try_ (ListProviderModels fault pid) "failed to list existing models" in
  do! _ := try_ (SyncProviderModels fault now (fun i => uuid (length eps + i)) pid (mergeProviderModelIDs requested existing))
             "failed to sync models" in
  do! _ := try_ (SetProviderModelsAvailability fault pid requested) "failed to update model availability" in
  do! endpoints := try_ (ListProviderEndpoints fault pid) "failed to list endpoints" in
  do! models := try_ (ListProviderModels fault pid) "failed to list models" in
  notifyRoutingChanged h >>!
  respondJSON 200 (DMap [("provider", DProvider provider); ("endpoints", DEndpoints endpoints); ("models", DModels models)]).

End Onboard.

(** * What a confirmation stores *)

(** The flags of an endpoint, and those the entries of a request ask for: the
    last entry of a path and method counts. *)
Definition endpoint_flags (db : DB) (pid path method : string) : option (bool * bool) :=
  (fun e => (ep_IsSupported e, ep_IsEnabled e)) <$>
    head (keep (fun e => bool_decide (ep_key e = (pid, path, method))) (db_endpoints db)).

Definition asked (path method : string) (l : list (string * string * (bool * bool))) : option (bool * bool) :=
  last (snd <$> keep (fun x => bool_decide (x.1 = (path, method))) l).

Definition entry_flags (e : EndpointEntry) : string * string * (bool * bool) :=
  (ee_Path e, ee_Method e, (ee_IsSupported e, ee_IsEnabled e)).
Definition row_flags (e : ProviderEndpoint) : string * string * (bool * bool) :=
  (ep_Path e, ep_Method e, (ep_IsSupported e, ep_IsEnabled e)).

Lemma keep_update {A} (p sel : A -> bool) (f : A -> A) (l : list A) : (forall x, p (f x) = p x) ->
  keep p (update_rows sel f l) = update_rows sel f (keep p l).
Proof.
  intros Hp. unfold keep, update_rows. induction l as [|x l IH]; csimpl; [done|].
  destruct (sel x) eqn:Es; rewrite ?Hp; destruct (p x) eqn:Ep; csimpl; rewrite ?Es, IH; done.
Qed.

Lemma upsert_flags e db db' pid path method : upsert_endpoint e db = inr (tt, db') ->
  endpoint_flags db' pid path method =
    (if bool_decide (ep_key e = (pid, path, method)) then Some (ep_IsSupported e, ep_IsEnabled e)
     else endpoint_flags db pid path method) /\
  db' = set_endpoints (db_endpoints db') db.
Proof.
  unfold upsert_endpoint, insert_endpoint. destruct (fresh ep_key e (db_endpoints db)) eqn:Ef.
  - destruct (_ && _); [|done]. intros [= <-]. split; [|by destruct db]. unfold endpoint_flags. simpl. rewrite keep_app.
    apply bool_decide_eq_true in Ef. case_bool_decide as Ek; unfold keep at 2; simpl.
    + rewrite (bool_decide_eq_true_2 _ Ek). rewrite keep_none; [done|]. apply Forall_forall. intros x Hx.
      apply bool_decide_eq_false. intros E. apply Ef. rewrite Ek, <- E. by apply list_elem_of_fmap_2.
    + rewrite (bool_decide_eq_false_2 _ Ek). by rewrite app_nil_r.
  - intros [= <-]. split; [|by destruct db]. unfold endpoint_flags. simpl. rewrite keep_update by done.
    apply bool_decide_eq_false, dec_stable in Ef. case_bool_decide as Ek.
    + apply list_elem_of_fmap in Ef as (x & Ex & Hx).
      assert (Hin : x ∈ keep (fun y => bool_decide (ep_key y = (pid, path, method))) (db_endpoints db))
        by (apply keep_spec; split; [done|]; apply bool_decide_eq_true; congruence).
      destruct (keep _ (db_endpoints db)) as [|y l] eqn:El; [by apply elem_of_nil in Hin|]. simpl.
      assert (Hy : y ∈ keep (fun y => bool_decide (ep_key y = (pid, path, method))) (db_endpoints db))
        by (rewrite El; apply list_elem_of_here).
      apply keep_spec in Hy as [_ Hy]. apply bool_decide_eq_true in Hy. by rewrite bool_decide_eq_true_2 by congruence.
    + destruct (keep _ (db_endpoints db)) as [|y l] eqn:El; [done|]. simpl.
      assert (Hy : y ∈ keep (fun y => bool_decide (ep_key y = (pid, path, method))) (db_endpoints db))
        by (rewrite El; apply list_elem_of_here).
      apply keep_spec in Hy as [_ Hy]. apply bool_decide_eq_true in Hy. by rewrite bool_decide_eq_false_2 by congruence.
Qed.

Section ConfirmLemmas.
Context (fault : nat -> bool).

Lemma upsert_all pid eps c c' : UpsertProviderEndpoints fault pid eps c = (inr tt, c') ->
  cn_db c' = set_endpoints (db_endpoints (cn_db c')) (cn_db c) /\
  forall path method, endpoint_flags (cn_db c') pid path method =
    match asked path method (row_flags <$> eps) with
    | Some f => Some f
    | None => endpoint_flags (cn_db c) pid path method
    end.
Proof.
  unfold UpsertProviderEndpoints. intros (c1 & H & ->)%transaction_ok. revert H.
  set (base := cn_db c). intros H.
  apply (efor_ind _ _ (fun l db => db = set_endpoints (db_endpoints db) base /\
    forall path method, endpoint_flags db pid path method =
      match asked path method (row_flags <$> l) with Some f => Some f | None => endpoint_flags base pid path method end)) in H; [done|..].
  - split; [by destruct (cn_db c)|done].
  - intros l1 e c2 c3 _ Hx%exec_ok [Hdb Hf]. split.
    + destruct (upsert_flags _ _ _ pid EmptyString EmptyString Hx) as [_ ->]. rewrite Hdb. done.
    + intros path method. destruct (upsert_flags _ _ _ pid path method Hx) as [-> _]. rewrite Hf.
      unfold asked. rewrite fmap_app, keep_app, fmap_app. unfold keep at 3. simpl.
      unfold ep_key, endpoint_of. simpl. case_bool_decide as E; case_bool_decide as E'; simplify_eq/=.
      * by rewrite last_snoc.
      * by rewrite app_nil_r.
Qed.

Lemma confirmed_flags now uuid pid (entries : list EndpointEntry) :
  row_flags <$> imap (confirmed_endpoint now uuid pid) entries = entry_flags <$> entries.
Proof.
  rewrite fmap_imap. unfold confirmed_endpoint. rewrite <- (imap_const (A := EndpointEntry)). apply imap_ext. done.
Qed.

End ConfirmLemmas.

Lemma elem_of_merged mid requested existing : mid ∈ mergeProviderModelIDs requested existing <->
  mid <> EmptyString /\ (mid ∈ requested \/ mid ∈ pm_ModelID <$> existing).
Proof.
  unfold mergeProviderModelIDs. rewrite elem_of_sort_strings, elem_of_elements, elem_of_union. unfold id_set.
  rewrite !elem_of_list_to_set, !keep_spec. unfold str_empty. rewrite !negb_true_iff, !String.eqb_neq. tauto.
Qed.

(** The merged ids are sorted and distinct. *)
Lemma merged_nodup requested existing : NoDup (mergeProviderModelIDs requested existing).
Proof. unfold mergeProviderModelIDs. rewrite sort_strings_perm. apply NoDup_elements. Qed.

(** The models a provider has. *)
Definition model_ids (db : DB) (pid : string) : list string :=
  pm_ModelID <$> keep (fun m => String.eqb (pm_ProviderID m) pid) (db_models db).

Lemma elem_of_model_ids db pid mid : mid ∈ model_ids db pid <-> (pid, mid) ∈ pm_key <$> db_models db.
Proof.
  unfold model_ids. rewrite !list_elem_of_fmap. split.
  - intros (m & -> & [Hm Hp]%keep_spec). exists m. split; [|done]. apply String.eqb_eq in Hp. unfold pm_key. by rewrite Hp.
  - intros (m & [= -> ->] & Hm). exists m. split; [done|]. apply keep_spec. split; [done|]. apply String.eqb_refl.
Qed.

(** A handler has answered with a datum. *)
Definition replied_json (evs : list Event) : bool :=
  existsb (fun e => match e with EvReply (RJson _ _) => true | _ => false end) evs.

Lemma get_provider_ok fault id c p c' : GetProvider fault id c = (inr p, c') ->
  p ∈ db_providers (cn_db c) /\ p_ID p = id /\ cn_db c' = cn_db c.
Proof.
  unfold GetProvider, find_row. intros (o & c1 & [-> E]%query_ok & H)%ebind_ok.
  destruct (head _) as [p'|] eqn:Eh; [|done]. injection H as -> ->. apply head_Some in Eh as [l Eh].
  assert (Hin : p ∈ keep (fun p => String.eqb (p_ID p) id) (db_providers (cn_db c))) by (rewrite Eh; apply list_elem_of_here).
  apply keep_spec in Hin as [Hin Hid]. by apply String.eqb_eq in Hid.
Qed.

Lemma notify_conn h w : aw_conn (notifyRoutingChanged h w).2 = aw_conn w /\ (notifyRoutingChanged h w).1 = Some tt /\
  replied_json (aw_events (notifyRoutingChanged h w).2) = replied_json (aw_events w).
Proof. unfold notifyRoutingChanged. destruct (h_onRoutingChanged h); simpl; split_and!; try done. unfold replied_json. by rewrite existsb_app, orb_false_r. Qed.

(** The calls of a confirmation that succeeded. *)
Lemma confirm_steps (fault : nat -> bool) `{order : SortSlice} h now uuid id r c :
  let w := (HandleConfirm fault h now uuid id r (mkWorld c [])).2 in
  replied_json (aw_events w) = true ->
  exists body c0 c1 c2 c3 c4,
    let eps := imap (confirmed_endpoint now uuid id) (sl_elems (cf_Endpoints body)) in
    let requested := sl_elems (cf_Models body) in
    let existing := order_by (asc_text pm_ModelID) (keep (fun m => String.eqb (pm_ProviderID m) id) (db_models (cn_db c1))) in
    decode_request decode_confirm zero_confirm (req_Body r) = Some body /\
    id ∈ p_ID <$> db_providers (cn_db c) /\ cn_db c0 = cn_db c /\
    UpsertProviderEndpoints fault id eps c0 = (inr tt, c1) /\ cn_db c2 = cn_db c1 /\
    SyncProviderModels fault now (fun i => uuid (length eps + i)%nat) id (mergeProviderModelIDs requested existing) c2 = (inr tt, c3) /\
    SetProviderModelsAvailability fault id requested c3 = (inr tt, c4) /\
    cn_db (aw_conn w) = cn_db c4.
Proof.
  unfold HandleConfirm, some_or, try_found, try_, fail_with, respondError, emit, call, abind, act, return_.
  repeat (case_match; simplify_eq/=; try done);
    match goal with H : notifyRoutingChanged h ?w0 = _ |- _ => destruct (notify_conn h w0) as (N1 & N2 & N3); rewrite H in N1, N2, N3 end;
    [|done]. simpl in *. intros _.
  repeat match goal with u : unit |- _ => destruct u end.
  match goal with H : GetProvider _ _ _ = _ |- _ => apply get_provider_ok in H as (Hp & <- & E0) end.
  match goal with H1 : ListProviderModels _ _ _ = (inr ?l, _), H2 : SyncProviderModels _ _ _ _ (mergeProviderModelIDs _ ?l) _ = _ |- _ =>
    apply query_ok in H1 as [-> E1] end.
  match goal with H : ListProviderEndpoints _ _ _ = _ |- _ => apply query_ok in H as [_ E2] end.
  match goal with H : ListProviderModels _ _ _ = _ |- _ => apply query_ok in H as [_ E3] end.
  eexists _, _, _, _, _, _. split; [done|]. split; [by apply list_elem_of_fmap_2|]. split; [exact E0|].
  split; [eassumption|]. split; [exact E1|]. split; [eassumption|]. split; [eassumption|].
  unfold respondJSON, respondError. destruct (encodable _); simpl; congruence.
Qed.

Lemma with_availability_key pid ids m : pm_key (with_availability pid ids m) = pm_key m.
Proof. unfold with_availability. by destruct (String.eqb _ _). Qed.

Lemma order_by_models `{SortSlice} db pid mid :
  mid ∈ pm_ModelID <$> order_by (asc_text pm_ModelID) (keep (fun m => String.eqb (pm_ProviderID m) pid) (db_models db)) <->
  mid ∈ model_ids db pid.
Proof. unfold model_ids. by rewrite order_by_perm. Qed.

(** C17: A confirmation that is answered with a datum has stored the user's
    selection: the endpoints it lists have the flags of their last entry and
    all others those they had; the models of the provider are those known
    before, prices and all, and the requested ones, which are added without
    prices; exactly the requested ones are available; and no other table, and
    no model of another provider, has changed. *)
Theorem confirm_stores_the_selection (fault : nat -> bool) (order : SortSlice) (h : Handler) (now : Z) (uuid : nat -> string)
    (id : string) (r : Request) (c : Conn) :
  let w := (HandleConfirm fault h now uuid id r (mkWorld c [])).2 in
  let db := cn_db c in
  let db' := cn_db (aw_conn w) in
  (forall i j, uuid i = uuid j -> i = j) -> (forall i, uuid i ∉ pm_ID <$> db_models db) ->
  replied_json (aw_events w) = true ->
  exists body new, decode_request decode_confirm zero_confirm (req_Body r) = Some body /\ id ∈ p_ID <$> db_providers db /\
    let requested := sl_elems (cf_Models body) in
    db' = set_models (with_availability id requested <$> db_models db ++ new) (set_endpoints (db_endpoints db') db) /\
    Forall (fun m => exists i mid, mid <> EmptyString /\ m = synced_model (uuid i) id mid now) new /\
    (forall mid, mid ∈ model_ids db' id <-> mid ∈ model_ids db id \/ (mid ∈ requested /\ mid <> EmptyString)) /\
    (forall path method, endpoint_flags db' id path method =
       match asked path method (entry_flags <$> sl_elems (cf_Endpoints body)) with
       | Some flags => Some flags
       | None => endpoint_flags db id path method
       end).
Proof.
  intros w db db' Hinj Hnew Hr. destruct (confirm_steps fault h now uuid id r c Hr) as
    (body & c0 & c1 & c2 & c3 & c4 & Hb & Hid & E0 & Hup & E2 & Hsync & Hset & Edb).
  apply upsert_all in Hup as [Dup Fup]. rewrite E0 in Dup, Fup.
  apply sync_adds_the_missing in Hsync as (new & Dsync & Rows & Keys);
    [|intros i j H; apply Hinj in H; lia|intros i; rewrite E2, Dup; apply Hnew]. rewrite E2 in Dsync, Keys.
  apply availability_is_set in Hset. change (aw_conn _) with (aw_conn w) in Edb. fold db' in Edb.
  exists body, new. split; [done|split; [done|]]. intros requested.
  assert (Em : db_models db' = with_availability id requested <$> db_models db ++ new)
    by (rewrite Edb, Hset, Dsync, Dup; done).
  assert (Ee : db_endpoints db' = db_endpoints (cn_db c1)) by (rewrite Edb, Hset, Dsync; done).
  split; [|split; [|split]].
  - rewrite Ee. rewrite Edb, Hset, Dsync, Dup. done.
  - eapply Forall_impl; [exact Rows|]. intros m (i & mid & Hmid%elem_of_merged & ->). eexists _, mid. split; [apply Hmid|reflexivity].
  - intros mid. rewrite elem_of_model_ids, Em, <- list_fmap_compose.
    rewrite (list_fmap_ext _ pm_key) by (intros _ m _; apply with_availability_key).
    assert (Hc3 : db_models (cn_db c3) = db_models db ++ new) by (rewrite Dsync, Dup; done).
    rewrite <- Hc3, Keys, <- elem_of_model_ids. assert (Hm1 : model_ids (cn_db c1) id = model_ids db id) by (rewrite Dup; done).
    rewrite Hm1. split.
    + intros [H|(mid' & Hmid & Hne & [= <-])]; [by left|]. apply elem_of_merged in Hmid as [_ [Hq|Hex]]; [by right|].
      left. rewrite order_by_models, Hm1 in Hex. done.
    + intros [H|[Hq Hne]]; [by left|]. right. exists mid. split; [|done]. apply elem_of_merged. auto.
  - intros path method. unfold endpoint_flags at 1. rewrite Ee. change (endpoint_flags (cn_db c1) id path method =
      match asked path method (entry_flags <$> sl_elems (cf_Endpoints body)) with Some f => Some f | None => endpoint_flags db id path method end).
    by rewrite Fup, confirmed_flags.
Qed.

(** ** Discovery *)

(** A discovery stores nothing and answers in one of three ways: 404 or 500
    without the provider, 502 without models, or the models of the backend
    with, for each endpoint the gateway serves, what its probe showed: a 2xx
    that it is there, a 404 that it is not, and nothing otherwise. *)
Theorem discovery_reports_the_backend (fault : nat -> bool) (client : nat -> Outgoing -> Answer) (err_text : Outgoing -> string)
    (id : string) (c : Conn) :
  let w := (HandleDiscover fault client err_text id (mkWorld c [])).2 in
  cn_db (aw_conn w) = cn_db c /\
  match (GetProvider fault id c).1 with
  | inl ErrNoRows => aw_events w = [EvReply (RError 404 "provider not found")]
  | inl _ => aw_events w = [EvReply (RError 500 "failed to get provider")]
  | inr p =>
      let base := trim_right slash (p_BaseURL p) in
      match discoverModels client err_text base (p_APIKey p) with
      | inl msg => aw_events w = [EvReply (RError 502 ("failed to reach provider: " +:+ msg))]
      | inr models =>
          exists endpoints,
            aw_events w = [EvReply (RJson 200 (DMap [("models", DTexts models); ("endpoints", DDiscovered endpoints)]))] /\
            de_Path <$> endpoints = fst <$> specs EmptyString /\
            forall i e, endpoints !! i = Some e ->
              de_IsSupported e =
                match snd <$> specs (default EmptyString (head models)) !! i with
                | Some (Some body) =>
                    match client (S i) (mkOutgoing "POST" (base +:+ de_Path e)
                            (bearer (p_APIKey p) (header_set "Content-Type" "application/json" ∅)) body) with
                    | Response status _ => if is_2xx status then Some true else if status =? 404 then Some false else None
                    | _ => None
                    end
                | _ => None
                end
      end
  end.
Proof.
  intros w. assert (Hread : cn_db (GetProvider fault id c).2 = cn_db c).
  { unfold GetProvider, find_row, query, ebind, exec. destruct (fault _); [done|]. by destruct (head _). }
  unfold w, HandleDiscover, try_found, fail_with, respondError, call, abind, emit, act, return_. simpl.
  destruct (GetProvider fault id c) as [[e|p] c'] eqn:E; simpl in *. { by destruct e. }
  destruct (discoverModels _ _ _ _) as [msg|ids] eqn:Ed; simpl; [by split|].
  destruct ids as [|m ids].
  { exfalso. unfold discoverModels in Ed. repeat case_match; simplify_eq/=. }
  unfold respondJSON, emit. cbn [encodable forallb andb snd aw_conn aw_events]. split; [done|]. eexists. split; [reflexivity|]. split.
  - unfold probe_all. rewrite fmap_imap. done.
  - intros i e Hi. unfold probe_all in Hi. rewrite list_lookup_imap in Hi. simpl.
    destruct (specs m !! i) as [[path b]|]; [|done]. simpl in *. injection Hi as <-. destruct b as [b|]; [|done].
    simpl. unfold probeEndpoint. by destruct (client _ _).
Qed.

(** * Witness *)

Definition confirm_request : Request :=
  mkRequest "POST" "/admin/providers/p1/confirm" ∅ 0 "::1"
    (jtext "{'endpoints':[{'path':'/v1/embeddings','method':'POST','is_supported':true,'is_enabled':true}],'models':['new']}") None.

Lemma confirm_stores_the_selection_witness :
  let w := (HandleConfirm no_fault (order := insertion_SortSlice) (mkHandler true true true None EmptyString) 5 sample_uuid "p1"
    confirm_request (mkWorld sample_conn [])).2 in
  exists new, db_models (cn_db (aw_conn w)) = with_availability "p1" ["new"] <$> db_models sample_db ++ new.
Proof.
  intros w.
  destruct (confirm_stores_the_selection no_fault insertion_SortSlice (mkHandler true true true None EmptyString) 5 sample_uuid "p1"
    confirm_request sample_conn) as (body & new & Hb & _ & Hdb & _).
  - intros i j H. injection H as H. by apply (inj pretty).
  - intros i H. vm_compute in H. apply list_elem_of_singleton in H. discriminate.
  - vm_compute. reflexivity.
  - exists new. change (cn_db (aw_conn w)) with (cn_db (aw_conn (HandleConfirm no_fault (order := insertion_SortSlice)
      (mkHandler true true true None EmptyString) 5 sample_uuid "p1" confirm_request (mkWorld sample_conn [])).2)). rewrite Hdb.
    assert (E : sl_elems (cf_Models body) = ["new"]).
    { assert (H : exists b, decode_request decode_confirm zero_confirm (req_Body confirm_request) = Some b /\
        sl_elems (cf_Models b) = ["new"]) by (eexists; split; vm_compute; reflexivity).
      destruct H as (b & H1 & H2). congruence. }
    rewrite E. reflexivity.
Defined.
