(* ===== verification/AdminApi.v ===== *)
(** The admin API as a whole: the routes of [internal/admin/handler.go] and
    those [cmd/gateway/main.go] adds to them, the access key in front of them,
    and what every call promises: one reply, tables that stay well formed, no
    change outside the tables of the call, none at all when the call is
    refused, and a notice to the routing catalog and to the configuration
    snapshot of what changed. *)
From S2P Require Import Prelude GoLib Float64 Models Http Json Body Active Limiter Access Sql Store Retention Stats Reports Reply.
From S2P Require Import Admin AdminConfig Onboard.
Local Open Scope Z_scope.
Local Open Scope go_scope.

(** * Routes *)

(** What the handlers of one call draw on: the arguments of the sections of
    {!Admin}, {!AdminConfig} and {!Onboard}. *)
Record Env := mkEnv {
  en_fault : nat -> bool;
  en_sort : SortSlice;
  en_ranges : MapRange;
  en_sum : list f64 -> f64;
  en_avg : list f64 -> f64;
  en_bare : list RequestLog -> option RequestLog;
  en_handler : Handler;
  en_now : Z;
  en_uuid : nat -> string;
  en_random : option string;
  en_hash : string -> string;
  en_lower : string -> string;
  en_quoted : string -> string;
  en_parse : string -> string -> option Z;
  en_duration : string -> option Z;
  en_answers : bool;
  en_err : string -> string;
  en_client : nat -> Outgoing -> Answer;
  en_client_err : Outgoing -> string;
}.

(** A request the router has matched, with its path parameters. *)
Inductive AdminCall :=
| PostAuth | GetMe | GetMyUsage | GetMyTimeSeries | GetMyStats | GetMyStatsTimeSeries | GetMyLifetime
| PostDiscover (id : string) | PostConfirm (id : string)
| GetKeys | PostKeys | PutKey (id : string) | DeleteKey (id : string) | GetUsage
| GetProviders | PostProviders | GetProvider_ (id : string) | PutProvider (id : string) | DeleteProvider_ (id : string)
| PutEndpoint (id eid : string)
| GetAliases | PostAliases | PutAlias (id : string) | DeleteAlias_ (id : string)
| GetActive
| GetLogs | GetLog (id : string) | GetLogStreaming (id : string)
| PutModel (id mid : string) | PostModels (id : string) | DeleteModel (id mid : string)
| GetConfig | PutConfig | GetConfigDefinition
| GetStats | GetTimeSeries_ | GetLifetime.

(** The open routes of [main]; all others stand behind the access key. *)
Definition is_open (call : AdminCall) : bool :=
  match call with
  | PostAuth | GetMe | GetMyUsage | GetMyTimeSeries | GetMyStats | GetMyStatsTimeSeries | GetMyLifetime => true
  | _ => false
  end.

Section Api.
Context (env : Env) (q : string -> string) (r : Request).

(** [Routes], with the routes of onboarding and the open routes. *)
Definition handle (call : AdminCall) : Act unit :=
  let fault := en_fault env in
  let order := en_sort env in
  let ranges := en_ranges env in
  let h := en_handler env in
  let now := en_now env in
  match call with
  | PostAuth => HandleAuth fault h (en_hash env) r
  | GetMe => HandleMe fault h (en_hash env) r
  | GetMyUsage => HandleMyUsage fault (order := order) (en_sum env) (en_avg env) now (en_hash env) (en_parse env) r q
  | GetMyTimeSeries => HandleMyTimeSeries fault (en_sum env) now (en_hash env) (en_parse env) r q
  | GetMyStats =>
      HandleMyStats fault (order := order) (en_avg env) (en_bare env) now (en_hash env) (en_parse env) (en_duration env) (en_err env) r q
  | GetMyStatsTimeSeries =>
      HandleMyStatsTimeSeries fault (en_sum env) now (en_hash env) (en_parse env) (en_duration env) (en_err env) r q
  | GetMyLifetime => HandleMyLifetimeCost fault (en_sum env) (en_hash env) r
  | PostDiscover id => HandleDiscover fault (en_client env) (en_client_err env) id
  | PostConfirm id => HandleConfirm fault (order := order) h now (en_uuid env) id r
  | GetKeys => HandleListAPIKeys fault (order := order)
  | PostKeys =>
      HandleCreateAPIKey fault (order := order) now (en_uuid env 0%nat) (en_random env) (en_hash env) (en_lower env) (en_quoted env) r
  | PutKey id => HandleUpdateAPIKey fault (order := order) (en_lower env) (en_quoted env) id r
  | DeleteKey id => HandleDeleteAPIKey fault id
  | GetUsage => HandleUsageByKey fault (order := order) (en_sum env) now (en_parse env) q
  | GetProviders => HandleListProviders fault (order := order)
  | PostProviders => HandleCreateProvider fault h now (en_uuid env 0%nat) r
  | GetProvider_ id => HandleGetProvider fault (order := order) id
  | PutProvider id => HandleUpdateProvider fault h now id r
  | DeleteProvider_ id => HandleDeleteProvider fault h id
  | PutEndpoint id eid => HandleUpdateEndpoint fault (order := order) h id eid r
  | GetAliases => HandleListAliases fault (order := order)
  | PostAliases => HandleCreateAlias fault h now (en_uuid env 0%nat) r
  | PutAlias id => HandleUpdateAlias fault (order := order) h now id r
  | DeleteAlias_ id => HandleDeleteAlias fault h id
  | GetActive => HandleActive h
  | GetLogs => HandleQueryLogs fault (order := order) (en_parse env) (en_answers env) q
  | GetLog id => HandleGetLog fault (en_answers env) id
  | GetLogStreaming id => HandleGetStreamingLogs fault (order := order) (en_answers env) id
  | PutModel id mid => HandleUpdateProviderModel fault (order := order) h id mid r
  | PostModels id => HandleAddProviderModel fault (order := order) h now (en_uuid env 0%nat) id r
  | DeleteModel id mid => HandleDeleteProviderModel fault (order := order) h id mid
  | GetConfig => HandleGetConfig fault
  | PutConfig => HandleUpdateConfig fault (ranges := ranges) h now r
  | GetConfigDefinition => HandleConfigDefinition
  | GetStats =>
      HandleGetStats fault (order := order) (en_avg env) (en_bare env) h now (en_parse env) (en_duration env) (en_err env) q
  | GetTimeSeries_ => HandleGetTimeSeries fault (en_sum env) now (en_parse env) (en_duration env) (en_err env) q
  | GetLifetime => HandleGetLifetimeCost fault (en_sum env)
  end.

(** The access key in front of the routes that are not open: the reply of
    {!Access.AccessKeyMiddleware}. *)
Definition guarded (call : AdminCall) : Act unit :=
  if is_open call || ValidateAccessKey (h_accessKey (en_handler env)) r then handle call else respondError 401 "unauthorized".

(** One call on the tables: what it leaves of them, and what it set off. *)
Definition serve (call : AdminCall) (c : Conn) : World := (guarded call (mkWorld c [])).2.

End Api.

(** * What a call promises *)

Definition ev_reply (e : Event) : option Reply := match e with EvReply r => Some r | _ => None end.
Definition replies (evs : list Event) : list Reply := omap ev_reply evs.

(** The tables of which the routing catalog is built. *)
Definition routing (db : DB) : list Provider * list ProviderEndpoint * list ProviderModel * list ModelAlias :=
  (db_providers db, db_endpoints db, db_models db, db_aliases db).

(** The group of tables a call may change. *)
Inductive Scope := Nothing | Keys | Routing | Settings.

Definition scope (call : AdminCall) : Scope :=
  match call with
  | PostKeys | PutKey _ | DeleteKey _ => Keys
  | PostConfirm _ | PostProviders | PutProvider _ | DeleteProvider_ _ | PutEndpoint _ _ | PostAliases | PutAlias _
  | DeleteAlias_ _ | PutModel _ _ | PostModels _ | DeleteModel _ _ => Routing
  | PutConfig => Settings
  | _ => Nothing
  end.

(** A log and a chunk without their bodies. *)
Definition without_bodies (l : RequestLog) : RequestLog := set_log_ResponseBody EmptyString (set_log_RequestBody EmptyString l).
Definition without_data (l : StreamingLog) : StreamingLog :=
  set_sl_BodyPurged true (set_sl_ContentDelta EmptyString (set_sl_Data EmptyString l)).

(** The tables outside the group are as they were; a change of the settings
    may also clear recorded bodies, and of the logs nothing else. *)
Definition within (s : Scope) (db db' : DB) : Prop :=
  match s with
  | Nothing => db' = db
  | Keys => routing db' = routing db /\ db_config db' = db_config db /\ db_logs db' = db_logs db /\ db_chunks db' = db_chunks db
  | Routing =>
      db_keys db' = db_keys db /\ db_config db' = db_config db /\ db_logs db' = db_logs db /\ db_chunks db' = db_chunks db
  | Settings =>
      routing db' = routing db /\ db_keys db' = db_keys db /\
      without_bodies <$> db_logs db' = without_bodies <$> db_logs db /\
      without_data <$> db_chunks db' = without_data <$> db_chunks db
  end.

Definition is_success_status (s : Z) : Prop := 200 <= s < 300.
Definition is_refusal (s : Z) : Prop := 400 <= s < 500.

(** A change of the routing tables or of the settings has been told to the
    hook, if there is one. *)
Definition told (h : Handler) (db db' : DB) (evs : list Event) : Prop :=
  (h_onRoutingChanged h = true -> routing db' = routing db \/ EvRoutingChanged ∈ evs) /\
  (h_onConfigChanged h = true -> db_config db' = db_config db \/ EvConfigChanged ∈ evs).

Record contract (h : Handler) (s : Scope) (db : DB) (w : World) : Prop := mkContract {
  ct_wf : wf (cn_db (aw_conn w));
  ct_within : within s db (cn_db (aw_conn w));
  ct_reply : exists r, replies (aw_events w) = [r] /\
    (is_refusal (reply_status r) -> cn_db (aw_conn w) = db) /\
    (is_success_status (reply_status r) -> told h db (cn_db (aw_conn w)) (aw_events w));
}.

(** * Reasoning about handlers *)

Section Logic.
Context (Done : World -> Prop).

(** From [P], the handler [m] goes on in [Q], or has returned in [Done]. *)
Definition ok {A} (P : World -> Prop) (m : Act A) (Q : A -> World -> Prop) : Prop :=
  forall w, P w -> match m w with (Some a, w') => Q a w' | (None, w') => Done w' end.

Lemma ok_bind {A B} P (m : Act A) (k : A -> Act B) Q R :
  ok P m Q -> (forall a, ok (Q a) (k a) R) -> ok P (abind m k) R.
Proof. intros Hm Hk w Hw. specialize (Hm w Hw). unfold abind. destruct (m w) as [[a|] w']; [by apply Hk|done]. Qed.

Lemma ok_act {A} (P : World -> Prop) (a : A) (Q : A -> World -> Prop) : (forall w, P w -> Q a w) -> ok P (act a) Q.
Proof. intros H w Hw. by apply H. Qed.

Lemma ok_pure {A} (P : World -> Prop) (a : A) : ok P (act a) (fun _ => P).
Proof. by apply ok_act. Qed.

Lemma ok_weaken {A} (P P' : World -> Prop) (m : Act A) (Q Q' : A -> World -> Prop) :
  ok P' m Q' -> (forall w, P w -> P' w) -> (forall a w, Q' a w -> Q a w) -> ok P m Q.
Proof. intros Hm HP HQ w Hw. specialize (Hm w (HP w Hw)). destruct (m w) as [[a|] w']; auto. Qed.

Lemma ok_emit (P : World -> Prop) e (Q : unit -> World -> Prop) :
  (forall w, P w -> Q tt (mkWorld (aw_conn w) (aw_events w ++ [e]))) -> ok P (emit e) Q.
Proof. intros H w Hw. by apply H. Qed.

Lemma ok_fail {A} (P : World -> Prop) s msg (Q : A -> World -> Prop) :
  (forall w, P w -> Done (mkWorld (aw_conn w) (aw_events w ++ [EvReply (RError s msg)]))) -> ok P (fail_with s msg) Q.
Proof. intros H w Hw. by apply H. Qed.

Lemma ok_call {A} (P : World -> Prop) (m : Exec A) (Q : DBError + A -> World -> Prop) :
  (forall w, P w -> Q (m (aw_conn w)).1 (mkWorld (m (aw_conn w)).2 (aw_events w))) -> ok P (call m) Q.
Proof. intros H w Hw. specialize (H w Hw). unfold call. by destruct (m (aw_conn w)). Qed.

End Logic.

(** ** Store calls *)

Definition reads {A} (m : Exec A) : Prop := forall c, cn_db (m c).2 = cn_db c.

(** A call, or a statement, that keeps to a group of tables. *)
Definition stays (s : Scope) {A} (m : Exec A) : Prop := forall c, within s (cn_db c) (cn_db (m c).2).
Definition stmt_stays (s : Scope) {A} (m : Stmt A) : Prop :=
  forall db, match m db with inl _ => True | inr (_, db') => within s db db' end.

Create HintDb go_admin.

Lemma within_refl s db : within s db db.
Proof. by destruct s. Qed.

Lemma within_trans s db1 db2 db3 : within s db1 db2 -> within s db2 db3 -> within s db1 db3.
Proof. destruct s; simpl; intros; destruct_and?; split_and?; congruence. Qed.

Section StoreCalls.
Context (fault : nat -> bool) `{order : SortSlice} (s : Scope).

Lemma eret_reads {A} (a : A) : reads (eret a).
Proof. done. Qed.

Lemma efail_reads {A} e : reads (efail e : Exec A).
Proof. done. Qed.

Lemma ebind_reads {A B} (m : Exec A) (k : A -> Exec B) : reads m -> (forall a, reads (k a)) -> reads (ebind m k).
Proof. intros Hm Hk c. specialize (Hm c). unfold ebind. destruct (m c) as [[e|a] c']; simpl in *; [done|]. by rewrite Hk. Qed.

Lemma query_reads {A} (f : DB -> A) : reads (query fault f).
Proof. intros c. unfold query, exec. by destruct (fault _). Qed.

Lemma query_or_reads {A} e (f : DB -> option A) : reads (query_or fault e f).
Proof. intros c. unfold query_or, exec. destruct (fault _); [done|]. by destruct (f (cn_db c)). Qed.

Lemma found_reads {A} (r : option A) : reads (found r).
Proof. by destruct r. Qed.

Lemma exec_stays {A} (st : Stmt A) : stmt_stays s st -> stays s (exec fault st).
Proof.
  intros H c. specialize (H (cn_db c)). unfold exec. destruct (fault _); [apply within_refl|].
  destruct (st (cn_db c)) as [e|[a db]]; [apply within_refl|done].
Qed.

Lemma eret_stays {A} (a : A) : stays s (eret a).
Proof. intros c. apply within_refl. Qed.

Lemma must_affect_stays e n : stays s (must_affect e n).
Proof. intros c. unfold must_affect. case_match; apply within_refl. Qed.

Lemma ebind_stays {A B} (m : Exec A) (k : A -> Exec B) : stays s m -> (forall a, stays s (k a)) -> stays s (ebind m k).
Proof.
  intros Hm Hk c. specialize (Hm c). unfold ebind. destruct (m c) as [[e|a] c']; simpl in *; [done|].
  eapply within_trans; [exact Hm|apply Hk].
Qed.

Lemma efor_stays {A} (f : A -> Exec unit) l : (forall x, stays s (f x)) -> stays s (efor f l).
Proof. intros Hf. induction l as [|x l IH]; simpl; auto using eret_stays, ebind_stays. Qed.

Lemma transaction_stays {A} (m : Exec A) : stays s m -> stays s (transaction fault m).
Proof.
  intros Hm c. unfold transaction. destruct (fault _); [apply within_refl|].
  specialize (Hm (mkConn (cn_db c) (S (cn_stmts c)))). destruct (m _) as [[e|a] c']; [apply within_refl|].
  destruct (fault _); [apply within_refl|exact Hm].
Qed.

End StoreCalls.

#[export] Hint Resolve eret_reads efail_reads ebind_reads query_reads query_or_reads found_reads : go_admin.
#[export] Hint Resolve exec_stays eret_stays must_affect_stays ebind_stays efor_stays transaction_stays : go_admin.

(** The statements the handlers cause. *)
Ltac stays_open := intros db; cbv beta zeta; repeat (case_match; simplify_eq/=; try done).

Section Statements.

Lemma insert_provider_stays p : stmt_stays Routing (insert_provider p).
Proof. unfold insert_provider. stays_open. Qed.

Lemma insert_endpoint_stays e : stmt_stays Routing (insert_endpoint e).
Proof. unfold insert_endpoint. stays_open. Qed.

Lemma insert_model_stays m : stmt_stays Routing (insert_model m).
Proof. unfold insert_model. stays_open. Qed.

Lemma insert_alias_stays a : stmt_stays Routing (insert_alias a).
Proof. unfold insert_alias. stays_open. Qed.

Lemma insert_or_ignore_model_stays m : stmt_stays Routing (insert_or_ignore_model m).
Proof. unfold insert_or_ignore_model, insert_model. stays_open. Qed.

Lemma upsert_endpoint_stays e : stmt_stays Routing (upsert_endpoint e).
Proof. unfold upsert_endpoint, insert_endpoint. stays_open. Qed.

Lemma update_providers_stays sel f : stmt_stays Routing (update_providers sel f).
Proof. unfold update_providers. stays_open. Qed.

Lemma update_endpoints_stays sel f : stmt_stays Routing (update_endpoints sel f).
Proof. done. Qed.

Lemma update_models_stays sel f : stmt_stays Routing (update_models sel f).
Proof. done. Qed.

Lemma update_aliases_stays sel f : stmt_stays Routing (update_aliases sel f).
Proof. unfold update_aliases. stays_open. Qed.

Lemma delete_providers_stays id : stmt_stays Routing (delete_providers id).
Proof. unfold delete_providers. stays_open. Qed.

Lemma delete_models_stays sel : stmt_stays Routing (delete_models sel).
Proof. done. Qed.

Lemma delete_aliases_stays sel : stmt_stays Routing (delete_aliases sel).
Proof. done. Qed.

Lemma insert_key_stays k : stmt_stays Keys (insert_key k).
Proof. unfold insert_key. stays_open. Qed.

Lemma update_keys_stays sel f : stmt_stays Keys (update_keys sel f).
Proof. done. Qed.

Lemma delete_keys_stays sel : stmt_stays Keys (delete_keys sel).
Proof. done. Qed.

Lemma set_config_stays k v : stmt_stays Settings (fun db => inr (tt, set_config (<[k := v]> (db_config db)) db)).
Proof. done. Qed.

Lemma clear_logs_stays sel f : (forall l, without_bodies (f l) = without_bodies l) -> stmt_stays Settings (update_logs sel f).
Proof. intros Hf db. simpl. by rewrite update_keeps_key. Qed.

Lemma clear_requests_stays sel : stmt_stays Settings (update_logs sel (set_log_RequestBody EmptyString)).
Proof. by apply clear_logs_stays. Qed.

Lemma clear_responses_stays sel : stmt_stays Settings (update_logs sel (set_log_ResponseBody EmptyString)).
Proof. by apply clear_logs_stays. Qed.

Lemma clear_chunks_stays sel : stmt_stays Settings (update_chunks sel without_data).
Proof. intros db. simpl. by rewrite update_keeps_key. Qed.

End Statements.

#[export] Hint Resolve insert_provider_stays insert_endpoint_stays insert_model_stays insert_alias_stays
  insert_or_ignore_model_stays upsert_endpoint_stays update_providers_stays update_endpoints_stays update_models_stays
  update_aliases_stays delete_providers_stays delete_models_stays delete_aliases_stays insert_key_stays update_keys_stays
  delete_keys_stays set_config_stays clear_requests_stays clear_responses_stays clear_chunks_stays : go_admin.

(** An operation that changes a group of tables and no others, keeps them well
    formed, and changes nothing when it fails. *)
Record change (s : Scope) {A} (m : Exec A) : Prop := mkChange {
  ch_wf : keeps_wf m;
  ch_atomic : atomic m;
  ch_stays : stays s m;
}.

Lemma discard_wf {A} (m : Exec A) : keeps_wf (discard m) -> keeps_wf m.
Proof. intros H c W. specialize (H c W). unfold discard, ebind in H. by destruct (m c) as [[e|a] c']. Qed.

(** The goal [change] of an operation of the store, named as in {!Store.run_op}. *)
Ltac change_op op :=
  split; [first [exact (run_op_wf _ op) | exact (discard_wf _ (run_op_wf _ op))]
         | eauto 6 with go_sql | eauto 12 with go_admin].

Section Operations.
Context (fault : nat -> bool) `{order : SortSlice}.

Lemma create_provider_change p : change Routing (CreateProvider fault p).
Proof. unfold CreateProvider. change_op (OpCreateProvider p). Qed.

Lemma update_provider_change p : change Routing (UpdateProvider fault p).
Proof. unfold UpdateProvider. change_op (OpUpdateProvider p). Qed.

Lemma delete_provider_change id : change Routing (DeleteProvider fault id).
Proof. unfold DeleteProvider. change_op (OpDeleteProvider id). Qed.

Lemma upsert_endpoints_change pid eps : change Routing (UpsertProviderEndpoints fault pid eps).
Proof. unfold UpsertProviderEndpoints. change_op (OpUpsertProviderEndpoints pid eps). Qed.

Lemma update_endpoint_change e : change Routing (UpdateProviderEndpoint fault e).
Proof. unfold UpdateProviderEndpoint. change_op (OpUpdateProviderEndpoint e). Qed.

Lemma sync_one_stays now uuid pid im : stays Routing (sync_one fault now uuid pid im).
Proof. destruct im. unfold sync_one. case_match; eauto with go_admin. Qed.
Hint Resolve sync_one_stays : go_admin.

Lemma sync_models_change now uuid pid ids : change Routing (SyncProviderModels fault now uuid pid ids).
Proof. unfold SyncProviderModels. change_op (OpSyncProviderModels now uuid pid ids). Qed.

Lemma enable_one_stays pid mid : stays Routing (enable_one fault pid mid).
Proof. unfold enable_one. case_match; eauto 8 with go_admin. Qed.
Hint Resolve enable_one_stays : go_admin.

Lemma set_availability_change pid ids : change Routing (SetProviderModelsAvailability fault pid ids).
Proof. unfold SetProviderModelsAvailability. change_op (OpSetProviderModelsAvailability pid ids). Qed.

Lemma create_model_change m : change Routing (CreateProviderModel fault m).
Proof. unfold CreateProviderModel. change_op (OpCreateProviderModel m). Qed.

Lemma delete_model_change pid rid : change Routing (DeleteProviderModel fault pid rid).
Proof. unfold DeleteProviderModel. change_op (OpDeleteProviderModel pid rid). Qed.

Lemma update_availability_change pid rid b : change Routing (UpdateProviderModelAvailability fault pid rid b).
Proof. unfold UpdateProviderModelAvailability. change_op (OpUpdateProviderModelAvailability pid rid b). Qed.

Lemma update_costs_change id m : change Routing (UpdateProviderModelCosts fault id m).
Proof. unfold UpdateProviderModelCosts. change_op (OpUpdateProviderModelCosts id m). Qed.

Lemma create_alias_change a : change Routing (CreateAlias fault a).
Proof. unfold CreateAlias. change_op (OpCreateAlias a). Qed.

Lemma update_alias_change a : change Routing (UpdateAlias fault a).
Proof. unfold UpdateAlias. change_op (OpUpdateAlias a). Qed.

Lemma delete_alias_change id : change Routing (DeleteAlias fault id).
Proof. unfold DeleteAlias. change_op (OpDeleteAlias id). Qed.

Lemma create_key_change k : change Keys (CreateAPIKey fault k).
Proof. unfold CreateAPIKey. change_op (OpCreateAPIKey k). Qed.

Lemma update_key_change k : change Keys (UpdateAPIKey fault k).
Proof. unfold UpdateAPIKey. change_op (OpUpdateAPIKey k). Qed.

Lemma delete_key_change id : change Keys (DeleteAPIKey fault id).
Proof. unfold DeleteAPIKey. change_op (OpDeleteAPIKey id). Qed.

Lemma set_setting_change k v : change Settings (SetConfig fault k v).
Proof. unfold SetConfig. change_op (OpSetConfig k v). Qed.

Lemma purge_chunks_change t : change Settings (PurgeStreamingLogBodiesOlderThan fault t).
Proof. unfold PurgeStreamingLogBodiesOlderThan. change_op (OpPurgeStreamingLogs t). Qed.

Lemma purge_requests_change t : change Settings (PurgeRequestLogRequestBodiesOlderThan fault t).
Proof. unfold PurgeRequestLogRequestBodiesOlderThan. change_op (OpPurgeRequestBodies t). Qed.

Lemma purge_responses_change t : change Settings (PurgeRequestLogResponseBodiesOlderThan fault t).
Proof. unfold PurgeRequestLogResponseBodiesOlderThan. change_op (OpPurgeResponseBodies t). Qed.

End Operations.

#[export] Hint Resolve create_provider_change update_provider_change delete_provider_change upsert_endpoints_change
  update_endpoint_change sync_models_change set_availability_change create_model_change delete_model_change
  update_availability_change update_costs_change create_alias_change update_alias_change delete_alias_change
  create_key_change update_key_change delete_key_change set_setting_change purge_chunks_change purge_requests_change
  purge_responses_change : go_admin.

(** ** The stages of a handler *)

Lemma replies_snoc evs e : replies (evs ++ [e]) = replies evs ++ from_option (fun r => [r]) [] (ev_reply e).
Proof. unfold replies. rewrite omap_app. csimpl. by destruct (ev_reply e). Qed.

Section Contract.
Context (h : Handler) (s : Scope) (db0 : DB).

(** Nothing has happened. *)
Definition clean (w : World) : Prop := wf db0 /\ cn_db (aw_conn w) = db0 /\ replies (aw_events w) = [].

(** Tables of the group may have changed. *)
Definition dirty (w : World) : Prop :=
  wf (cn_db (aw_conn w)) /\ within s db0 (cn_db (aw_conn w)) /\ replies (aw_events w) = [].

(** The change has been told. *)
Definition settled (w : World) : Prop := dirty w /\ told h db0 (cn_db (aw_conn w)) (aw_events w).

(** The reply is out, and the routing hook is still to be called. *)
Definition owed (w : World) : Prop :=
  wf (cn_db (aw_conn w)) /\ within s db0 (cn_db (aw_conn w)) /\
  exists r, replies (aw_events w) = [r] /\ ~ is_refusal (reply_status r).

(** A stage before the reply: nothing is known of it that reading could
    change. *)
Record stage (P : World -> Prop) : Prop := mkStage {
  stage_dirty : forall w, P w -> dirty w;
  stage_reads : forall w c, P w -> cn_db c = cn_db (aw_conn w) -> P (mkWorld c (aw_events w));
}.

Lemma clean_dirty w : clean w -> dirty w.
Proof. intros (W & E & R). unfold dirty. rewrite E. auto using within_refl. Qed.

Lemma told_refl evs : told h db0 db0 evs.
Proof. split; auto. Qed.

Lemma clean_settled w : clean w -> settled w.
Proof. intros H. split; [by apply clean_dirty|]. destruct H as (_ & -> & _). apply told_refl. Qed.

Lemma keys_settled w : s = Keys -> dirty w -> settled w.
Proof. intros Hs H. split; [done|]. destruct H as (_ & Hin & _). rewrite Hs in Hin. destruct Hin as (Hr & Hc & _). split; auto. Qed.

Lemma routing_config db : s = Routing -> within s db0 db -> db_config db = db_config db0.
Proof. intros -> H. by destruct H as (_ & ? & _). Qed.

Lemma clean_stage : stage clean.
Proof. split; [apply clean_dirty|]. intros w c (W & E & R) Ec. unfold clean. simpl. rewrite Ec. auto. Qed.

Lemma dirty_stage : stage dirty.
Proof. split; [done|]. intros w c H Ec. unfold dirty. simpl. by rewrite Ec. Qed.

Lemma settled_stage : stage settled.
Proof. split; [by intros w [H _]|]. intros w c H Ec. unfold settled, dirty. simpl. by rewrite Ec. Qed.

(** The last step: a reply. *)
Lemma reply_done (P : World -> Prop) r w :
  P w -> (P w -> dirty w) -> (is_refusal (reply_status r) -> clean w) -> (is_success_status (reply_status r) -> settled w) ->
  contract h s db0 (mkWorld (aw_conn w) (aw_events w ++ [EvReply r])).
Proof.
  intros Hw Hd Href Hok. destruct (Hd Hw) as (W & Hin & R). split; simpl; [done..|]. exists r. split.
  { by rewrite replies_snoc, R. }
  split; [intros H; by destruct (Href H) as (_ & ? & _)|]. intros H. destruct (Hok H) as [_ [T1 T2]].
  split; intros Hh; [destruct (T1 Hh)|destruct (T2 Hh)]; auto; right; apply elem_of_app; auto.
Qed.

Notation okc := (ok (contract h s db0)).

(** ** Rules *)

Lemma ok_refuse {A} st msg (Q : A -> World -> Prop) : 400 <= st -> okc clean (fail_with st msg) Q.
Proof.
  intros Hst. apply ok_fail. intros w Hw. apply (reply_done clean); simpl; auto using clean_dirty.
  unfold is_success_status. lia.
Qed.

Lemma ok_error {A} P msg (Q : A -> World -> Prop) : stage P -> okc P (fail_with 500 msg) Q.
Proof.
  intros HP. apply ok_fail. intros w Hw. apply (reply_done P); simpl; [done|apply (stage_dirty _ HP)|..];
    unfold is_refusal, is_success_status; lia.
Qed.

Lemma ok_refuse_if cond st msg : 400 <= st -> okc clean (refuse_if cond st msg) (fun _ => clean).
Proof. intros. unfold refuse_if. destruct cond; [by apply ok_refuse|by apply ok_act]. Qed.

Lemma ok_some_or {A} (o : option A) st msg : 400 <= st -> okc clean (some_or o st msg) (fun _ => clean).
Proof. intros. unfold some_or. destruct o; [by apply ok_act|by apply ok_refuse]. Qed.

Lemma ok_valid {A} (o : string + A) : okc clean (valid_or_400 o) (fun _ => clean).
Proof. unfold valid_or_400. destruct o; [by apply ok_refuse|by apply ok_act]. Qed.

Lemma ok_call_read {A} P (m : Exec A) : stage P -> reads m -> okc P (call m) (fun _ => P).
Proof. intros HP Hm. apply ok_call. intros w Hw. by apply (stage_reads _ HP). Qed.

Lemma ok_query {A} answers (m : Exec A) : reads m -> okc clean (run_query answers m) (fun _ => clean).
Proof.
  intros Hm. unfold run_query. eapply ok_bind; [apply (ok_call_read _ _ clean_stage Hm)|]. intros r. by apply ok_act.
Qed.

Lemma ok_try_read {A} P (m : Exec A) msg : stage P -> reads m -> okc P (try_ m msg) (fun _ => P).
Proof.
  intros HP Hm. unfold try_. eapply ok_bind; [by apply ok_call_read|]. intros [e|a]; [by apply ok_error|by apply ok_act].
Qed.

Lemma ok_found_read {A} (m : Exec A) st missing msg :
  400 <= st -> reads m -> okc clean (try_found m st missing msg) (fun _ => clean).
Proof.
  intros Hst Hm. unfold try_found. eapply ok_bind; [apply (ok_call_read _ _ clean_stage Hm)|].
  intros [[]|a]; try (by apply ok_refuse); by apply ok_act.
Qed.

(** What a change leaves: a call that failed has left a clean stage clean. *)
Lemma ok_call_change {A} (m : Exec A) : change s m ->
  okc clean (call m) (fun r w => match r with inl _ => clean w | inr _ => dirty w end).
Proof.
  intros [Hw Ha Hs]. apply ok_call. intros w (W & E & R).
  specialize (Hw (aw_conn w)). specialize (Ha (aw_conn w)). specialize (Hs (aw_conn w)). rewrite E in *.
  destruct (m (aw_conn w)) as [[e|a] c]; unfold clean, dirty; simpl in *; auto.
Qed.

Lemma ok_call_dirty {A} (m : Exec A) : change s m -> okc dirty (call m) (fun _ => dirty).
Proof.
  intros [Hw Ha Hs]. apply ok_call. intros w (W & Hin & R). unfold dirty. simpl. split_and!; [by apply Hw| |done].
  eapply within_trans; [exact Hin|apply Hs].
Qed.

Lemma ok_try_change {A} (m : Exec A) msg : change s m -> okc clean (try_ m msg) (fun _ => dirty).
Proof.
  intros Hm. unfold try_. eapply ok_bind; [by apply ok_call_change|].
  intros [e|a]; [by apply ok_refuse|by apply ok_act].
Qed.

Lemma ok_try_more {A} (m : Exec A) msg : change s m -> okc dirty (try_ m msg) (fun _ => dirty).
Proof.
  intros Hm. unfold try_. eapply ok_bind; [by apply ok_call_dirty|].
  intros [e|a]; [apply ok_error, dirty_stage|by apply ok_act].
Qed.

Lemma ok_found_change {A} (m : Exec A) st missing msg :
  400 <= st -> change s m -> okc clean (try_found m st missing msg) (fun _ => dirty).
Proof.
  intros Hst Hm. unfold try_found. eapply ok_bind; [by apply ok_call_change|].
  intros [[]|a]; try (by apply ok_refuse); by apply ok_act.
Qed.

Lemma ok_notify : s = Routing -> okc dirty (notifyRoutingChanged h) (fun _ => settled).
Proof.
  intros Hs. unfold notifyRoutingChanged. intros w (W & Hin & R). pose proof (routing_config _ Hs Hin) as Hc.
  destruct (h_onRoutingChanged h) eqn:Hh; simpl; unfold settled, dirty, told; simpl; rewrite ?replies_snoc, ?R, ?Hh; simpl;
    split_and!; auto; [|done]. intros _. right. apply elem_of_app. right. by apply list_elem_of_here.
Qed.

(** Replies that are no refusals. *)
Lemma ok_respond P st d : (forall w, P w -> settled w) -> ~ is_refusal st ->
  okc P (respondJSON st d) (fun _ => contract h s db0).
Proof.
  intros HP Hst. unfold respondJSON, respondError. destruct (encodable d); apply ok_emit; intros w Hw;
    (apply (reply_done settled); [by apply HP|by intros [? _]|simpl; unfold is_refusal in *; lia|intros _; by apply HP]).
Qed.

Lemma ok_no_content P : (forall w, P w -> settled w) ->
  okc P (emit (EvReply (RStatus 204))) (fun _ => contract h s db0).
Proof.
  intros HP. apply ok_emit. intros w Hw%HP.
  apply (reply_done settled); [done|by intros [? _]|unfold is_refusal; simpl; lia|done].
Qed.

Lemma ok_error_last st msg : 400 <= st -> okc clean (respondError st msg) (fun _ => contract h s db0).
Proof.
  intros Hst. apply ok_emit. intros w Hw. apply (reply_done clean); auto using clean_dirty.
  simpl. unfold is_success_status. lia.
Qed.

Lemma ok_respond_owed st d : ~ is_refusal st -> okc dirty (respondJSON st d) (fun _ => owed).
Proof.
  intros Hst. unfold respondJSON, respondError. destruct (encodable d); apply ok_emit; intros w (W & Hin & R);
    unfold owed; simpl; (split_and!; [done..|]); eexists; rewrite replies_snoc, R; (split; [done|]); simpl;
    unfold is_refusal in *; lia.
Qed.

Lemma ok_notify_owed : s = Routing -> okc owed (notifyRoutingChanged h) (fun _ => contract h s db0).
Proof.
  intros Hs. unfold notifyRoutingChanged. intros w (W & Hin & r & R & Hr). pose proof (routing_config _ Hs Hin) as Hc.
  destruct (h_onRoutingChanged h) eqn:Hh; simpl; (split; simpl; [done..|]); exists r; rewrite ?replies_snoc, R;
    (split; [done|split; [done|]]); intros _; split; auto; rewrite Hh; [|done]. intros _. right. apply elem_of_app. right.
  by apply list_elem_of_here.
Qed.

End Contract.

(** ** The handlers *)

Ltac reads_tac :=
  repeat first
    [ apply eret_reads | apply efail_reads | apply query_reads | apply query_or_reads | apply found_reads
    | apply ebind_reads; [|intros ?] | progress cbv beta zeta | case_match ].

Ltac stage_tac := first [apply clean_stage | apply dirty_stage | apply settled_stage].

(** One step of a handler, by the rule for its form. *)
Ltac rule :=
  first
    [ solve [apply ok_refuse_if; lia] | solve [apply ok_some_or; lia] | solve [apply ok_valid]
    | solve [apply ok_query; reads_tac] | solve [apply ok_found_read; [lia|reads_tac]]
    | solve [apply ok_try_change; eauto with go_admin] | solve [apply ok_try_more; eauto with go_admin]
    | solve [apply ok_found_change; [lia|eauto with go_admin]]
    | solve [apply ok_try_read; [stage_tac|reads_tac]] | solve [apply ok_call_read; [stage_tac|reads_tac]]
    | solve [apply ok_notify; reflexivity] | solve [apply ok_respond_owed; unfold is_refusal; lia]
    | apply ok_pure | solve [eauto with go_handler] ].

Ltac finish :=
  first
    [ solve [apply ok_respond; [eauto using clean_settled, keys_settled|unfold is_refusal; lia]]
    | solve [apply ok_refuse; lia] | solve [apply ok_error; stage_tac] | solve [apply ok_error_last; lia]
    | solve [apply ok_no_content; eauto using keys_settled] | solve [apply ok_notify_owed; reflexivity] | rule ].

Ltac handler :=
  repeat (cbv beta zeta;
    first [ finish | eapply ok_bind; [rule|intros ?] | case_match ]).

Create HintDb go_handler.

Section Handlers.
Context (fault : nat -> bool) `{order : SortSlice} `{ranges : MapRange} (env : Env) (q : string -> string) (r : Request).
Context (h : Handler) (s : Scope) (db0 : DB).
Notation served := (ok (contract h s db0) (clean db0)).

(** ** Parts *)

Lemma authenticate_ok hash : ok (contract h s db0) (clean db0) (authenticateAPIKey fault hash r) (fun _ => clean db0).
Proof. unfold authenticateAPIKey. handler. Qed.

Lemma check_key_ok lower quoted body id msg :
  ok (contract h s db0) (clean db0) (check_key_request fault lower quoted body id msg) (fun _ => clean db0).
Proof. unfold check_key_request. handler. Qed.

Lemma known_provider_ok id : ok (contract h s db0) (clean db0) (known_provider fault id) (fun _ => clean db0).
Proof. unfold known_provider. handler. Qed.

Lemma log_costs_ok log : ok (contract h s db0) (clean db0) (log_costs fault log) (fun _ => clean db0).
Proof. unfold log_costs. handler. Qed.

Lemma param_ok {A} text (dflt : A) parse msg :
  ok (contract h s db0) (clean db0) (param text dflt parse msg) (fun _ => clean db0).
Proof. unfold param. handler. Qed.

Lemma trimmed_ok v old msg check : (forall s', ok (contract h s db0) (clean db0) (check s') (fun _ => clean db0)) ->
  ok (contract h s db0) (clean db0) (trimmed_field v old msg check) (fun _ => clean db0).
Proof. intros Hc. unfold trimmed_field. handler. Qed.

Lemma trimmed_plain v old msg :
  ok (contract h s db0) (clean db0) (trimmed_field v old msg (fun _ => act tt)) (fun _ => clean db0).
Proof. apply trimmed_ok. intros ?. by apply ok_act. Qed.

Lemma trimmed_provider v old msg :
  ok (contract h s db0) (clean db0) (trimmed_field v old msg (known_provider fault)) (fun _ => clean db0).
Proof. apply trimmed_ok. intros ?. apply known_provider_ok. Qed.

Lemma granularity_ok since until : ok (contract h s db0) (clean db0) (granularity_of q since until)
  (fun g w => clean db0 w /\ (g = "hour" \/ g = "day")).
Proof.
  unfold granularity_of. cbv zeta. set (g := if str_empty _ then _ else _). clearbody g.
  unfold refuse_if. destruct (String.eqb_spec g "hour"); [|destruct (String.eqb_spec g "day")]; simpl.
  1,2: apply ok_act; auto. apply ok_refuse. lia.
Qed.

Lemma ok_try_result {A} (m : Exec A) msg (R : A -> Prop) :
  reads m -> (forall c a, (m c).1 = inr a -> R a) ->
  ok (contract h s db0) (clean db0) (try_ m msg) (fun a w => clean db0 w /\ R a).
Proof.
  intros Hm HR. unfold try_. eapply (ok_bind _ _ _ _ (fun res w => clean db0 w /\ forall a, res = inr a -> R a)).
  - apply ok_call. intros w Hw. split; [by apply (stage_reads _ _ _ (clean_stage s db0))|]. intros a Ha. by eapply HR.
  - intros [e|a].
    + intros w [Hw _]. by apply (@ok_error h s db0 A (clean db0) msg (fun _ _ => True) (clean_stage s db0)).
    + apply ok_act. intros w [Hw HR']. auto.
Qed.

Lemma series_enough granularity since until data :
  axis (series_fuel granularity since until) granularity since until data <> None.
Proof.
  unfold axis, series_fuel, bucket_step. destruct (String.eqb granularity "hour"); by rewrite steps_total by (done || lia).
Qed.

Lemma series_ok sum_real since until key msg :
  served
    (do! granularity := granularity_of q since until in
     do! points := try_ (timeSeries fault sum_real (series_fuel granularity since until) since until granularity key) msg in
     respond_points points) (fun _ => contract h s db0).
Proof.
  eapply ok_bind; [apply granularity_ok|]. intros g. eapply ok_bind.
  - eapply ok_weaken; [apply (ok_try_result _ _ (fun points => points <> None))|by intros w [Hw _]|by intros points w Hw; exact Hw].
    + unfold timeSeries, series_rows. reads_tac.
    + intros c a. unfold timeSeries. destruct (negb _); [done|]. unfold ebind. destruct (series_rows _ _ _ _ c) as [[e|data] c1]; [done|].
      intros [= <-]. apply series_enough.
  - intros points w [Hw Hp]. destruct points as [points|]; [|done]. simpl.
    revert w Hw. change (served (respondJSON 200 (DMap [("points", DPoints points)])) (fun _ => contract h s db0)). handler.
Qed.

End Handlers.

#[export] Hint Resolve authenticate_ok check_key_ok param_ok log_costs_ok known_provider_ok trimmed_plain trimmed_provider : go_handler.

Section Served.
Context (env : Env) (q : string -> string) (r : Request) (db0 : DB).
Notation h := (en_handler env).
Notation fault := (en_fault env).
Notation served s m := (ok (contract h s db0) (clean db0) m (fun _ => contract h s db0)).

Lemma open_served call : is_open call = true -> served (scope call) (handle env q r call).
Proof.
  destruct call; intros Ho; simplify_eq/=; simpl.
  - unfold HandleAuth. handler.
  - unfold HandleMe. handler.
  - unfold HandleMyUsage. handler.
  - unfold HandleMyTimeSeries. handler. apply series_ok.
  - unfold HandleMyStats, GetDashboardStatsForAPIKey. handler.
  - unfold HandleMyStatsTimeSeries. handler. apply series_ok.
  - unfold HandleMyLifetimeCost. handler.
Qed.

(** A model whose availability was set is there when its costs are. *)
Definition has_model (rid : string) (db : DB) : Prop := rid ∈ pm_ID <$> db_models db.

Lemma availability_hits pid rid b c a c' :
  UpdateProviderModelAvailability fault pid rid b c = (inr a, c') -> has_model rid (cn_db c').
Proof.
  unfold UpdateProviderModelAvailability. intros (n & c1 & H1 & H2)%ebind_ok. apply exec_ok in H1. injection H1 as Hn E.
  unfold must_affect in H2. destruct (n =? 0) eqn:En; [done|]. injection H2 as _ Hc. subst c1 n. rewrite <- E.
  unfold has_model. simpl. rewrite update_keeps_key by done.
  unfold count_rows in En. destruct (keep (model_record pid rid) (db_models (cn_db c))) as [|m l] eqn:Ek; [done|].
  assert (m ∈ keep (model_record pid rid) (db_models (cn_db c))) as Hm by (rewrite Ek; apply list_elem_of_here).
  apply keep_spec in Hm as [Hm Hs]. unfold model_record in Hs. bool_to_prop. apply list_elem_of_fmap. exists m. split; [|done]. congruence.
Qed.

Lemma costs_found rid m c : has_model rid (cn_db c) -> (UpdateProviderModelCosts fault rid m c).1 <> inl ErrNoRows.
Proof.
  intros (x & Hx & Hin)%list_elem_of_fmap. unfold UpdateProviderModelCosts, ebind, exec. destruct (fault _); [done|].
  simpl. unfold must_affect. destruct (_ =? 0) eqn:En; [|done]. exfalso. apply Z.eqb_eq in En.
  apply count_zero, Forall_forall with (x := x) in En; [|done]. apply String.eqb_neq in En. congruence.
Qed.

Lemma availability_served pid rid b missing msg :
  ok (contract h Routing db0) (clean db0) (try_found (UpdateProviderModelAvailability fault pid rid b) 404 missing msg)
    (fun _ w => dirty Routing db0 w /\ has_model rid (cn_db (aw_conn w))).
Proof.
  intros w Hw. pose proof (ok_found_change h Routing db0 _ 404 missing msg ltac:(lia)
    (update_availability_change fault pid rid b) w Hw) as H.
  unfold try_found, call, abind in *. destruct (UpdateProviderModelAvailability _ _ _ _ _) as [[[]|a] c'] eqn:E; try done.
  split; [done|]. by apply availability_hits in E.
Qed.

Lemma costs_served rid m missing msg :
  ok (contract h Routing db0) (fun w => dirty Routing db0 w /\ has_model rid (cn_db (aw_conn w)))
    (try_found (UpdateProviderModelCosts fault rid m) 404 missing msg) (fun _ => dirty Routing db0).
Proof.
  intros w [Hw Hm]. pose proof (ok_try_more h Routing db0 _ msg (update_costs_change fault rid m) w Hw) as H.
  apply (costs_found rid m) in Hm. unfold try_found, try_, call, abind in *.
  by destruct (UpdateProviderModelCosts _ _ _ _) as [[[]|a] c'].
Qed.

Lemma put_model_served pid mid : served Routing (HandleUpdateProviderModel fault (order := en_sort env) h pid mid r).
Proof.
  unfold HandleUpdateProviderModel, respond_models. eapply ok_bind; [rule|intros ?]. eapply ok_bind; [rule|intros body].
  destruct (mr_IsAvailable body) as [b|] eqn:Ea; [destruct (has_cost_update body) eqn:Ec|].
  - eapply ok_bind; [apply availability_served|intros ?]. eapply ok_bind; [apply costs_served|intros ?]. simpl.
    eapply ok_bind; [apply ok_pure|intros ?]. handler.
  - eapply ok_bind; [rule|intros ?]. eapply ok_bind; [rule|intros ?]. simpl.
    eapply ok_bind; [apply ok_pure|intros ?]. handler.
  - eapply ok_bind; [rule|intros ?]. destruct (has_cost_update body) eqn:Ec; simpl.
    + eapply ok_bind; [rule|intros ?]. eapply ok_bind; [apply ok_pure|intros ?]. handler.
    + eapply ok_bind; [rule|intros ?]. intros w Hw.
      by apply (@ok_refuse h Routing db0 unit 400 "no fields to update" (fun _ _ => True)).
Qed.

(** ** The settings *)

(** The hook for configuration changes has been called. *)
Definition announced (w : World) : Prop :=
  dirty Settings db0 w /\ (h_onConfigChanged h = true -> EvConfigChanged ∈ aw_events w).

Lemma announced_settled w : announced w -> settled h Settings db0 w.
Proof.
  intros [H He]. split; [done|]. destruct H as (_ & (Hr & _) & _). split; auto.
Qed.

Lemma announced_stage : stage Settings db0 announced.
Proof. split; [by intros w [H _]|]. intros w c [H He] Ec. split; [|done]. by apply (stage_reads _ _ _ (dirty_stage Settings db0)). Qed.

Lemma announced_emit w e : announced w -> ev_reply e = None -> announced (mkWorld (aw_conn w) (aw_events w ++ [e])).
Proof.
  intros [(W & Hin & R) He] En. split; [split_and!; [done..|]|]; simpl.
  - by rewrite replies_snoc, R, En.
  - intros Hh. apply elem_of_app. auto.
Qed.

Notation config_ok P m Q := (ok (contract h Settings db0) P m Q).

Lemma save_all_ok config : config_ok (dirty Settings db0) (save_all fault config) (fun _ => dirty Settings db0).
Proof.
  induction config as [|[k v] config IH]; simpl; [apply ok_pure|]. eapply ok_bind; [rule|intros ?]. exact IH.
Qed.

Lemma announce_ok :
  config_ok (dirty Settings db0) (if h_onConfigChanged h then emit EvConfigChanged else act tt) (fun _ => announced).
Proof.
  unfold announced. destruct (h_onConfigChanged h).
  - apply ok_emit. intros w (W & Hin & R). split; [split_and!; [done..|]|]; simpl; [by rewrite replies_snoc, R|].
    intros _. apply elem_of_app. right. apply list_elem_of_here.
  - by apply ok_act.
Qed.

Lemma saved_int_ok config key : config_ok announced (saved_int config key) (fun _ => announced).
Proof.
  unfold saved_int. destruct (config !! key) as [raw|]; [|apply ok_pure]. eapply (ok_bind _ _ _ _ (fun _ => announced)).
  - unfold some_or. destruct (atoi raw); [apply ok_pure|apply ok_error, announced_stage].
  - intros ?. apply ok_pure.
Qed.

Lemma idle_saved_ok config : config_ok announced (idle_saved h config) (fun _ => announced).
Proof.
  unfold idle_saved. destruct (h_onHTTPIdleSaved h); [|apply ok_pure]. eapply ok_bind; [apply saved_int_ok|].
  intros [sec|]; [|apply ok_pure]. apply ok_emit. intros w Hw. by apply announced_emit.
Qed.

Lemma purge_ok config key (purge : Z -> Exec Z) : (forall t, change Settings (purge t)) ->
  config_ok announced (purge_setting (en_now env) config key (purge_after_check purge)) (fun _ => announced).
Proof.
  intros Hp. unfold purge_setting. eapply ok_bind; [apply saved_int_ok|]. intros [d|]; [|apply ok_pure].
  intros w [(W & Hin & R) He]. simpl. unfold purge_after_check, bind, ret. destruct (validateRetentionDays d); [|by split].
  destruct (Hp (cutoff (en_now env) d)) as [Hw _ Hs]. specialize (Hw (aw_conn w) W). specialize (Hs (aw_conn w)).
  destruct (purge _ _) as [res c]. simpl in *. split; [|done]. split_and!; [done| |done]. by eapply within_trans.
Qed.

Lemma put_config_served : served Settings (HandleUpdateConfig fault (ranges := en_ranges env) h (en_now env) r).
Proof.
  unfold HandleUpdateConfig. eapply ok_bind; [rule|intros updates]. eapply ok_bind; [rule|intros config].
  eapply ok_bind; [eapply ok_weaken; [apply save_all_ok|apply clean_dirty|by intros ? w Hw; exact Hw]|intros ?].
  eapply ok_bind; [apply announce_ok|intros ?]. eapply ok_bind; [apply idle_saved_ok|intros ?].
  eapply ok_bind; [apply purge_ok; eauto with go_admin|intros ?].
  eapply ok_bind; [apply purge_ok; eauto with go_admin|intros ?].
  eapply ok_bind; [apply purge_ok; eauto with go_admin|intros ?].
  unfold HandleGetConfig. eapply ok_bind; [apply ok_try_read; [apply announced_stage|reads_tac]|intros ?].
  apply ok_respond; [apply announced_settled|unfold is_refusal; lia].
Qed.

(** ** All calls *)

Lemma handle_served call : served (scope call) (handle env q r call).
Proof.
  destruct (is_open call) eqn:Ho; [by apply open_served|].
  destruct call; try done; clear Ho; cbn [handle scope].
  - unfold HandleDiscover. handler.
  - unfold HandleConfirm. handler.
  - unfold HandleListAPIKeys. handler.
  - unfold HandleCreateAPIKey. handler.
  - unfold HandleUpdateAPIKey. handler.
  - unfold HandleDeleteAPIKey. handler.
  - unfold HandleUsageByKey. handler.
  - unfold HandleListProviders. handler.
  - unfold HandleCreateProvider. handler.
  - unfold HandleGetProvider. handler.
  - unfold HandleUpdateProvider. handler.
  - unfold HandleDeleteProvider. handler.
  - unfold HandleUpdateEndpoint. handler.
  - unfold HandleListAliases. handler.
  - unfold HandleCreateAlias. handler.
  - unfold HandleUpdateAlias. handler.
  - unfold HandleDeleteAlias. handler.
  - unfold HandleActive. handler.
  - unfold HandleQueryLogs. handler.
  - unfold HandleGetLog. handler.
  - unfold HandleGetStreamingLogs. handler.
  - apply put_model_served.
  - unfold HandleAddProviderModel, respond_models. handler.
  - unfold HandleDeleteProviderModel, respond_models. handler.
  - unfold HandleGetConfig. handler.
  - apply put_config_served.
  - unfold HandleConfigDefinition. handler.
  - unfold HandleGetStats, GetDashboardStats, dashboardStats. handler.
  - unfold HandleGetTimeSeries. handler. apply series_ok.
  - unfold HandleGetLifetimeCost. handler.
Qed.

Lemma guarded_served call : served (scope call) (guarded env q r call).
Proof. unfold guarded. destruct (_ || _); [apply handle_served|]. apply ok_error_last. lia. Qed.

End Served.

Lemma serve_contract env q r call c : wf (cn_db c) ->
  contract (en_handler env) (scope call) (cn_db c) (serve env q r call c).
Proof.
  intros W. pose proof (guarded_served env q r (cn_db c) call (mkWorld c [])) as H. unfold serve.
  destruct (guarded env q r call (mkWorld c [])) as [[u|] w]; by apply H.
Qed.

(** The answer to a call without the access key: nothing else happens, not
    even a look at the tables. *)
Lemma serve_locked env q r call c :
  is_open call = false -> extractAccessKey r <> h_accessKey (en_handler env) ->
  serve env q r call c = mkWorld c [EvReply (RError 401 "unauthorized")].
Proof.
  intros Ho Hk. unfold serve, guarded, ValidateAccessKey. rewrite Ho, isValidKey_eq, (proj2 (String.eqb_neq _ _) Hk). done.
Qed.

(** With the access key the handler of the call runs. *)
Lemma serve_unlocked env q r call c :
  extractAccessKey r = h_accessKey (en_handler env) -> serve env q r call c = (handle env q r call (mkWorld c [])).2.
Proof. intros Hk. unfold serve, guarded, ValidateAccessKey. by rewrite isValidKey_eq, Hk, String.eqb_refl, orb_true_r. Qed.

Lemma open_reads call : is_open call = true -> scope call = Nothing.
Proof. by destruct call. Qed.

(** C12: Every call of the admin API, whatever the request, the tables and the
    failures of the store, ends with exactly one reply.  A call that is not
    open and comes without the access key is answered 401, and nothing else
    happens: no statement is run, no hook called.  With the key the call's
    handler decides; an open call changes nothing in any case.  The tables are
    left well formed, and no tables are changed but those of the call's group
    (for a call that only reads: none, and of the logs a change of the
    settings clears bodies only); a call that is refused with a 4xx has
    changed nothing at all; and a call that succeeds has told the routing hook
    when it changed the routing tables and the configuration hook when it
    changed the settings. *)
Theorem admin_calls_keep_their_contract (env : Env) (q : string -> string) (r : Request) (call : AdminCall) (c : Conn) :
  wf (cn_db c) ->
  let w := serve env q r call c in
  let db := cn_db c in
  let db' := cn_db (aw_conn w) in
  (is_open call = false -> extractAccessKey r <> h_accessKey (en_handler env) ->
   w = mkWorld c [EvReply (RError 401 "unauthorized")]) /\
  (extractAccessKey r = h_accessKey (en_handler env) -> w = (handle env q r call (mkWorld c [])).2) /\
  (is_open call = true -> db' = db) /\
  wf db' /\ within (scope call) db db' /\
  exists reply, replies (aw_events w) = [reply] /\
    (is_refusal (reply_status reply) -> db' = db) /\
    (is_success_status (reply_status reply) -> told (en_handler env) db db' (aw_events w)).
Proof.
  intros W. cbv zeta. destruct (serve_contract env q r call c W) as [W' Hin H]. split_and!; auto using serve_locked, serve_unlocked.
  intros Ho. by rewrite (open_reads call Ho) in Hin.
Qed.

(** * Examples *)

(** A gateway with all hooks set. *)
Definition sample_handler : Handler := set_registry None (NewHandler true true true "secret").

Definition sample_env (fault : nat -> bool) : Env :=
  mkEnv fault insertion_SortSlice some_MapRange (fun _ => f64_zero) (fun _ => f64_zero) head sample_handler 1000 sample_uuid
    (Some "0123456789abcdef") (fun s => "#" +:+ s) to_lower id (fun _ _ => None) (fun _ => None) true id
    (fun _ _ => NoResponse) (fun _ => EmptyString).

Definition admin_request (body : string) : Request :=
  mkRequest "POST" "/admin" (header_set "X-Access-Key" "secret" ∅) 0 "::1" (jtext body) None.

Definition no_query (_ : string) : string := EmptyString.

Lemma admin_calls_keep_their_contract_witness :
  let w := serve (sample_env no_fault) no_query
    (admin_request "{'name':'one','base_url':'http://one','api_key':'k'}") PostProviders (mkConn empty_db 0) in
  (exists reply, replies (aw_events w) = [reply] /\ reply_status reply = 201) /\ EvRoutingChanged ∈ aw_events w.
Proof.
  set (r := admin_request _). intros w.
  destruct (admin_calls_keep_their_contract (sample_env no_fault) no_query r PostProviders (mkConn empty_db 0) empty_wf)
    as (_ & _ & _ & _ & _ & reply & Hr & _ & Hok).
  assert (Hs : reply_status reply = 201).
  { assert (H : reply_status <$> replies (aw_events w) = [201]) by (vm_compute; reflexivity).
    change (replies (aw_events w) = [reply]) in Hr. rewrite Hr in H. by injection H. }
  split; [exists reply; split; [exact Hr|exact Hs]|].
  destruct (Hok ltac:(unfold is_success_status; lia)) as [T _]. destruct (T eq_refl) as [E|E]; [|exact E].
  exfalso. vm_compute in E. discriminate.
Defined.

(** A failure after the first change goes unannounced: the model is available
    from now on, but the answer is a 500 and the routing hook was not called. *)
Definition second_read_fails (n : nat) : bool := Nat.eqb n 1.

Example failed_update_goes_untold :
  let c := mkConn (set_models [mkModel "m1" "p1" "gpt" 0 false None None None None None]
    (set_providers (db_providers sample_db) empty_db)) 0 in
  let w := serve (sample_env second_read_fails) no_query (admin_request "{'is_available':true}") (PutModel "p1" "m1") c in
  aw_events w = [EvReply (RError 500 "failed to list models")] /\
  (pm_IsAvailable <$> db_models (cn_db c)) = [false] /\ (pm_IsAvailable <$> db_models (cn_db (aw_conn w))) = [true].
Proof. vm_compute. done. Qed.
