(* ===== verification/AdminKeys.v ===== *)
(** API keys through the admin API: their names stay distinct, and a key that
    was created authenticates the requests that bear it. *)
From S2P Require Import Prelude GoLib Float64 Models Http Json Body Active Limiter Access Sql Store Stats Reports Reply Admin AdminApi.
Local Open Scope Z_scope.
Local Open Scope go_scope.

(** * Trimming twice *)

Lemma prefix_iff p s : String.prefix p s = true <-> exists t, s = p +:+ t.
Proof.
  revert s. induction p as [|c p IH]; intros s; [by destruct s; split; eauto|].
  destruct s as [|d s]; cbn [String.prefix String.append]; [split; [done|by intros [? ?]]|].
  destruct (ascii_dec c d) as [->|Hn].
  - rewrite IH. split; [intros [t ->]; by exists t|intros [t [= ->]]; by exists t].
  - split; [done|]. intros [t [= -> _]]. done.
Qed.

Lemma str_rev_onto_app s acc : str_rev_onto s acc = str_rev s +:+ acc.
Proof.
  unfold str_rev. revert acc. induction s as [|c s IH]; intros acc; [done|]. simpl.
  by rewrite IH, (IH (String c EmptyString)), str_app_assoc.
Qed.

Lemma str_rev_cons c s : str_rev (String c s) = str_rev s +:+ String c EmptyString.
Proof. unfold str_rev at 1. simpl. by rewrite str_rev_onto_app. Qed.

Lemma str_rev_app a b : str_rev (a +:+ b) = str_rev b +:+ str_rev a.
Proof.
  induction a as [|c a IH]; [by rewrite str_app_nil|]. by rewrite str_app_cons, !str_rev_cons, IH, str_app_assoc.
Qed.

Lemma str_rev_twice s : str_rev (str_rev s) = s.
Proof.
  induction s as [|c s IH]; [done|]. change (String c s) with (String c EmptyString +:+ s). by rewrite !str_rev_app, IH.
Qed.

Lemma length_str_rev s : String.length (str_rev s) = String.length s.
Proof.
  induction s as [|c s IH]; [done|]. change (String c s) with (String c EmptyString +:+ s).
  rewrite str_rev_app, !str_app_length, IH. simpl. lia.
Qed.

Section Trim.
Context (ps : list string).

Lemma trim_suffix_of fuel s : exists u, s = u +:+ trim_prefixes fuel ps s.
Proof.
  revert s. induction fuel as [|fuel IH]; intros s; simpl; [by exists EmptyString|].
  destruct (List.find _ ps) as [p|] eqn:E; [|by exists EmptyString].
  apply find_some in E as [_ [t ->]%prefix_iff]. rewrite (proj2 (has_prefix_app p t)).
  destruct (IH t) as [u Hu]. exists (p +:+ u). by rewrite str_app_assoc, <- Hu.
Qed.

Lemma trim_same fuel s : List.find (fun p => String.prefix p s) ps = None -> trim_prefixes fuel ps s = s.
Proof. intros H. destruct fuel; simpl; [done|]. by rewrite H. Qed.

Lemma trim_done fuel s : Forall (fun p => p <> EmptyString) ps -> (String.length s <= fuel)%nat ->
  List.find (fun p => String.prefix p (trim_prefixes fuel ps s)) ps = None.
Proof.
  intros Hp. revert s. induction fuel as [|fuel IH]; intros s Hs; simpl.
  - destruct s; [|simpl in Hs; lia]. destruct (List.find _ ps) as [p|] eqn:E; [|done].
    apply find_some in E as [Hin H]. rewrite Forall_forall in Hp. specialize (Hp p (proj2 (list_elem_of_In _ _) Hin)).
    by destruct p.
  - destruct (List.find (fun p => String.prefix p s) ps) as [p|] eqn:E; [|done].
    apply find_some in E as [Hin [t ->]%prefix_iff]. rewrite (proj2 (has_prefix_app p t)). apply IH.
    rewrite Forall_forall in Hp. specialize (Hp p (proj2 (list_elem_of_In _ _) Hin)). destruct p; [done|].
    simpl in Hs. rewrite str_app_length in Hs. lia.
Qed.

(** What starts with no prefix to drop does not after its end was cut. *)
Lemma no_prefix_front a b : List.find (fun p => String.prefix p (a +:+ b)) ps = None ->
  List.find (fun p => String.prefix p a) ps = None.
Proof.
  intros H. destruct (List.find (fun p => String.prefix p a) ps) as [p|] eqn:E; [|done].
  apply find_some in E as [Hin [t ->]%prefix_iff]. apply (find_none _ _ H) in Hin as Hn.
  rewrite str_app_assoc, (proj2 (prefix_iff _ _)) in Hn; [done|by eexists].
Qed.

End Trim.

Lemma trim_space_twice s : trim_space (trim_space s) = trim_space s.
Proof.
  assert (N1 : Forall (fun p => p <> EmptyString) space_runes) by (unfold space_runes; repeat constructor; discriminate).
  assert (N2 : Forall (fun p => p <> EmptyString) (map str_rev space_runes))
    by (unfold space_runes; simpl; repeat constructor; discriminate).
  unfold trim_space at 2 3. set (l := trim_prefixes (String.length s) space_runes s).
  set (back := trim_prefixes (String.length l) (map str_rev space_runes) (str_rev l)).
  assert (Hl : List.find (fun p => String.prefix p l) space_runes = None) by (apply trim_done; [done|lia]).
  assert (Hb : List.find (fun p => String.prefix p back) (map str_rev space_runes) = None)
    by (apply trim_done; [done|rewrite length_str_rev; lia]).
  destruct (trim_suffix_of (map str_rev space_runes) (String.length l) (str_rev l)) as [u Hu]. fold back in Hu.
  assert (El : l = str_rev back +:+ str_rev u) by (by rewrite <- str_rev_app, <- Hu, str_rev_twice).
  unfold trim_space. rewrite (trim_same space_runes); [|by apply (no_prefix_front _ _ (str_rev u)); rewrite <- El].
  by rewrite str_rev_twice, trim_same.
Qed.

(** * The names of the keys *)

Section KeyNames.
Context (lower : string -> string).

(** No two keys have one name, apart from case and surrounding space; every
    key has an id, a name, and limits that are positive where they are set. *)
Record keys_sound (keys : list APIKey) : Prop := mkKeysSound {
  ks_names : NoDup (name_key lower <$> keys);
  ks_fields : Forall (fun k => k_ID k <> EmptyString /\ trim_space (k_Name k) <> EmptyString /\
    not_positive (k_RateLimitRPM k) = false /\ not_positive (k_RateLimitTPM k) = false) keys;
}.

(** What {!check_key_request} establishes of a name and a request. *)
Record checked (body : KeyRequest) (exclude name : string) (keys : list APIKey) : Prop := mkChecked {
  ck_name : name <> EmptyString;
  ck_trimmed : trim_space name = name;
  ck_rpm : not_positive (kr_RateLimitRPM body) = false;
  ck_tpm : not_positive (kr_RateLimitTPM body) = false;
  ck_free : forall k, k ∈ keys -> k_ID k <> exclude -> name_key lower k <> lower name;
}.

Lemma name_taken_spec name exclude keys : name_taken lower name exclude keys = false ->
  forall k, k ∈ keys -> k_ID k <> exclude -> name_key lower k <> lower name.
Proof.
  intros H k Hk Hne He. unfold name_taken in H.
  assert (existsb (fun k => negb (String.eqb (k_ID k) exclude) && String.eqb (name_key lower k) (lower name)) keys = true); [|congruence].
  apply existsb_exists. exists k. split; [by apply list_elem_of_In|]. rewrite He, String.eqb_refl.
  by rewrite (proj2 (String.eqb_neq _ _) Hne).
Qed.

Lemma sound_added keys k : keys_sound keys -> k_ID k <> EmptyString -> k_Name k <> EmptyString ->
  trim_space (k_Name k) = k_Name k -> not_positive (k_RateLimitRPM k) = false -> not_positive (k_RateLimitTPM k) = false ->
  (forall x, x ∈ keys -> name_key lower x <> lower (k_Name k)) -> keys_sound (keys ++ [k]).
Proof.
  intros [Hn Hf] Hid Hne Ht Hr Htp Hfree. split.
  - rewrite fmap_app. apply NoDup_app. split; [done|]. split; [|apply NoDup_singleton].
    intros y (x & -> & Hx)%list_elem_of_fmap [E|[]%elem_of_nil]%elem_of_cons. apply (Hfree x Hx). rewrite E.
    unfold name_key. by rewrite Ht.
  - apply Forall_app. split; [done|]. repeat constructor; [done| |done..]. by rewrite Ht.
Qed.

(** The rows of one id get a name no other row has. *)
Lemma sound_renamed keys id name (f : APIKey -> APIKey) :
  keys_sound keys -> NoDup (k_ID <$> keys) -> name <> EmptyString -> trim_space name = name ->
  (forall x, k_ID (f x) = k_ID x /\ k_Name (f x) = name /\ not_positive (k_RateLimitRPM (f x)) = false /\
     not_positive (k_RateLimitTPM (f x)) = false) ->
  (forall x, x ∈ keys -> k_ID x <> id -> name_key lower x <> lower name) ->
  keys_sound (update_rows (fun x => String.eqb (k_ID x) id) f keys).
Proof.
  intros [Hn Hf] Hid Hne Ht Hff Hfree. split.
  - induction keys as [|x keys IH]; [constructor|]. rewrite !fmap_cons in *.
    apply NoDup_cons in Hn as [Hx Hn], Hid as [Hidx Hid]. apply Forall_cons in Hf as [Hfx Hf].
    unfold update_rows in *. csimpl. apply NoDup_cons. split; [|apply IH; auto; intros y Hy; apply Hfree; by right].
    intros (y & Hy & Hin)%list_elem_of_fmap. apply list_elem_of_fmap in Hin as (z & -> & Hz).
    destruct (Hff x) as (_ & Nx & _). destruct (Hff z) as (_ & Nz & _).
    assert (Nf : forall u, k_Name (f u) = name -> name_key lower (f u) = lower name)
      by (intros u Hu; unfold name_key; by rewrite Hu, Ht).
    destruct (String.eqb_spec (k_ID x) id) as [Ex|Ex], (String.eqb_spec (k_ID z) id) as [Ez|Ez].
    + apply Hidx. rewrite Ex, <- Ez. by apply list_elem_of_fmap_2.
    + rewrite (Nf x Nx) in Hy. apply (Hfree z); [by right|done|done].
    + rewrite (Nf z Nz) in Hy. apply (Hfree x); [by left|done|by rewrite Hy].
    + apply Hx. rewrite Hy. by apply list_elem_of_fmap_2.
  - apply Forall_fmap, Forall_forall. intros x Hx. simpl. rewrite Forall_forall in Hf. specialize (Hf x Hx).
    destruct (Hff x) as (E1 & E2 & E3 & E4). destruct (String.eqb _ _); [|done]. rewrite E1, E2, Ht. by destruct_and!.
Qed.

Lemma sound_kept keys p : keys_sound keys -> keys_sound (keep p keys).
Proof. intros [Hn Hf]. split; [by apply keep_NoDup|by apply keep_Forall]. Qed.

End KeyNames.

(** * The calls that change keys *)

Section KeyCalls.
Context (fault : nat -> bool) `{order : SortSlice} (lower quoted : string -> string).

(** Between the steps of a handler. *)
Definition sound (w : World) : Prop := wf (cn_db (aw_conn w)) /\ keys_sound lower (db_keys (cn_db (aw_conn w))).
Notation oks := (ok sound).

Lemma sound_emit e : oks sound (emit e) (fun _ => sound).
Proof. by apply ok_emit. Qed.

Lemma sound_fail {A} (P : World -> Prop) st msg (Q : A -> World -> Prop) :
  (forall w, P w -> sound w) -> oks P (fail_with st msg) Q.
Proof. intros HP. apply ok_fail. intros w Hw. by apply HP in Hw. Qed.

Lemma sound_refuse (P : World -> Prop) cond st msg : (forall w, P w -> sound w) ->
  oks P (refuse_if cond st msg) (fun _ w => P w /\ cond = false).
Proof. intros HP. unfold refuse_if. destruct cond; [by apply sound_fail|by apply ok_act]. Qed.

Lemma sound_some {A} (P : World -> Prop) (o : option A) st msg : (forall w, P w -> sound w) ->
  oks P (some_or o st msg) (fun a w => P w /\ o = Some a).
Proof. intros HP. unfold some_or. destruct o; [by apply ok_act|by apply sound_fail]. Qed.

(** A store call, with what its success establishes. *)
Lemma sound_try {A} (P : World -> Prop) (m : Exec A) msg (Q : A -> World -> Prop) :
  (forall w, P w -> match m (aw_conn w) with
                    | (inl _, c) => sound (mkWorld c (aw_events w))
                    | (inr a, c) => Q a (mkWorld c (aw_events w))
                    end) -> oks P (try_ m msg) Q.
Proof.
  intros H w Hw. specialize (H w Hw). unfold try_, call, abind. destruct (m (aw_conn w)) as [[e|a] c]; by simpl.
Qed.

Lemma sound_found {A} (P : World -> Prop) (m : Exec A) st missing msg (Q : A -> World -> Prop) :
  (forall w, P w -> match m (aw_conn w) with
                    | (inl _, c) => sound (mkWorld c (aw_events w))
                    | (inr a, c) => Q a (mkWorld c (aw_events w))
                    end) -> oks P (try_found m st missing msg) Q.
Proof.
  intros H w Hw. specialize (H w Hw). unfold try_found, call, abind. destruct (m (aw_conn w)) as [[[]|a] c]; by simpl.
Qed.

Lemma check_key_sound body exclude msg :
  oks sound (check_key_request fault lower quoted body exclude msg)
    (fun name w => sound w /\ checked lower body exclude name (db_keys (cn_db (aw_conn w)))).
Proof.
  unfold check_key_request. set (name := trim_space (kr_Name body)).
  eapply ok_bind; [by apply sound_refuse|intros ?]. eapply ok_bind; [apply sound_refuse; by intros w [H _]|intros ?].
  eapply ok_bind; [apply sound_refuse; by intros w [[H _] _]|intros ?].
  eapply (ok_bind _ _ _ _ (fun keys w => sound w /\ (str_empty name = false /\ not_positive (kr_RateLimitRPM body) = false /\
    not_positive (kr_RateLimitTPM body) = false) /\ Permutation keys (db_keys (cn_db (aw_conn w))))).
  - apply sound_try. intros w [[[[W S] H1] H2] H3]. unfold ListAPIKeys, query, exec. destruct (fault _); [by split|].
    split; [by split|]. split; [by split_and!|]. apply order_by_perm.
  - intros keys. eapply ok_bind; [apply sound_refuse; by intros w [H _]|intros ?].
    apply ok_act. intros w [(S & (H1 & H2 & H3) & Hp) Hfree]. split; [done|]. split; auto.
    + by apply String.eqb_neq.
    + apply trim_space_twice.
    + intros k Hk. rewrite <- Hp in Hk. by apply (name_taken_spec _ _ _ _ Hfree).
Qed.

Lemma respond_sound st d : oks sound (respondJSON st d) (fun _ => sound).
Proof. unfold respondJSON, respondError. destruct (encodable d); apply sound_emit. Qed.

Lemma create_key_sound now uuid random HashKey r : uuid <> EmptyString ->
  oks sound (HandleCreateAPIKey fault now uuid random HashKey lower quoted r) (fun _ => sound).
Proof.
  intros Hu. unfold HandleCreateAPIKey. eapply ok_bind; [by apply sound_some|intros body].
  eapply ok_bind; [eapply ok_weaken; [apply check_key_sound|by intros w [H _]|by intros ? w H; exact H]|intros name].
  eapply ok_bind; [apply sound_some; by intros w [H _]|intros raw]. cbv zeta.
  eapply (ok_bind _ _ _ _ (fun _ => sound)); [|intros ?; apply respond_sound].
  apply sound_try. intros w [[[W S] [C1 C2 C3 C4 C5]] _]. set (k := new_key _ _ _ _ _ _).
  assert (W' : wf (cn_db (CreateAPIKey fault k (aw_conn w)).2)) by (by apply (run_op_wf fault (OpCreateAPIKey k))).
  unfold CreateAPIKey, exec, insert_key in *. rewrite key_row_same in *.
  destruct (fault _); [by split|]. destruct (_ && _); [|by split]. split; [exact W'|].
  apply sound_added; simpl; auto. intros x Hx. apply C5; [done|].
  destruct S as [_ S]. rewrite Forall_forall in S. by destruct (S x Hx).
Qed.

Lemma update_key_sound id r : oks sound (HandleUpdateAPIKey fault lower quoted id r) (fun _ => sound).
Proof.
  unfold HandleUpdateAPIKey. eapply ok_bind; [by apply sound_refuse|intros ?].
  eapply ok_bind; [apply sound_some; by intros w [H _]|intros body].
  eapply ok_bind; [eapply ok_weaken; [apply check_key_sound|by intros w [[H _] _]|by intros ? w H; exact H]|intros name].
  eapply (ok_bind _ _ _ _ (fun e w => (sound w /\ checked lower body id name (db_keys (cn_db (aw_conn w)))) /\ k_ID e = id)).
  - apply sound_found. intros w [[W S] C]. unfold GetAPIKey, find_row, ebind, query, exec.
    destruct (fault _); [by split|]. destruct (head _) as [e|] eqn:E; [|by split]. split; [by split|].
    apply head_Some in E as [l E]. assert (e ∈ keep (fun k => String.eqb (k_ID k) id) (db_keys (cn_db (aw_conn w)))) as He
      by (rewrite E; apply list_elem_of_here). apply keep_spec in He as [_ He]. by apply String.eqb_eq.
  - intros e. cbv zeta. eapply (ok_bind _ _ _ _ (fun _ => sound)); [|intros ?; apply respond_sound].
    apply sound_try. intros w [[[W S] [C1 C2 C3 C4 C5]] Eid]. set (k := merged_key name body e).
    assert (W' : wf (cn_db (UpdateAPIKey fault k (aw_conn w)).2)) by (by apply (run_op_wf fault (OpUpdateAPIKey k))).
    unfold UpdateAPIKey, ebind, exec, update_keys in *. destruct (fault _); [by split|]. simpl in *. split; [exact W'|].
    rewrite Eid. by apply (sound_renamed lower _ id name); [|apply W|..].
Qed.

Lemma delete_key_sound id : oks sound (HandleDeleteAPIKey fault id) (fun _ => sound).
Proof.
  unfold HandleDeleteAPIKey. eapply ok_bind; [by apply sound_refuse|intros ?].
  eapply (ok_bind _ _ _ _ (fun _ => sound)); [|intros ?; apply sound_emit].
  apply sound_found. intros w [[W S] _].
  assert (W' : wf (cn_db (DeleteAPIKey fault id (aw_conn w)).2)) by (by apply (run_op_wf fault (OpDeleteAPIKey id))).
  unfold DeleteAPIKey, ebind, exec, delete_keys in *. destruct (fault _); [by split|]. simpl in *. split; [exact W'|].
  by apply sound_kept.
Qed.

End KeyCalls.

(** * Visits: calls of the API, one after the other *)

Record Visit := mkVisit { v_env : Env; v_query : string -> string; v_request : Request; v_call : AdminCall }.

Definition visit (c : Conn) (v : Visit) : Conn := aw_conn (serve (v_env v) (v_query v) (v_request v) (v_call v) c).
Definition visits (vs : list Visit) (c : Conn) : Conn := fold_left visit vs c.

(** The lower-casing of the visits, and ids that are never empty. *)
Definition visit_ok (lower : string -> string) (v : Visit) : Prop :=
  en_lower (v_env v) = lower /\ en_uuid (v_env v) 0%nat <> EmptyString.

Lemma visit_sound lower v c : visit_ok lower v -> wf (cn_db c) -> keys_sound lower (db_keys (cn_db c)) ->
  wf (cn_db (visit c v)) /\ keys_sound lower (db_keys (cn_db (visit c v))).
Proof.
  intros [Hl Hu] W S. destruct v as [env q r call]. unfold visit. simpl in *.
  destruct (serve_contract env q r call c W) as [W' Hin _]. split; [exact W'|].
  assert (G : ok (sound lower) (sound lower) (guarded env q r call) (fun _ => sound lower) ->
    keys_sound lower (db_keys (cn_db (aw_conn (serve env q r call c))))).
  { intros G. specialize (G (mkWorld c []) (conj W S)). unfold serve. by destruct (guarded _ _ _ _ _) as [[u|] w]; destruct G. }
  assert (R : forall m, ok (sound lower) (sound lower) m (fun _ => sound lower) ->
    ok (sound lower) (sound lower) (if is_open call || ValidateAccessKey (h_accessKey (en_handler env)) r then m
      else respondError 401 "unauthorized") (fun _ => sound lower)).
  { intros m Hm. destruct (_ || _); [done|apply sound_emit]. }
  destruct (scope call) eqn:Es; simpl in Hin.
  - by rewrite Hin.
  - apply G. unfold guarded. apply R. subst lower.
    destruct call; try done; [by apply create_key_sound|apply update_key_sound|apply delete_key_sound].
  - by destruct Hin as (-> & _).
  - by destruct Hin as (_ & -> & _).
Qed.

(** C18: API keys keep distinct names: after any sequence of calls of the admin
    API, refused and failed ones included, on tables where they had, no two
    keys have the same name apart from case and surrounding space, no name is
    blank, and every limit that is set is positive. *)
Theorem key_names_stay_distinct (lower : string -> string) (vs : list Visit) (c : Conn) :
  Forall (visit_ok lower) vs -> wf (cn_db c) -> keys_sound lower (db_keys (cn_db c)) ->
  let c' := visits vs c in wf (cn_db c') /\ keys_sound lower (db_keys (cn_db c')).
Proof.
  intros Hv. cbv zeta. revert c. induction Hv as [|v vs Hv _ IH]; intros c W S; [done|].
  simpl. apply IH; by apply (visit_sound lower v c Hv W S).
Qed.

(** * A key that was created *)

(** The row of a key that was created: of the random bytes it has the hash of
    their text, and everything else is of the request, the clock and the id
    that was drawn. *)
Definition key_of (env : Env) (body : KeyRequest) (raw : string) : APIKey :=
  mkAPIKey (en_uuid env 0%nat) (en_hash env (hex_encode raw)) (trim_space (kr_Name body)) true
    (kr_RateLimitRPM body) (kr_RateLimitTPM body) (en_now env) None.

(** What is known when a key was created: the tables are as they were, but for
    that one row. *)
Definition created (env : Env) (r : Request) (db db' : DB) (raw : string) (k : APIKey) : Prop :=
  en_random env = Some raw /\
  (exists body, decode_request decode_key_create zero_KeyRequest (req_Body r) = Some body /\ k = key_of env body raw) /\
  fresh k_KeyHash k (db_keys db) = true /\ db' = set_keys (db_keys db ++ [k]) db.

(** The surroundings with other random bytes. *)
Definition with_random (raw : string) (env : Env) : Env :=
  mkEnv (en_fault env) (en_sort env) (en_ranges env) (en_sum env) (en_avg env) (en_bare env) (en_handler env) (en_now env)
    (en_uuid env) (Some raw) (en_hash env) (en_lower env) (en_quoted env) (en_parse env) (en_duration env) (en_answers env)
    (en_err env) (en_client env) (en_client_err env).

Lemma list_keys_reads fault `{SortSlice} c : cn_db (ListAPIKeys fault c).2 = cn_db c.
Proof. apply query_reads. Qed.

Lemma create_key_added fault k c c' : CreateAPIKey fault k c = (inr tt, c') ->
  fresh k_KeyHash k (db_keys (cn_db c)) = true /\ cn_db c' = set_keys (db_keys (cn_db c) ++ [k]) (cn_db c).
Proof.
  unfold CreateAPIKey. rewrite key_row_same. intros H%exec_ok. unfold insert_key in H.
  destruct (_ && _) eqn:E; [|done]. apply andb_true_iff in E as [_ E]. by injection H as <-.
Qed.

Lemma create_key_reply env q r c d :
  let w := serve env q r PostKeys c in
  replies (aw_events w) = [RJson 201 d] ->
  exists raw k, created env r (cn_db c) (cn_db (aw_conn w)) raw k /\
    d = DMap [("api_key", DKey k); ("key", DText (hex_encode raw))] /\ aw_events w = [EvReply (RJson 201 d)].
Proof.
  unfold serve, guarded. simpl. destruct (ValidateAccessKey _ r); [|done].
  unfold HandleCreateAPIKey, check_key_request, refuse_if, some_or, try_, fail_with, respondError, emit, call, abind, act, return_.
  pose proof (@list_keys_reads (en_fault env) (en_sort env) c) as El.
  repeat (case_match; simplify_eq/=; try done).
  match goal with H : CreateAPIKey _ _ _ = (inr ?u, _) |- _ => destruct u; apply create_key_added in H as [Hf Hdb] end.
  match goal with |- context [respondJSON 201 ?d ?w] => set (d' := d); set (w' := w) in * end.
  assert (Hc : aw_conn (respondJSON 201 d' w').2 = aw_conn w') by (unfold respondJSON; by case_match). rewrite Hc.
  unfold respondJSON, respondError. destruct (encodable d') eqn:E; simpl; [|done]. intros [= <-].
  match goal with H : ListAPIKeys _ _ = _ |- _ => rewrite H in El; simpl in El end.
  eexists _, _. split; [|split; [reflexivity|done]]. unfold created. rewrite <- ?El. split_and!; try done. by eexists.
Qed.

(** What is left of a creation in the store depends on the hash alone. *)
Lemma create_key_hides env q r c raw raw2 :
  en_random env = Some raw -> en_hash env (hex_encode raw2) = en_hash env (hex_encode raw) ->
  aw_conn (serve (with_random raw2 env) q r PostKeys c) = aw_conn (serve env q r PostKeys c).
Proof.
  intros Hr Hh. unfold serve, guarded. simpl. destruct (ValidateAccessKey _ r); [|done].
  unfold HandleCreateAPIKey, new_key, check_key_request, refuse_if, some_or, try_, fail_with, respondError, emit, call, abind, act, return_.
  simpl. rewrite Hr, Hh.
  assert (Hj : forall st d w, aw_conn (respondJSON st d w).2 = aw_conn w) by (intros; unfold respondJSON; by case_match).
  repeat (case_match; simplify_eq/=; try done). by rewrite !Hj.
Qed.

(** The row a created key is found by. *)
Lemma created_found env r db c' raw k fault : created env r db (cn_db c') raw k -> (forall n, fault n = false) ->
  GetAPIKeyByHash fault (en_hash env (hex_encode raw)) c' = (inr (Some k), mkConn (cn_db c') (S (cn_stmts c'))).
Proof.
  intros (_ & (body & _ & Hk) & Hf & Hdb) Hq. unfold GetAPIKeyByHash.
  assert (Hh : k_KeyHash k = en_hash env (hex_encode raw)) by by rewrite Hk. rewrite <- Hh.
  apply (find_inserted fault db_keys k_KeyHash k (db_keys db) c'); [done|by rewrite Hdb|done].
Qed.

(** C31: A key created through the admin API works, and the key itself stays
    with the client that was shown it.  A 201 is the only thing that happens,
    and shows the random key; the tables get one new row, fixed by the request,
    the clock and the id that was drawn, in which the key is its hash: other
    random bytes of the same hash would have left the same store, so no later
    call, of whatever kind, can tell the key but by its hash.  And a request
    that bears the key from then on is that key's: the login endpoint names
    it, and the gateway lets the request through as the key unless a limit of
    the key stops it. *)
Theorem created_key_authenticates (env : Env) (q : string -> string) (r : Request) (c : Conn) (d : Datum) :
  let w := serve env q r PostKeys c in
  let c' := aw_conn w in
  replies (aw_events w) = [RJson 201 d] ->
  exists raw k, created env r (cn_db c) (cn_db c') raw k /\
    d = DMap [("api_key", DKey k); ("key", DText (hex_encode raw))] /\ aw_events w = [EvReply (RJson 201 d)] /\
    (forall raw2, en_hash env (hex_encode raw2) = en_hash env (hex_encode raw) ->
       aw_conn (serve (with_random raw2 env) q r PostKeys c) = c') /\
    forall r', BearerToken r' = hex_encode raw -> BearerToken r' <> EmptyString ->
      (forall env' q', en_hash env' = en_hash env -> (forall n, en_fault env' n = false) ->
         ValidateAccessKey (h_accessKey (en_handler env')) r' = false ->
         replies (aw_events (serve env' q' r' GetMe c')) =
           [RJson 200 (DMap [("role", DText "key"); ("api_key_id", DText (k_ID k)); ("api_key_name", DText (k_Name k))])]) /\
      (forall requireKeys fault now l, (forall n, fault n = false) ->
         let lookup hash := match (GetAPIKeyByHash fault hash c').1 with inl _ => None | inr found => Some found end in
         let '((passes, msg), _) := allow now (k_ID k) (k_RateLimitRPM k) (k_RateLimitTPM k) (estimatePromptTokens r') l in
         (RequireAPIKey requireKeys (en_hash env) lookup now r' l).1 =
           if passes : bool then AuthPass (with_apiKey (Some (mkKeyAuth (k_ID k) (k_Name k))) r') (Some (k_ID k))
           else AuthReject 429 msg).
Proof.
  intros w c' H. apply create_key_reply in H as (raw & k & Hc & -> & He). exists raw, k. fold w in Hc, He. fold c' in Hc.
  split; [done|split; [done|split; [done|split; [intros raw2; apply create_key_hides, Hc|]]]].
  intros r' Hb Hne. pose proof Hc as (_ & (body & _ & Hk) & _).
  assert (Ha : k_IsActive k = true) by by rewrite Hk. clear Hk. apply String.eqb_neq in Hne. clear He.
  split.
  - intros env' q' He Hq Hv. unfold serve, guarded. simpl. unfold HandleMe. rewrite Hv. unfold authenticateAPIKey, str_empty.
    rewrite Hne, Hb, He. unfold abind, call. simpl.
    pose proof (created_found _ _ _ _ _ _ _ Hc Hq) as E. rewrite E. simpl. rewrite Ha. done.
  - intros requireKeys fault now l Hq lookup. unfold RequireAPIKey, str_empty. rewrite Hne.
    assert (Hl : lookup (en_hash env (BearerToken r')) = Some (Some k)).
    { unfold lookup. rewrite Hb. by rewrite (created_found _ _ _ _ _ _ _ Hc Hq). }
    rewrite Hl, Ha. cbn [negb]. destruct (allow _ _ _ _ _ _) as [[[] msg] l']; done.
Qed.

(** * Witnesses *)

Definition sample_visits : list Visit :=
  (fun body => mkVisit (sample_env no_fault) no_query (admin_request body) PostKeys) <$>
    ["{'name':'Team A'}"; "{'name':' team a '}"; "{'name':'B','rate_limit_rpm':0}"].

Lemma key_names_stay_distinct_witness :
  let c' := visits sample_visits (mkConn empty_db 0) in
  keys_sound to_lower (db_keys (cn_db c')) /\ k_Name <$> db_keys (cn_db c') = ["Team A"].
Proof.
  split; [|vm_compute; reflexivity].
  apply (key_names_stay_distinct to_lower sample_visits (mkConn empty_db 0)).
  - repeat constructor; discriminate.
  - apply empty_wf.
  - split; [apply NoDup_nil_2|apply Forall_nil_2].
Defined.

Lemma created_key_authenticates_witness :
  let w := serve (sample_env no_fault) no_query (admin_request "{'name':'Team A'}") PostKeys (mkConn empty_db 0) in
  exists raw k, created (sample_env no_fault) (admin_request "{'name':'Team A'}") empty_db (cn_db (aw_conn w)) raw k.
Proof.
  intros w.
  assert (H : exists d, replies (aw_events w) = [RJson 201 d]) by (eexists; vm_compute; reflexivity).
  destruct H as [d H].
  destruct (created_key_authenticates (sample_env no_fault) no_query (admin_request "{'name':'Team A'}") (mkConn empty_db 0) d H)
    as (raw & k & Hc & _).
  exists raw, k. exact Hc.
Defined.
