(* ===== verification/Gateway.v ===== *)
(** The gateway put together: the tables, the admin API, the health checks,
    the worker that reloads the routing catalog, and the router.

    A call of the admin API takes effect on the tables and calls the hook of
    the catalog; the worker reads the tables by four queries that no
    transaction protects.  These steps interleave freely.  While a call that
    will announce a change is under way, a query may also read tables that
    have only some of its writes. *)
From S2P Require Import Prelude GoLib Models Circuit Catalog Router Http Sql Store Reply Admin AdminApi AdminKeys.
Local Open Scope Z_scope.

(** * The system *)

Record Gateway := mkGateway {
  gw_conn : Conn;
  gw_cat : RoutingCatalog;
  gw_open : nat;
  gw_failed : bool;
}.

(** [gw_open] counts the calls and probes that will announce a change and
    have not yet done so; [gw_failed] remembers that a call was answered with
    a server error or that a query of a reload failed. *)
Inductive GatewayEvent :=
| Open
| Apply (v : Visit)
| Verdict (fault : nat -> bool) (now : Z) (id : string) (healthy : bool)
| Log (fault : nat -> bool) (op : StoreOp)
| Announce
| Take
| Step (glimpse : option RoutingData) (fails : bool).

(** What the requests of clients and the retention worker write: logs and
    the last use of keys. *)
Definition is_log_op (op : StoreOp) : bool :=
  match op with
  | OpTouchAPIKeyLastUsed _ _ | OpInsertRequestLog _ | OpInsertStreamingLog _ _ _
  | OpPurgeRequestBodies _ | OpPurgeResponseBodies _ | OpPurgeStreamingLogs _ => true
  | _ => false
  end.

Section Gateway.
Context `{order : SortSlice}.

(** What [LoadRoutingData] reads. *)
Definition rows (db : DB) : RoutingData :=
  mkRoutingData (order_by (desc_int p_CreatedAt) (db_providers db))
    (order_by (less_then (asc_text pm_ProviderID) (asc_text pm_ModelID)) (db_models db))
    (order_by (less_then (asc_text a_Alias) (desc_int a_Priority)) (db_aliases db))
    (order_by (less_then (asc_text ep_ProviderID) (asc_text ep_Path)) (db_endpoints db)).

(** [main]: the catalog is loaded before the gateway serves. *)
Definition start (c : Conn) : Gateway :=
  mkGateway c (NewRoutingCatalogFromData (rows (cn_db c))) 0 false.

Definition served_by (v : Visit) (c : Conn) : World := serve (v_env v) (v_query v) (v_request v) (v_call v) c.

(** The reply is a success or a refusal. *)
Definition answered (evs : list Event) : bool :=
  match replies evs with
  | [r] => let s := reply_status r in ((200 <=? s) && (s <? 300)) || ((400 <=? s) && (s <? 500))
  | _ => false
  end.

Definition announces (evs : list Event) : bool :=
  existsb (fun e => match e with EvRoutingChanged => true | _ => false end) evs.

(** A call that announces a change must have been opened. *)
Definition apply_visit (v : Visit) (g : Gateway) : option Gateway :=
  let w := served_by v (gw_conn g) in
  if announces (aw_events w) && Nat.eqb (gw_open g) 0 then None
  else Some (mkGateway (aw_conn w) (gw_cat g) (gw_open g) (gw_failed g || negb (answered (aw_events w)))).

Definition gateway_step (e : GatewayEvent) (g : Gateway) : option Gateway :=
  match e with
  | Open => Some (mkGateway (gw_conn g) (gw_cat g) (S (gw_open g)) (gw_failed g))
  | Apply v => apply_visit v g
  | Verdict fault now id healthy =>
      if Nat.eqb (gw_open g) 0 then None
      else Some (mkGateway (UpdateProviderHealth fault now id healthy (gw_conn g)).2 (gw_cat g) (gw_open g) (gw_failed g))
  | Log fault op =>
      if is_log_op op then Some (mkGateway (run_op fault op (gw_conn g)).2 (gw_cat g) (gw_open g) (gw_failed g)) else None
  | Announce =>
      match gw_open g with
      | O => None
      | S n => Some (mkGateway (gw_conn g) (ReloadAsync (gw_cat g)) n (gw_failed g))
      end
  | Take => (fun cat => mkGateway (gw_conn g) cat (gw_open g) (gw_failed g)) <$> take_token (gw_cat g)
  | Step glimpse fails =>
      match glimpse with
      | Some _ => if Nat.eqb (gw_open g) 0 then None else Some tt
      | None => Some tt
      end ≫= fun _ =>
      (fun cat => mkGateway (gw_conn g) cat (gw_open g) (gw_failed g || fails)) <$>
        reload_step (default (rows (cn_db (gw_conn g))) glimpse) fails (gw_cat g)
  end.

Fixpoint gateway_run (es : list GatewayEvent) (g : Gateway) : option Gateway :=
  match es with
  | [] => Some g
  | e :: es' => match gateway_step e g with Some g' => gateway_run es' g' | None => None end
  end.

(** [main] sets the hook of every admin handler. *)
Definition wired (e : GatewayEvent) : Prop :=
  match e with Apply v => h_onRoutingChanged (en_handler (v_env v)) = true | _ => True end.

End Gateway.

(** * What the tables offer *)

Definition tables (db : DB) : RoutingData :=
  mkRoutingData (db_providers db) (db_models db) (db_aliases db) (db_endpoints db).

(** A candidate the rows offer for a name at an endpoint: an enabled alias of
    that name or, when no alias resolves, an available model of that id; at a
    healthy provider that has the endpoint supported and enabled. *)
Definition offer (db : DB) (name path : string) (via : bool) (c : candidate) : Prop :=
  exists rc, c = to_candidate rc /\
    (if via then alias_target (tables db) name rc
     else (forall rc', ~ alias_target (tables db) name rc') /\ direct_target (tables db) name rc) /\
    exists ep, ep ∈ db_endpoints db /\ ep_ProviderID ep = p_ID (rc_Provider rc) /\
      ep_Path ep = normalizeEndpointPath path /\ ep_IsSupported ep = true /\ ep_IsEnabled ep = true.

(** The breaker of a candidate lets it pass without a probe. *)
Definition admitted (r : SmartRouter) (c : candidate) : Prop :=
  p_CircuitBreakerEnabled (c_provider c) = false \/ admitting (p_ID (c_provider c)) r.

(** * Lemmas *)

Section RowsLemmas.
Context `{order : SortSlice}.

Lemma load_is_rows fault c data c' : LoadRoutingData fault c = (inr data, c') -> data = rows (cn_db c).
Proof.
  unfold LoadRoutingData. intros (ps & c1 & H1 & (ms & c2 & H2 & (al & c3 & H3 & (es & c4 & H4 & H)%ebind_ok)%ebind_ok)%ebind_ok)%ebind_ok.
  injection H as <- <-. apply query_ok in H1 as [-> E1], H2 as [-> E2], H3 as [-> E3], H4 as [-> E4].
  by rewrite E3, E2, E1.
Qed.

Lemma rows_keyed db : wf db -> keyed (rows db).
Proof.
  intros W. unfold keyed, rows. simpl. change model_key with pm_key. rewrite !order_by_perm.
  split; apply W.
Qed.

Lemma healthy_rows db id p : healthy_provider (rows db) id p <-> healthy_provider (tables db) id p.
Proof. unfold healthy_provider, rows, tables. simpl. by rewrite order_by_perm. Qed.

Lemma alias_rows db name rc : alias_target (rows db) name rc <-> alias_target (tables db) name rc.
Proof.
  unfold alias_target. setoid_rewrite healthy_rows. unfold rows, tables. simpl.
  by setoid_rewrite order_by_perm.
Qed.

Lemma direct_rows db name rc : direct_target (rows db) name rc <-> direct_target (tables db) name rc.
Proof.
  unfold direct_target. setoid_rewrite healthy_rows. unfold rows, tables. simpl.
  by setoid_rewrite order_by_perm.
Qed.

(** Data built of the same routing tables are the same. *)
Lemma rows_routing db db' : routing db' = routing db -> rows db' = rows db.
Proof. unfold routing, rows. by intros [= -> -> -> ->]. Qed.

End RowsLemmas.

(** ** The catalog follows the tables *)

Section Freshness.
Context `{order : SortSlice}.

(** Unless a call has failed, a change is about to be announced, a reload is
    due, or what the worker holds is what the tables say. *)
Definition follows (g : Gateway) : Prop :=
  gw_failed g = true \/ (0 < gw_open g)%nat \/ cat_reloadCh (gw_cat g) = true \/
  match cat_worker (gw_cat g) with
  | WIdle => cat_snap (gw_cat g) = buildRoutingSnapshot (rows (cn_db (gw_conn g)))
  | WLoading n acc => Catalog.clean n (rows (cn_db (gw_conn g))) acc
  end.

Record gateway_ok (g : Gateway) : Prop := mkGatewayOk {
  go_wf : wf (cn_db (gw_conn g));
  go_follows : follows g;
  go_bound : match cat_worker (gw_cat g) with WLoading n _ => (n <= 4)%nat | WIdle => True end;
}.

Lemma start_ok c : wf (cn_db c) -> gateway_ok (start c).
Proof. intros W. split; [done| |done]. by right; right; right. Qed.

(** New tables with the same routing rows, no less to announce, and the same
    catalog. *)
Lemma follows_conn g c' failed' :
  routing (cn_db c') = routing (cn_db (gw_conn g)) \/ failed' = true \/ (0 < gw_open g)%nat ->
  (gw_failed g = true -> failed' = true) -> follows g -> follows (mkGateway c' (gw_cat g) (gw_open g) failed').
Proof.
  unfold follows. simpl. intros [E|[E|E]] Hf [H|[H|[H|H]]]; auto. rewrite (rows_routing _ _ E). auto.
Qed.

Lemma answered_cases evs r : replies evs = [r] -> answered evs = true ->
  is_refusal (reply_status r) \/ is_success_status (reply_status r).
Proof.
  unfold answered, is_refusal, is_success_status. intros ->.
  destruct (andb _ _) eqn:E1; simpl; [bool_to_prop; lia|]. intros E2. bool_to_prop. lia.
Qed.

Lemma announces_spec evs : announces evs = true <-> EvRoutingChanged ∈ evs.
Proof.
  unfold announces. rewrite existsb_exists. setoid_rewrite <- list_elem_of_In.
  split; [by intros ([] & H & E)|]. intros H. by exists EvRoutingChanged.
Qed.

Lemma apply_ok v g g' :
  h_onRoutingChanged (en_handler (v_env v)) = true -> apply_visit v g = Some g' -> gateway_ok g -> gateway_ok g'.
Proof.
  intros Hh H [W Hf Hb]. unfold apply_visit in H. set (w := served_by v (gw_conn g)) in *.
  assert (K := serve_contract (v_env v) (v_query v) (v_request v) (v_call v) _ W). fold w in K.
  destruct K as [W' _ (r & Hr & Hrefuse & Hok)].
  destruct (announces (aw_events w) && Nat.eqb (gw_open g) 0) eqn:Ha; simplify_eq/=.
  split; [done| |done]. apply follows_conn; [|by intros ->|done].
  destruct (announces (aw_events w)) eqn:Hann; simpl in Ha.
  { right; right. apply Nat.eqb_neq in Ha. lia. }
  destruct (answered (aw_events w)) eqn:Hans; [|right; left; by rewrite orb_true_r]. left.
  destruct (answered_cases _ _ Hr Hans) as [Hs|Hs]; [by apply (f_equal routing), Hrefuse|].
  destruct (Hok Hs) as [Ht _]. destruct (Ht Hh) as [Ht'|Ht']; [done|].
  assert (announces (aw_events w) = true) by (by apply announces_spec). congruence.
Qed.

(** What the operations on logs and on the last use of a key leave alone. *)
Definition keeps {A B} (f : DB -> B) (m : Exec A) : Prop := forall c, f (cn_db (m c).2) = f (cn_db c).

Lemma exec_keeps {A B} (f : DB -> B) fault (s : Stmt A) :
  (forall db, match s db with inl _ => True | inr (_, db') => f db' = f db end) -> keeps f (exec fault s).
Proof.
  intros H c. unfold exec. destruct (fault _); [done|]. specialize (H (cn_db c)).
  by destruct (s (cn_db c)) as [|[a db]].
Qed.

Lemma then_keeps {A B C} (f : DB -> B) (m : Exec A) (b : C) : keeps f m -> keeps f (ebind m (fun _ => eret b)).
Proof. intros H c. unfold ebind. specialize (H c). by destruct (m c) as [[e|a] c']. Qed.

Lemma log_op_keeps {B} (f : DB -> B) fault op :
  (forall ls db, f (set_logs ls db) = f db) -> (forall cs db, f (set_chunks cs db) = f db) ->
  (forall sel t db, f (set_keys (update_rows sel (set_k_LastUsedAt t) (db_keys db)) db) = f db) ->
  is_log_op op = true -> keeps f (run_op fault op).
Proof.
  intros Hl Hc Hk. destruct op; try done; intros _; first [apply then_keeps|idtac]; apply exec_keeps; intros db;
    simpl; unfold insert_log, insert_chunk; repeat case_match; simplify_eq/=; auto.
Qed.

Lemma follows_step e g g' :
  wired e -> gateway_step e g = Some g' -> gateway_ok g -> gateway_ok g'.
Proof.
  intros Hw H K. destruct e as [|v|fault now id b|fault op| | |glimpse fails]; simpl in H.
  - simplify_eq/=. destruct K as [W Hf Hb]. split; [done| |done]. right; left. simpl. lia.
  - by eapply apply_ok.
  - destruct (Nat.eqb_spec (gw_open g) 0) as [|Ho]; simplify_eq/=. destruct K as [W Hf Hb]. split; [|right; left; simpl; lia|done].
    by apply (run_op_wf fault (OpUpdateProviderHealth now id b)).
  - destruct (is_log_op op) eqn:Hop; simplify_eq/=. destruct K as [W Hf Hb]. split; [by apply run_op_wf| |done].
    apply follows_conn; [left; by apply (log_op_keeps routing)|done|done].
  - destruct (gw_open g) eqn:Ho; simplify_eq/=. destruct K as [W Hf Hb]. split; [done| |done]. by right; right; left.
  - unfold take_token in H. destruct K as [W Hf Hb].
    destruct (cat_worker (gw_cat g)) eqn:Ew, (cat_reloadCh (gw_cat g)) eqn:Ec; simplify_eq/=.
    split; [done| |simpl; lia]. right; right; right. simpl. repeat split; intros; exfalso; lia.
  - unfold reload_step in H. destruct K as [W Hf Hb].
    destruct (cat_worker (gw_cat g)) as [|n acc] eqn:Ew; [by destruct glimpse; simpl in H; repeat case_match|].
    assert (Hg : glimpse = None \/ (0 < gw_open g)%nat).
    { destruct glimpse; [|by left]. right. destruct (Nat.eqb_spec (gw_open g) 0); [done|lia]. }
    destruct (match glimpse with Some _ => _ | None => Some tt end) as [[]|]; [|done]. simpl in H.
    destruct (Nat.ltb_spec n 4); simplify_eq/=.
    + destruct fails; simplify_eq/=.
      { split; [done|left; simpl; by rewrite orb_true_r|done]. }
      split; [done| |simpl; lia]. unfold follows in *. simpl. rewrite Ew in Hf. rewrite orb_false_r.
      destruct Hg as [->|Hg]; [|by auto]. destruct Hf as [?|[?|[?|Hc]]]; auto. do 3 right. by apply clean_load.
    + split; [done| |done]. unfold follows in *. simpl. rewrite Ew in Hf.
      destruct Hf as [->|[?|[?|Hc]]]; auto. do 3 right. by rewrite (clean_all n _ acc ltac:(lia) Hc).
Qed.

Lemma gateway_run_ok es g g' :
  Forall wired es -> gateway_run es g = Some g' -> gateway_ok g -> gateway_ok g'.
Proof.
  intros Hes. revert g. induction Hes as [|e es He _ IH]; simpl; intros g H K; [by simplify_eq|].
  destruct (gateway_step e g) as [g1|] eqn:E; [|done]. eapply IH; [done|]. by eapply follows_step.
Qed.

(** At most eleven steps of the worker bring the catalog to rest on the rows. *)
Lemma gateway_rests g :
  gateway_ok g -> gw_failed g = false -> gw_open g = 0%nat ->
  let db := cn_db (gw_conn g) in
  let cat := Catalog.drain 11 (rows db) (gw_cat g) in
  cat_worker cat = WIdle /\ cat_reloadCh cat = false /\ cat_snap cat = buildRoutingSnapshot (rows db).
Proof.
  intros [W Hf Hb] Hfail Ho. cbv zeta. set (data := rows _) in *.
  destruct (drain_idle data (gw_cat g) Hb) as [Hw Hc]. split_and!; [done|done|].
  destruct (drain_run 11 data 0 (gw_cat g)) as (es & Hes & Hr).
  assert (Hi : sys_inv (mkSys data 0 (gw_cat g))).
  { unfold sys_inv. simpl. destruct Hf as [?|[?|[?|?]]]; [congruence|lia|auto|auto]. }
  pose proof (sys_inv_run _ _ _ Hes Hr Hi) as Hi'. unfold sys_inv in Hi'. cbn [sys_owed sys_cat sys_db] in Hi'.
  destruct Hi' as [Hi'|[Hi'|Hi']]; [lia|congruence|by rewrite Hw in Hi'].
Qed.

End Freshness.

(** ** Routing over one snapshot *)

Section OneSnapshot.
Context `{env : RouterEnv} `{sorting : SortSlice} `{order : SortSlice}.
Context (db : DB) (W : wf db).
Hypothesis Hsnap : forall n, snap_at n = buildRoutingSnapshot (rows db).

Lemma elem_of_map {A B} (f : A -> B) (l : list A) (y : B) : y ∈ map f l <-> exists x, y = f x /\ x ∈ l.
Proof. rewrite list_elem_of_In, in_map_iff. setoid_rewrite list_elem_of_In. naive_solver. Qed.

Lemma resolve_offers name c :
  let via := (resolveCandidates name).2 in
  c ∈ (resolveCandidates name).1 <->
  exists rc, c = to_candidate rc /\
    (if via then alias_target (tables db) name rc
     else (forall rc', ~ alias_target (tables db) name rc') /\ direct_target (tables db) name rc).
Proof.
  cbv zeta. pose proof (rows_keyed db W) as Hk. unfold resolveCandidates. rewrite !Hsnap, AliasCandidates_slice.
  pose proof (fun rc => snapshot_alias _ Hk name rc) as Ha. setoid_rewrite alias_rows in Ha.
  destruct (slice_at name _) as [|rc0 l] eqn:E; cbn [fst snd]; rewrite elem_of_map.
  - unfold DirectCandidates. setoid_rewrite (snapshot_direct _ Hk). setoid_rewrite direct_rows.
    split; [|naive_solver]. intros (rc & -> & H). exists rc. split_and!; [done| |done].
    intros rc' H'%Ha. by apply elem_of_nil in H'.
  - by setoid_rewrite Ha.
Qed.

Lemma endpoint_offers k cs path c :
  c ∈ filterByEndpoint k cs path <->
  c ∈ cs /\ exists ep, ep ∈ db_endpoints db /\ ep_ProviderID ep = p_ID (c_provider c) /\
    ep_Path ep = normalizeEndpointPath path /\ ep_IsSupported ep = true /\ ep_IsEnabled ep = true.
Proof.
  assert (He : forall pid, HasEnabledEndpoint (buildRoutingSnapshot (rows db)) pid path = true <->
    exists ep, ep ∈ db_endpoints db /\ ep_ProviderID ep = pid /\
    ep_Path ep = normalizeEndpointPath path /\ ep_IsSupported ep = true /\ ep_IsEnabled ep = true).
  { intros pid. rewrite HasEnabledEndpoint_spec. unfold rows. simpl. by setoid_rewrite order_by_perm. }
  revert k. induction cs as [|d cs IH]; intros k; simpl; [set_solver|]. rewrite Hsnap.
  specialize (IH (S k)). destruct (HasEnabledEndpoint _ _ _) eqn:E.
  - rewrite elem_of_cons, IH, elem_of_cons. apply He in E. naive_solver.
  - rewrite IH, elem_of_cons. split; [tauto|]. intros [[->|Hc] H]; [|done]. apply He in H. congruence.
Qed.

(** A candidate whose breaker lets it pass is kept. *)
Lemma breaker_keeps cs r c : c ∈ cs -> admitted r c -> c ∈ (filterByCircuitBreaker cs r).1.
Proof.
  revert r. induction cs as [|d cs IH]; intros r Hc Ha; [done|]. cbn [filterByCircuitBreaker]. unfold bind.
  pose proof (breaker_admits_spec d r) as S. cbv zeta in S.
  destruct (breaker_admits d r) as [ok r1]. destruct S as (S1 & S2 & S3 & S4).
  assert (Hr1 : admitted r1 c).
  { destruct Ha as [Ha|Ha]; [by left|right].
    destruct (decide (p_ID (c_provider c) = p_ID (c_provider d))) as [E|E]; [rewrite E in *; by apply S4|].
    unfold admitting. by rewrite (S1 _ E). }
  specialize (IH r1). destruct (filterByCircuitBreaker cs r1) as [out r2]. simpl in *.
  apply elem_of_cons in Hc as [->|Hc]; [|destruct ok; [apply elem_of_cons; right|]; by apply IH].
  destruct ok; [constructor|]. exfalso. destruct Ha as [Ha|Ha]; [|by destruct (S4 Ha)].
  destruct (S3 eq_refl) as [H _]. congruence.
Qed.

Lemma eligible_offers name path r c :
  c ∈ eligible name path r -> offer db name path (resolveCandidates name).2 c.
Proof.
  unfold eligible. rewrite endpoint_offers. intros [Hc He].
  pose proof (filter_breaker_spec (resolveCandidates name).1 r) as H. destruct (filterByCircuitBreaker _ _) as [out r'].
  destruct H as (H1 & _). simpl in Hc. eapply sublist_subseteq in Hc; [|exact H1].
  apply resolve_offers in Hc as (rc & -> & Hrc). exists rc. by split_and!.
Qed.

Lemma offer_via name path via c : offer db name path via c -> (resolveCandidates name).2 = via.
Proof.
  intros (rc & _ & H & _). pose proof (fun rc => snapshot_alias _ (rows_keyed db W) name rc) as Ha.
  setoid_rewrite alias_rows in Ha. unfold resolveCandidates. rewrite !Hsnap, AliasCandidates_slice.
  destruct (slice_at name _) as [|rc0 l], via; cbn [fst snd]; [| done|done |].
  - apply Ha in H. by apply elem_of_nil in H.
  - destruct H as [H _]. exfalso. apply (H rc0), Ha. constructor.
Qed.

Lemma offers_eligible name path r c via :
  offer db name path via c -> admitted r c -> c ∈ eligible name path r.
Proof.
  intros H Ha. pose proof (offer_via _ _ _ _ H) as Hv. destruct H as (rc & -> & Hrc & He).
  unfold eligible. rewrite endpoint_offers. split; [|done].
  apply breaker_keeps; [|done]. apply resolve_offers. rewrite Hv. by exists rc.
Qed.

End OneSnapshot.

(** ** Weights *)

(** Weights are positive and so small that no sum of them leaves 64 bits. *)
Definition weights_fit (db : DB) : Prop :=
  exists bound, 1 <= bound /\ (forall a, a ∈ db_aliases db -> 0 < a_Weight a <= bound) /\
    Z.of_nat (length (db_aliases db) + length (db_models db)) * bound <= max_int64.

Lemma sum_weights_bound bound l :
  0 <= bound -> Forall (fun c => c_weight c <= bound) l -> sum_weights l <= Z.of_nat (length l) * bound.
Proof. intros Hb. induction 1 as [|c l Hc _ IH]; [simpl; lia|]. cbn [sum_weights foldr length]. unfold sum_weights in IH. lia. Qed.

Lemma omap_length_le {A B} (f : A -> option B) (l : list A) : (length (omap f l) <= length l)%nat.
Proof. induction l as [|x l IH]; csimpl; [lia|]. destruct (f x); simpl; lia. Qed.

Section Totals.
Context `{env : RouterEnv} `{sorting : SortSlice} `{order : SortSlice}.
Context (db : DB) (W : wf db).
Hypothesis Hsnap : forall n, snap_at n = buildRoutingSnapshot (rows db).

Lemma candidates_count name :
  (length (resolveCandidates name).1 <= length (db_aliases db) + length (db_models db))%nat.
Proof.
  unfold resolveCandidates. rewrite !Hsnap, AliasCandidates_slice.
  assert (Ha : (length (slice_at name (rs_aliases (buildRoutingSnapshot (rows db)))) <= length (db_aliases db))%nat).
  { unfold buildRoutingSnapshot. simpl. rewrite (proj1 (build_aliases_spec _ _ _ _ _)).
    etransitivity; [apply omap_length_le|]. unfold rows. simpl. by rewrite order_by_perm. }
  assert (Hm : (length (slice_at name (rs_directModels (buildRoutingSnapshot (rows db)))) <= length (db_models db))%nat).
  { unfold buildRoutingSnapshot. simpl. rewrite build_models_direct.
    etransitivity; [apply omap_length_le|]. unfold rows. simpl. by rewrite order_by_perm. }
  destruct (slice_at name (rs_aliases _)); cbn [fst]; rewrite length_map; [unfold DirectCandidates|]; lia.
Qed.

Lemma offer_weight name path via c bound :
  1 <= bound -> (forall a, a ∈ db_aliases db -> 0 < a_Weight a <= bound) ->
  offer db name path via c -> 0 < c_weight c <= bound.
Proof.
  intros Hb Hw (rc & -> & H & _). destruct via; [|destruct H as [_ H]].
  - destruct H as (a & p & Hin & _ & _ & _ & _ & ->). by apply Hw.
  - destruct H as (m & p & _ & _ & _ & _ & ->). simpl. lia.
Qed.

(** Whatever breaker is met, what is selected from fits. *)
Lemma eligible_fits name path r top :
  weights_fit db -> sum_weights (pool_of top (eligible name path r)) <= max_int64.
Proof.
  intros (bound & Hb & Hw & Hs). etransitivity; [apply (sum_weights_bound bound); [lia|]|].
  - apply Forall_forall. intros c Hc. apply pool_spec in Hc as (Hc & _).
    apply (eligible_offers db W Hsnap), (offer_weight _ _ _ _ _ Hb Hw) in Hc. lia.
  - etransitivity; [|exact Hs]. apply Z.mul_le_mono_nonneg_r; [lia|]. apply Nat2Z.inj_le.
    etransitivity; [|apply (candidates_count name)]. unfold pool_of. rewrite !keep_length. unfold eligible.
    pose proof (filter_breaker_spec (resolveCandidates name).1 r) as H. destruct (filterByCircuitBreaker _ _) as [out r'].
    destruct H as (H & _). simpl. etransitivity; [apply sublist_length, (filter_endpoint_spec 2 out path)|by apply sublist_length].
Qed.

Lemma route_offered name path r res :
  (Route (sorting:=sorting) name path r).1 = Ok res ->
  exists c, offer db name path (rr_RequestedViaAlias res) c /\ 0 < c_weight c /\
    rr_Provider res = c_provider c /\ rr_ModelID res = c_modelID c /\
    (forall d via, offer db name path via d -> admitted r d -> c_priority d <= c_priority c).
Proof.
  rewrite (proj2 (Route_eq (sorting:=sorting) name path r)). intros H.
  destruct (eligible name path r) as [|d0 l] eqn:E; [done|]. rewrite <- E in H.
  destruct (top_exists (eligible name path r)) as [top Htop]; [by rewrite E|].
  destruct (selectWeightedPriority (sorting:=sorting) intn _) as [c|e|] eqn:Hsel; simplify_eq/=.
  pose proof (select_ok (sorting:=sorting) _ _ _ _ Htop Hsel) as (Hc & Hp & Hw)%pool_spec.
  exists c. split_and!; try done; [by apply (eligible_offers db W Hsnap) in Hc|].
  intros d via Hd Ha. pose proof (offers_eligible db W Hsnap _ _ _ _ _ Hd Ha) as He.
  destruct Htop as [Ht _]. rewrite Forall_forall in Ht. rewrite Hp. by apply Ht.
Qed.

Lemma offered_route name path r via c :
  weights_fit db -> offer db name path via c -> admitted r c -> exists res, (Route (sorting:=sorting) name path r).1 = Ok res.
Proof.
  intros Hfit Ho Ha. pose proof (offers_eligible db W Hsnap _ _ _ _ _ Ho Ha) as He.
  assert (Hne : eligible name path r <> []) by (intros E; rewrite E in He; by apply elem_of_nil in He).
  destruct (top_exists _ Hne) as [top Htop].
  destruct (select_spec (sorting:=sorting) _ top Hne Htop (eligible_fits name path r top Hfit)) as (pool & c1 & Hperm & Hsel).
  rewrite (proj2 (Route_eq (sorting:=sorting) name path r)), Hsel. destruct (eligible name path r) as [|d0 l] eqn:E; [done|].
  destruct (decide (pool = [])) as [->|_]; [|by eexists]. exfalso.
  destruct Htop as [_ (d & Hd & Hdp)]. rewrite <- E in *.
  assert (Hpool : d ∈ pool_of top (eligible name path r)).
  { apply pool_spec. split_and!; [done|done|]. destruct Hfit as (bound & Hb & Hw & _).
    apply (eligible_offers db W Hsnap), (offer_weight _ _ _ _ _ Hb Hw) in Hd. lia. }
  apply Permutation_nil_l in Hperm. rewrite <- Hperm in Hpool. by apply elem_of_nil in Hpool.
Qed.

End Totals.

(** * Properties *)

Definition worker_event (e : GatewayEvent) : Prop := e = Take \/ e = Step None false.

Lemma drain_steps `{order : SortSlice} fuel g :
  exists es, Forall worker_event es /\ (length es <= fuel)%nat /\
    gateway_run es g = Some (mkGateway (gw_conn g) (Catalog.drain fuel (rows (cn_db (gw_conn g))) (gw_cat g)) (gw_open g) (gw_failed g)).
Proof.
  revert g. induction fuel as [|fuel IH]; intros g; [exists []; split_and!; [done|done|by destruct g]|].
  cbn [Catalog.drain]. destruct (reload_step (rows _) false (gw_cat g)) as [cat|] eqn:E1.
  - destruct (IH (mkGateway (gw_conn g) cat (gw_open g) (gw_failed g))) as (es & H1 & H2 & H3).
    exists (Step None false :: es). split_and!; [constructor; [by right|done]|simpl; lia|].
    simpl. rewrite E1. simpl. rewrite orb_false_r. exact H3.
  - destruct (take_token (gw_cat g)) as [cat|] eqn:E2.
    + destruct (IH (mkGateway (gw_conn g) cat (gw_open g) (gw_failed g))) as (es & H1 & H2 & H3).
      exists (Take :: es). split_and!; [constructor; [by left|done]|simpl; lia|]. simpl. by rewrite E2.
    + exists []. split_and!; [done|simpl; lia|by destruct g].
Qed.

(** C3: Routing follows the tables.  Take any interleaving of admin calls,
    health verdicts, writes of logs, and steps of the reload worker, in which
    no call was answered with a server error and no query of a reload failed,
    and let every call that changed the routing tables have told the catalog.
    Then at most eleven steps of the worker bring it to rest on a snapshot
    with which the router does what the tables say: a route leads to a
    provider and model that the rows offer for the name and the endpoint, with
    a positive weight, and no offer whose breaker admits it has a higher
    priority; and when the rows offer one whose breaker admits it, and the
    weights are positive and add up in 64 bits, there is a route. *)
Theorem routing_follows_the_tables (order : SortSlice) (c0 : Conn) (es : list GatewayEvent) (g : Gateway) :
  wf (cn_db c0) -> Forall wired es -> gateway_run es (start c0) = Some g -> gw_failed g = false -> gw_open g = 0%nat ->
  let db := cn_db (gw_conn g) in
  exists es' g', Forall worker_event es' /\ (length es' <= 11)%nat /\ gateway_run es' g = Some g' /\
    gw_conn g' = gw_conn g /\ cat_worker (gw_cat g') = WIdle /\ cat_reloadCh (gw_cat g') = false /\
    forall (env : RouterEnv) (sorting : SortSlice) (name path : string) (r : SmartRouter),
      (forall n, snap_at n = cat_snap (gw_cat g')) ->
      (forall res, (Route name path r).1 = Ok res ->
         exists c, offer db name path (rr_RequestedViaAlias res) c /\ 0 < c_weight c /\
           rr_Provider res = c_provider c /\ rr_ModelID res = c_modelID c /\
           (forall d via, offer db name path via d -> admitted r d -> c_priority d <= c_priority c)) /\
      (weights_fit db -> (exists via c, offer db name path via c /\ admitted r c) ->
         exists res, (Route name path r).1 = Ok res).
Proof.
  intros W Hw Hr Hf Ho db. pose proof (gateway_run_ok _ _ _ Hw Hr (start_ok c0 W)) as K.
  destruct (gateway_rests g K Hf Ho) as (H1 & H2 & H3). destruct (drain_steps 11 g) as (es' & E1 & E2 & E3).
  eexists es', _. split; [exact E1|]. split; [exact E2|]. split; [exact E3|]. split; [done|].
  split; [exact H1|]. split; [exact H2|]. intros env sorting name path r Hsnap. cbn [gw_cat] in Hsnap.
  rewrite H3 in Hsnap. pose proof (go_wf g K) as W'.
  split; [intros res; apply (route_offered db W' Hsnap)|]. intros Hfit (via & c & Hc & Ha).
  by apply (offered_route db W' Hsnap name path r via c).
Qed.

(** * Witness *)

Definition gateway_db : DB :=
  set_aliases (rd_Aliases sample_data) (set_models (rd_Models sample_data)
    (set_endpoints (rd_Endpoints sample_data) (set_providers (rd_Providers sample_data) empty_db))).

(** A new alias: the worker reads half of the tables before it is announced. *)
Definition gateway_events : list GatewayEvent :=
  [Open; Announce; Take; Step None false; Open; Step (Some no_data) false;
   Apply (mkVisit (AdminApi.sample_env no_fault) no_query
     (admin_request "{'alias':'quick','provider_id':'p1','model_id':'gpt','weight':3}") PostAliases);
   Step None false; Announce].

Definition gateway_reached : Gateway :=
  default (start (order := insertion_SortSlice) (mkConn gateway_db 0))
    (gateway_run (order := insertion_SortSlice) gateway_events (start (order := insertion_SortSlice) (mkConn gateway_db 0))).

Definition gateway_env (s : routingSnapshot) : RouterEnv := {| clock _ := 1000; snap_at _ := s; intn n := n / 2 |}.

Definition quick_candidate : candidate := mkCand sample_provider "gpt" 3 0.

Lemma gateway_db_wf : wf gateway_db.
Proof. split; match goal with |- ?P => refine (bool_decide_unpack P _) end; vm_compute; exact I. Qed.

Definition quick_alias : ModelAlias := mkAlias "u-0" "quick" "p1" "gpt" 3 0 true 1000 1000.

Lemma gateway_tables :
  tables (cn_db (gw_conn gateway_reached)) =
    mkRoutingData [sample_provider] (rd_Models sample_data) (rd_Aliases sample_data ++ [quick_alias]) (rd_Endpoints sample_data).
Proof. vm_compute. reflexivity. Qed.

Lemma quick_offered : offer (cn_db (gw_conn gateway_reached)) "quick" "/v1/chat/completions" true quick_candidate.
Proof.
  exists (mkCandidate sample_provider "gpt" 3 0). split; [reflexivity|]. split.
  - rewrite gateway_tables. exists quick_alias, sample_provider. split_and!; try reflexivity.
    + apply elem_of_app. right. apply list_elem_of_here.
    + split_and!; [apply list_elem_of_here|reflexivity..].
    + intros m [->|Hm]%elem_of_cons _; [reflexivity|by apply elem_of_nil in Hm].
  - change (db_endpoints (cn_db (gw_conn gateway_reached))) with (rd_Endpoints (tables (cn_db (gw_conn gateway_reached)))).
    rewrite gateway_tables. exists (mkEndpoint "e1" "p1" "/v1/chat/completions" "POST" true true 0).
    split_and!; [apply list_elem_of_here|reflexivity..].
Qed.

Lemma gateway_weights : weights_fit (cn_db (gw_conn gateway_reached)).
Proof.
  exists 3. split; [lia|]. change (db_aliases (cn_db (gw_conn gateway_reached))) with (rd_Aliases (tables (cn_db (gw_conn gateway_reached)))).
  change (db_models (cn_db (gw_conn gateway_reached))) with (rd_Models (tables (cn_db (gw_conn gateway_reached)))).
  rewrite gateway_tables. split; [|vm_compute; discriminate].
  intros a [->|[->|Ha]%elem_of_cons]%elem_of_cons; [vm_compute; split; done..|by apply elem_of_nil in Ha].
Qed.

Lemma routing_follows_the_tables_witness :
  exists g', cat_worker (gw_cat g') = WIdle /\
    exists res, (@Route (gateway_env (cat_snap (gw_cat g'))) insertion_SortSlice "quick" "/v1/chat/completions"
                   (mkRouter {["p1" := NewCircuitBreaker 0]} 0)).1 = Ok res.
Proof.
  assert (Hr : gateway_run (order := insertion_SortSlice) gateway_events
    (start (order := insertion_SortSlice) (mkConn gateway_db 0)) = Some gateway_reached) by (vm_compute; reflexivity).
  assert (Hw : Forall wired gateway_events) by (repeat constructor).
  destruct (routing_follows_the_tables insertion_SortSlice (mkConn gateway_db 0) gateway_events gateway_reached
    gateway_db_wf Hw Hr eq_refl eq_refl) as (es' & g' & _ & _ & _ & _ & Hi & _ & H).
  exists g'. split; [exact Hi|].
  destruct (H (gateway_env (cat_snap (gw_cat g'))) insertion_SortSlice "quick" "/v1/chat/completions"
    (mkRouter {["p1" := NewCircuitBreaker 0]} 0) (fun _ => eq_refl)) as [_ H2].
  apply H2; [exact gateway_weights|]. exists true, quick_candidate. split; [exact quick_offered|].
  right. exists (NewCircuitBreaker 0). split; [reflexivity|discriminate].
Defined.
