(* ===== verification/StoreApi.v ===== *)
(** The interface [db.Store] of [internal/db/store.go]: its methods as data,
    the ones that change rows in {!StoreOp} and the ones that only read in
    {!StoreQuery}; the step on the tables each writing method promises to the
    handlers, the workers and the catalog; the SQLite store, which keeps the
    promises whatever fails; and what a client of it sees. *)
From S2P Require Import Prelude GoLib Float64 Models Http Sql Store Stats Reports Reply Admin AdminApi.
Local Open Scope Z_scope.
Local Open Scope go_scope.

(** * The methods that read *)

(** Each with the type of its result; a series has the fuel of its axis. *)
Inductive StoreQuery : Type -> Type :=
| QGetProvider (id : string) : StoreQuery Provider
| QListProviders : StoreQuery (list Provider)
| QListProviderEndpoints (providerID : string) : StoreQuery (list ProviderEndpoint)
| QListProviderModels (providerID : string) : StoreQuery (list ProviderModel)
| QListAllModels : StoreQuery (list ProviderModel)
| QListAliases : StoreQuery (list ModelAlias)
| QResolveAlias (alias : string) : StoreQuery (list ModelAlias)
| QLoadRoutingData : StoreQuery RoutingData
| QGetHealthyProvidersForModel (modelID : string) : StoreQuery (list Provider)
| QGetEnabledEndpoint (providerID path : string) : StoreQuery (option ProviderEndpoint)
| QQueryRequestLogs (f : LogFilter) : StoreQuery (list RequestLog * Z)
| QGetRequestLog (id : string) : StoreQuery RequestLog
| QGetAPIKeyByHash (keyHash : string) : StoreQuery (option APIKey)
| QGetAPIKey (id : string) : StoreQuery APIKey
| QListAPIKeys : StoreQuery (list APIKey)
| QQueryLogsByAPIKey (apiKeyID : string) (f : LogFilter) : StoreQuery (list RequestLog * Z)
| QUsageByAPIKey (since until : Z) : StoreQuery (list APIKeyUsage)
| QUsageByAPIKeyModel (apiKeyID : string) (since until : Z) : StoreQuery (list GroupStats)
| QGetAllConfig : StoreQuery (gmap string string)
| QGetStreamingLogs (requestLogID : string) : StoreQuery (list StreamingLog)
| QGetProviderModelCosts (providerID modelID : string) : StoreQuery (option ProviderModel)
| QGetDashboardStats (since until : Z) : StoreQuery DashboardStats
| QGetDashboardStatsForAPIKey (apiKeyID : string) (since until : Z) : StoreQuery DashboardStats
| QGetTimeSeries (fuel : nat) (since until : Z) (granularity : string) : StoreQuery (option (list TimeSeriesPoint))
| QTimeSeriesByAPIKey (fuel : nat) (apiKeyID : string) (since until : Z) (granularity : string) :
    StoreQuery (option (list TimeSeriesPoint))
| QGetLifetimeCost : StoreQuery LifetimeCost
| QGetLifetimeCostForAPIKey (apiKeyID : string) : StoreQuery LifetimeCost.

(** * The interface *)

(** A store: its content read as tables, and its methods. *)
Class StoreI (C : Type) := {
  st_db : C -> DB;
  st_do : StoreOp -> ST C (DBError + unit);
  st_ask : forall A, StoreQuery A -> ST C (DBError + A);
}.
Arguments st_ask {C _ A} q.

(** ** What a method does, in one step *)

(** Programs of statements that change the tables as a whole or not at all. *)
Definition sret {A} (a : A) : Stmt A := fun db => inr (a, db).
Definition sfail {A} (e : DBError) : Stmt A := fun db => inl e.
Definition sbind {A B} (s : Stmt A) (k : A -> Stmt B) : Stmt B :=
  fun db => match s db with inl e => inl e | inr (a, db') => k a db' end.
Fixpoint sfor {A} (f : A -> Stmt unit) (l : list A) : Stmt unit :=
  match l with
  | [] => sret tt
  | x :: l' => sbind (f x) (fun _ => sfor f l')
  end.

(** A change that must find its row, and one that need not. *)
Definition hitting (missing : DBError) (s : Stmt Z) : Stmt unit := sbind s (fun n => if n =? 0 then sfail missing else sret tt).
Definition anyway {A} (s : Stmt A) : Stmt unit := sbind s (fun _ => sret tt).

(** Rows by their key. *)
Definition by_id {A} (key : A -> string) (id : string) (x : A) : bool := String.eqb (key x) id.

(** The change each method promises: one step of the tables, whatever number
    of statements a store needs for it. *)
Definition promised (op : StoreOp) : Stmt unit :=
  match op with
  | OpCreateProvider p => insert_provider (provider_row (NormalizeCircuitBreaker p))
  | OpUpdateProvider p =>
      let p := NormalizeCircuitBreaker p in hitting ErrNoneAffected (update_providers (by_id p_ID (p_ID p)) (provider_update p))
  | OpDeleteProvider id => hitting ErrNoneAffected (delete_providers id)
  | OpUpdateProviderHealth now id healthy =>
      hitting ErrNoneAffected (update_providers (by_id p_ID id) (fun p => set_p_HealthCheckedAt (Some now) (set_p_IsHealthy healthy p)))
  | OpUpsertProviderEndpoints pid eps => sfor (fun ep => upsert_endpoint (endpoint_of pid ep)) eps
  | OpUpdateProviderEndpoint ep =>
      hitting ErrNoneAffected (update_endpoints (by_id ep_ID (ep_ID ep)) (set_ep_IsEnabled (ep_IsEnabled ep)))
  | OpSyncProviderModels now uuid pid ids =>
      sfor (fun im => insert_or_ignore_model (synced_model (uuid im.1) pid im.2 now))
        (keep (fun im => negb (str_empty im.2)) (imap pair ids))
  | OpCreateProviderModel m => insert_model (scanProviderModel m None None None None (pm_MaxContext m))
  | OpDeleteProviderModel pid rid => hitting ErrNoRows (delete_models (model_record pid rid))
  | OpSetProviderModelsAvailability pid ids =>
      sbind (update_models (by_id pm_ProviderID pid) (set_pm_IsAvailable false)) (fun _ =>
        sfor (fun mid => anyway (update_models (model_of pid mid) (set_pm_IsAvailable true))) (keep (fun mid => negb (str_empty mid)) ids))
  | OpUpdateProviderModelAvailability pid rid available =>
      hitting ErrNoRows (update_models (model_record pid rid) (set_pm_IsAvailable available))
  | OpUpdateProviderModelCosts id m => hitting ErrNoRows (update_models (by_id pm_ID id) (model_costs m))
  | OpCreateAlias a => insert_alias a
  | OpUpdateAlias a => hitting ErrNoneAffected (update_aliases (by_id a_ID (a_ID a)) (alias_update a))
  | OpDeleteAlias id => anyway (delete_aliases (by_id a_ID id))
  | OpCreateAPIKey k => insert_key (key_row k)
  | OpUpdateAPIKey k => anyway (update_keys (by_id k_ID (k_ID k)) (key_update k))
  | OpDeleteAPIKey id => anyway (delete_keys (by_id k_ID id))
  | OpTouchAPIKeyLastUsed id at_ => anyway (update_keys (by_id k_ID id) (set_k_LastUsedAt (Some at_)))
  | OpSetConfig key value => fun db => inr (tt, set_config (<[key := value]> (db_config db)) db)
  | OpInsertRequestLog l => insert_log (log_row l)
  | OpPurgeRequestBodies t =>
      anyway (update_logs (fun l => (log_CreatedAt l <? t) && negb (str_empty (log_RequestBody l))) (set_log_RequestBody EmptyString))
  | OpPurgeResponseBodies t =>
      anyway (update_logs (fun l => (log_CreatedAt l <? t) && negb (str_empty (log_ResponseBody l))) (set_log_ResponseBody EmptyString))
  | OpInsertStreamingLog uuid now l => insert_chunk (chunk_row uuid now l)
  | OpPurgeStreamingLogs t =>
      anyway (update_chunks
        (fun l => (sl_CreatedAt l <? t) && (negb (sl_BodyPurged l) || negb (str_empty (sl_Data l)) || negb (str_empty (sl_ContentDelta l))))
        (fun l => set_sl_BodyPurged true (set_sl_ContentDelta EmptyString (set_sl_Data EmptyString l))))
  end.

(** A writing call does what it promises, or reports an error and does
    nothing: the error the promise has there, or that of a fault. *)
Definition written (faulty : Prop) (op : StoreOp) (db : DB) (r : DBError + unit) (db' : DB) : Prop :=
  match r with
  | inr tt => promised op db = inr (tt, db')
  | inl e => db' = db /\ (promised op db = inl e \/ faulty /\ e = ErrFault)
  end.

(** A store that keeps its promises; [answer] says what its queries read in
    tables. *)
Class Promises (C : Type) `{StoreI C} (faulty : Prop) (answer : forall A, StoreQuery A -> DB -> DBError + A) := {
  pr_do : forall op c, written faulty op (st_db c) (st_do op c).1 (st_db (st_do op c).2);
  pr_ask : forall A (q : StoreQuery A) c,
    st_db (st_ask q c).2 = st_db c /\ ((st_ask q c).1 = answer A q (st_db c) \/ faulty /\ (st_ask q c).1 = inl ErrFault);
}.

(** The methods that read, down to their statements. *)
Ltac open_query :=
  unfold GetProvider, ListProviders, ListProviderEndpoints, ListProviderModels, ListAllModels, ListAliases, ResolveAlias,
    LoadRoutingData, ListProviders, ListAllModels, ListAliases, listAllEndpoints, GetHealthyProvidersForModel, GetEnabledEndpoint,
    QueryRequestLogs, GetRequestLog, GetAPIKeyByHash, GetAPIKey, ListAPIKeys, QueryLogsByAPIKey, query_logs, UsageByAPIKey,
    UsageByAPIKeyModel, breakdown_query, GetAllConfig, GetStreamingLogs, GetProviderModelCosts, find_row, GetDashboardStats,
    GetDashboardStatsForAPIKey, dashboardStats, breakdown_query, GetTimeSeries, TimeSeriesByAPIKey, timeSeries, series_rows,
    GetLifetimeCost, GetLifetimeCostForAPIKey, lifetimeCost.

(** ** The SQLite store *)

Section SQLite.
Context (fault : nat -> bool) `{order : SortSlice} (sum_real avg_real : list f64 -> f64).
Context (bare_row : list RequestLog -> option RequestLog).

Definition ask {A} (q : StoreQuery A) : Exec A :=
  match q in StoreQuery A return Exec A with
  | QGetProvider id => GetProvider fault id
  | QListProviders => ListProviders fault
  | QListProviderEndpoints pid => ListProviderEndpoints fault pid
  | QListProviderModels pid => ListProviderModels fault pid
  | QListAllModels => ListAllModels fault
  | QListAliases => ListAliases fault
  | QResolveAlias alias => ResolveAlias fault alias
  | QLoadRoutingData => LoadRoutingData fault
  | QGetHealthyProvidersForModel mid => GetHealthyProvidersForModel fault mid
  | QGetEnabledEndpoint pid path => GetEnabledEndpoint fault pid path
  | QQueryRequestLogs f => QueryRequestLogs fault f
  | QGetRequestLog id => GetRequestLog fault id
  | QGetAPIKeyByHash hash => GetAPIKeyByHash fault hash
  | QGetAPIKey id => GetAPIKey fault id
  | QListAPIKeys => ListAPIKeys fault
  | QQueryLogsByAPIKey kid f => QueryLogsByAPIKey fault kid f
  | QUsageByAPIKey since until => UsageByAPIKey fault sum_real since until
  | QUsageByAPIKeyModel kid since until => UsageByAPIKeyModel fault avg_real kid since until
  | QGetAllConfig => GetAllConfig fault
  | QGetStreamingLogs id => GetStreamingLogs fault id
  | QGetProviderModelCosts pid mid => GetProviderModelCosts fault pid mid
  | QGetDashboardStats since until => GetDashboardStats fault avg_real bare_row since until
  | QGetDashboardStatsForAPIKey kid since until => GetDashboardStatsForAPIKey fault avg_real bare_row kid since until
  | QGetTimeSeries fuel since until g => GetTimeSeries fault sum_real fuel since until g
  | QTimeSeriesByAPIKey fuel kid since until g => TimeSeriesByAPIKey fault sum_real fuel kid since until g
  | QGetLifetimeCost => GetLifetimeCost fault sum_real
  | QGetLifetimeCostForAPIKey kid => GetLifetimeCostForAPIKey fault sum_real kid
  end.

#[export] Instance SQLiteStore : StoreI Conn := {|
  st_db := cn_db;
  st_do := run_op fault;
  st_ask A q := ask q;
|}.

End SQLite.

(** ** It keeps the promises *)

Section Computes.
Context (fault : nat -> bool).

(** An operation computes a step: it succeeds with its result and its tables,
    or fails with its error or that of a fault, whatever it leaves. *)
Definition computes {A} (m : Exec A) (s : Stmt A) : Prop :=
  forall c, match m c with
            | (inr a, c') => s (cn_db c) = inr (a, cn_db c')
            | (inl e, _) => s (cn_db c) = inl e \/ (exists n, fault n = true) /\ e = ErrFault
            end.

Lemma computes_ext {A} (m : Exec A) (s s' : Stmt A) : computes m s -> (forall db, s db = s' db) -> computes m s'.
Proof. intros Hm Hs c. specialize (Hm c). destruct (m c) as [[e|a] c']; by rewrite <- Hs. Qed.

Lemma computes_ret {A} (a : A) : computes (eret a) (sret a).
Proof. by intros c. Qed.

Lemma computes_fail {A} e : computes (A:=A) (efail e) (sfail e).
Proof. intros c. by left. Qed.

Lemma computes_exec {A} (s : Stmt A) : computes (exec fault s) s.
Proof. intros c. unfold exec. destruct (fault _) eqn:E; [right; eauto|]. destruct (s (cn_db c)) as [e|[a db]]; auto. Qed.

Lemma computes_bind {A B} (m : Exec A) (k : A -> Exec B) s t :
  computes m s -> (forall a, computes (k a) (t a)) -> computes (ebind m k) (sbind s t).
Proof.
  intros Hm Hk c. unfold ebind, sbind. specialize (Hm c). destruct (m c) as [[e|a] c1].
  - destruct Hm as [->|]; auto.
  - rewrite Hm. apply Hk.
Qed.

Lemma computes_transaction {A} (m : Exec A) s : computes m s -> computes (transaction fault m) s.
Proof.
  intros Hm c. unfold transaction. destruct (fault (cn_stmts c)) eqn:E; [right; eauto|].
  specialize (Hm (mkConn (cn_db c) (S (cn_stmts c)))). destruct (m _) as [[e|a] c1]; [done|].
  destruct (fault (cn_stmts c1)) eqn:E1; [right; eauto|done].
Qed.

Lemma computes_must_affect missing n : computes (must_affect missing n) (if n =? 0 then sfail missing else sret tt).
Proof. unfold must_affect. destruct (n =? 0); auto using computes_fail, computes_ret. Qed.

Lemma computes_hitting missing (s : Stmt Z) : computes (sql! n := exec fault s in must_affect missing n) (hitting missing s).
Proof. apply computes_bind; [apply computes_exec|apply computes_must_affect]. Qed.

Lemma computes_anyway {A} (s : Stmt A) : computes (exec fault s >>+ eret tt) (anyway s).
Proof. apply computes_bind; [apply computes_exec|intros _; apply computes_ret]. Qed.

Lemma computes_for {A} (f : A -> Exec unit) (g : A -> Stmt unit) l :
  (forall x, computes (f x) (g x)) -> computes (efor f l) (sfor g l).
Proof. intros Hf. induction l as [|x l IH]; simpl; [apply computes_ret|by apply computes_bind]. Qed.

(** A loop that skips some of its elements. *)
Lemma sfor_skips {A} (p : A -> bool) (f : A -> Stmt unit) l db :
  sfor (fun x => if p x then sret tt else f x) l db = sfor f (keep (fun x => negb (p x)) l) db.
Proof.
  revert db. unfold keep. induction l as [|x l IH]; intros db; [done|]. cbn [sfor List.filter]. unfold sbind.
  destruct (p x); simpl; [apply IH|]. unfold sbind. destruct (f x db) as [|[[] db']]; [done|apply IH].
Qed.

Lemma computes_op op : computes (run_op fault op) (promised op).
Proof.
  destruct op; cbn [run_op promised];
    try first [apply computes_exec | apply computes_hitting | apply computes_anyway
              | apply computes_transaction, computes_for; intros; apply computes_exec
              | apply computes_transaction, computes_hitting].
  - eapply computes_ext; [apply computes_bind; [apply computes_bind; [apply computes_exec|]|]; intros; apply computes_ret|].
    intros db. unfold sbind, sret. by destruct (insert_provider _ db) as [|[[] ?]].
  - eapply computes_ext; [apply computes_bind; [apply computes_bind; [apply computes_exec|]|]|].
    + intros n. apply computes_bind; [apply computes_must_affect|intros; apply computes_ret].
    + intros; apply computes_ret.
    + intros db. unfold hitting, sbind, sret, by_id. destruct (update_providers _ _ db) as [|[n ?]]; [done|]. by destruct (n =? 0).
  - eapply computes_ext; [apply computes_transaction, (computes_for _ (fun im => if str_empty im.2 then sret tt else
        insert_or_ignore_model (synced_model (uuid im.1) providerID im.2 now)))|].
    + intros [i mid]. simpl. destruct (str_empty mid); [apply computes_ret|apply computes_exec].
    + intros db. apply (sfor_skips (fun im => str_empty im.2)).
  - eapply computes_ext; [apply computes_transaction, computes_bind; [apply computes_exec|intros n]|].
    + apply (computes_for _ (fun mid => if str_empty mid then sret tt else anyway (update_models (model_of providerID mid) (set_pm_IsAvailable true)))).
      intros mid. unfold enable_one. destruct (str_empty mid); [apply computes_ret|apply computes_anyway].
    + intros db. unfold sbind, by_id. destruct (update_models _ _ db) as [|[n db']]; [done|]. apply (sfor_skips str_empty).
Qed.

(** A query that reads the same tables gives the same result as when no
    statement fails, or the error of a fault. *)
Definition agrees {A} (m m0 : Exec A) : Prop :=
  forall c c0, cn_db c0 = cn_db c ->
    match m c with
    | (inr a, c') => exists c1, m0 c0 = (inr a, c1) /\ cn_db c1 = cn_db c'
    | (inl e, _) => (exists c1, m0 c0 = (inl e, c1)) \/ (exists n, fault n = true) /\ e = ErrFault
    end.

Lemma agrees_ret {A} (a : A) : agrees (eret a) (eret a).
Proof. intros c c0 E. by exists c0. Qed.

Lemma agrees_fail {A} e : agrees (A:=A) (efail e) (efail e).
Proof. intros c c0 E. left. by exists c0. Qed.

Lemma agrees_exec {A} (s : Stmt A) : agrees (exec fault s) (exec no_fault s).
Proof.
  intros c c0 E. unfold exec. rewrite E. destruct (fault _) eqn:Ef; [right; eauto|].
  destruct (s (cn_db c)) as [e|[a db]]; [left|]; by eexists.
Qed.

Lemma agrees_bind {A B} (m m0 : Exec A) (k k0 : A -> Exec B) :
  agrees m m0 -> (forall a, agrees (k a) (k0 a)) -> agrees (ebind m k) (ebind m0 k0).
Proof.
  intros Hm Hk c c0 E. unfold ebind. specialize (Hm c c0 E). destruct (m c) as [[e|a] c1].
  - destruct Hm as [[c2 ->]|]; [left; by eexists|by right].
  - destruct Hm as (c2 & -> & E2). by apply Hk.
Qed.

Lemma agrees_found {A} (r : option A) : agrees (found r) (found r).
Proof. destruct r; [apply agrees_ret|apply agrees_fail]. Qed.

End Computes.

Section SQLitePromises.
Context (fault : nat -> bool) `{order : SortSlice} (sum_real avg_real : list f64 -> f64).
Context (bare_row : list RequestLog -> option RequestLog).

Lemma ask_reads {A} (q : StoreQuery A) : reads (ask fault sum_real avg_real bare_row q).
Proof. destruct q; cbn [ask]; open_query; reads_tac. Qed.

Lemma ask_agrees {A} (q : StoreQuery A) :
  agrees fault (ask fault sum_real avg_real bare_row q) (ask no_fault sum_real avg_real bare_row q).
Proof.
  destruct q; cbn [ask]; open_query; unfold query, query_or;
    repeat first [apply agrees_exec | apply agrees_ret | apply agrees_found | apply agrees_fail
                 | apply agrees_bind; [|intros] | match goal with |- agrees _ (if ?b then _ else _) _ => destruct b end
                 | match goal with |- agrees _ (let '(_, _) := ?x in _) _ => destruct x end].
Qed.

(** What a query reads in tables: its result when nothing fails. *)
Definition answer (A : Type) (q : StoreQuery A) (db : DB) : DBError + A :=
  (ask no_fault sum_real avg_real bare_row q (mkConn db 0)).1.

#[export] Program Instance SQLite_Promises :
  Promises (H:=SQLiteStore fault sum_real avg_real bare_row) Conn (exists n, fault n = true) answer.
Next Obligation.
  intros op c. simpl. pose proof (computes_op fault op c) as K. pose proof (run_op_atomic fault op c) as T.
  destruct (run_op fault op c) as [[e|[]] c']; simpl in *; [by split|exact K].
Qed.
Next Obligation.
  intros A q c. simpl. split; [apply ask_reads|]. unfold answer. pose proof (ask_agrees q c (mkConn (cn_db c) 0) eq_refl) as K.
  destruct (ask fault _ _ _ q c) as [[e|a] c']; simpl in *.
  - destruct K as [[c1 ->]|[K ->]]; [by left|by right].
  - destruct K as (c1 & -> & _). by left.
Qed.

End SQLitePromises.

(** * Clients of the interface *)

(** A client calls methods one after the other; what it calls next may depend
    on all results so far, errors included. *)
Inductive Program (A : Type) : Type :=
| Return (a : A)
| Do (op : StoreOp) (k : DBError + unit -> Program A)
| Ask {B} (q : StoreQuery B) (k : DBError + B -> Program A).
Arguments Return {A} a.
Arguments Do {A} op k.
Arguments Ask {A B} q k.

Section Clients.
Context {C : Type} `{StoreI C}.

Fixpoint run_program {A} (p : Program A) (c : C) : A * C :=
  match p with
  | Return a => (a, c)
  | Do op k => let '(r, c') := st_do op c in run_program (k r) c'
  | Ask q k => let '(r, c') := st_ask q c in run_program (k r) c'
  end.

(** The successful changes of a run, in order. *)
Fixpoint changes {A} (p : Program A) (c : C) : list StoreOp :=
  match p with
  | Return _ => []
  | Do op k => let '(r, c') := st_do op c in match r with inl _ => [] | inr _ => [op] end ++ changes (k r) c'
  | Ask q k => let '(r, c') := st_ask q c in changes (k r) c'
  end.

End Clients.

(** ** The ideal run *)

(** A run of a client on tables: each writing call is one step, each query
    reads the tables of its moment, and a failed call changes nothing. *)
Section Ideal.
Context (faulty : Prop) (answer : forall A, StoreQuery A -> DB -> DBError + A).

Inductive ideal {A : Type} : Program A -> DB -> A -> DB -> Prop :=
| ideal_return a db : ideal (Return a) db a db
| ideal_do op k db r db1 a db2 : written faulty op db r db1 -> ideal (k r) db1 a db2 -> ideal (Do op k) db a db2
| ideal_ask {B} (q : StoreQuery B) k db r a db1 :
    r = answer B q db \/ faulty /\ r = inl ErrFault -> ideal (k r) db a db1 -> ideal (Ask q k) db a db1.

End Ideal.

Section Refinement.
Context {C : Type} {faulty : Prop} {reading : forall A, StoreQuery A -> DB -> DBError + A} `{P : Promises C faulty reading}.

Lemma program_ideal {A} (p : Program A) c : ideal faulty reading p (st_db c) (run_program p c).1 (st_db (run_program p c).2).
Proof.
  revert c. induction p as [a|op k IH|B q k IH]; intros c; simpl; [constructor|..].
  - pose proof (pr_do op c) as W. destruct (st_do op c) as [r c1]. econstructor; [exact W|apply IH].
  - destruct (pr_ask B q c) as [E W]. destruct (st_ask q c) as [r c1]. simpl in *. rewrite <- E in *. econstructor; [exact W|apply IH].
Qed.

Lemma program_changes {A} (p : Program A) c : changes p c = [] -> st_db (run_program p c).2 = st_db c.
Proof.
  revert c. induction p as [a|op k IH|B q k IH]; intros c; simpl; [done|..].
  - pose proof (pr_do op c) as W. destruct (st_do op c) as [[e|[]] c1]; simpl in *; [|done]. intros Hc. rewrite IH by done. by apply W.
  - destruct (pr_ask B q c) as [E _]. destruct (st_ask q c) as [r c1]. simpl in *. intros Hc. by rewrite IH.
Qed.

End Refinement.

(** What is promised keeps the tables well formed, and so does the ideal run. *)
Lemma promised_wf op : stmt_wf (promised op).
Proof.
  intros db W. pose proof (computes_op no_fault op (mkConn db 0)) as K. pose proof (run_op_wf no_fault op (mkConn db 0) W) as W'.
  destruct (run_op no_fault op (mkConn db 0)) as [[e|[]] c']; simpl in *; [|by rewrite K].
  destruct K as [->|[[n K] _]]; done.
Qed.

Lemma ideal_wf faulty reading {A} (p : Program A) db a db' : ideal faulty reading p db a db' -> wf db -> wf db'.
Proof.
  induction 1 as [|op k db r db1 a db2 Hw _ IH|]; intros W; auto. apply IH.
  pose proof (promised_wf op db W) as K. destruct r as [e|[]]; simpl in Hw; [by destruct Hw as [-> _]|by rewrite Hw in K].
Qed.

(** C28: A client of the store sees its methods happen in one step each.
    Whatever methods a client calls on the SQLite store, in whatever order,
    on whatever results, and whichever statements, begins and commits fail:
    the client gets the result, and leaves the tables, of a run on plain
    tables in which every writing method makes the whole change it promises
    or, with the error of the promise or of a fault, none of it, and in which
    every query reads what a database without faults reads there; an error
    of a fault needs a fault.  Tables that were well formed stay so, and
    a client none of whose changes succeeds leaves the tables as they were. *)
Theorem clients_see_whole_changes (fault : nat -> bool) (order : SortSlice) (sum_real avg_real : list f64 -> f64)
    (bare_row : list RequestLog -> option RequestLog) {A : Type} (p : Program A) (c : Conn) :
  let store := SQLiteStore fault sum_real avg_real bare_row in
  let c' := (run_program (H:=store) p c).2 in
  ideal (exists n, fault n = true) (answer sum_real avg_real bare_row) p (cn_db c) (run_program (H:=store) p c).1 (cn_db c') /\
  (wf (cn_db c) -> wf (cn_db c')) /\ (changes (H:=store) p c = [] -> cn_db c' = cn_db c).
Proof.
  intros store c'. pose proof (program_ideal (P:=SQLite_Promises fault sum_real avg_real bare_row) p c) as K.
  split; [exact K|]. split; [by eapply ideal_wf|]. apply (program_changes (P:=SQLite_Promises fault sum_real avg_real bare_row)).
Qed.

(** * Witness *)

(** A client that looks a key up and notes its use. *)
Definition touch_by_hash (hash : string) (at_ : Z) : Program bool :=
  Ask (QGetAPIKeyByHash hash) (fun r =>
    match r with
    | inr (Some key) => Do (OpTouchAPIKeyLastUsed (k_ID key) at_) (fun r => Return (match r with inr _ => true | inl _ => false end))
    | _ => Return false
    end).

Example touch_by_hash_twice :
  let order := insertion_SortSlice in
  let store := SQLiteStore no_fault (fun _ => f64_zero) (fun _ => f64_zero) head in
  let c := mkConn (set_keys [mkAPIKey "k1" "h" "ops" true None None 0 None] empty_db) 0 in
  k_LastUsedAt <$> db_keys (cn_db (run_program (H := store) (touch_by_hash "h" 7) c).2) = [Some 7] /\
  changes (H := store) (touch_by_hash "x" 7) c = [].
Proof. vm_compute. done. Qed.

(** Two endpoints in one transaction; the second statement fails. *)
Definition two_endpoints : Program bool :=
  let ep id path := mkEndpoint id "p1" path "POST" true true 0 in
  Do (OpUpsertProviderEndpoints "p1" [ep "n1" "/v1/a"; ep "n2" "/v1/b"])
    (fun r => Return (match r with inr _ => true | inl _ => false end)).

Lemma clients_see_whole_changes_witness :
  let order := insertion_SortSlice in
  let store := SQLiteStore (fun n => Nat.eqb n 2) (fun _ => f64_zero) (fun _ => f64_zero) head in
  changes (H:=store) two_endpoints sample_conn = [] /\
  cn_db (run_program (H:=store) two_endpoints sample_conn).2 = sample_db.
Proof.
  intros order store. assert (E : changes (H:=store) two_endpoints sample_conn = []) by (vm_compute; reflexivity).
  split; [exact E|].
  apply (clients_see_whole_changes (fun n => Nat.eqb n 2) order (fun _ => f64_zero) (fun _ => f64_zero) head two_endpoints sample_conn).
  exact E.
Defined.
