(* ===== verification/Billing.v ===== *)
(** What the proxy handlers record and send, whatever happens to a request:
    every log they hand to the metrics names the caller of the request, its
    method and path, and the API key it was authenticated with, no request is
    recorded twice, and none goes to backends more than three times.  Unlike
    the protocol of {!Handler} this holds of panicking requests too. *)
From S2P Require Import Prelude GoLib Models Http Json Body Streaming Active Router Handler.
Local Open Scope Z_scope.
Local Open Scope go_scope.

(** * Provenance *)

(** The caller, the request and the key a log names. *)
Record origin := mkOrigin { or_IP : string; or_Method : string; or_Path : string; or_Key : keyAuth }.

Definition log_origin (log : RequestLog) : origin :=
  mkOrigin (log_ClientIP log) (log_Method log) (log_Path log) (mkKeyAuth (log_APIKeyID log) (log_APIKeyName log)).

(** A request without a key is recorded with an empty one. *)
Definition nobody : keyAuth := mkKeyAuth "" "".

Definition request_origin (r : Request) (key : option keyAuth) : origin :=
  mkOrigin (clientIP r) (req_Method r) (req_Path r) (default nobody key).

(** * A logic of logs and sends *)

Section Yields.
Context {R : Type} `{Router_ : !RouterI R} (env : HandlerEnv) (who : origin).

(** [m] records only logs of [who], sends at most [n] requests, and returns
    only values in [Q]. *)
Definition yields {A} (n : nat) (m : M R A) (Q : A -> Prop) : Prop :=
  forall w, exists t, wd_trace (m w).2 = wd_trace w ++ t /\
    Forall (fun log => log_origin log = who) (omap recorded_of t) /\ (length (omap sent_of t) <= n)%nat /\
    match (m w).1 with Ok a => Q a | _ => True end.

Lemma yields_silent {A} (m : M R A) (Q : A -> Prop) :
  (forall w, wd_trace (m w).2 = wd_trace w /\ match (m w).1 with Ok a => Q a | _ => True end) -> yields 0 m Q.
Proof. intros H w. destruct (H w) as [Ht HQ]. exists []. rewrite app_nil_r. by split_and!; [|constructor|simpl; lia|]. Qed.

Lemma yields_ret {A} (a : A) (Q : A -> Prop) : Q a -> yields 0 (mret a) Q.
Proof. intros H. by apply yields_silent. Qed.

Lemma yields_panic {A} msg (Q : A -> Prop) : yields 0 (mpanic msg) Q.
Proof. by apply yields_silent. Qed.

Lemma yields_weaken {A} n n' (m : M R A) (Q Q' : A -> Prop) :
  yields n m Q -> (n <= n')%nat -> (forall a, Q a -> Q' a) -> yields n' m Q'.
Proof.
  intros H Hn HQ w. destruct (H w) as (t & H1 & H2 & H3 & H4). exists t. split_and!; [done|done|lia|].
  by destruct (m w).1; [apply HQ| |].
Qed.

Lemma yields_bind {A B} n1 n2 (m : M R A) (k : A -> M R B) Q Q' :
  yields n1 m Q -> (forall a, Q a -> yields n2 (k a) Q') -> yields (n1 + n2) (mbind_ m k) Q'.
Proof.
  intros Hm Hk w. destruct (Hm w) as (t1 & H1 & H2 & H3 & H4). unfold mbind_.
  destruct (m w) as [[a|[]|msg] w1]; simpl in *; [|exists t1; split_and!; [done|done|lia|done]].
  destruct (Hk a H4 w1) as (t2 & K1 & K2 & K3 & K4). exists (t1 ++ t2). rewrite K1, H1, !omap_app, Forall_app, length_app, app_assoc.
  split_and!; [done|done|done|lia|done].
Qed.

(** One more event. *)
Lemma yields_event (f : World R -> World R) (e : Event) n :
  (forall w, wd_trace (f w) = wd_trace w ++ [e]) ->
  (forall log, recorded_of e = Some log -> log_origin log = who) -> (length (omap sent_of [e]) <= n)%nat ->
  yields n (effect f) (fun _ => True).
Proof.
  intros Hf Hr Hn w. exists [e]. split_and!; [apply Hf| |done|done]. csimpl.
  destruct (recorded_of e) eqn:E; [|constructor]. constructor; [by apply Hr|constructor].
Qed.

Lemma yields_now : yields 0 (now_ env) (fun _ => True).
Proof. by apply yields_silent. Qed.

Lemma yields_uuid : yields 0 (new_uuid env) (fun _ => True).
Proof. by apply yields_silent. Qed.

Lemma yields_elapsed st : yields 0 (elapsed_ms env st) (fun _ => True).
Proof. by apply yields_silent. Qed.

Lemma yields_cut {A} (o : Outcome unit A) d (Q : A -> Prop) : (forall a, Q a) -> yields 0 (lift_panic o d) Q.
Proof. intros H. apply yields_silent. intros w. destruct o as [a|e|msg]; split; try done; apply H. Qed.

Lemma yields_success id : yields 0 (report_success id) (fun _ => True).
Proof. by apply (yields_event _ (EvSuccess id)). Qed.

Lemma yields_failure id : yields 0 (report_failure id) (fun _ => True).
Proof. by apply (yields_event _ (EvFailure id)). Qed.

Lemma yields_record log : log_origin log = who -> yields 0 (record log) (fun _ => True).
Proof. intros H. apply (yields_event _ (EvRecord log)); [done|by intros ? [= <-]|done]. Qed.

Lemma yields_record_streaming log c d : log_origin log = who -> yields 0 (record_streaming log c d) (fun _ => True).
Proof. intros H. apply (yields_event _ (EvRecordStreaming log c d)); [done|by intros ? [= <-]|done]. Qed.

Lemma yields_error status msg : yields 0 (respondError status msg) (fun _ => True).
Proof. by apply (yields_event _ (EvReply status)). Qed.

Lemma yields_reply resp body status : yields 0 (reply_with resp body status) (fun _ => True).
Proof. by apply (yields_event _ (EvReply status)). Qed.

Lemma yields_start : yields 0 start_stream (fun _ => True).
Proof. by apply (yields_event _ (EvReply 200)). Qed.

Lemma yields_stream st model route resp : yields 0 (do_stream env st model route resp) (fun _ => True).
Proof. apply yields_silent. intros w. unfold do_stream. by destruct (proxyStreaming _ _ _). Qed.

Lemma yields_send req : yields 1 (do_send env req) (fun _ => True).
Proof. intros w. exists [EvSent req (he_do env (wd_trace w) req)]. by split_and!; [|constructor|simpl; lia|]. Qed.

Lemma yields_route model path : yields 0 (do_route model path) (fun _ => True).
Proof.
  intros w. unfold do_route. destruct (ri_route model path (wd_router w)) as [[route|e|msg] r].
  - exists [EvRouted route]. by split_and!; [|constructor|simpl; lia|].
  - exists [EvUnrouted]. by split_and!; [|constructor|simpl; lia|].
  - exists []. rewrite app_nil_r. by split_and!; [|constructor|simpl; lia|].
Qed.

End Yields.

Create HintDb go_yields.
#[export] Hint Resolve yields_now yields_uuid yields_elapsed yields_success yields_failure yields_error yields_reply
  yields_start yields_stream yields_send yields_route yields_record yields_record_streaming : go_yields.

(** * The handlers *)

Section Handlers.
Context {R : Type} `{Router_ : !RouterI R} (env : HandlerEnv) (who : origin).

Local Abbreviation any := (fun _ => True).

(** A step that sends nothing. *)
Lemma yields_then {A B} n (m : M R A) (k : A -> M R B) Q Q' :
  yields who 0 m Q -> (forall a, Q a -> yields who n (k a) Q') -> yields who n (mbind_ m k) Q'.
Proof. apply (yields_bind who 0 n). Qed.

Lemma yields_mret {A} n (a : A) (Q : A -> Prop) : Q a -> yields (R:=R) who n (mret a) Q.
Proof. intros H. eapply yields_weaken; [by apply yields_ret|lia|done]. Qed.

Lemma yields_mpanic {A} n msg (Q : A -> Prop) : yields (R:=R) who n (mpanic msg) Q.
Proof. eapply (yields_weaken who 0 n _ Q Q); [apply yields_panic|lia|done]. Qed.

Lemma yields_respond n status msg : yields (R:=R) who n (respondError status msg) any.
Proof. eapply yields_weaken; [apply yields_error|lia|done]. Qed.

Lemma yields_and_then {A B} n1 n2 (m : M R (Flow (option A))) (k : A -> M R (Flow (option B))) :
  yields who n1 m any -> (forall a, yields who n2 (k a) any) -> yields who (n1 + n2) (and_then m k) any.
Proof.
  intros Hm Hk. unfold and_then. eapply yields_bind; [exact Hm|]. intros [|[a|]] _; [by apply yields_mret|apply Hk|by apply yields_mret].
Qed.

Lemma yields_attempts {A} n (iteration : bool -> M R (Flow A)) (tail : M R A) :
  (forall last, yields who 1 (iteration last) any) -> yields who 0 tail any -> yields who n (attempts n iteration tail) any.
Proof.
  intros Hi Ht. induction n as [|n IH]; [exact Ht|]. cbn [attempts]. apply (yields_bind who 1 n _ _ any); [apply Hi|].
  intros [|a] _; [exact IH|by apply yields_mret].
Qed.

Lemma yields_tracked (r : Request) model path n (m : M R unit) :
  yields who n m any -> yields who n (do! trackID := beginTracking env r model path in with_end trackID m) any.
Proof.
  intros Hm. apply (yields_then _ _ _ any).
  - apply yields_silent. intros w. unfold beginTracking. by destruct (wd_active w).
  - intros id _ w. unfold with_end. destruct (Hm w) as (t & H1 & H2 & H3 & H4). exists t. destruct (m w) as [o w'].
    by destruct (str_empty id).
Qed.

End Handlers.

(** Walks through a handler; what is left are the branches and the origins of
    the logs recorded. *)
Ltac yield_step :=
  lazymatch goal with
  | |- yields _ _ (mret _) _ => apply yields_mret
  | |- yields _ _ (mbind_ (mbind_ _ _) _) _ => eapply yields_then
  | |- yields _ _ (mbind_ (do_send _ _) _) _ => apply (yields_bind _ 1 0 _ _ (fun _ => True)); [solve [eauto with go_yields]|intros ? _]
  | |- yields _ _ (mbind_ _ _) _ =>
      apply (yields_then _ _ _ _ (fun _ => True)); [solve [eauto with go_yields]|intros ? _]
  | |- yields _ _ (match ?x with _ => _ end) _ => destruct x
  | |- yields _ 0 _ _ => solve [eauto with go_yields]
  end.

Section Steps.
Context {R : Type} `{Router_ : !RouterI R} (env : HandlerEnv) (who : origin).

Lemma yields_fail log st status msg reply : log_origin log = who -> yields (R:=R) who 0 (fail env log st status msg reply) (fun _ => True).
Proof. intros H. unfold fail. repeat yield_step; done. Qed.
Hint Resolve yields_fail : go_yields.

Lemma yields_send_attempt last log st model path build :
  log_origin log = who -> yields (R:=R) who 1 (send_attempt env last log st model path build) (fun _ => True).
Proof.
  intros H. unfold send_attempt. apply yields_then with (Q := fun _ => True); [auto with go_yields|].
  intros [route|] _; [|destruct last; repeat yield_step; try done].
  all: repeat yield_step; done.
Qed.

Lemma yields_read last log st route resp :
  log_origin log = who -> yields (R:=R) who 0 (read_response env last log st route resp) (fun _ => True).
Proof. intros H. unfold read_response. repeat yield_step; done. Qed.

Lemma yields_server_error last log st route resp out :
  log_origin log = who -> yields (R:=R) who 0 (server_error env last log st route resp out) (fun _ => True).
Proof. intros H. unfold server_error. repeat yield_step; done. Qed.

Lemma usage_origin u log : log_origin (applyUsageToLog u log) = log_origin log.
Proof. unfold applyUsageToLog. by repeat case_match. Qed.

Lemma stream_usage_origin u log : log_origin (apply_stream_usage u log) = log_origin log.
Proof. unfold apply_stream_usage. by repeat case_match. Qed.

Lemma yields_log (m : M R RequestLog) (k : RequestLog -> M R (Flow (option unit))) :
  yields who 0 m (fun log => log_origin log = who) ->
  (forall log, log_origin log = who -> yields who 0 (k log) (fun _ => True)) -> yields who 0 (mbind_ m k) (fun _ => True).
Proof. intros Hm Hk. by apply (yields_then _ _ _ _ (fun log => log_origin log = who)). Qed.

Lemma yields_answer log st body isBinary route resp out :
  log_origin log = who -> yields (R:=R) who 0 (nonstreaming_answer env log st body isBinary route resp out) (fun _ => True).
Proof.
  intros H. unfold nonstreaming_answer. yield_step. cbv zeta.
  apply (yields_then _ _ _ _ (fun _ => True)); [by apply yields_cut|]. intros b _. apply yields_log.
  - destruct (is_2xx _); [|by yield_step]. yield_step. destruct (negb isBinary); [|by yield_step].
    apply (yields_then _ _ _ _ (fun _ => True)); [by apply yields_cut|]. intros b' _. yield_step.
    etransitivity; [exact (usage_origin _ _)|done].
  - intros log' H'. repeat yield_step; done.
Qed.

Lemma yields_transcription log st route resp out :
  log_origin log = who -> yields (R:=R) who 0 (transcription_answer env log st route resp out) (fun _ => True).
Proof.
  intros H. unfold transcription_answer. yield_step. cbv zeta. apply yields_log.
  - destruct (is_2xx _); repeat yield_step; [|done]. etransitivity; [apply usage_origin|done].
  - intros log' H'. repeat yield_step; done.
Qed.

(** Sending, reading, and what is made of the answer. *)
Lemma yields_whole last log st model path build (k : RouteResult -> BackendResponse -> string -> M R (Flow (option unit))) :
  log_origin log = who -> (forall route resp body, yields who 0 (k route resp body) (fun _ => True)) ->
  yields (R:=R) who 1 (and_then (send_attempt env last log st model path build) (fun '(route, resp) =>
    and_then (read_response env last log st route resp) (k route resp))) (fun _ => True).
Proof.
  intros H Hk. apply (yields_and_then _ 1 0); [by apply yields_send_attempt|]. intros [route resp].
  apply (yields_and_then _ 0 0); [by apply yields_read|]. intros body. apply Hk.
Qed.

Lemma yields_proxy r body model path isBinary st :
  who = request_origin r (apiKeyFromContext r) ->
  yields (R:=R) who 3 (proxyNonStreaming env r body model path isBinary st) (fun _ => True).
Proof.
  intros Hw. unfold proxyNonStreaming. apply yields_tracked. yield_step. set (log := stamp_key _ _).
  assert (H : log_origin log = who).
  { subst log who. unfold stamp_key, request_origin. by destruct (apiKeyFromContext r) as [[]|]. }
  clearbody log. apply (yields_bind _ 3 0 _ _ (fun _ => True)); [|by intros; yield_step].
  apply yields_attempts; [|unfold exhausted; by repeat yield_step]. intros last.
  apply yields_whole; [done|]. intros route resp b. cbv zeta.
  destruct (500 <=? _); [by apply yields_server_error|by apply yields_answer].
Qed.

Lemma yields_transcriptions form r :
  who = request_origin r None -> yields (R:=R) who 3 (HandleAudioTranscriptions env form r) (fun _ => True).
Proof.
  intros Hw. unfold HandleAudioTranscriptions. yield_step.
  destruct (extractModelFromMultipart form) as [text|[model mp]]; [apply yields_respond|].
  destruct (mp_rebuilt mp) as [text|[mbody ct]]; [apply yields_respond|].
  yield_step. set (log := start_log _ _ _ _ _ _). assert (H : log_origin log = who) by (by rewrite Hw).
  clearbody log. apply (yields_bind _ 3 0 _ _ (fun _ => True)); [|by intros; yield_step].
  apply yields_attempts; [|unfold exhausted; by repeat yield_step]. intros last.
  apply yields_whole; [done|]. intros route resp b. cbv zeta.
  destruct (500 <=? _); [by apply yields_server_error|by apply yields_transcription].
Qed.

Lemma yields_streaming_attempt r mbody model path st log last :
  log_origin log = who -> yields (R:=R) who 1 (streaming_attempt env r mbody model path st log last) (fun _ => True).
Proof.
  intros H. unfold streaming_attempt. apply (yields_and_then _ 1 0); [by apply yields_send_attempt|]. intros [route resp].
  repeat yield_step; done.
Qed.

Lemma yields_finish res log :
  log_origin log = who -> yields (R:=R) who 0 (finish_stream env res log) (fun _ => True).
Proof.
  intros H. unfold finish_stream. apply (yields_then _ _ _ _ (fun log => log_origin log = who)).
  - destruct (negb _); [|by yield_step]. apply (yields_then _ _ _ _ (fun _ => True)); [by apply yields_cut|].
    intros b _. by yield_step.
  - intros log' H'. repeat yield_step.
Qed.

Lemma yields_stream_answer log st model route resp :
  log_origin log = who -> yields (R:=R) who 0 (stream_answer env log st model route resp) (fun _ => True).
Proof.
  intros H. unfold stream_answer. do 3 (yield_step). cbv zeta.
  apply (yields_then _ _ _ _ (fun log => log_origin log = who)).
  - destruct (sr_err _); [|by repeat yield_step]. apply (yields_then _ _ _ _ (fun _ => True)); [|by intros; yield_step].
    destruct (negb _); by yield_step.
  - intros log' H'. apply yields_finish. by rewrite stream_usage_origin.
Qed.

Lemma yields_handle_streaming r body model path st :
  who = request_origin r (apiKeyFromContext r) ->
  yields (R:=R) who 3 (handleStreamingRequest env r body model path st) (fun _ => True).
Proof.
  intros Hw. unfold handleStreamingRequest. apply yields_tracked.
  destruct (injectStreamOptions body) as [mbody|e|msg]; [|apply yields_respond|].
  2: { apply yields_mpanic. }
  cbv zeta. yield_step. apply (yields_then _ _ _ _ (fun _ => True)); [by apply yields_cut|]. intros cut _.
  set (log := stamp_key _ _). assert (H : log_origin log = who).
  { subst log who. unfold stamp_key, request_origin. by destruct (apiKeyFromContext r) as [[]|]. }
  clearbody log. apply (yields_bind _ 3 0 _ _ (fun _ => True)).
  - apply yields_attempts; [|unfold no_response; by repeat yield_step]. intros last. by apply yields_streaming_attempt.
  - intros [[route resp]|] _; [by apply yields_stream_answer|by yield_step].
Qed.

Lemma yields_with_model extract missing r k :
  (forall st body model, yields who 3 (k st body model) (fun _ => True)) ->
  yields (R:=R) who 3 (with_model env extract missing r k) (fun _ => True).
Proof.
  intros Hk. unfold with_model. yield_step. destruct (read_body env r) as [body|]; [destruct (extract body)|];
    [apply Hk|apply yields_respond|apply yields_mpanic|
     apply yields_respond].
Qed.

Lemma yields_complete path r :
  who = request_origin r (apiKeyFromContext r) -> yields (R:=R) who 3 (complete env path r) (fun _ => True).
Proof.
  intros Hw. apply yields_with_model. intros st body model.
  destruct (stream_requested body); [by apply yields_handle_streaming|by apply yields_proxy].
Qed.

End Steps.


(** * No request is recorded twice *)

Section Books.
Context {R : Type} `{Router_ : !RouterI R}.

(** [m] records at most one log, and none when it returns a value of [open]. *)
Definition books {A} (m : M R A) (open : A -> Prop) : Prop :=
  forall w, exists t, wd_trace (m w).2 = wd_trace w ++ t /\ (length (omap recorded_of t) <= 1)%nat /\
    match (m w).1 with Ok a => open a -> omap recorded_of t = [] | _ => True end.

(** What yields logs of any origin records none. *)
Definition quiet {A} (m : M R A) : Prop := forall who, exists n, yields who n m (fun _ => True).

Lemma quiet_records {A} (m : M R A) (w : World R) : quiet m ->
  exists t, wd_trace (m w).2 = wd_trace w ++ t /\ omap recorded_of t = [].
Proof.
  intros Hm. destruct (Hm (mkOrigin "" "" "" nobody)) as [n1 H1], (Hm (mkOrigin "-" "" "" nobody)) as [n2 H2].
  destruct (H1 w) as (t & E & K & _), (H2 w) as (t2 & E2 & K2 & _). exists t. split; [done|].
  rewrite E in E2. apply app_inv_head in E2 as <-. destruct (omap recorded_of t) as [|log l]; [done|].
  apply Forall_cons in K as [K _], K2 as [K2 _]. congruence.
Qed.

Lemma books_quiet {A} (m : M R A) open : quiet m -> books m open.
Proof. intros Hm w. destruct (quiet_records m w Hm) as (t & H & E). exists t. rewrite E. by destruct (m w).1; split_and!; try done; simpl; lia. Qed.

Lemma books_weaken {A} (m : M R A) (open open' : A -> Prop) : books m open -> (forall a, open' a -> open a) -> books m open'.
Proof. intros Hm Ho w. destruct (Hm w) as (t & H1 & H2 & H3). exists t. destruct (m w).1; naive_solver. Qed.

Lemma books_bind {A B} (m : M R A) (k : A -> M R B) mid open :
  books m mid -> (forall a, mid a -> books (k a) open) ->
  (forall a, ~ mid a -> quiet (k a) /\ forall w, match (k a w).1 with Ok b => ~ open b | _ => True end) ->
  (forall a, mid a \/ ~ mid a) -> books (mbind_ m k) open.
Proof.
  intros Hm Hk Hq Hd w. destruct (Hm w) as (t1 & H1 & H2 & H3). unfold mbind_. destruct (m w) as [[a|[]|msg] w1]; simpl in *; [|by exists t1].
  destruct (Hd a) as [Ha|Ha].
  - destruct (Hk a Ha w1) as (t2 & K1 & K2 & K3). exists (t1 ++ t2). rewrite K1, H1, omap_app, (H3 Ha), app_assoc. by split_and!.
  - destruct (Hq a Ha) as [Q1 Q2]. destruct (quiet_records (k a) w1 Q1) as (t2 & K1 & K2). exists (t1 ++ t2).
    rewrite K1, H1, omap_app, K2, app_nil_r, app_assoc. split_and!; try done. specialize (Q2 w1). by destruct (k a w1).1.
Qed.

(** A step that records nothing first, or last. *)
Lemma books_then {A B} (m : M R A) (k : A -> M R B) open : quiet m -> (forall a, books (k a) open) -> books (mbind_ m k) open.
Proof.
  intros Hm Hk. apply (books_bind _ _ (fun _ => True)); [by apply books_quiet|auto| |auto]. intros a Ha. by destruct Ha.
Qed.

Lemma books_last {A B} (m : M R A) (k : A -> M R B) : books m (fun _ => False) -> (forall a, quiet (k a)) -> books (mbind_ m k) (fun _ => False).
Proof.
  intros Hm Hk. apply (books_bind _ _ (fun _ => False)); [done|done| |auto]. intros a _. split; [apply Hk|].
  intros w. by destruct (k a w).1; [intros []| |].
Qed.

(** An iteration that goes on has recorded nothing. *)
Definition goes_on {A} (flow : Flow (option A)) : Prop := match flow with Again | Stop (Some _) => True | Stop None => False end.
Definition again {A} (flow : Flow A) : Prop := match flow with Again => True | Stop _ => False end.

Lemma quiet_ret {A} (a : A) : quiet (mret a).
Proof. intros who. exists O. by apply yields_ret. Qed.

Lemma books_and_then {A B} (m : M R (Flow (option A))) (k : A -> M R (Flow (option B))) :
  books m goes_on -> (forall a, books (k a) goes_on) -> books (and_then m k) goes_on.
Proof.
  intros Hm Hk. unfold and_then. apply (books_bind _ _ goes_on); [done| | |].
  - intros [|[a|]] Ha; [apply books_quiet, quiet_ret|apply Hk|done].
  - intros [|[a|]] Ha; try (by destruct Ha). split; [apply quiet_ret|]. intros w H. exact H.
  - intros [|[a|]]; simpl; auto.
Qed.

Lemma books_attempts {A} n (iteration : bool -> M R (Flow A)) (tail : M R A) (open : A -> Prop) :
  (forall last, books (iteration last) (fun flow => match flow with Again => True | Stop a => open a end)) ->
  (forall a, open a \/ ~ open a) -> books tail open -> books (attempts n iteration tail) open.
Proof.
  intros Hi Hd Ht. induction n as [|n IH]; [done|]. cbn [attempts].
  apply (books_bind _ _ (fun flow => match flow with Again => True | Stop a => open a end)); [apply Hi| | |].
  - intros [|a] Ha; [done|apply books_quiet, quiet_ret].
  - intros [|a] Ha; [by destruct Ha|]. split; [apply quiet_ret|done].
  - intros [|a]; [auto|apply Hd].
Qed.

Lemma books_tracked env (r : Request) model path (m : M R unit) open :
  books m open -> books (do! trackID := beginTracking env r model path in with_end trackID m) open.
Proof.
  intros Hm. apply books_then.
  - intros who. exists O. apply yields_silent. intros w. unfold beginTracking. by destruct (wd_active w).
  - intros id w. unfold with_end. destruct (Hm w) as (t & H1 & H2 & H3). exists t. destruct (m w) as [o w']. by destruct (str_empty id).
Qed.

End Books.

Section Records.
Context {R : Type} `{Router_ : !RouterI R}.

Lemma books_one (f : World R -> World R) e : (forall w, wd_trace (f w) = wd_trace w ++ [e]) ->
  books (effect f) (fun _ => False).
Proof. intros Hf w. exists [e]. split; [apply Hf|]. split; [|by intros []]. csimpl. destruct (recorded_of e); simpl; lia. Qed.

Lemma books_record log : books (R:=R) (record log) (fun _ => False).
Proof. by apply (books_one _ (EvRecord log)). Qed.

Lemma books_record_streaming log c d : books (R:=R) (record_streaming log c d) (fun _ => False).
Proof. by apply (books_one _ (EvRecordStreaming log c d)). Qed.

Lemma books_done {A B} (m : M R A) (b : B) (open : B -> Prop) :
  books m (fun _ => False) -> ~ open b -> books (mbind_ m (fun _ => mret b)) open.
Proof.
  intros Hm Hb. apply (books_bind _ _ (fun _ => False)); [done|done| |auto]. intros a _. by split; [apply quiet_ret|].
Qed.

Lemma books_continue {A B C} (m : M R A) (k : A -> M R B) (k' : B -> M R C) open :
  books (mbind_ m (fun a => mbind_ (k a) k')) open -> books (mbind_ (mbind_ m k) k') open.
Proof. intros H w. specialize (H w). unfold mbind_ in *. by destruct (m w) as [[a|[]|msg] w1]. Qed.

Lemma books_regroup {A B C} (m : M R A) (k : M R B) (k' : M R C) open :
  books (mbind_ (mbind_ m (fun _ => k)) (fun _ => k')) open -> books (mbind_ m (fun _ => mbind_ k (fun _ => k'))) open.
Proof. intros H w. specialize (H w). unfold mbind_ in *. by destruct (m w) as [[a|[]|msg] w1]. Qed.

Lemma books_fail env log st status msg reply : books (R:=R) (fail env log st status msg reply) (fun _ => False).
Proof.
  unfold fail. apply books_then; [intros who; exists 0%nat; auto with go_yields|]. intros ms.
  apply books_last; [apply books_record|]. intros _ who. exists 0%nat. destruct reply; [auto with go_yields|by apply yields_mret].
Qed.

End Records.

(** Walks through a handler that records at the end of its branches. *)
Ltac quiet_tac := intros ?; first [exists 0%nat; solve [eauto with go_yields] | exists 1%nat; solve [eauto with go_yields]
  | exists 0%nat; apply yields_cut; done | exists 0%nat; by apply yields_mret | exists 0%nat; by apply yields_mpanic].
Ltac book_step :=
  lazymatch goal with
  | |- books (mbind_ (mbind_ _ _) _) _ => apply books_continue
  | |- books (mbind_ (mret _) _) _ => apply books_then; [apply quiet_ret|intros ?]
  | |- books (mbind_ (fail _ _ _ _ _ _) (fun _ => mret _)) _ => apply books_done; [apply books_fail|exact id]
  | |- books (mbind_ (record _) (fun _ => mret _)) _ => apply books_done; [apply books_record|exact id]
  | |- books (mbind_ (match ?x with _ => _ end) _) _ => destruct x
  | |- books (mbind_ _ _) _ => apply books_then; [solve [quiet_tac]|let a := fresh "a" in intros a]
  | |- books (match ?x with _ => _ end) _ => destruct x
  | |- books (mret _) _ => apply books_quiet, quiet_ret
  | |- books (mpanic _) _ => apply books_quiet; quiet_tac
  | |- books (respondError _ _) _ => apply books_quiet; quiet_tac
  | |- books (record _) _ => apply books_record
  | |- books (record_streaming _ _ _) _ => apply books_record_streaming
  end.

Section Recorded.
Context {R : Type} `{Router_ : !RouterI R} (env : HandlerEnv).

Lemma books_send_attempt last log st model path build :
  books (R:=R) (send_attempt env last log st model path build) goes_on.
Proof. unfold send_attempt. repeat book_step. Qed.

Lemma books_read last log st route resp : books (R:=R) (read_response env last log st route resp) goes_on.
Proof. unfold read_response. repeat book_step. Qed.

Lemma books_server_error last log st route resp out : books (R:=R) (server_error env last log st route resp out) goes_on.
Proof. unfold server_error. repeat book_step. Qed.

Lemma books_answer log st body isBinary route resp out :
  books (R:=R) (nonstreaming_answer env log st body isBinary route resp out) goes_on.
Proof. unfold nonstreaming_answer. cbv zeta. repeat book_step. Qed.

Lemma books_transcription log st route resp out : books (R:=R) (transcription_answer env log st route resp out) goes_on.
Proof. unfold transcription_answer. cbv zeta. repeat book_step. Qed.


Lemma goes_on_dec {A} (flow : Flow (option A)) : goes_on flow \/ ~ goes_on flow.
Proof. destruct flow as [|[a|]]; simpl; auto. Qed.

(** The loop of the attempts of a handler that does not stream. *)
Lemma books_loop n (iteration : bool -> M R (Flow (option unit))) (tail : M R (option unit)) :
  (forall last, books (iteration last) goes_on) -> books tail (fun _ => False) ->
  books (do! _ := attempts n iteration tail in mret tt) (fun _ => False).
Proof.
  intros Hi Ht. apply books_last; [|intros _; apply quiet_ret]. apply books_attempts; [|auto|done].
  intros last. eapply books_weaken; [apply Hi|]. by intros [|[?|]].
Qed.

Lemma books_exhausted log st : books (R:=R) (exhausted env log st) (fun _ => False).
Proof. unfold exhausted. repeat book_step. Qed.

Lemma books_whole last log st model path build (k : RouteResult -> BackendResponse -> string -> M R (Flow (option unit))) :
  (forall route resp body, books (k route resp body) goes_on) ->
  books (R:=R) (and_then (send_attempt env last log st model path build) (fun '(route, resp) =>
    and_then (read_response env last log st route resp) (k route resp))) goes_on.
Proof.
  intros Hk. apply books_and_then; [apply books_send_attempt|]. intros [route resp].
  apply books_and_then; [apply books_read|]. intros body. apply Hk.
Qed.

Lemma books_proxy r body model path isBinary st :
  books (R:=R) (proxyNonStreaming env r body model path isBinary st) (fun _ => False).
Proof.
  unfold proxyNonStreaming. apply books_tracked. book_step. apply books_loop; [|apply books_exhausted].
  intros last. apply books_whole. intros route resp b. cbv zeta.
  destruct (500 <=? _); [apply books_server_error|apply books_answer].
Qed.

Lemma books_transcriptions form r : books (R:=R) (HandleAudioTranscriptions env form r) (fun _ => False).
Proof.
  unfold HandleAudioTranscriptions. book_step.
  destruct (extractModelFromMultipart form) as [text|[model mp]]; [by book_step|].
  destruct (mp_rebuilt mp) as [text|[mbody ct]]; [by book_step|].
  book_step. apply books_loop; [|apply books_exhausted]. intros last.
  apply books_whole. intros route resp b. cbv zeta.
  destruct (500 <=? _); [apply books_server_error|apply books_transcription].
Qed.

Lemma books_streaming_attempt r mbody model path st log last :
  books (R:=R) (streaming_attempt env r mbody model path st log last) goes_on.
Proof.
  unfold streaming_attempt. apply books_and_then; [apply books_send_attempt|]. intros [route resp]. repeat book_step.
  apply books_regroup, books_done; [|exact id]. apply books_last; [apply books_record|]. intros _. quiet_tac.
Qed.

Lemma books_finish res log : books (R:=R) (finish_stream env res log) (fun _ => False).
Proof. unfold finish_stream. cbv zeta. repeat book_step. Qed.

Lemma books_stream_answer log st model route resp : books (R:=R) (stream_answer env log st model route resp) (fun _ => False).
Proof. unfold stream_answer. repeat book_step. all: apply books_finish. Qed.

Lemma books_handle_streaming r body model path st :
  books (R:=R) (handleStreamingRequest env r body model path st) (fun _ => False).
Proof.
  unfold handleStreamingRequest. apply books_tracked. destruct (injectStreamOptions body) as [mbody|e|msg]; [|by book_step..].
  cbv zeta. do 2 book_step. apply (books_bind _ _ (fun sent => match sent with Some _ => True | None => False end)).
  - apply books_attempts; [|intros [?|]; auto|unfold no_response; by repeat book_step].
    intros last. eapply books_weaken; [apply books_streaming_attempt|]. by intros [|[?|]].
  - intros [[route resp]|] Hs; [apply books_stream_answer|done].
  - intros [[route resp]|] Hs; [by destruct Hs|]. split; [apply quiet_ret|]. by intros w [].
  - intros [[route resp]|]; auto.
Qed.

Lemma books_with_model extract missing r k :
  (forall st body model, books (k st body model) (fun _ => False)) ->
  books (R:=R) (with_model env extract missing r k) (fun _ => False).
Proof.
  intros Hk. unfold with_model. book_step. destruct (read_body env r) as [body|]; [destruct (extract body)|]; first [apply Hk|book_step].
Qed.

Lemma books_complete path r : books (R:=R) (complete env path r) (fun _ => False).
Proof.
  apply books_with_model. intros st body model. destruct (stream_requested body); [apply books_handle_streaming|apply books_proxy].
Qed.

End Recorded.

#[export] Hint Resolve yields_complete yields_with_model yields_proxy yields_transcriptions : go_yields.
