(* ===== verification/Server.v ===== *)
(** The server [cmd/gateway/main.go] puts together: the middlewares, the API
    key wrapper and the proxy handlers behind every route of the clients, and
    next to them the admin API that changes the keys and the settings these
    requests are held to.

    A {!Server} is the state the requests share; the requests of clients, the
    calls of the admin API and the goroutines that note the use of a key are
    its steps.  A request is one step: what it reads of the shared state it
    reads in {!require_api_key}, and the limiter is locked there. *)
From S2P Require Import Prelude GoLib Models Sql Store Access Reply Admin AdminConfig AdminApi AdminKeys Gateway.
From S2P Require Import Http Limiter Body Streaming Active Catalog Router Handler Billing.
Local Open Scope Z_scope.
Local Open Scope go_scope.

(** * The state *)

Section Server.
Context {R : Type} `{Router_ : !RouterI R}.

(** [sv_touches] holds the goroutines that have yet to note the use of their
    key, [sv_lines] what was written to the logger. *)
Record Server := mkServer {
  sv_world : World R;
  sv_limiter : KeyLimiter;
  sv_conn : Conn;
  sv_config : ConfigSnapshot;
  sv_touches : list string;
  sv_lines : list LogLine;
}.

Definition on_world (f : World R -> World R) (s : Server) : Server :=
  mkServer (f (sv_world s)) (sv_limiter s) (sv_conn s) (sv_config s) (sv_touches s) (sv_lines s).
Definition set_limiter (l : KeyLimiter) (s : Server) : Server :=
  mkServer (sv_world s) l (sv_conn s) (sv_config s) (sv_touches s) (sv_lines s).
Definition set_conn (c : Conn) (s : Server) : Server :=
  mkServer (sv_world s) (sv_limiter s) c (sv_config s) (sv_touches s) (sv_lines s).
Definition set_snapshot (cfg : ConfigSnapshot) (s : Server) : Server :=
  mkServer (sv_world s) (sv_limiter s) (sv_conn s) cfg (sv_touches s) (sv_lines s).
Definition set_touches (ids : list string) (s : Server) : Server :=
  mkServer (sv_world s) (sv_limiter s) (sv_conn s) (sv_config s) ids (sv_lines s).

(** A writer whose [WriteHeader] is an event of the trace, as in {!Handler}. *)
Definition on_writer (f : ResponseWriter -> ResponseWriter) (s : Server) : Server :=
  on_world (fun w => set_writer (f (wd_writer w)) w) s.

Definition server_WriteHeader (code : Z) (s : Server) : Server :=
  on_world (log_event (EvReply code)) (on_writer (WriteHeader code) s).

#[export] Program Instance Server_Writer : Writer Server := {|
  wr_view s := wd_writer (sv_world s);
  wr_Set k v := on_writer (w_set k v);
  wr_WriteHeader := server_WriteHeader;
  wr_Write b := on_writer (Write_ b);
  wr_Flush := Some (on_writer (WriteHeader 200));
|}.
Solve Obligations with done.

(** What the steps of [s] to [s'] added to the trace. *)
Definition news (s s' : Server) : list Handler.Event :=
  drop (length (wd_trace (sv_world s))) (wd_trace (sv_world s')).

(** * One request *)

(** The surroundings of a request: those of its handler, the faults of the
    database, the multipart form, the snapshots of the catalog, what
    [uuid.NewString] draws for it, and [net.SplitHostPort]. *)
Record Surroundings := mkSurroundings {
  su_env : HandlerEnv;
  su_fault : nat -> bool;
  su_form : string + Multipart;
  su_ids : routingSnapshot;
  su_snaps : nat -> routingSnapshot;
  su_uuid : string;
  su_host : string -> option string;
}.

Context (HashKey : string -> string) (su : Surroundings).

#[export] Program Instance Server_Ambient : Ambient Server := {|
  am_now s := let w := sv_world s in
    (he_now (su_env su) (wd_ticks w), on_world (fun w => (now_ (su_env su) w).2) s);
  am_log l s := mkServer (sv_world s) (sv_limiter s) (sv_conn s) (sv_config s) (sv_touches s) (sv_lines s ++ [l]);
  am_lines := sv_lines;
|}.
Solve Obligations with done.

(** The handlers read the settings from the snapshot, and find the recorder
    of [Logging] to be a Flusher. *)
Definition served_env (cfg : ConfigSnapshot) : HandlerEnv :=
  let env := su_env su in
  mkHandlerEnv (he_now env) (he_uuid env) (ConfigSnapshot_Get cfg) (he_do env) (he_url_error env) (he_json_error env)
    (he_quote env) (he_body_fails env)
    (match wr_Flush (S := statusRecorder Server) with Some _ => true | None => false end)
    (he_write env) (he_error_text env).

Definition panic_of (o : Outcome Empty_set unit) : option string :=
  match o with Panic msg => Some msg | _ => None end.

(** A handler behind [Logging]: its [WriteHeader]s are the replies of the
    trace, and pass through the recorder. *)
Definition run_handler (m : HandlerEnv -> M R unit) : ST (statusRecorder Server) (option string) := fun rec =>
  let s := sr_ResponseWriter rec in
  let '(o, w) := m (served_env (sv_config s)) (sv_world s) in
  let s' := on_world (fun _ => w) s in
  (panic_of o, mkRecorder s' (List.last (omap reply_of (news s s')) (sr_statusCode rec))).

(** [h.store.GetAPIKeyByHash(...)]: [None] is an error. *)
Definition lookup_key (token : string) : ST Server (option (option APIKey)) := fun s =>
  let '(res, c) := GetAPIKeyByHash (su_fault su) (HashKey token) (sv_conn s) in
  (match res with inl _ => None | inr found => Some found end, set_conn c s).

(** [h.RequireAPIKey(next)]: {!Limiter.RequireAPIKey} on the state. *)
Definition require_api_key (next : HandlerFunc (statusRecorder Server)) : HandlerFunc (statusRecorder Server) :=
  fun r rec =>
    let s := sr_ResponseWriter rec in
    let requireKeys := getConfigBool (ConfigSnapshot_Get (sv_config s)) "require_api_keys" DefaultRequireAPIKeys in
    let token := BearerToken r in
    let '(found, s) := if str_empty token then (None, s) else lookup_key token s in
    let '(now, s) := am_now s in
    let '(decision, l) := RequireAPIKey requireKeys HashKey (fun _ => found) now r (sv_limiter s) in
    let s := set_limiter l s in
    match decision with
    | AuthReject status msg => run_handler (fun _ => Handler.respondError status msg) (mkRecorder s (sr_statusCode rec))
    | AuthPass r' touched =>
        next r' (mkRecorder (set_touches (sv_touches s ++ option_list touched) s) (sr_statusCode rec))
    end.

(** ** Routes *)

(** The routes of the clients, each with and without [/v1] (and [/api/show]). *)
Inductive ClientRoute :=
| ChatCompletions | Completions | Embeddings | ImageGenerations | AudioSpeech | AudioTranscriptions
| ListModels | GetModel (model : string) | Show_.

(** The routes that stand behind [RequireAPIKey]. *)
Definition keyed (route : ClientRoute) : bool :=
  match route with ListModels | GetModel _ | Show_ => false | _ => true end.

Definition endpoint (route : ClientRoute) (r : Request) (env : HandlerEnv) : M R unit :=
  match route with
  | ChatCompletions => HandleChatCompletions env r
  | Completions => HandleCompletions env r
  | Embeddings => HandleEmbeddings env r
  | ImageGenerations => HandleImageGenerations env r
  | AudioSpeech => HandleAudioSpeech env r
  | AudioTranscriptions => HandleAudioTranscriptions env (su_form su) r
  | ListModels => HandleListModels (su_ids su) (su_snaps su)
  | GetModel model => HandleGetModel env (su_ids su) (su_snaps su) model
  | Show_ => HandleShow env r
  end.

Definition route_handler (route : ClientRoute) : HandlerFunc (statusRecorder Server) :=
  let handler r := run_handler (endpoint route r) in
  if keyed route then require_api_key handler else handler.

(** A request of a client, from the connection to the end of its response. *)
Definition client_call (route : ClientRoute) (r : Request) (s : Server) : Server :=
  (middlewares (su_host su) (su_uuid su) (route_handler route) r (on_writer (fun _ => new_writer) s)).2.

End Server.
Arguments Server : clear implicits.

(** * Steps *)

(** A request of a client, a call of the admin API with the faults of the
    reload it may cause, the goroutine of a key used, or a write of a log. *)
Inductive ServerEvent :=
| Client (su : Surroundings) (route : ClientRoute) (r : Request)
| Administer (v : Visit) (reload_fault : nat -> bool)
| Touch (fault : nat -> bool) (id : string) (at_ : Z)
| WriteLog (fault : nat -> bool) (op : StoreOp).

Section Steps.
Context {R : Type} `{Router_ : !RouterI R} (HashKey : string -> string).

Definition reconfigures (evs : list Reply.Event) : bool :=
  existsb (fun e => match e with EvConfigChanged => true | _ => false end) evs.

(** An admin call; its hook [OnConfigChanged] reloads the snapshot.  What a
    call does to the settings it has done when it calls the hook. *)
Definition admin_call (v : Visit) (reload_fault : nat -> bool) (s : Server R) : Server R :=
  let w := serve (v_env v) (v_query v) (v_request v) (v_call v) (sv_conn s) in
  let s := set_conn (aw_conn w) s in
  if reconfigures (aw_events w) then
    let '((_, cfg), c) := ConfigSnapshot_Reload reload_fault (sv_config s) (sv_conn s) in
    set_snapshot cfg (set_conn c s)
  else s.

Definition server_step (e : ServerEvent) (s : Server R) : option (Server R) :=
  match e with
  | Client su route r => Some (client_call HashKey su route r s)
  | Administer v reload_fault => Some (admin_call v reload_fault s)
  | Touch fault id at_ =>
      (fun i => set_touches (delete i.1 (sv_touches s)) (set_conn (TouchAPIKeyLastUsed fault id at_ (sv_conn s)).2 s)) <$>
        list_find (fun x => x = id) (sv_touches s)
  | WriteLog fault op =>
      if is_log_op op then Some (set_conn (run_op fault op (sv_conn s)).2 s) else None
  end.

Fixpoint server_run (es : list ServerEvent) (s : Server R) : option (Server R) :=
  match es with
  | [] => Some s
  | e :: es' => match server_step e s with Some s' => server_run es' s' | None => None end
  end.

End Steps.

(** * What a request is held to *)

Section Admission.
Context {R : Type} `{Router_ : !RouterI R} (HashKey : string -> string) (su : Surroundings) (r : Request).

(** A request is refused with a status, or admitted, under a key if it
    presented one. *)
Inductive Admission := Refused (status : Z) | Granted (key : option APIKey).

(** [Logging] has read the clock once before the limiter does. *)
Definition limiter_time (s : Server R) : Z := he_now (su_env su) (S (wd_ticks (sv_world s))).

Definition limiter_call (key : APIKey) (s : Server R) : Call :=
  mkCall (limiter_time s) (k_ID key) (k_RateLimitRPM key) (k_RateLimitTPM key) (estimatePromptTokens r).

(** The row of the key the request presents. *)
Definition presented (db : DB) : option APIKey :=
  head (keep (fun k => String.eqb (k_KeyHash k) (HashKey (BearerToken r))) (db_keys db)).

(** What the tables, the settings and the limiter say of a request. *)
Definition admission (s : Server R) : Admission * KeyLimiter :=
  if str_empty (BearerToken r) then
    (if getConfigBool (sv_config s) "require_api_keys" DefaultRequireAPIKeys then Refused 401 else Granted None, sv_limiter s)
  else if su_fault su (cn_stmts (sv_conn s)) then (Refused 500, sv_limiter s)
  else match presented (cn_db (sv_conn s)) with
  | Some key =>
      if k_IsActive key then
        let '(ok, l) := do_call (limiter_call key s) (sv_limiter s) in (if ok then Granted (Some key) else Refused 429, l)
      else (Refused 401, sv_limiter s)
  | None => (Refused 401, sv_limiter s)
  end.

(** ** The way in and the way out *)

(** The state a route finds, and the one it leaves behind when it returned or
    panicked. *)
Definition arrived (s : Server R) : Server R :=
  let s := on_writer (fun _ => cors_view (w_set "X-Request-Id" (request_id (su_uuid su) r) new_writer)) s in
  on_world (fun w => (now_ (su_env su) w).2) s.

(** All of the state but the writer, the clock and the log lines. *)
Definition core (s : Server R) : R * KeyLimiter * Conn * ConfigSnapshot * list string :=
  (wd_router (sv_world s), sv_limiter s, sv_conn s, sv_config s, sv_touches s).

Lemma client_call_routes route s : req_Method r <> "OPTIONS" ->
  let '(panic, rec) := route_handler HashKey su route r (mkRecorder (arrived s) 200) in
  let s1 := sr_ResponseWriter rec in
  let s' := client_call HashKey su route r s in
  core s' = core s1 /\
  wd_trace (sv_world s') = wd_trace (sv_world s1) ++ (match panic with Some _ => [EvReply 500] | None => [] end) /\
  (panic = None -> wd_writer (sv_world s') = wd_writer (sv_world s1)).
Proof.
  intros Hm. unfold client_call, middlewares, RequestID, Recovery, Logging, CORSMiddleware, bind, ret, w_header_set, w_write_header, w_write, modify.
  cbn [fst snd]. apply String.eqb_neq in Hm. rewrite Hm. cbn [am_now Server_Ambient].
  match goal with |- context [wr_Set "Access-Control-Allow-Headers" ?v ?x] =>
    change (wr_Set "Access-Control-Allow-Headers" v x) with (mkRecorder (arrived s) 200) end.
  destruct (route_handler HashKey su route r (mkRecorder (arrived s) 200)) as [[v|] rec]; cbn [fst snd].
  - split_and!; [reflexivity|reflexivity|done].
  - split_and!; [done|by rewrite app_nil_r|done].
Qed.

End Admission.

(** ** Endpoints *)

(** Transcriptions alone are recorded without their key. *)
Definition names_key (route : ClientRoute) : bool := match route with AudioTranscriptions => false | _ => true end.

Section Endpoints.
Context {R : Type} `{Router_ : !RouterI R} (HashKey : string -> string) (su : Surroundings).

Lemma endpoint_yields route r env :
  yields (R:=R) (request_origin r (if names_key route then apiKeyFromContext r else None)) 3 (endpoint su route r env) (fun _ => True).
Proof.
  assert (Hreply : forall who status data, yields (R:=R) who 3 (respondJSON status data) (fun _ => True)).
  { intros who status data. apply (yields_event _ _ (EvReply status)); [done|done|simpl; lia]. }
  destruct route; cbn [names_key endpoint]; try (by apply yields_complete); try (by apply yields_transcriptions);
    try (apply yields_with_model; intros; by apply yields_proxy); [apply Hreply|].
  unfold HandleGetModel. destruct (str_empty _); [apply Hreply|]. case_match; apply Hreply.
Qed.

Lemma endpoint_books route r env : books (R:=R) (endpoint su route r env) (fun _ => False).
Proof.
  assert (Hreply : forall status data, books (R:=R) (respondJSON status data) (fun _ => False)).
  { intros status data. apply books_quiet. intros who. exists 0%nat. by apply (yields_event _ _ (EvReply status)). }
  destruct route; cbn [endpoint]; try (by apply books_complete); try (by apply books_transcriptions);
    try (apply books_with_model; intros; by apply books_proxy); [apply Hreply|].
  unfold HandleGetModel. destruct (str_empty _); [apply Hreply|]. case_match; apply Hreply.
Qed.

(** What running a handler changes of the state. *)
Lemma run_handler_spec who n (m : HandlerEnv -> M R unit) rec :
  yields who n (m (served_env (R:=R) su (sv_config (sr_ResponseWriter rec)))) (fun _ => True) ->
  books (m (served_env (R:=R) su (sv_config (sr_ResponseWriter rec)))) (fun _ => False) ->
  let s := sr_ResponseWriter rec in
  let s' := sr_ResponseWriter (run_handler su m rec).2 in
  (exists t, wd_trace (sv_world s') = wd_trace (sv_world s) ++ t /\
     Forall (fun log => log_origin log = who) (omap recorded_of t) /\ (length (omap sent_of t) <= n)%nat /\
     (length (omap recorded_of t) <= 1)%nat) /\
  sv_limiter s' = sv_limiter s /\ sv_conn s' = sv_conn s /\ sv_config s' = sv_config s /\ sv_touches s' = sv_touches s.
Proof.
  intros Hm Hb s. destruct (Hm (sv_world s)) as (t & H1 & H2 & H3 & _), (Hb (sv_world s)) as (t' & K1 & K2 & _).
  fold s in H1, K1. assert (t' = t) as -> by (rewrite H1 in K1; by apply app_inv_head in K1). unfold run_handler. fold s.
  destruct (m _ (sv_world s)) as [o w]. split; [|done]. by exists t.
Qed.

(** The wrapper, by what a request is held to; the limiter reads the clock
    before the handler does. *)
Lemma require_api_key_spec next (r : Request) (s0 s : Server R) code :
  core s = core s0 -> he_now (su_env su) (wd_ticks (sv_world s)) = limiter_time su s0 ->
  let '(adm, l) := admission HashKey su r s0 in
  exists s1, sv_world s1 = (now_ (su_env su) (sv_world s)).2 /\ sv_limiter s1 = l /\
    cn_db (sv_conn s1) = cn_db (sv_conn s0) /\ sv_config s1 = sv_config s0 /\
    match adm with
    | Refused status => sv_touches s1 = sv_touches s0 /\
        exists msg, require_api_key HashKey su next r (mkRecorder s code) =
          run_handler su (fun _ => Handler.respondError status msg) (mkRecorder s1 code)
    | Granted key => sv_touches s1 = sv_touches s0 ++ option_list (k_ID <$> key) /\
        require_api_key HashKey su next r (mkRecorder s code) =
          next (with_apiKey ((fun k => mkKeyAuth (k_ID k) (k_Name k)) <$> key) r) (mkRecorder s1 code)
    end.
Proof.
  intros Hc Ht. unfold core in Hc. destruct s as [w lim c cfg tou lines], s0 as [w0 lim0 c0 cfg0 tou0 lines0].
  cbn [sv_world sv_limiter sv_conn sv_config sv_touches] in *. injection Hc as _ -> -> -> ->.
  unfold admission, require_api_key, RequireAPIKey. cbn [sr_ResponseWriter sv_world sv_limiter sv_conn sv_config sr_statusCode].
  set (w' := (now_ (su_env su) w).2). set (seen := mkConn (cn_db c0) (S (cn_stmts c0))).
  destruct (str_empty (BearerToken r)).
  { unfold ConfigSnapshot_Get. destruct (getConfigBool _ _ _); exists (mkServer w' lim0 c0 cfg0 tou0 lines);
      split_and!; try reflexivity; [by eexists|by rewrite app_nil_r|]. cbn. by rewrite app_nil_r. }
  unfold lookup_key, GetAPIKeyByHash, find_row, query, exec. cbn [sv_conn].
  destruct (su_fault su (cn_stmts c0)).
  { exists (mkServer w' lim0 seen cfg0 tou0 lines). split_and!; try reflexivity. by eexists. }
  fold (presented HashKey r (cn_db c0)). destruct (presented HashKey r (cn_db c0)) as [key|].
  2: { exists (mkServer w' lim0 seen cfg0 tou0 lines). split_and!; try reflexivity. by eexists. }
  cbn [am_now Server_Ambient set_conn on_world sv_world sv_limiter sv_conn sv_config sv_touches sv_lines] in *. rewrite Ht.
  destruct (k_IsActive key); cbn [negb].
  2: { exists (mkServer w' lim0 seen cfg0 tou0 lines). split_and!; try reflexivity. by eexists. }
  unfold do_call, limiter_call. cbn [call_now call_key call_rpm call_tpm call_tokens].
  destruct (allow _ _ _ _ _ lim0) as [[[] msg] l]; cbn [negb].
  - exists (mkServer w' l seen cfg0 (tou0 ++ [k_ID key]) lines). by split_and!.
  - exists (mkServer w' l seen cfg0 tou0 lines). split_and!; try reflexivity. by eexists.
Qed.

End Endpoints.

(** ** Requests *)

Section Requests.
Context {R : Type} `{Router_ : !RouterI R} (HashKey : string -> string) (su : Surroundings).

Definition key_auth (k : APIKey) : keyAuth := mkKeyAuth (k_ID k) (k_Name k).

(** What a request leaves behind, once it is known what it was held to. *)
Definition governed (route : ClientRoute) (r : Request) (adm : Admission) (s s' : Server R) : Prop :=
  let t := news s s' in
  wd_trace (sv_world s') = wd_trace (sv_world s) ++ t /\
  match adm with
  | Refused status =>
      t = [EvReply status] /\ w_status (wd_writer (sv_world s')) = Some status /\
      wd_router (sv_world s') = wd_router (sv_world s) /\ sv_touches s' = sv_touches s
  | Granted key =>
      sv_touches s' = sv_touches s ++ option_list (k_ID <$> key) /\
      (length (omap sent_of t) <= 3)%nat /\ (length (omap recorded_of t) <= 1)%nat /\
      Forall (fun log => log_origin log = request_origin r (if names_key route then key_auth <$> key else None))
        (omap recorded_of t)
  end.

Lemma news_app (s s' : Server R) t : wd_trace (sv_world s') = wd_trace (sv_world s) ++ t -> news s s' = t.
Proof. unfold news. intros ->. apply drop_app_length. Qed.

(** An endpoint, when the request came as far as it. *)
Lemma endpoint_governed route r key rec :
  let rec' := (run_handler su (endpoint su route (with_apiKey key r)) rec).2 in
  let s := sr_ResponseWriter rec in
  let s' := sr_ResponseWriter rec' in
  (exists t, wd_trace (sv_world s') = wd_trace (sv_world s) ++ t /\
     (length (omap sent_of t) <= 3)%nat /\ (length (omap recorded_of t) <= 1)%nat /\
     Forall (fun log => log_origin log = request_origin r (if names_key route then key else None)) (omap recorded_of t)) /\
  sv_limiter s' = sv_limiter s /\ sv_conn s' = sv_conn s /\ sv_config s' = sv_config s /\ sv_touches s' = sv_touches s.
Proof.
  cbv zeta. destruct (run_handler_spec su _ 3 _ rec (endpoint_yields su route (with_apiKey key r) _) (endpoint_books su route _ _))
    as [(t & H1 & H2 & H3 & H5) H4].
  split; [|exact H4]. exists t. split_and!; [exact H1|exact H3|exact H5|]. exact H2.
Qed.

Lemma request_governed route r s :
  keyed route = true -> req_Method r <> "OPTIONS" ->
  let s' := client_call HashKey su route r s in
  let '(adm, l) := admission HashKey su r s in
  governed route r adm s s' /\ sv_limiter s' = l /\ cn_db (sv_conn s') = cn_db (sv_conn s) /\ sv_config s' = sv_config s.
Proof.
  intros Hk Hm. cbv zeta. pose proof (client_call_routes HashKey su r route s Hm) as C.
  unfold route_handler in C. rewrite Hk in C.
  pose proof (require_api_key_spec HashKey su (fun r => run_handler su (endpoint su route r)) r s (arrived su r s) 200 eq_refl eq_refl) as K.
  destruct (admission HashKey su r s) as [adm l]. destruct K as (s1 & K1 & K2 & K3 & K4 & K5).
  assert (Htr : wd_trace (sv_world s1) = wd_trace (sv_world s)) by (by rewrite K1).
  destruct adm as [status|key].
  - destruct K5 as [K5 [msg K6]]. rewrite K6 in C. destruct C as (C1 & C2 & C3). unfold core in C1.
    injection C1 as D1 D2 D3 D4 D5. cbn in *. rewrite app_nil_r, Htr in C2. specialize (C3 eq_refl).
    unfold governed. rewrite (news_app _ _ _ C2), C3, D1, D5, D2, D3, D4. rewrite K1. split_and!; try done; cbn; congruence.
  - destruct K5 as [K5 K6]. rewrite K6 in C. pose proof (endpoint_governed route r (key_auth <$> key) (mkRecorder s1 200)) as E.
    cbv zeta in E. change (fun k : APIKey => mkKeyAuth (k_ID k) (k_Name k)) with key_auth in C.
    destruct (run_handler su _ (mkRecorder s1 200)) as [panic rec]. destruct C as (C1 & C2 & _). unfold core in C1.
    injection C1 as D1 D2 D3 D4 D5. cbn [sr_ResponseWriter snd] in E. destruct E as ((t & E1 & E2 & E0 & E3) & E4 & E5 & E6 & E7).
    rewrite E1, Htr, <- app_assoc in C2. unfold governed. rewrite (news_app _ _ _ C2), D5, D2, D3, D4, E7, E4, E5, E6.
    rewrite !omap_app, !length_app, Forall_app. destruct panic; cbn; split_and!; try done; try congruence; lia.
Qed.

End Requests.

(** ** The limiter over a run *)

Section Traffic.
Context {R : Type} `{Router_ : !RouterI R} (HashKey : string -> string).

(** The call of the limiter a request makes: none without a key, with a key
    the tables do not know, or with one that is inactive. *)
Definition metered (su : Surroundings) (r : Request) (s : Server R) : option Call :=
  if str_empty (BearerToken r) || su_fault su (cn_stmts (sv_conn s)) then None
  else match presented HashKey r (cn_db (sv_conn s)) with
       | Some key => if k_IsActive key then Some (limiter_call su r key s) else None
       | None => None
       end.

(** A request of a route behind the wrapper that is not a preflight. *)
Definition metered_event (e : ServerEvent) (s : Server R) : option Call :=
  match e with
  | Client su route r => if keyed route && negb (String.eqb (req_Method r) "OPTIONS") then metered su r s else None
  | _ => None
  end.

Fixpoint limiter_calls (es : list ServerEvent) (s : Server R) : list Call :=
  match es with
  | [] => []
  | e :: es' =>
      option_list (metered_event e s) ++
      match server_step HashKey e s with Some s' => limiter_calls es' s' | None => [] end
  end.

Definition in_minute (id : string) (from : Z) (c : Call) : bool :=
  String.eqb (call_key c) id && (from <=? call_now c) && (call_now c <? from + window).

(** The requests that went to backends for requests under the key [id] the
    limiter saw in the minute from [from]. *)
Definition sends_under (id : string) (from : Z) (e : ServerEvent) (s s' : Server R) : nat :=
  match metered_event e s with
  | Some c =>
      if in_minute id from c then length (omap sent_of (news s s')) else 0
  | None => 0
  end.

Fixpoint traffic (id : string) (from : Z) (es : list ServerEvent) (s : Server R) : nat :=
  match es with
  | [] => 0
  | e :: es' =>
      match server_step HashKey e s with
      | Some s' => sends_under id from e s s' + traffic id from es' s'
      | None => 0
      end
  end.

(** What a request is held to, by the call of the limiter. *)
Lemma admission_metered su r s :
  match metered su r s with
  | Some c => (admission HashKey su r s).2 = (do_call c (sv_limiter s)).2 /\
      ((do_call c (sv_limiter s)).1 = false -> exists status, (admission HashKey su r s).1 = Refused status)
  | None => (admission HashKey su r s).2 = sv_limiter s
  end.
Proof.
  unfold metered, admission. destruct (str_empty _); [done|]. destruct (su_fault _ _); [done|]. simpl.
  destruct (presented _ _ _) as [key|]; [|done]. destruct (k_IsActive key); [|done].
  destruct (do_call _ _) as [[] l]; simpl; [done|]. split; [done|]. by eexists.
Qed.

(** A preflight, and a route without the wrapper, leave all but the world. *)
Lemma unmetered_call su route r (s : Server R) :
  keyed route && negb (String.eqb (req_Method r) "OPTIONS") = false ->
  let s' := client_call HashKey su route r s in
  sv_limiter s' = sv_limiter s /\ sv_conn s' = sv_conn s /\ sv_config s' = sv_config s.
Proof.
  intros Hk. cbv zeta. destruct (String.eqb_spec (req_Method r) "OPTIONS") as [Ho|Ho].
  - unfold client_call, middlewares, RequestID, Recovery, Logging, CORSMiddleware, bind, ret, w_header_set, w_write_header, w_write, modify.
    rewrite Ho. done.
  - rewrite andb_true_r in Hk. pose proof (client_call_routes HashKey su r route s Ho) as C. unfold route_handler in C.
    rewrite Hk in C. destruct (run_handler_spec su _ 3 (endpoint su route r) (mkRecorder (arrived su r s) 200) (endpoint_yields su route r _)
      (endpoint_books su route r _)) as (_ & E).
    destruct (run_handler su _ _) as [panic rec]. destruct C as (C1 & _). unfold core in C1. simpl in E.
    injection C1 as _ -> -> -> _. destruct E as (-> & -> & -> & _). done.
Qed.

Lemma step_limiter e s s' : server_step HashKey e s = Some s' ->
  sv_limiter s' = match metered_event e s with Some c => (do_call c (sv_limiter s)).2 | None => sv_limiter s end.
Proof.
  destruct e as [su route r|v rf|fault id t|fault op]; simpl; intros H; simplify_eq.
  - destruct (keyed route && negb _) eqn:Hk; [|by apply unmetered_call].
    apply andb_true_iff in Hk as [Hk Hm]. apply negb_true_iff, String.eqb_neq in Hm.
    pose proof (request_governed HashKey su route r s Hk Hm) as G. pose proof (admission_metered su r s) as A.
    destruct (admission HashKey su r s) as [adm l]. destruct G as (_ & -> & _). by destruct (metered su r s); [destruct A|].
  - unfold admin_call. destruct (reconfigures _); [|done]. by destruct (ConfigSnapshot_Reload _ _ _) as [[? ?] ?].
  - by destruct (list_find _ _); simplify_eq/=.
  - by destruct (is_log_op op); simplify_eq/=.
Qed.

Lemma step_sends id from e s s' : server_step HashKey e s = Some s' ->
  (sends_under id from e s s' <=
   match metered_event e s with
   | Some c => if (do_call c (sv_limiter s)).1 && in_minute id from c then 3 else 0
   | None => 0
   end)%nat.
Proof.
  intros H. unfold sends_under. destruct (metered_event e s) as [c|] eqn:Hc; [|done].
  destruct e as [su route r| | |]; try done. simpl in Hc, H. simplify_eq.
  destruct (keyed route && negb _) eqn:Hk; [|done].
  apply andb_true_iff in Hk as [Hk Hm]. apply negb_true_iff, String.eqb_neq in Hm.
  pose proof (request_governed HashKey su route r s Hk Hm) as G. pose proof (admission_metered su r s) as A. rewrite Hc in A.
  destruct (admission HashKey su r s) as [adm l]. destruct G as ((_ & G) & _), A as [_ A].
  destruct (do_call c (sv_limiter s)) as [[] l']; simpl in *.
  - destruct (in_minute id from c); [|lia]. destruct adm as [status|key]; [destruct G as [-> _]; simpl; lia|apply G].
  - destruct (A eq_refl) as [status ->]. destruct G as [-> _]. by destruct (in_minute id from c).
Qed.

(** The traffic of a key is bounded by what the limiter let through. *)
Lemma traffic_accepted id from es s :
  Z.of_nat (traffic id from es s) <= 3 * accepted_in id from (run_calls (limiter_calls es s) (sv_limiter s)).
Proof.
  revert s. induction es as [|e es IH]; intros s; [done|]. cbn [traffic limiter_calls].
  assert (Hpos : forall log, 0 <= accepted_in id from log) by (unfold accepted_in; lia).
  destruct (server_step HashKey e s) as [s'|] eqn:E; [|specialize (Hpos (run_calls (option_list (metered_event e s) ++ []) (sv_limiter s))); lia].
  pose proof (step_sends id from e s s' E) as Hs. pose proof (step_limiter e s s' E) as Hl. specialize (IH s').
  destruct (metered_event e s) as [c|]; cbv [option_list option_rect]; cbn [app]; [|rewrite <- Hl; lia].
  cbn [run_calls]. destruct (do_call c (sv_limiter s)) as [ok l]. cbn [fst snd] in *. rewrite <- Hl.
  rewrite accepted_cons. cbn [fst snd]. rewrite <- !andb_assoc. unfold in_minute in Hs. rewrite <- !andb_assoc in Hs.
  destruct (ok && _); lia.
Qed.

End Traffic.

(** ** The tables over a run *)

Section Runs.
Context {R : Type} `{Router_ : !RouterI R} (HashKey : string -> string).

(** What the steps do to the tables, by what each step may do. *)
Definition tables_of (s : Server R) : DB := cn_db (sv_conn s).

Lemma client_tables su route r s :
  let s' := client_call HashKey su route r s in tables_of s' = tables_of s /\ sv_config s' = sv_config s.
Proof.
  cbv zeta. destruct (keyed route && negb (String.eqb (req_Method r) "OPTIONS")) eqn:Hk.
  - apply andb_true_iff in Hk as [Hk Hm]. apply negb_true_iff, String.eqb_neq in Hm.
    pose proof (request_governed HashKey su route r s Hk Hm) as G.
    destruct (admission HashKey su r s) as [adm l]. by destruct G as (_ & _ & ? & ?).
  - unfold tables_of. by destruct (unmetered_call HashKey su route r s Hk) as (_ & -> & ->).
Qed.

Lemma admin_tables v rf s :
  let w := serve (v_env v) (v_query v) (v_request v) (v_call v) (sv_conn s) in
  tables_of (admin_call v rf s) = cn_db (aw_conn w) /\
  (sv_config (admin_call v rf s) = sv_config s /\ reconfigures (aw_events w) = false \/
   (exists n, rf n = true) \/ sv_config (admin_call v rf s) = db_config (cn_db (aw_conn w))).
Proof.
  cbv zeta. unfold admin_call, tables_of. destruct (reconfigures _); [|by split; [|left]].
  unfold ConfigSnapshot_Reload, bind, GetAllConfig, query, exec. cbn [set_conn sv_conn sv_config].
  destruct (rf _) eqn:E; cbn; split; auto. right; left. by eexists.
Qed.

(** A reading of the tables that the steps keep. *)
Lemma step_keeps {B} (f : DB -> B) e s s' :
  (forall ls db, f (set_logs ls db) = f db) -> (forall cs db, f (set_chunks cs db) = f db) ->
  (forall sel t db, f (set_keys (update_rows sel (set_k_LastUsedAt t) (db_keys db)) db) = f db) ->
  (forall v rf, e = Administer v rf ->
     f (cn_db (aw_conn (serve (v_env v) (v_query v) (v_request v) (v_call v) (sv_conn s)))) = f (tables_of s)) ->
  server_step HashKey e s = Some s' -> f (tables_of s') = f (tables_of s).
Proof.
  intros Hl Hc Hk Ha. destruct e as [su route r|v rf|fault id t|fault op]; simpl; intros H; simplify_eq.
  - by rewrite (proj1 (client_tables su route r s)).
  - rewrite (proj1 (admin_tables v rf s)). by eapply Ha.
  - destruct (list_find _ _); simplify_eq/=. by apply (log_op_keeps f fault (OpTouchAPIKeyLastUsed id t)).
  - destruct (is_log_op op) eqn:Ho; simplify_eq/=. by apply log_op_keeps.
Qed.

Lemma step_wf e s s' : wf (tables_of s) -> server_step HashKey e s = Some s' -> wf (tables_of s').
Proof.
  intros W. destruct e as [su route r|v rf|fault id t|fault op]; simpl; intros H; simplify_eq.
  - by rewrite (proj1 (client_tables su route r s)).
  - rewrite (proj1 (admin_tables v rf s)). by destruct (serve_contract (v_env v) (v_query v) (v_request v) (v_call v) _ W).
  - destruct (list_find _ _); simplify_eq/=. by apply (run_op_wf fault (OpTouchAPIKeyLastUsed id t)).
  - destruct (is_log_op op); simplify_eq/=. by apply run_op_wf.
Qed.

(** *** The limits of the keys *)

Definition limits (db : DB) : list (string * option Z) := (fun k => (k_ID k, k_RateLimitRPM k)) <$> db_keys db.

(** No admin call that edits the keys. *)
Definition spares_keys (e : ServerEvent) : Prop :=
  match e with Administer v _ => scope (v_call v) <> Keys | _ => True end.

Lemma within_keys sc db db' : sc <> Keys -> within sc db db' -> db_keys db' = db_keys db.
Proof. destruct sc; simpl; intros Hs H; destruct_and?; congruence. Qed.

Lemma step_limits e s s' : wf (tables_of s) -> spares_keys e -> server_step HashKey e s = Some s' ->
  limits (tables_of s') = limits (tables_of s).
Proof.
  intros W He. apply step_keeps; [done|done| |].
  - intros sel t db. unfold limits, update_rows. simpl. rewrite <- list_fmap_compose. apply list_fmap_ext.
    intros i k _. simpl. by destruct (sel k).
  - intros v rf ->. destruct (serve_contract (v_env v) (v_query v) (v_request v) (v_call v) _ W) as [_ Hin _].
    unfold limits. by rewrite (within_keys _ _ _ He Hin).
Qed.

Lemma metered_limit id limit e s :
  (forall x, x ∈ limits (tables_of s) -> x.1 = id -> x.2 = Some limit) ->
  limited id limit (option_list (metered_event HashKey e s)).
Proof.
  intros H. unfold metered_event. destruct e as [su route r| | |]; try constructor.
  destruct (_ && _); [|constructor]. unfold metered. destruct (_ || _); [constructor|].
  destruct (presented HashKey r (cn_db (sv_conn s))) as [key|] eqn:E; [|constructor]. destruct (k_IsActive key); [|constructor].
  constructor; [|constructor]. simpl. intros Hid. apply (H (k_ID key, k_RateLimitRPM key)); [|done].
  unfold presented in E. apply list_elem_of_fmap. exists key. split; [done|].
  apply head_Some_elem_of in E. unfold keep in E. apply list_elem_of_In in E. apply filter_In in E as [E _]. by apply list_elem_of_In.
Qed.

Lemma calls_limited id limit es s :
  wf (tables_of s) -> Forall spares_keys es ->
  (forall x, x ∈ limits (tables_of s) -> x.1 = id -> x.2 = Some limit) -> limited id limit (limiter_calls HashKey es s).
Proof.
  intros W Hes. revert s W. induction Hes as [|e es He _ IH]; intros s W Hl; [constructor|]. cbn [limiter_calls].
  apply Forall_app. split; [by apply metered_limit|]. destruct (server_step HashKey e s) as [s'|] eqn:E; [|constructor].
  apply IH; [by eapply step_wf|]. by rewrite (step_limits e s s' W He E).
Qed.

Lemma calls_length es s : (length (limiter_calls HashKey es s) <= length es)%nat.
Proof.
  revert s. induction es as [|e es IH]; intros s; [done|]. cbn [limiter_calls length]. rewrite length_app.
  assert (length (option_list (metered_event HashKey e s)) <= 1)%nat by (destruct (metered_event HashKey e s); simpl; lia).
  destruct (server_step HashKey e s) as [s'|]; [specialize (IH s')|]; simpl; lia.
Qed.

(** *** The settings *)

(** The call was answered, and the reload it caused did not fail; [main] sets
    the hook of every admin handler. *)
Definition settled (e : ServerEvent) (s : Server R) : Prop :=
  match e with
  | Administer v rf =>
      h_onConfigChanged (en_handler (v_env v)) = true /\ (forall n, rf n = false) /\
      answered (aw_events (serve (v_env v) (v_query v) (v_request v) (v_call v) (sv_conn s))) = true
  | _ => True
  end.

Fixpoint settled_run (es : list ServerEvent) (s : Server R) : Prop :=
  match es with
  | [] => True
  | e :: es' => settled e s /\ match server_step HashKey e s with Some s' => settled_run es' s' | None => True end
  end.

Lemma reconfigures_spec evs : EvConfigChanged ∈ evs -> reconfigures evs = true.
Proof. intros H. unfold reconfigures. apply existsb_exists. exists EvConfigChanged. split; [by apply list_elem_of_In|done]. Qed.

Lemma admin_settled v rf s : wf (tables_of s) -> settled (Administer v rf) s ->
  sv_config s = db_config (tables_of s) -> sv_config (admin_call v rf s) = db_config (tables_of (admin_call v rf s)).
Proof.
  intros W (Hh & Hrf & Ha) Hc. destruct (admin_tables v rf s) as [T S]. rewrite T.
  destruct (serve_contract (v_env v) (v_query v) (v_request v) (v_call v) _ W) as [_ _ (rep & Hr & Hrefuse & Hok)].
  destruct S as [[-> Hn]|[[n Hn]|S]]; [|by rewrite Hrf in Hn|done]. rewrite Hc.
  destruct (answered_cases _ _ Hr Ha) as [Hs|Hs]; [by rewrite (Hrefuse Hs)|]. destruct (Hok Hs) as [_ Ht].
  destruct (Ht Hh) as [Ht'|Ht']; [by rewrite Ht'|]. apply reconfigures_spec in Ht'. congruence.
Qed.

Lemma step_settled e s s' : wf (tables_of s) -> settled e s -> server_step HashKey e s = Some s' ->
  sv_config s = db_config (tables_of s) -> sv_config s' = db_config (tables_of s').
Proof.
  intros W He H Hc. destruct e as [su route r|v rf|fault id t|fault op].
  - simpl in H. simplify_eq. destruct (client_tables su route r s) as [-> ->]. done.
  - simpl in H. simplify_eq. by apply admin_settled.
  - rewrite (step_keeps db_config (Touch fault id t) s s'); try done. simpl in H. by destruct (list_find _ _); simplify_eq/=.
  - rewrite (step_keeps db_config (WriteLog fault op) s s'); try done. simpl in H. by destruct (is_log_op op); simplify_eq/=.
Qed.

Lemma run_settled es s s' : wf (tables_of s) -> settled_run es s -> server_run HashKey es s = Some s' ->
  sv_config s = db_config (tables_of s) -> sv_config s' = db_config (tables_of s').
Proof.
  revert s. induction es as [|e es IH]; simpl; intros s W He H Hc; [by simplify_eq|].
  destruct He as [He Hes]. destruct (server_step HashKey e s) as [s1|] eqn:E; [|done].
  apply (IH s1); [by eapply step_wf|done|done|by eapply step_settled].
Qed.

End Runs.

(** * Properties *)

(** C5: Keys govern the requests of clients.  What becomes of a request of a
    route behind the wrapper is decided by the tables, the settings and the
    limiter: a request refused for a missing, unknown or inactive key, a
    failed look-up or a limit is answered with the status that says so, and
    no route is asked for, nothing sent to a backend and nothing recorded;
    an admitted request notes the use of its key, goes to backends at most
    three times and is recorded at most once, and, even if it panics, the log
    it is recorded in names the caller's address, the method, the path and the key it presented (of
    transcriptions: no key).  No request changes the tables or the settings. *)
Theorem keys_govern_requests {R : Type} `{Router_ : !RouterI R} (HashKey : string -> string) (su : Surroundings)
    (route : ClientRoute) (r : Request) (s : Server R)
    (Hkeyed : keyed route = true) (Hmethod : req_Method r <> "OPTIONS") :
  let s' := client_call HashKey su route r s in
  let '(adm, limiter) := admission HashKey su r s in
  let t := news s s' in
  sv_limiter s' = limiter /\ tables_of s' = tables_of s /\ sv_config s' = sv_config s /\
  wd_trace (sv_world s') = wd_trace (sv_world s) ++ t /\
  match adm with
  | Refused status =>
      t = [EvReply status] /\ w_status (wd_writer (sv_world s')) = Some status /\
      wd_router (sv_world s') = wd_router (sv_world s) /\ sv_touches s' = sv_touches s
  | Granted key =>
      sv_touches s' = sv_touches s ++ option_list (k_ID <$> key) /\
      (length (omap sent_of t) <= 3)%nat /\ (length (omap recorded_of t) <= 1)%nat /\
      Forall (fun log => log_origin log = request_origin r (if names_key route then key_auth <$> key else None))
        (omap recorded_of t)
  end.
Proof.
  cbv zeta. pose proof (request_governed HashKey su route r s Hkeyed Hmethod) as G. cbv zeta in G.
  destruct (admission HashKey su r s) as [adm l]. destruct G as ([G1 G2] & G3 & G4 & G5). by split_and!.
Qed.

(** C6: A key's limit bounds what it costs the backends.  Take any run of
    requests, admin calls that do not edit the keys, and log writes, on
    well-formed tables where the key [id] has a limit of requests per minute.
    In any minute the requests under that key, counting every retry, go to
    backends at most six times the limit: the limiter lets at most two windows
    fall into one minute, and each request is sent at most three times. *)
Theorem key_limit_bounds_traffic {R : Type} `{Router_ : !RouterI R} (HashKey : string -> string)
    (id : string) (limit from : Z) (es : list ServerEvent) (s : Server R) :
  wf (tables_of s) -> sv_limiter s = NewKeyLimiter -> 0 <= limit ->
  (forall key, key ∈ db_keys (tables_of s) -> k_ID key = id -> k_RateLimitRPM key = Some limit) ->
  Forall spares_keys es -> in_order (limiter_calls HashKey es s) -> Z.of_nat (length es) <= max_int64 ->
  Z.of_nat (traffic HashKey id from es s) <= 6 * limit.
Proof.
  intros W Hl Hlim Hrows Hes Ho Hlen. pose proof (traffic_accepted HashKey id from es s) as H. rewrite Hl in H.
  assert (L : limited id limit (limiter_calls HashKey es s)).
  { apply calls_limited; [done|done|]. intros x Hx Hid. unfold limits in Hx. apply list_elem_of_fmap in Hx as (key & -> & Hin).
    by apply Hrows. }
  pose proof (calls_length HashKey es s) as Hn.
  pose proof (accepted_window id limit from (limiter_calls HashKey es s) NewKeyLimiter Hlim L Ho) as A.
  assert (E0 : e_rpmCount (entry_of id NewKeyLimiter) = 0) by reflexivity. rewrite E0 in A.
  specialize (A ltac:(lia) ltac:(lia)). lia.
Qed.

(** C7: The settings of the admin API are in force at once.  After any run of
    requests, admin calls and log writes in which every admin call was
    answered and no reload failed, the snapshot the handlers read is the
    settings table: the next request without a key is refused with 401 exactly
    when the table requires keys, and else admitted without one. *)
Theorem settings_take_effect {R : Type} `{Router_ : !RouterI R} (HashKey : string -> string)
    (es : list ServerEvent) (s s' : Server R) :
  wf (tables_of s) -> sv_config s = db_config (tables_of s) -> settled_run HashKey es s -> server_run HashKey es s = Some s' ->
  sv_config s' = db_config (tables_of s') /\
  forall (su : Surroundings) (route : ClientRoute) (r : Request),
    keyed route = true -> req_Method r <> "OPTIONS" -> BearerToken r = EmptyString ->
    let required := getConfigBool (db_config (tables_of s')) "require_api_keys" DefaultRequireAPIKeys in
    governed route r (if required then Refused 401 else Granted None) s' (client_call HashKey su route r s').
Proof.
  intros W Hc Hes Hr. pose proof (run_settled HashKey es s s' W Hes Hr Hc) as Hc'. split; [done|].
  intros su route r Hk Hm Ht. cbv zeta. pose proof (request_governed HashKey su route r s' Hk Hm) as G.
  unfold admission in G. rewrite Ht, Hc' in G. apply G.
Qed.

(** * Witnesses *)

(** A key of two requests per minute, on a server whose backend answers. *)
Definition sample_key : APIKey := mkAPIKey "k1" "#k" "ops" true (Some 2) None 0 None.

Definition sample_hash (token : string) : string := String.append "#" token.

Definition sample_server : Server unit :=
  mkServer (mkWorld tt new_writer None [] 0 0) NewKeyLimiter (mkConn (set_keys [sample_key] empty_db) 0) ∅ [] [].

Definition sample_surroundings : Surroundings :=
  mkSurroundings (sample_handler_env 200) no_fault (inl EmptyString) (cat_snap NewRoutingCatalog) (fun _ => cat_snap NewRoutingCatalog)
    "req-1" (fun _ => None).

Definition sample_origin : origin := mkOrigin "1.2.3.4:5" "POST" "/v1/chat/completions" (mkKeyAuth "k1" "ops").

Lemma keys_govern_requests_witness :
  let s' := client_call sample_hash sample_surroundings ChatCompletions sample_request sample_server in
  length (omap recorded_of (news sample_server s')) = 1%nat /\
  Forall (fun log => log_origin log = sample_origin) (omap recorded_of (news sample_server s')).
Proof.
  cbv zeta. split; [vm_compute; reflexivity|].
  pose proof (keys_govern_requests sample_hash sample_surroundings ChatCompletions sample_request sample_server eq_refl
    (fun H : "POST" = "OPTIONS" => ltac:(discriminate H))) as G. cbv zeta in G.
  assert (A : exists l, admission sample_hash sample_surroundings sample_request sample_server = (Granted (Some sample_key), l))
    by (eexists; vm_compute; reflexivity).
  destruct A as [l A]. rewrite A in G. destruct G as (_ & _ & _ & _ & _ & _ & _ & G). exact G.
Defined.

(** Three requests within a second, of which the limiter lets two through, an
    admin call and a note of the key's use between them. *)
Definition sample_requests : list ServerEvent :=
  let call := Client sample_surroundings ChatCompletions sample_request in
  [call; Touch no_fault "k1" 7;
   Administer (mkVisit (AdminApi.sample_env no_fault) no_query (admin_request "{'require_api_keys':true}") PutConfig) no_fault;
   call; call].

Lemma sample_tables_wf : wf (tables_of sample_server).
Proof. split; match goal with |- ?P => refine (bool_decide_unpack P _) end; vm_compute; exact I. Qed.

Lemma in_order_times cs : StronglySorted Z.le (call_now <$> cs) -> in_order cs.
Proof.
  induction cs as [|c cs IH]; intros H; [constructor|]. apply StronglySorted_inv in H as [H Hc].
  constructor; [by apply IH|]. exact (proj1 (Forall_fmap call_now _ cs) Hc).
Qed.

Lemma key_limit_bounds_traffic_witness :
  traffic sample_hash "k1" 0 sample_requests sample_server = 2%nat /\
  Z.of_nat (traffic sample_hash "k1" 0 sample_requests sample_server) <= 6 * 2.
Proof.
  split; [vm_compute; reflexivity|].
  apply (key_limit_bounds_traffic sample_hash "k1" 2 0 sample_requests sample_server sample_tables_wf).
  - reflexivity.
  - lia.
  - intros key [->|Hk]%elem_of_cons _; [reflexivity|by apply elem_of_nil in Hk].
  - repeat constructor; discriminate.
  - apply in_order_times.
    assert (E : call_now <$> limiter_calls sample_hash sample_requests sample_server = [1000000; 6000000; 11000000])
      by (vm_compute; reflexivity).
    rewrite E. repeat constructor; discriminate.
  - vm_compute. discriminate.
Defined.

(** After the admin call above, a request without a key is refused. *)
Definition anonymous_request : Request :=
  mkRequest "POST" "/v1/embeddings" ∅ 16 "1.2.3.4:5" (jtext "{'model':'fast'}") None.

Definition governed_server : Server unit := default sample_server (server_run sample_hash sample_requests sample_server).

Lemma settings_take_effect_witness :
  let s' := client_call sample_hash sample_surroundings Embeddings anonymous_request governed_server in
  news governed_server s' = [EvReply 401] /\ w_status (wd_writer (sv_world s')) = Some 401.
Proof.
  assert (Hr : server_run sample_hash sample_requests sample_server = Some governed_server) by (vm_compute; reflexivity).
  assert (Hs : settled_run sample_hash sample_requests sample_server).
  { assert (E : exists s2, server_run sample_hash (take 2 sample_requests) sample_server = Some s2 /\
        answered (aw_events (serve (AdminApi.sample_env no_fault) no_query (admin_request "{'require_api_keys':true}") PutConfig
          (sv_conn s2))) = true) by (eexists; split; vm_compute; reflexivity).
    destruct E as (s2 & E1 & E2). unfold sample_requests in *. cbn [take server_run settled_run settled] in *.
    split; [exact I|]. destruct (server_step sample_hash _ sample_server) as [s1|]; [|exact I]. split; [exact I|].
    destruct (server_step sample_hash (Touch no_fault "k1" 7) s1) as [s2'|]; [|exact I]. injection E1 as ->.
    split; [split; [reflexivity|split; [reflexivity|exact E2]]|]. cbn [server_step]. repeat split. }
  destruct (settings_take_effect sample_hash sample_requests sample_server governed_server sample_tables_wf eq_refl Hs Hr)
    as [_ G].
  specialize (G sample_surroundings Embeddings anonymous_request eq_refl
    (fun H : "POST" = "OPTIONS" => ltac:(discriminate H)) eq_refl).
  assert (Q : getConfigBool (db_config (tables_of governed_server)) "require_api_keys" DefaultRequireAPIKeys = true)
    by (vm_compute; reflexivity).
  cbv zeta in G. rewrite Q in G. destruct G as (_ & G1 & G2 & _). split; [exact G1|exact G2].
Defined.
