(* ===== verification/Delivery.v ===== *)
(** Where the requests of clients go: every request a proxy handler sends,
    panics included, goes where the router sent it, with that provider's
    credential; and with the router of the gateway, at rest, that is a backend
    the tables offer. *)
From S2P Require Import Prelude GoLib Models Circuit Catalog Sql Store Access Reply Admin AdminApi AdminKeys Gateway.
From S2P Require Import Http Limiter Json Body Streaming Active Router Handler Billing Server.
Local Open Scope Z_scope.
Local Open Scope go_scope.

(** * Where requests should go *)

(** The path an endpoint asks its backends for; the two that list models ask
    no backend. *)
Definition backend_path (ep : ClientRoute) : option string :=
  match ep with
  | ChatCompletions => Some "/v1/chat/completions"
  | Completions => Some "/v1/completions"
  | Embeddings => Some "/v1/embeddings"
  | ImageGenerations => Some "/v1/images/generations"
  | AudioSpeech => Some "/v1/audio/speech"
  | AudioTranscriptions => Some "/v1/audio/transcriptions"
  | Show_ => Some "/api/show"
  | ListModels | GetModel _ => None
  end.

(** The values of Authorization a provider gets: one, its own key or else the
    client's, or none when neither has one. *)
Definition authorization (r : Request) (p : Provider) : option (list string) :=
  if str_empty (credential r p) then None else Some [credential r p].

(** What a backend may see of a client besides. *)
Definition forwarded (r : Request) (h : Header) : Prop :=
  forall k vs, h !! k = Some vs ->
    k ∈ base_headers \/ openai_header k = true /\ req_Header r !! k = Some vs.

Lemma backend_auth_lookup r p h : h !! "Authorization" = None -> setBackendAuth r p h !! "Authorization" = authorization r p.
Proof.
  intros Hh. unfold setBackendAuth, authorization, credential. destruct (str_empty (p_APIKey p)); [|apply lookup_insert_eq]. cbn [negb].
  destruct (str_empty (header_get (req_Header r) "Authorization")); [done|apply lookup_insert_eq].
Qed.

Lemma authorization_get r p h : h !! "Authorization" = authorization r p -> header_get h "Authorization" = credential r p.
Proof.
  unfold header_get, authorization. intros ->. unfold str_empty. by destruct (String.eqb_spec (credential r p) "") as [->|].
Qed.

(** The headers of what the handlers build, without the credential. *)
Definition plain_headers (r : Request) (h : Header) : Prop := h !! "Authorization" = None /\ forwarded r h.

Lemma plain_forward_openai r h :
  (forall k, k ∉ base_headers -> h !! k = None) -> h !! "Authorization" = None -> plain_headers r (forward_openai r h).
Proof.
  intros Hh Ha. split; [by rewrite forward_openai_lookup|]. intros k vs. rewrite forward_openai_lookup.
  destruct (decide (k ∈ base_headers)) as [|Hk]; [by left|]. rewrite (Hh k Hk). destruct (openai_header k) eqn:Ho; [|done].
  destruct (req_Header r !! k) as [[|v l]|] eqn:E; simpl; [done| |done]. intros [= <-]. by right.
Qed.

Lemma plain_nonstreaming r : plain_headers r (forward_openai r (forward_header "Accept" r (forward_header "Content-Type" r ∅))).
Proof.
  apply plain_forward_openai; [intros k Hk|]; rewrite !forward_header_lookup, !decide_False; try done; intros [E _]; first [done|set_solver].
Qed.

Lemma plain_streaming r v v' : plain_headers r (forward_openai r (header_set "Accept" v (header_set "Content-Type" v' ∅))).
Proof.
  unfold header_set. apply plain_forward_openai; [intros k Hk|]; rewrite !lookup_insert_ne by first [done|set_solver]; done.
Qed.

Lemma plain_transcription r v : plain_headers r (header_set "Content-Type" v ∅).
Proof.
  unfold header_set. split; [by rewrite lookup_insert_ne|]. intros k vs. destruct (decide (k = "Content-Type")) as [->|Hk].
  - intros _. left. set_solver.
  - by rewrite lookup_insert_ne.
Qed.

(** * A logic of what is sent *)

(** A trace that sends a request only right after a route it fits. *)
Inductive along (P : RouteResult -> BackendRequest -> Prop) : list Handler.Event -> Prop :=
| along_nil : along P []
| along_quiet e t : sent_of e = None -> along P t -> along P (e :: t)
| along_sent route req res t : P route req -> along P t -> along P (EvRouted route :: EvSent req res :: t).

Lemma along_silent P t : omap sent_of t = [] -> along P t.
Proof. induction t as [|e t IH]; csimpl; [constructor|]. destruct (sent_of e) eqn:E; [done|]. by constructor; [|apply IH]. Qed.

Lemma along_app P t1 t2 : along P t1 -> along P t2 -> along P (t1 ++ t2).
Proof. induction 1; simpl; auto using along. Qed.

Lemma along_requests P t : along P t -> Forall (fun req => exists route, P route req) (omap sent_of t).
Proof. induction 1 as [|e t E _ IH|]; csimpl; [constructor|by rewrite E|constructor; [by eexists|done]]. Qed.

Lemma along_split P t1 req res t2 :
  along P (t1 ++ EvSent req res :: t2) -> exists t0 route, t1 = t0 ++ [EvRouted route] /\ P route req.
Proof.
  remember (t1 ++ _) as t eqn:Et. intros H. revert t1 Et.
  induction H as [|e t E _ IH|route req' res' t HP _ IH]; intros t1 Et.
  - by destruct t1.
  - destruct t1 as [|e1 t1]; simplify_eq/=. destruct (IH t1 eq_refl) as (t0 & route & -> & HP). by exists (e1 :: t0), route.
  - destruct t1 as [|e1 [|e2 t1]]; simplify_eq/=; [by exists [], route|].
    destruct (IH t1 eq_refl) as (t0 & route' & -> & HP'). by exists (EvRouted route :: EvSent req' res' :: t0), route'.
Qed.

Section Reaches.
Context {R : Type} `{Router_ : !RouterI R} (env : HandlerEnv) (r : Request) (ep : ClientRoute).

(** A request that follows a route the router gave for the path of the
    endpoint. *)
Definition routed (route : RouteResult) (req : BackendRequest) : Prop :=
  exists path model rs rs', backend_path ep = Some path /\ ri_route model path rs = (Ok route, rs') /\
    bq_URL req = rr_TargetURL route /\ bq_Header req !! "Authorization" = authorization r (rr_Provider route) /\
    forwarded r (bq_Header req).

Definition reaches {A} (m : M R A) : Prop := forall w, exists t, wd_trace (m w).2 = wd_trace w ++ t /\ along routed t.

(** What yields no requests at all. *)
Lemma reaches_mute {A} who (m : M R A) Q : yields who 0 m Q -> reaches m.
Proof.
  intros Hm w. destruct (Hm w) as (t & H1 & _ & H3 & _). exists t. split; [done|].
  apply along_silent. destruct (omap sent_of t); [done|simpl in H3; lia].
Qed.

Lemma reaches_bind {A B} (m : M R A) (k : A -> M R B) : reaches m -> (forall a, reaches (k a)) -> reaches (mbind_ m k).
Proof.
  intros Hm Hk w. destruct (Hm w) as (t1 & H1 & H2). unfold mbind_. destruct (m w) as [[a|[]|msg] w1]; simpl in *; [|by exists t1].
  destruct (Hk a w1) as (t2 & K1 & K2). exists (t1 ++ t2). rewrite K1, H1, app_assoc. auto using along_app.
Qed.

Lemma reaches_ret {A} (a : A) : reaches (mret a).
Proof. apply (reaches_mute (mkOrigin "" "" "" nobody) _ (fun _ => True)). by apply yields_ret. Qed.

Lemma reaches_then {A B} who Q (m : M R A) (k : A -> M R B) : yields who 0 m Q -> (forall a, reaches (k a)) -> reaches (mbind_ m k).
Proof. intros Hm. apply reaches_bind. by eapply reaches_mute. Qed.

(** What follows a route may send one request that fits it. *)
Lemma reaches_route {B} model path (k : option RouteResult -> M R B) :
  (forall route rs rs', ri_route model path rs = (Ok route, rs') ->
     forall w, exists t, wd_trace (k (Some route) w).2 = wd_trace w ++ t /\ along routed (EvRouted route :: t)) ->
  reaches (k None) -> reaches (mbind_ (do_route model path) k).
Proof.
  intros Hs Hn w. unfold mbind_, do_route. destruct (ri_route model path (wd_router w)) as [[route|e|msg] rs'] eqn:E.
  - destruct (Hs _ _ _ E (log_event (EvRouted route) (set_router rs' w))) as (t & H1 & H2). exists (EvRouted route :: t).
    split; [|done]. rewrite H1. simpl. by rewrite <- app_assoc.
  - destruct (Hn (log_event EvUnrouted (set_router rs' w))) as (t & H1 & H2). exists (EvUnrouted :: t).
    split; [|by constructor]. rewrite H1. simpl. by rewrite <- app_assoc.
  - exists []. split; [by rewrite app_nil_r|constructor].
Qed.

Lemma follows_send {B} route req (k : DoResult -> M R B) w :
  routed route req -> (forall res, reaches (k res)) ->
  exists t, wd_trace (mbind_ (do_send env req) k w).2 = wd_trace w ++ t /\ along routed (EvRouted route :: t).
Proof.
  intros Hr Hk. unfold mbind_, do_send. destruct (Hk (he_do env (wd_trace w) req) (log_event (EvSent req (he_do env (wd_trace w) req)) w))
    as (t & H1 & H2). eexists (_ :: t). rewrite H1. simpl. rewrite <- app_assoc. split; [done|]. by constructor.
Qed.

Lemma follows_quiet {B} route (m : M R B) w :
  reaches m -> exists t, wd_trace (m w).2 = wd_trace w ++ t /\ along routed (EvRouted route :: t).
Proof. intros Hm. destruct (Hm w) as (t & H1 & H2). exists t. split; [done|by constructor]. Qed.

Lemma reaches_and_then {A B} (m : M R (Flow (option A))) (k : A -> M R (Flow (option B))) :
  reaches m -> (forall a, reaches (k a)) -> reaches (and_then m k).
Proof. intros Hm Hk. apply reaches_bind; [done|]. intros [|[a|]]; [apply reaches_ret|apply Hk|apply reaches_ret]. Qed.

Lemma reaches_attempts {A} n (iteration : bool -> M R (Flow A)) (tail : M R A) :
  (forall last, reaches (iteration last)) -> reaches tail -> reaches (attempts n iteration tail).
Proof.
  intros Hi Ht. induction n as [|n IH]; [done|]. cbn [attempts]. apply reaches_bind; [apply Hi|]. intros [|a]; [done|apply reaches_ret].
Qed.

Lemma reaches_tracked (r' : Request) model path (m : M R unit) :
  reaches m -> reaches (do! trackID := beginTracking env r' model path in with_end trackID m).
Proof.
  intros Hm. apply reaches_bind.
  - apply (reaches_mute (mkOrigin "" "" "" nobody) _ (fun _ => True)), yields_silent. intros w. unfold beginTracking. by destruct (wd_active w).
  - intros id w. unfold with_end. destruct (Hm w) as (t & H). exists t. destruct (m w) as [o w']. by destruct (str_empty id).
Qed.

(** ** The handlers *)

Lemma reaches_send_attempt last log st model path build :
  (forall route rs rs', ri_route model path rs = (Ok route, rs') -> routed route (build route)) ->
  reaches (send_attempt env last log st model path build).
Proof.
  intros Hb. assert (Hf : forall status msg reply (b : Flow (option (RouteResult * BackendResponse))),
    reaches (fail env log st status msg reply >>! mret b)).
  { intros. eapply reaches_then; [by apply yields_fail|]. intros _. apply reaches_ret. }
  unfold send_attempt. apply reaches_route; [|destruct last; [apply Hf|apply reaches_ret]]. intros route rs rs' E.
  intros w. destruct (he_url_error env _); [apply follows_quiet; destruct last; [apply Hf|apply reaches_ret]|].
  apply follows_send; [by eapply Hb|]. intros [canceled text|resp]; [|apply reaches_ret].
  destruct canceled; [apply Hf|]. eapply (reaches_then (mkOrigin "" "" "" nobody)); [apply yields_failure|]. intros _.
  destruct last; [apply Hf|apply reaches_ret].
Qed.

Lemma reaches_whole last log st model path build (k : RouteResult -> BackendResponse -> string -> M R (Flow (option unit))) :
  (forall route rs rs', ri_route model path rs = (Ok route, rs') -> routed route (build route)) ->
  (forall route resp body, reaches (k route resp body)) ->
  reaches (and_then (send_attempt env last log st model path build) (fun '(route, resp) =>
    and_then (read_response env last log st route resp) (k route resp))).
Proof.
  intros Hb Hk. apply reaches_and_then; [by apply reaches_send_attempt|]. intros [route resp].
  apply reaches_and_then; [eapply reaches_mute; by apply yields_read|]. intros body. apply Hk.
Qed.

Lemma reaches_exhausted log st : reaches (exhausted env log st).
Proof. eapply reaches_then; [by apply yields_fail|]. intros _. apply reaches_ret. Qed.

(** What the handlers build of a route. *)
Lemma built_routed model path rs route rs' h body :
  backend_path ep = Some path -> ri_route model path rs = (Ok route, rs') -> plain_headers r h ->
  routed route (mkBackendRequest (rr_TargetURL route) (setBackendAuth r (rr_Provider route) h) body).
Proof.
  intros Hp E [Ha Hf]. exists path, model, rs, rs'. split_and!; [done|done|done|by apply backend_auth_lookup|].
  intros k vs. destruct (decide (k = "Authorization")) as [->|Hk]; [left; set_solver|]. simpl. rewrite backend_auth_other by done. apply Hf.
Qed.

Lemma reaches_proxy body model path isBinary st :
  backend_path ep = Some path -> reaches (proxyNonStreaming env r body model path isBinary st).
Proof.
  intros Hp.
  unfold proxyNonStreaming. apply reaches_tracked. eapply (reaches_then (mkOrigin "" "" "" nobody)); [apply yields_uuid|]. intros id.
  apply reaches_bind; [|intros _; apply reaches_ret]. apply reaches_attempts; [|apply reaches_exhausted]. intros last. apply reaches_whole.
  - intros route rs rs' E. eapply built_routed; [exact Hp|exact E|apply plain_nonstreaming].
  - intros route resp b. cbv zeta. destruct (500 <=? _); eapply reaches_mute; [by apply yields_server_error|by apply yields_answer].
Qed.

Lemma reaches_transcriptions form :
  backend_path ep = Some "/v1/audio/transcriptions" -> reaches (HandleAudioTranscriptions env form r).
Proof.
  intros Hp.
  assert (He : forall status msg, reaches (respondError status msg)).
  { intros. apply (reaches_mute (mkOrigin "" "" "" nobody) _ _ (yields_error _ _ _)). }
  unfold HandleAudioTranscriptions. eapply (reaches_then (mkOrigin "" "" "" nobody)); [apply yields_now|]. intros st.
  destruct (extractModelFromMultipart form) as [text|[model mp]]; [apply He|].
  destruct (mp_rebuilt mp) as [text|[mbody ct]]; [apply He|].
  eapply (reaches_then (mkOrigin "" "" "" nobody)); [apply yields_uuid|]. intros id.
  apply reaches_bind; [|intros _; apply reaches_ret]. apply reaches_attempts; [|apply reaches_exhausted]. intros last. apply reaches_whole.
  - intros route rs rs' E. eapply built_routed; [exact Hp|exact E|apply plain_transcription].
  - intros route resp b. cbv zeta. destruct (500 <=? _); eapply reaches_mute; [by apply yields_server_error|by apply yields_transcription].
Qed.

Lemma reaches_streaming_attempt mbody model path st log last :
  backend_path ep = Some path -> reaches (streaming_attempt env r mbody model path st log last).
Proof.
  intros Hp. unfold streaming_attempt. apply reaches_and_then.
  - apply reaches_send_attempt. intros route rs rs' E. eapply built_routed; [exact Hp|exact E|apply plain_streaming].
  - intros [route resp]. apply (reaches_mute (log_origin log) _ (fun _ => True)). repeat yield_step; done.
Qed.

Lemma reaches_handle_streaming body model path st :
  backend_path ep = Some path -> reaches (handleStreamingRequest env r body model path st).
Proof.
  intros Hp. unfold handleStreamingRequest. apply reaches_tracked. destruct (injectStreamOptions body) as [mbody|e|msg].
  - cbv zeta. eapply (reaches_then (mkOrigin "" "" "" nobody)); [apply yields_uuid|]. intros id.
    eapply (reaches_then (mkOrigin "" "" "" nobody)); [by apply (yields_cut _ _ _ (fun _ => True))|]. intros cut.
    apply reaches_bind.
    + apply reaches_attempts; [intros last; by apply reaches_streaming_attempt|].
      eapply reaches_then; [by apply yields_fail|]. intros _. apply reaches_ret.
    + intros [[route resp]|]; [|apply reaches_ret]. eapply reaches_mute. by apply yields_stream_answer.
  - apply (reaches_mute (mkOrigin "" "" "" nobody) _ _ (yields_error _ _ _)).
  - apply (reaches_mute (mkOrigin "" "" "" nobody) _ (fun _ => True)). apply yields_panic.
Qed.

Lemma reaches_with_model extract missing k :
  (forall st body model, reaches (k st body model)) -> reaches (with_model env extract missing r k).
Proof.
  intros Hk. unfold with_model. eapply (reaches_then (mkOrigin "" "" "" nobody)); [apply yields_now|]. intros st.
  assert (He : forall status msg, reaches (respondError status msg)).
  { intros. apply (reaches_mute (mkOrigin "" "" "" nobody) _ _ (yields_error _ _ _)). }
  destruct (read_body env r) as [body|]; [|apply He]. destruct (extract body); [apply Hk|apply He|].
  apply (reaches_mute (mkOrigin "" "" "" nobody) _ (fun _ => True)). apply yields_panic.
Qed.

Lemma reaches_complete path : backend_path ep = Some path -> reaches (complete env path r).
Proof.
  intros Hp. apply reaches_with_model. intros st body model. destruct (stream_requested body); [by apply reaches_handle_streaming|by apply reaches_proxy].
Qed.

End Reaches.

(** * Requests of clients *)

Section Requests.
Context {R : Type} `{Router_ : !RouterI R} (HashKey : string -> string) (su : Surroundings).

Lemma endpoint_reaches route r env : reaches (R:=R) r route (endpoint su route r env).
Proof.
  assert (Hreply : forall status data, reaches (R:=R) r route (respondJSON status data)).
  { intros status data. apply (reaches_mute r route (mkOrigin "" "" "" nobody) _ (fun _ => True)).
    apply (yields_event _ _ (EvReply status)); [done|done|simpl; lia]. }
  destruct route; cbn [endpoint];
    try solve [by apply reaches_complete | by apply reaches_transcriptions | apply reaches_with_model; intros; by apply reaches_proxy];
    [apply Hreply|].
  unfold HandleGetModel. destruct (str_empty _); [apply Hreply|]. case_match; apply Hreply.
Qed.

Lemma run_handler_reaches r ep (m : HandlerEnv -> M R unit) rec : (forall env, reaches r ep (m env)) ->
  exists t, wd_trace (sv_world (sr_ResponseWriter (run_handler su m rec).2)) = wd_trace (sv_world (sr_ResponseWriter rec)) ++ t /\
    along (routed r ep) t.
Proof.
  intros Hm. destruct (Hm (served_env (R:=R) su (sv_config (sr_ResponseWriter rec))) (sv_world (sr_ResponseWriter rec))) as (t & H1 & H2).
  unfold run_handler. destruct (m _ _) as [o w]. by exists t.
Qed.

Lemma along_panic P t (panic : option string) : along P t -> along P (t ++ match panic with Some _ => [EvReply 500] | None => [] end).
Proof. intros H. apply along_app; [done|]. apply along_silent. by destruct panic. Qed.

(** Whatever becomes of a request, what it sends follows a route. *)
Lemma request_routed route r (s : Server R) : along (routed r route) (news s (client_call HashKey su route r s)).
Proof.
  destruct (String.eqb_spec (req_Method r) "OPTIONS") as [Ho|Ho].
  { unfold client_call, middlewares, RequestID, Recovery, Logging, CORSMiddleware, bind, ret, w_header_set, w_write_header, w_write, modify.
    rewrite Ho. cbn. rewrite (news_app s _ [EvReply 204]) by done. by apply along_silent. }
  pose proof (client_call_routes HashKey su r route s Ho) as C. unfold route_handler in C.
  destruct (keyed route) eqn:Hk.
  - pose proof (require_api_key_spec HashKey su (fun r => run_handler su (endpoint su route r)) r s (arrived su r s) 200 eq_refl eq_refl) as K.
    destruct (admission HashKey su r s) as [adm l]. destruct K as (s1 & K1 & K2 & K3 & K4 & K5).
    assert (Htr : wd_trace (sv_world s1) = wd_trace (sv_world s)) by (by rewrite K1).
    destruct adm as [status|key].
      destruct K5 as [_ [msg K6]]. rewrite K6 in C. destruct C as (_ & C & _). cbn in C. rewrite app_nil_r, Htr in C.
      rewrite (news_app s _ _ C). by apply along_silent.
    + destruct K5 as [_ K6]. rewrite K6 in C. set (r1 := with_apiKey _ r) in C.
      destruct (run_handler_reaches r1 route (endpoint su route r1) (mkRecorder s1 200) (endpoint_reaches route r1)) as (t & H1 & H2).
      destruct (run_handler su _ (mkRecorder s1 200)) as [panic rec]. destruct C as (_ & C & _). cbn [sr_ResponseWriter snd] in H1.
      rewrite H1, Htr, <- app_assoc in C. rewrite (news_app s _ _ C). by apply along_panic.
  - destruct (run_handler_reaches r route (endpoint su route r) (mkRecorder (arrived su r s) 200) (endpoint_reaches route r)) as (t & H1 & H2).
    destruct (run_handler su _ _) as [panic rec]. destruct C as (_ & C & _). cbn [sr_ResponseWriter snd] in H1.
    rewrite H1, <- app_assoc in C. rewrite (news_app s _ _ C). by apply along_panic.
Qed.

End Requests.

(** The provider of a route is a row of the load the snapshot was built of,
    found healthy. *)
Lemma route_provider (env : RouterEnv) `{sorting : SortSlice} (loaded : nat -> RoutingData) name path rs res :
  (forall n, Catalog.keyed (loaded n) /\ snap_at (RouterEnv:=env) n = buildRoutingSnapshot (loaded n)) ->
  (Route (env:=env) (sorting:=sorting) name path rs).1 = Ok res ->
  exists n, rr_Provider res ∈ rd_Providers (loaded n) /\ p_IsHealthy (rr_Provider res) = true.
Proof.
  intros Hsnap. rewrite (proj2 (Route_eq (sorting:=sorting) name path rs)). intros H.
  destruct (eligible name path rs) as [|d0 l] eqn:E; [done|]. rewrite <- E in H.
  destruct (top_exists (eligible name path rs)) as [top Htop]; [by rewrite E|].
  destruct (selectWeightedPriority (sorting:=sorting) intn _) as [c|e|] eqn:Hsel; simplify_eq/=.
  pose proof (select_ok (sorting:=sorting) _ _ _ _ Htop Hsel) as (Hc & _ & _)%pool_spec.
  destruct (eligible_spec name path rs c Hc) as (H1 & _ & _). unfold resolveCandidates in H1.
  destruct (Hsnap 0%nat) as [K0 S0], (Hsnap 1%nat) as [K1 S1]. rewrite AliasCandidates_slice, S0, S1 in H1.
  destruct (slice_at name (rs_aliases (buildRoutingSnapshot (loaded 0%nat)))) as [|rc rcs] eqn:Es; simpl in H1.
  - unfold DirectCandidates in H1. apply list_elem_of_fmap in H1 as (rc & -> & Hrc). apply (snapshot_direct _ K1) in Hrc.
    destruct Hrc as (m & p & _ & _ & _ & (P1 & _ & P3) & ->). by exists 1%nat.
  - assert (Hrc : exists rc0, c = to_candidate rc0 /\ rc0 ∈ slice_at name (rs_aliases (buildRoutingSnapshot (loaded 0%nat)))).
    { rewrite Es. by apply (list_elem_of_fmap to_candidate (rc :: rcs) c) in H1. }
    destruct Hrc as (rc0 & -> & Hrc). apply (snapshot_alias _ K0) in Hrc.
    destruct Hrc as (a & p & _ & _ & _ & (P1 & _ & P3) & _ & ->). by exists 0%nat.
Qed.

Lemma first_sent (t : list Handler.Event) :
  omap sent_of t <> [] -> exists t1 req res t2, t = t1 ++ EvSent req res :: t2 /\ req ∈ omap sent_of t.
Proof.
  induction t as [|e t IH]; [done|]. intros H. destruct (sent_of e) eqn:E.
    destruct e; try done. eexists [], _, _, t. split; [done|]. csimpl. left.
  - csimpl in *. rewrite E in *. destruct (IH H) as (t1 & req & res & t2 & -> & Hr). by exists (e :: t1), req, res, t2.
Qed.

(** * Properties *)

(** A request that goes to a backend the tables offer on the path of the
    endpoint, with its credential: one of the highest priority among those
    whose breakers admitted them when it was drawn. *)
Definition delivered (db : DB) (ep : ClientRoute) (r : Request) (req : BackendRequest) : Prop :=
  exists name path via c rs, backend_path ep = Some path /\ offer db name path via c /\ 0 < c_weight c /\
    bq_URL req = target_url (p_BaseURL (c_provider c)) path /\
    header_get (bq_Header req) "Authorization" = credential r (c_provider c) /\
    forall d via', offer db name path via' d -> admitted rs d -> c_priority d <= c_priority c.

(** C4: Requests reach the backends the tables offer, and no others.  Take any
    interleaving of admin calls, health verdicts, writes of logs, and steps of
    the reload worker, as in {!routing_follows_the_tables}.  At most eleven
    steps of the worker later, every request that any request of a client
    sends, on any endpoint, with or without a key, even if it panics later,
    goes to the base URL of a provider that the tables offer for a name on
    the endpoint, healthy, with the endpoint enabled, of a positive weight and
    of the highest priority admitted; and it carries that provider's key, or
    the client's own credential when the provider has none. *)
Theorem requests_reach_offered_backends (order : SortSlice) (c0 : Conn) (es : list GatewayEvent) (g : Gateway) :
  wf (cn_db c0) -> Forall wired es -> gateway_run es (start c0) = Some g -> gw_failed g = false -> gw_open g = 0%nat ->
  exists es' g', Forall worker_event es' /\ (length es' <= 11)%nat /\ gateway_run es' g = Some g' /\ gw_conn g' = gw_conn g /\
    cat_snap (gw_cat g') = buildRoutingSnapshot (rows (cn_db (gw_conn g))) /\
    forall (envs : nat -> RouterEnv) (sorting : SortSlice) (HashKey : string -> string) (su : Surroundings) (route : ClientRoute)
      (r : Request) (s : Server (SmartRouter * nat)),
      (forall k n, snap_at (RouterEnv:=envs k) n = cat_snap (gw_cat g')) ->
      Forall (delivered (cn_db (gw_conn g)) route r)
        (omap sent_of (news s (client_call (Router_:=SmartRouterI envs (sorting:=sorting)) HashKey su route r s))).
Proof.
  intros W Hw Hr Hf Ho. pose proof (gateway_run_ok _ _ _ Hw Hr (start_ok c0 W)) as K.
  destruct (gateway_rests g K Hf Ho) as (_ & _ & H3). destruct (drain_steps 11 g) as (es' & E1 & E2 & E3).
  eexists es', _. split; [exact E1|]. split; [exact E2|]. split; [exact E3|]. split; [done|]. split; [exact H3|].
  intros envs sorting HashKey su route r s Hsnap. cbn [gw_cat] in Hsnap. rewrite H3 in Hsnap.
  eapply Forall_impl; [apply along_requests, request_routed|].
  intros req (res & path & name & [rs n] & rs' & Hp & E & Hu & Ha%authorization_get & _).
  simpl in E. destruct (Route (env:=envs n) (sorting:=sorting) name path rs) as [o rs1] eqn:Er. injection E as -> _.
  destruct (route_offered (env:=envs n) (sorting:=sorting) _ (go_wf g K) (Hsnap n) name path rs res) as (c & C1 & C2 & C3 & C4 & C5); [by rewrite Er|].
  exists name, path, (rr_RequestedViaAlias res), c, rs. rewrite Hu, Ha, (Route_target _ _ _ _ _ _ Er), C3. by split_and!.
Qed.

(** C14: A provider's key goes to that provider.  Let the router read snapshots
    the catalog built of any loads of the tables, whatever their age.  Every
    request to a backend that a request of a client causes, on any endpoint,
    with or without a key, even if it panics later, stands in the trace right
    after the route it follows.  The provider of that route is one row of such
    a load: the request goes to the base URL of that very row, joined with
    the path of the endpoint, and its only value of Authorization is the key
    of that very row, or the client's own credential when the row has no key;
    no other header of the client is passed on but Content-Type, Accept and
    the OpenAI ones, and these as the client sent them. *)
Theorem credentials_stay_home (envs : nat -> RouterEnv) (sorting : SortSlice) (loaded : nat -> nat -> RoutingData)
    (HashKey : string -> string) (su : Surroundings) (ep : ClientRoute) (r : Request) (s : Server (SmartRouter * nat))
    (t1 t2 : list Handler.Event) (req : BackendRequest) (res : DoResult) :
  (forall k n, Catalog.keyed (loaded k n) /\ snap_at (RouterEnv:=envs k) n = buildRoutingSnapshot (loaded k n)) ->
  news s (client_call (Router_:=SmartRouterI envs (sorting:=sorting)) HashKey su ep r s) = t1 ++ EvSent req res :: t2 ->
  exists t0 route path k n, t1 = t0 ++ [EvRouted route] /\ backend_path ep = Some path /\
    rr_Provider route ∈ rd_Providers (loaded k n) /\ p_IsHealthy (rr_Provider route) = true /\
    bq_URL req = target_url (p_BaseURL (rr_Provider route)) path /\
    bq_Header req !! "Authorization" = authorization r (rr_Provider route) /\ forwarded r (bq_Header req).
Proof.
  intros Hsnap Hsent. pose proof (request_routed (Router_:=SmartRouterI envs (sorting:=sorting)) HashKey su ep r s) as H.
  rewrite Hsent in H. destruct (along_split _ _ _ _ _ H) as (t0 & route & -> & path & name & [rs k] & rs' & H1 & H2 & H3 & H4 & H5).
  simpl in H2. destruct (Route (env:=envs k) (sorting:=sorting) name path rs) as [o rs1] eqn:Er. injection H2 as -> _.
  destruct (route_provider (envs k) (sorting:=sorting) (loaded k) name path rs route (Hsnap k)) as (n & P1 & P2); [by rewrite Er|].
  exists t0, route, path, k, n. rewrite H3, (Route_target _ _ _ _ _ _ Er). by split_and!.
Qed.

(** * Witnesses *)

(** After the admin call of [gateway_events], a request for the new alias. *)
Definition quick_request : Request :=
  mkRequest "POST" "/v1/chat/completions" ∅ 16 "1.2.3.4:5" (jtext "{'model':'quick'}") None.

Definition quick_server : Server (SmartRouter * nat) :=
  mkServer (mkWorld (mkRouter {["p1" := NewCircuitBreaker 0]} 0, 0%nat) new_writer None [] 0 0) NewKeyLimiter
    (gw_conn gateway_reached) ∅ [] [].

Abbreviation quick_sent :=
  (omap sent_of (news quick_server
    (client_call (Router_:=SmartRouterI (sorting:=insertion_SortSlice)
       (fun _ => gateway_env (buildRoutingSnapshot (rows (order:=insertion_SortSlice) (cn_db (gw_conn gateway_reached))))))
     sample_hash sample_surroundings ChatCompletions quick_request quick_server))).

Lemma requests_reach_offered_backends_witness :
  length quick_sent = 1%nat /\ Forall (delivered (cn_db (gw_conn gateway_reached)) ChatCompletions quick_request) quick_sent.
Proof.
  split; [vm_compute; reflexivity|].
  assert (Hr : gateway_run (order := insertion_SortSlice) gateway_events
    (start (order := insertion_SortSlice) (mkConn gateway_db 0)) = Some gateway_reached) by (vm_compute; reflexivity).
  assert (Hw : Forall wired gateway_events) by (repeat constructor).
  destruct (requests_reach_offered_backends insertion_SortSlice (mkConn gateway_db 0) gateway_events gateway_reached
    gateway_db_wf Hw Hr eq_refl eq_refl) as (es' & g' & _ & _ & _ & _ & Hs & H).
  apply H. intros _ n. exact (eq_sym Hs).
Defined.

Abbreviation quick_news :=
  (news quick_server
    (client_call (Router_:=SmartRouterI (sorting:=insertion_SortSlice)
       (fun _ => gateway_env (buildRoutingSnapshot (rows (order:=insertion_SortSlice) (cn_db (gw_conn gateway_reached))))))
     sample_hash sample_surroundings ChatCompletions quick_request quick_server)).

(** The key of the new route is that of the one provider of the tables. *)
Abbreviation reached_rows := (rows (order:=insertion_SortSlice) (cn_db (gw_conn gateway_reached))).

Lemma reached_keyed : Catalog.keyed reached_rows.
Proof.
  apply rows_keyed, (go_wf (order:=insertion_SortSlice)).
  apply (gateway_run_ok (order:=insertion_SortSlice) gateway_events (start (order:=insertion_SortSlice) (mkConn gateway_db 0))).
  - repeat constructor.
  - vm_compute. reflexivity.
  - apply start_ok, gateway_db_wf.
Qed.

Lemma credentials_stay_home_witness :
  exists req, req ∈ quick_sent /\ exists p, p ∈ rd_Providers reached_rows /\
    bq_URL req = target_url (p_BaseURL p) "/v1/chat/completions" /\
    bq_Header req !! "Authorization" = authorization quick_request p.
Proof.
  destruct (first_sent quick_news ltac:(vm_compute; discriminate)) as (t1 & req & res & t2 & E & Hr). exists req. split; [exact Hr|].
  destruct (credentials_stay_home (fun _ => gateway_env (buildRoutingSnapshot reached_rows)) insertion_SortSlice (fun _ _ => reached_rows)
    sample_hash sample_surroundings ChatCompletions quick_request quick_server t1 t2 req res
    (fun _ _ => conj reached_keyed eq_refl) E) as (t0 & route & path & k & n & _ & H1 & H2 & _ & H3 & H4 & _).
  injection H1 as <-. exists (rr_Provider route). split; [exact H2|]. split; [exact H3|exact H4].
Defined.
