(* ===== verification/Ledger.v ===== *)
(** The books of the gateway: what becomes of a request between the key it
    was let in under and the row the reports count, and what the end of the
    process does to the rows that were not yet written.

    A {!Process} is the {!Server} with the collector and the statistics next
    to it.  Requests hand their logs to the collector's channel; its goroutine
    prices and stores them; [main] closes the server, the collector and the
    store in this order. *)
From S2P Require Import Prelude GoLib Models Sql Store Access Reply Admin AdminConfig AdminApi AdminKeys Gateway.
From S2P Require Import Http Limiter Body Streaming Active Catalog Router Stats Handler Metrics Billing Server.
Local Open Scope Z_scope.

(** * The process *)

(** What the handlers hand to the metrics. *)
Definition job_of (e : Handler.Event) : option persistJob :=
  match e with
  | EvRecord log => Some (mkJob log [] false)
  | EvRecordStreaming log chunks dropped => Some (mkJob log chunks dropped)
  | _ => None
  end.

(** [main] serves, was told to stop, has shut the server down, closes the
    collector, and has closed the store. *)
Inductive Phase := Up | Stopping | Down | Closing | Exited.

#[export] Instance Phase_eq_dec : EqDecision Phase.
Proof. solve_decision. Defined.

(** What a turn of the collector's goroutine reads of the outside. *)
Record Turning := mkTurning {
  tn_fault : nat -> bool;
  tn_catalog : option routingSnapshot;
  tn_now : Z;
  tn_clock : nat -> Z;
  tn_clock_row : nat -> Z;
  tn_uuid : nat -> string;
}.

(** [Interrupt] ends the context of the goroutines; [ShutdownDone] is the
    return of [srv.Shutdown] without an error. *)
Inductive ProcessEvent :=
| Serve (e : ServerEvent)
| Work (ctx_case : bool) (t : Turning)
| Interrupt
| ShutdownDone
| CloseCollector
| CloseStore.

(** A server that was told to stop still ends the requests it has; the
    retention worker purges, and nobody but the collector inserts logs. *)
Definition may_serve (e : ServerEvent) (ph : Phase) : bool :=
  match e with
  | Client _ _ _ | Administer _ _ => bool_decide (ph = Up \/ ph = Stopping)
  | Touch _ _ _ => bool_decide (ph <> Exited)
  | WriteLog _ (OpPurgeRequestBodies _ | OpPurgeResponseBodies _ | OpPurgeStreamingLogs _) => bool_decide (ph <> Exited)
  | WriteLog _ _ => false
  end.

Section Process.
Context {R : Type} `{Router_ : !RouterI R} (HashKey : string -> string).

Record Process := mkProcess {
  pc_server : Server R;
  pc_history : History;
  pc_stats : Accumulator;
  pc_phase : Phase;
}.

Definition set_phase (ph : Phase) (p : Process) : Process := mkProcess (pc_server p) (pc_history p) (pc_stats p) ph.

(** The job a turn took is processed before the next turn. *)
Definition process_job (t : Turning) (job : persistJob) (p : Process) : Process :=
  let sinks := (process (tn_fault t) (tn_catalog t) (tn_now t) (tn_clock t) (tn_clock_row t) (tn_uuid t) job
                 (mkSinks (sv_conn (pc_server p)) (Some (pc_stats p)))).2 in
  mkProcess (set_conn (sk_conn sinks) (pc_server p)) (pc_history p) (default (pc_stats p) (sk_stats sinks)) (pc_phase p).

Definition process_step (e : ProcessEvent) (p : Process) : option Process :=
  match e with
  | Serve e =>
      if may_serve e (pc_phase p) then
        s ← server_step HashKey e (pc_server p);
        h ← collector_run (Submit <$> omap job_of (news (pc_server p) s)) (pc_history p);
        Some (mkProcess s h (pc_stats p) (pc_phase p))
      else None
  | Work ctx_case t =>
      if ctx_case && bool_decide (pc_phase p = Up) then None
      else
        h ← collector_step (Turn ctx_case) (pc_history p);
        let p' := mkProcess (pc_server p) h (pc_stats p) (pc_phase p) in
        Some (match (worker_turn ctx_case (hi_collector (pc_history p))).1 with
              | Some job => process_job t job p'
              | None => p'
              end)
  | Interrupt => if decide (pc_phase p = Up) then Some (set_phase Stopping p) else None
  | ShutdownDone => if decide (pc_phase p = Stopping) then Some (set_phase Down p) else None
  | CloseCollector =>
      if decide (pc_phase p = Down) then
        h ← collector_step CloseCh (pc_history p); Some (mkProcess (pc_server p) h (pc_stats p) Closing)
      else None
  | CloseStore =>
      if decide (pc_phase p = Closing /\ col_worker (hi_collector (pc_history p)) = Ended)
      then Some (set_phase Exited p) else None
  end.

Fixpoint process_run (es : list ProcessEvent) (p : Process) : option Process :=
  match es with
  | [] => Some p
  | e :: es' => match process_step e p with Some p' => process_run es' p' | None => None end
  end.

(** What a step hands to the collector, and a run. *)
Definition handed_by (e : ProcessEvent) (p : Process) : list persistJob :=
  match e with
  | Serve e => match server_step HashKey e (pc_server p) with Some s => omap job_of (news (pc_server p) s) | None => [] end
  | _ => []
  end.

Fixpoint handed (es : list ProcessEvent) (p : Process) : list persistJob :=
  match es with
  | [] => []
  | e :: es' => handed_by e p ++ match process_step e p with Some p' => handed es' p' | None => [] end
  end.

End Process.
Arguments Process : clear implicits.

(** * Requests and the logs of them *)

Section Requests.
Context {R : Type} `{Router_ : !RouterI R} (HashKey : string -> string).

(** The key a request is recorded under. *)
Definition billed (su : Surroundings) (route : ClientRoute) (r : Request) (s : Server R) : option APIKey :=
  if keyed route && names_key route && negb (String.eqb (req_Method r) "OPTIONS") then
    match (admission HashKey su r s).1 with Granted key => key | Refused _ => None end
  else None.

Lemma job_log_of e : job_log <$> job_of e = recorded_of e.
Proof. by destruct e. Qed.

Lemma jobs_logs (t : list Handler.Event) : job_log <$> omap job_of t = omap recorded_of t.
Proof. induction t as [|e t IH]; [done|]. csimpl. rewrite <- IH, <- job_log_of. by destruct (job_of e). Qed.

(** A request is recorded at most once, under the key it was let in with. *)
Lemma request_recorded su route r (s : Server R) : apiKeyFromContext r = None ->
  let logs := omap recorded_of (news s (client_call HashKey su route r s)) in
  (length logs <= 1)%nat /\
  Forall (fun log => log_origin log = request_origin r (key_auth <$> billed su route r s)) logs.
Proof.
  intros Hfresh. cbv zeta. unfold billed. destruct (String.eqb_spec (req_Method r) "OPTIONS") as [Ho|Ho].
  { rewrite andb_false_r. assert (E : omap recorded_of (news s (client_call HashKey su route r s)) = []); [|rewrite E; simpl; split; [lia|apply Forall_nil_2]].
    unfold client_call, middlewares, RequestID, Recovery, Logging, CORSMiddleware, bind, ret, w_header_set, w_write_header, w_write, modify.
    rewrite Ho. cbn. by rewrite (news_app s _ [EvReply 204]). }
  rewrite andb_true_r. destruct (keyed route) eqn:Hk; cbn [andb].
  - pose proof (request_governed HashKey su route r s Hk Ho) as G. destruct (admission HashKey su r s) as [adm l]. cbn [fst].
    destruct G as ((_ & G) & _). destruct adm as [status|key]; [destruct G as [-> _]; simpl; split; [lia|apply Forall_nil_2]|].
    destruct G as (_ & _ & G1 & G2). split; [done|]. by destruct (names_key route).
  - pose proof (client_call_routes HashKey su r route s Ho) as C. unfold route_handler in C. rewrite Hk in C.
    destruct (run_handler_spec su _ 3 (endpoint su route r) (mkRecorder (arrived su r s) 200) (endpoint_yields su route r _)
      (endpoint_books su route r _)) as ((t & H1 & H2 & _ & H3) & _).
    destruct (run_handler su _ _) as [panic rec]. destruct C as (_ & C & _). cbn [sr_ResponseWriter snd] in H1. rewrite H1, <- app_assoc in C.
    rewrite (news_app s _ _ C), omap_app. rewrite Hfresh in H2.
    assert (E : omap recorded_of (match panic with Some _ => [EvReply 500] | None => [] end) = []) by by destruct panic.
    rewrite E, app_nil_r. split; [done|]. by destruct (names_key route).
Qed.

End Requests.

(** * Writing the rows *)

Section Rows.

(** The row a job becomes, priced by a snapshot, and whether a row is one. *)
Definition row_of (catalog : option routingSnapshot) (job : persistJob) : RequestLog :=
  log_row (with_cost catalog (job_log job)).
Definition booked (row : RequestLog) (job : persistJob) : Prop := exists catalog, row = row_of catalog job.

Lemma row_same catalog job : log_ID (row_of catalog job) = log_ID (job_log job) /\ log_origin (row_of catalog job) = log_origin (job_log job).
Proof. unfold row_of, with_cost. by repeat case_match. Qed.

Lemma efor_keeps {A B} (f : DB -> B) (g : A -> Exec unit) l : (forall x, keeps f (g x)) -> keeps f (efor g l).
Proof.
  intros Hg. induction l as [|x l IH]; intros c; [done|]. cbn [efor]. unfold ebind. specialize (Hg x c).
  destruct (g x c) as [[e|[]] c']; [done|]. by rewrite IH.
Qed.

Section Turn.
Context {R : Type} (t : Turning) (job : persistJob) (p : Process R).

(** What a turn does to the state around it. *)
Lemma process_job_spec :
  let p' := process_job t job p in
  let logs := db_logs (tables_of (pc_server p)) in
  pc_history p' = pc_history p /\ pc_phase p' = pc_phase p /\
  (wf (tables_of (pc_server p)) -> wf (tables_of (pc_server p'))) /\
  (if tn_fault t (cn_stmts (sv_conn (pc_server p))) || negb (fresh log_ID (job_log job) logs)
   then db_logs (tables_of (pc_server p')) = logs
   else db_logs (tables_of (pc_server p')) = logs ++ [row_of (tn_catalog t) job]).
Proof.
  destruct p as [s h a ph]. unfold process_job, process, persist, bind, ret, tables_of. cbn [pc_server sk_conn].
  set (log := with_cost _ _). destruct (row_same (tn_catalog t) job) as [Hid _]. fold (log_row log) in Hid.
  assert (Hrow : row_of (tn_catalog t) job = log_row log) by done. rewrite Hrow in *. clearbody log.
  unfold InsertRequestLog, exec. destruct (tn_fault t (cn_stmts (sv_conn s))) eqn:Ef; [by cbn; split_and!|]. cbn [orb].
  assert (W := fun c W => run_op_wf (tn_fault t) (OpInsertRequestLog log) c W). simpl in W.
  unfold InsertRequestLog, exec in W. specialize (W (sv_conn s)). rewrite Ef in W.
  unfold insert_log in *.
  assert (Hf : fresh log_ID (log_row log) (db_logs (cn_db (sv_conn s))) = fresh log_ID (job_log job) (db_logs (cn_db (sv_conn s)))).
  { unfold fresh. by rewrite Hid. }
  rewrite Hf in *. destruct (fresh _ _ _); cbn [negb]; [|by cbn; split_and!].
  destruct (efor _ _ _) as [r c'] eqn:E. cbn [snd].
  assert (K : db_logs (cn_db c') = db_logs (cn_db (sv_conn s)) ++ [log_row log]).
  { match type of E with efor ?g ?l ?c = _ => pose proof (efor_keeps db_logs g l) as K; specialize (fun H => K H c) end.
    rewrite E in K. apply K. intros [i ch]. apply exec_keeps. intros db. unfold insert_chunk. by destruct (fresh _ _ _ && _). }
  split_and!; [done..| |exact K]. intros W0. specialize (W W0).
  match type of E with efor ?g ?l ?c = _ => pose proof (efor_wf g l) as K'; specialize (fun H => K' H c W) end.
  rewrite E in K'. apply K'. intros [i ch]. apply (run_op_wf (tn_fault t) (OpInsertStreamingLog _ _ _)).
Qed.

End Turn.
End Rows.

(** * Runs *)

Section Runs.
Context {R : Type} `{Router_ : !RouterI R} (HashKey : string -> string).

Definition logs_of (p : Process R) : list RequestLog := db_logs (tables_of (pc_server p)).

(** ** The channel *)

Lemma collector_run_ok cap es : forall subs h h', history_ok cap subs h -> collector_run es h = Some h' ->
  history_ok cap (subs ++ submitted es) h'.
Proof.
  induction es as [|e es IH]; intros subs h h' K H; simpl in H.
  { injection H as <-. unfold submitted. simpl. by rewrite app_nil_r. }
  destruct (collector_step e h) as [h1|] eqn:E; [|done]. apply (history_ok_step _ _ _ _ _ K) in E.
  specialize (IH _ _ _ E H). rewrite <- (assoc_L app) in IH. change (e :: es) with ([e] ++ es). unfold submitted in *. by rewrite omap_app.
Qed.

Lemma submitted_jobs jobs : submitted (Submit <$> jobs) = jobs.
Proof. induction jobs as [|j jobs IH]; [done|]. unfold submitted in *. csimpl. by rewrite IH. Qed.

(** Handing over changes neither what was processed nor the goroutine. *)
Lemma submits_quiet jobs : forall h h', collector_run (Submit <$> jobs) h = Some h' ->
  hi_processed h' = hi_processed h /\ col_worker (hi_collector h') = col_worker (hi_collector h) /\
  col_closed (hi_collector h') = col_closed (hi_collector h).
Proof.
  induction jobs as [|j jobs IH]; intros h h' H; simpl in H; [by simplify_eq|].
  unfold enqueue in H. destruct (col_closed (hi_collector h)) eqn:Ec; [done|].
  destruct (accepts _); destruct (IH _ _ H) as (-> & -> & ->); simpl; auto.
Qed.

Lemma step_history cap subs e p p' : process_step HashKey e p = Some p' -> history_ok cap subs (pc_history p) ->
  history_ok cap (subs ++ handed_by HashKey e p) (pc_history p').
Proof.
  intros H K. destruct e as [e|b t| | | |]; cbn [process_step handed_by] in *; rewrite ?app_nil_r.
  - destruct (may_serve _ _); [|done]. destruct (server_step HashKey e (pc_server p)) as [s|]; [|done]. simpl in H.
    destruct (collector_run _ _) as [h|] eqn:E; [|done]. simpl in H. simplify_eq. simpl.
    apply (collector_run_ok _ _ _ _ _ K) in E. by rewrite submitted_jobs in E.
  - destruct (b && _); [|].
    { done. }
    destruct (collector_step (Turn b) (pc_history p)) as [h|] eqn:E; [|done]. cbn [mbind option_bind] in H. simplify_eq.
    apply (history_ok_step _ _ _ _ _ K) in E. simpl in E. rewrite app_nil_r in E.
    destruct (worker_turn _ _).1 as [job|]; [|exact E]. destruct (process_job_spec t job (mkProcess (pc_server p) h (pc_stats p) (pc_phase p))) as (-> & _).
    exact E.
  - destruct (decide _); by simplify_eq/=.
  - destruct (decide _); by simplify_eq/=.
  - destruct (decide _); [|done]. destruct (collector_step CloseCh (pc_history p)) as [h|] eqn:E; [|done]. cbn [mbind option_bind] in H. simplify_eq.
    apply (history_ok_step _ _ _ _ _ K) in E. simpl in E. by rewrite app_nil_r in E.
  - destruct (decide _); by simplify_eq/=.
Qed.

Lemma run_history cap es : forall subs p p', process_run HashKey es p = Some p' -> history_ok cap subs (pc_history p) ->
  history_ok cap (subs ++ handed HashKey es p) (pc_history p').
Proof.
  induction es as [|e es IH]; intros subs p p' H K; simpl in H |- *; [simplify_eq; by rewrite app_nil_r|].
  destruct (process_step HashKey e p) as [p1|] eqn:E; [|done]. rewrite (assoc_L app). apply (IH _ _ _ H). by apply step_history.
Qed.

(** ** The tables *)

Lemma within_logs sc db db' : within sc db db' -> without_bodies <$> db_logs db' = without_bodies <$> db_logs db.
Proof. destruct sc; simpl; intros; destruct_and?; congruence. Qed.

Lemma serve_logs e ph (s s' : Server R) : may_serve e ph = true -> wf (tables_of s) -> server_step HashKey e s = Some s' ->
  without_bodies <$> db_logs (tables_of s') = without_bodies <$> db_logs (tables_of s).
Proof.
  intros Hm W H. destruct e as [su route r|v rf|fault id t|fault op]; simpl in H; simplify_eq.
  - by rewrite (proj1 (client_tables HashKey su route r s)).
  - rewrite (proj1 (admin_tables v rf s)). destruct (serve_contract (v_env v) (v_query v) (v_request v) (v_call v) _ W) as [_ Hin _].
    by apply within_logs in Hin.
  - destruct (list_find _ _); simplify_eq/=. unfold tables_of. simpl. f_equal. apply (then_keeps db_logs), exec_keeps. by intros db.
  - destruct (is_log_op op); [|done]. simplify_eq. unfold tables_of. cbn [set_conn sv_conn].
    destruct op; try done; cbn [run_op]; unfold discard; apply (then_keeps (fun db => without_bodies <$> db_logs db));
      intros c; apply (within_logs Settings), ch_stays;
      [apply purge_requests_change|apply purge_responses_change|apply purge_chunks_change].
Qed.


(** ** The rows a run writes *)

(** The logs are the old ones and the rows of jobs picked from those
    processed: some of them, in order, or all. *)
Definition writes (pick : list persistJob -> list persistJob -> Prop) (p p' : Process R) : Prop :=
  exists rows picked new, without_bodies <$> logs_of p' = without_bodies <$> logs_of p ++ rows /\
    Forall2 booked rows picked /\ pick picked new /\
    hi_processed (pc_history p') = hi_processed (pc_history p) ++ new.

Class Pick (pick : list persistJob -> list persistJob -> Prop) : Prop := {
  pick_refl : forall l, pick l l;
  pick_app : forall l1 l2 l3 l4, pick l1 l2 -> pick l3 l4 -> pick (l1 ++ l3) (l2 ++ l4);
}.

#[local] Instance Pick_sublist : Pick sublist.
Proof. split; [done|]. intros. by apply sublist_app. Qed.

#[local] Instance Pick_eq : Pick eq.
Proof. split; [done|]. by intros ? ? ? ? -> ->. Qed.

Lemma writes_nothing pick `{!Pick pick} p p' : without_bodies <$> logs_of p' = without_bodies <$> logs_of p ->
  hi_processed (pc_history p') = hi_processed (pc_history p) -> writes pick p p'.
Proof. intros H1 H2. exists [], [], []. rewrite !app_nil_r. split_and!; try done. apply pick_refl. Qed.

Lemma writes_trans pick `{!Pick pick} p1 p2 p3 : writes pick p1 p2 -> writes pick p2 p3 -> writes pick p1 p3.
Proof.
  intros (r1 & k1 & n1 & A1 & A2 & A3 & A4) (r2 & k2 & n2 & B1 & B2 & B3 & B4). exists (r1 ++ r2), (k1 ++ k2), (n1 ++ n2).
  rewrite B1, B4, A4, !fmap_app, A1, fmap_app, <- !app_assoc. split_and!; try done; [by apply Forall2_app|by apply pick_app].
Qed.

(** The job a step takes is passed over, or its insertion succeeds. *)
Definition picks (pick : list persistJob -> list persistJob -> Prop) (e : ProcessEvent) (p : Process R) : Prop :=
  match e with
  | Work b t => forall job, head (col_ch (hi_collector (pc_history p))) = Some job -> pick [] [job] \/
      tn_fault t (cn_stmts (sv_conn (pc_server p))) = false /\ fresh log_ID (job_log job) (logs_of p) = true
  | _ => True
  end.

Lemma turn_takes b c job c' : worker_turn b c = (Some job, c') -> head (col_ch c) = Some job.
Proof. unfold worker_turn. intros H. by repeat case_match; simplify_eq/=. Qed.

Lemma step_writes pick `{!Pick pick} e p p' : wf (tables_of (pc_server p)) -> picks pick e p -> process_step HashKey e p = Some p' ->
  wf (tables_of (pc_server p')) /\ writes pick p p'.
Proof.
  intros W Hp H. destruct e as [e|b t| | | |]; cbn [process_step picks] in H, Hp.
  - destruct (may_serve _ _) eqn:Em; [|done]. destruct (server_step HashKey e (pc_server p)) as [s|] eqn:Es; [|done]. simpl in H.
    destruct (collector_run _ _) as [h|] eqn:E; [|done]. simpl in H. simplify_eq. split; [by eapply step_wf|].
    apply submits_quiet in E as (E & _). apply writes_nothing; [done| |done]. by eapply serve_logs.
  - destruct (b && _); [done|]. cbn [collector_step] in H. destruct (worker_turn b _) as [job c] eqn:Et.
    cbn [mbind option_bind fst] in H. simplify_eq. set (h := mkHistory _ _ _ _). destruct job as [job|].
    2: { split; [done|]. apply writes_nothing; [done|done|]. simpl. by rewrite app_nil_r. }
    specialize (Hp job (turn_takes _ _ _ _ Et)).
    destruct (process_job_spec t job (mkProcess (pc_server p) h (pc_stats p) (pc_phase p))) as (E1 & _ & E2 & E3).
    split; [by apply E2|]. cbn [pc_server] in E3. change (db_logs (tables_of (pc_server p))) with (logs_of p) in E3.
    destruct (_ || _) eqn:Ef; [exists [], [], [job]|exists [row_of (tn_catalog t) job], [job], [job]];
      unfold logs_of at 1; rewrite E3, E1, ?app_nil_r; split_and!; try done.
    + destruct Hp as [Hp|[Hp1 Hp2]]; [done|]. by rewrite Hp1, Hp2 in Ef.
    + constructor; [by exists (tn_catalog t)|constructor].
    + apply pick_refl.
  - destruct (decide _); simplify_eq/=. split; [done|]. by apply writes_nothing.
  - destruct (decide _); simplify_eq/=. split; [done|]. by apply writes_nothing.
  - destruct (decide _); [|done]. cbn [collector_step] in H. destruct (Close _); simplify_eq/=. split; [done|]. by apply writes_nothing.
  - destruct (decide _); simplify_eq/=. split; [done|]. by apply writes_nothing.
Qed.

Lemma run_writes es : forall p p', wf (tables_of (pc_server p)) -> process_run HashKey es p = Some p' ->
  wf (tables_of (pc_server p')) /\ writes sublist p p'.
Proof.
  induction es as [|e es IH]; intros p p' W H; simpl in H; [simplify_eq; split; [done|by apply (writes_nothing _)]|].
  destruct (process_step HashKey e p) as [p1|] eqn:E; [|done]. apply (step_writes sublist) in E as [W1 E]; [|done|].
  - destruct (IH _ _ W1 H) as [W2 H2]. split; [done|]. by eapply (writes_trans _).
  - destruct e; try done. intros job _. left. constructor. constructor.
Qed.

(** Without faults, and with new ids, every job processed becomes a row. *)
Definition reliable (e : ProcessEvent) : Prop := match e with Work _ t => forall n, tn_fault t n = false | _ => True end.

Definition job_id (job : persistJob) : string := log_ID (job_log job).

Lemma ids_of_bodies (l l' : list RequestLog) : without_bodies <$> l = without_bodies <$> l' -> log_ID <$> l = log_ID <$> l'.
Proof. intros H. apply (f_equal (fmap log_ID)) in H. by rewrite <- !list_fmap_compose in H. Qed.

Lemma ids_of_booked rows jobs : Forall2 booked rows jobs -> log_ID <$> rows = job_id <$> jobs.
Proof. induction 1 as [|row job rows jobs [cat ->] _ IH]; [done|]. rewrite !fmap_cons, IH. f_equal. apply row_same. Qed.

Lemma run_writes_all cap base es : forall subs p p', wf (tables_of (pc_server p)) -> history_ok cap subs (pc_history p) ->
  log_ID <$> logs_of p = base ++ (job_id <$> hi_processed (pc_history p)) ->
  NoDup (base ++ (job_id <$> subs ++ handed HashKey es p)) -> Forall reliable es ->
  process_run HashKey es p = Some p' -> writes eq p p'.
Proof.
  induction es as [|e es IH]; intros subs p p' W K Hids Hn Hr H; simpl in H, Hn; [simplify_eq; by apply (writes_nothing _)|].
  apply Forall_cons in Hr as [Hr Hrs]. destruct (process_step HashKey e p) as [p1|] eqn:E; [|done].
  rewrite (assoc_L app) in Hn. assert (Hw : writes eq p p1 /\ wf (tables_of (pc_server p1))).
  { destruct (step_writes eq e p p1 W) as [W1 Hw]; [|done|done]. destruct e as [|b t| | | |]; try done. intros job Hj. right.
    split; [apply Hr|]. apply bool_decide_eq_true. rewrite Hids. intros Hin. destruct K as [_ Kf _ _ Ko _].
    destruct (col_ch (hi_collector (pc_history p))) as [|j ch] eqn:Ec; [done|]. simpl in Hj. injection Hj as <-.
    assert (Hs : job_id <$> hi_processed (pc_history p) ++ [j] `sublist_of` job_id <$> (subs ++ handed_by HashKey (Work b t) p) ++ handed HashKey es p1).
    { apply fmap_sublist. rewrite <- (assoc_L app). transitivity subs; [|by apply sublist_inserts_r]. etransitivity; [|exact Ko].
      rewrite <- Kf. apply sublist_app; [done|]. by apply sublist_skip, sublist_nil_l. }
    apply (sublist_NoDup (base ++ (job_id <$> hi_processed (pc_history p) ++ [j]))) in Hn; [|by apply sublist_app, Hs].
    rewrite fmap_app, (assoc_L app) in Hn. apply NoDup_app in Hn as (_ & Hn & _). apply (Hn _ Hin). csimpl. by apply list_elem_of_singleton. }
  destruct Hw as [Hw W1]. eapply (writes_trans _); [exact Hw|]. apply (IH _ _ _ W1 (step_history _ _ _ _ _ E K)); try done.
  destruct Hw as (rows & picked & new & A1 & A2 & -> & A3). apply ids_of_bodies in A1. rewrite A1, A3, !fmap_app, Hids, (ids_of_booked _ _ A2).
  by rewrite (assoc_L app).
Qed.

(** ** The requests behind the jobs *)

(** A request that comes in carries no key in its context. *)
Definition fresh_event (e : ProcessEvent) : Prop :=
  match e with Serve (Client _ _ r) => apiKeyFromContext r = None | _ => True end.

(** The job is that of a request of the run, recorded under the key it was
    let in with. *)
Definition asked_in (es : list ProcessEvent) (p : Process R) (job : persistJob) : Prop :=
  exists before su route r after p1, es = before ++ Serve (Client su route r) :: after /\
    process_run HashKey before p = Some p1 /\
    log_origin (job_log job) = request_origin r (key_auth <$> billed HashKey su route r (pc_server p1)).

(** The requests a step, and a run, let in under a key. *)
Definition granted_by (id : string) (e : ProcessEvent) (p : Process R) : nat :=
  match e with
  | Serve (Client su route r) =>
      match billed HashKey su route r (pc_server p) with Some key => if String.eqb (k_ID key) id then 1 else 0 | None => 0 end
  | _ => 0
  end.

Fixpoint granted (id : string) (es : list ProcessEvent) (p : Process R) : nat :=
  match es with
  | [] => 0
  | e :: es' => granted_by id e p + match process_step HashKey e p with Some p' => granted id es' p' | None => 0 end
  end.

Lemma handed_is_client e p job : job ∈ handed_by HashKey e p -> exists su route r, e = Serve (Client su route r).
Proof.
  destruct e as [[su route r|v rf|fault id t|fault op]|b t| | | |]; try (intros H; by apply elem_of_nil in H); [by eauto|..]; simpl.
  - intros H. exfalso. unfold admin_call, news in H. destruct (reconfigures _); [destruct (ConfigSnapshot_Reload _ _ _) as [[? ?] ?]|];
      simpl in H; rewrite drop_all in H; by apply elem_of_nil in H.
  - destruct (list_find _ _); simpl; [|intros H; by apply elem_of_nil in H]. unfold news. simpl. rewrite drop_all. intros H. by apply elem_of_nil in H.
  - destruct (is_log_op op); [|intros H; by apply elem_of_nil in H]. unfold news. simpl. rewrite drop_all. intros H. by apply elem_of_nil in H.
Qed.

(** A step hands over at most one log, that of its request. *)
Lemma handed_spec e p : fresh_event e ->
  (length (handed_by HashKey e p) <= 1)%nat /\
  Forall (fun job => exists su route r, e = Serve (Client su route r) /\
    log_origin (job_log job) = request_origin r (key_auth <$> billed HashKey su route r (pc_server p))) (handed_by HashKey e p).
Proof.
  intros Hf. destruct (handed_by HashKey e p) as [|j jobs] eqn:E; [split; [simpl; lia|apply Forall_nil_2]|].
  assert (Hj : j ∈ handed_by HashKey e p) by (rewrite E; constructor). destruct (handed_is_client _ _ _ Hj) as (su & route & r & ->).
  clear Hj. simpl in Hf, E. destruct (request_recorded HashKey su route r (pc_server p) Hf) as [H1 H2]. rewrite <- jobs_logs, E in H1, H2.
  rewrite length_fmap in H1. split; [done|]. apply Forall_fmap in H2. eapply Forall_impl; [exact H2|]. intros job Hjob. by exists su, route, r.
Qed.

Lemma handed_asked es : forall p, Forall fresh_event es -> Forall (asked_in es p) (handed HashKey es p).
Proof.
  induction es as [|e es IH]; intros p Hf; simpl; [apply Forall_nil_2|]. apply Forall_cons in Hf as [Hf Hfs]. apply Forall_app. split.
  - eapply Forall_impl; [apply (proj2 (handed_spec e p Hf))|]. intros job (su & route & r & -> & H). by exists [], su, route, r, es, p.
  - destruct (process_step HashKey e p) as [p1|] eqn:E; [|apply Forall_nil_2]. eapply Forall_impl; [by apply IH|].
    intros job (before & su & route & r & after & p2 & -> & H1 & H2). exists (e :: before), su, route, r, after, p2.
    split_and!; [done| |done]. simpl. by rewrite E.
Qed.

Definition under (id : string) (l : RequestLog) : bool := String.eqb (log_APIKeyID l) id.

Lemma granted_step id e p : id <> EmptyString -> fresh_event e ->
  (length (keep (under id) (job_log <$> handed_by HashKey e p)) <= granted_by id e p)%nat.
Proof.
  intros Hid Hf. destruct (handed_spec e p Hf) as [Hl Ho]. destruct (handed_by HashKey e p) as [|job [|job2 l]]; simpl in Hl; [simpl; lia| |lia].
  apply Forall_cons in Ho as [(su & route & r & -> & Ho) _]. unfold keep, under. simpl. unfold log_origin, request_origin in Ho.
  injection Ho as _ _ _ Ho. destruct (billed _ _ _ _ _) as [key|]; simpl in Ho; injection Ho as Ho _; rewrite Ho.
  - destruct (String.eqb (k_ID key) id); simpl; lia.
  - destruct (String.eqb_spec "" id) as [<-|]; [done|simpl; lia].
Qed.

Lemma granted_run id es : forall p, id <> EmptyString -> Forall fresh_event es ->
  (length (keep (under id) (job_log <$> handed HashKey es p)) <= granted id es p)%nat.
Proof.
  induction es as [|e es IH]; intros p Hid Hf; [simpl; lia|]. apply Forall_cons in Hf as [Hf Hfs]. cbn [handed granted].
  rewrite fmap_app, keep_app, length_app. pose proof (granted_step id e p Hid Hf).
  destruct (process_step HashKey e p) as [p1|]; [specialize (IH p1 Hid Hfs)|simpl in *]; lia.
Qed.

(** ** Counting rows *)

Lemma under_bodies id l l' : without_bodies <$> l = without_bodies <$> l' -> length (keep (under id) l) = length (keep (under id) l').
Proof.
  revert l'. induction l as [|x l IH]; intros [|x' l'] H; try done. rewrite !fmap_cons in H. injection H as H1 H2. specialize (IH l' ltac:(done)).
  unfold keep in *. simpl. assert (E : under id x = under id x') by (unfold under; destruct x, x'; simpl in *; by simplify_eq).
  rewrite E. destruct (under id x'); simpl; lia.
Qed.

Lemma under_booked id rows jobs : Forall2 booked rows jobs -> length (keep (under id) rows) = length (keep (under id) (job_log <$> jobs)).
Proof.
  induction 1 as [|row job rows jobs [cat ->] _ IH]; [done|]. unfold keep in *. csimpl. destruct (row_same cat job) as [_ H].
  apply (f_equal (fun o => ka_ID (or_Key o))) in H. change (log_APIKeyID (row_of cat job) = log_APIKeyID (job_log job)) in H.
  assert (E : under id (row_of cat job) = under id (job_log job)) by (unfold under; by rewrite H).
  simpl. rewrite E. destruct (under id (job_log job)); simpl; lia.
Qed.


(** ** The life of the process *)

(** The goroutine serves as long as [main] does, the channel is closed by
    [main] only, and [main] ends after the goroutine. *)
Record alive (p : Process R) : Prop := mkAlive {
  al_up : pc_phase p = Up -> col_worker (hi_collector (pc_history p)) = Metrics.Serving;
  al_open : pc_phase p = Up \/ pc_phase p = Stopping \/ pc_phase p = Down -> col_closed (hi_collector (pc_history p)) = false;
  al_end : pc_phase p = Exited -> col_worker (hi_collector (pc_history p)) = Ended;
}.

Lemma start_alive s stats cap : alive (mkProcess s (new_history cap) stats Up).
Proof. by split. Qed.

Lemma step_alive e p p' : alive p -> process_step HashKey e p = Some p' -> alive p'.
Proof.
  intros [A1 A2 A3] H. destruct e as [e|b t| | | |]; cbn [process_step] in H.
  - destruct (may_serve _ _); [|done]. destruct (server_step HashKey e (pc_server p)) as [s|]; [|done]. simpl in H.
    destruct (collector_run _ _) as [h|] eqn:E; [|done]. simpl in H. simplify_eq. apply submits_quiet in E as (_ & E1 & E2).
    split; simpl; rewrite ?E1, ?E2; auto.
  - destruct (b && _) eqn:Eb; [done|]. cbn [collector_step] in H. destruct (worker_turn b _) as [job c] eqn:Et.
    cbn [mbind option_bind fst] in H. simplify_eq. set (h := mkHistory _ _ _ _).
    assert (Hc : col_closed c = col_closed (hi_collector (pc_history p))) by (unfold worker_turn in Et; by repeat case_match; simplify_eq/=).
    assert (He : col_worker (hi_collector (pc_history p)) = Ended -> col_worker c = Ended).
    { intros He. unfold worker_turn in Et. rewrite He in Et. by simplify_eq. }
    assert (Hu : pc_phase p = Up -> col_worker c = Metrics.Serving).
    { intros Hu. rewrite bool_decide_eq_true_2, andb_true_r in Eb by done. subst b. unfold worker_turn in Et.
      rewrite (A1 Hu), (A2 (or_introl Hu)) in Et. by destruct (col_ch _); simplify_eq/=. }
    destruct job as [job|]; [|split; simpl; rewrite ?Hc; auto].
    destruct (process_job_spec t job (mkProcess (pc_server p) h (pc_stats p) (pc_phase p))) as (E1 & E2 & _).
    split; rewrite E1, ?E2; simpl; rewrite ?Hc; auto.
  - destruct (decide _) as [E|]; simplify_eq/=. split; simpl; try done. intros _. apply A2. auto.
  - destruct (decide _) as [E|]; simplify_eq/=. split; simpl; try done. intros _. apply A2. auto.
  - destruct (decide _) as [E|]; [|done]. cbn [collector_step] in H. destruct (Close _); simplify_eq/=. split; simpl; [done|naive_solver|done].
  - destruct (decide _) as [[E1 E2]|]; simplify_eq/=. split; simpl; [done|naive_solver|done].
Qed.

Lemma run_alive es : forall p p', alive p -> process_run HashKey es p = Some p' -> alive p'.
Proof.
  induction es as [|e es IH]; intros p p' A H; simpl in H; [by simplify_eq|].
  destruct (process_step HashKey e p) as [p1|] eqn:E; [|done]. eapply IH; [|exact H]. by eapply step_alive.
Qed.

(** A goroutine that ended had nothing left, if nothing was handed over
    since. *)
Definition drained (p : Process R) : Prop :=
  col_worker (hi_collector (pc_history p)) = Ended -> col_ch (hi_collector (pc_history p)) = [].

Lemma step_drained e p p' : drained p -> handed_by HashKey e p = [] -> process_step HashKey e p = Some p' -> drained p'.
Proof.
  intros D Hh H. destruct e as [e|b t| | | |]; cbn [process_step handed_by] in H, Hh; unfold drained in *.
  - destruct (may_serve _ _); [|done]. destruct (server_step HashKey e (pc_server p)) as [s|]; [|done]. simpl in H.
    rewrite Hh in H. simpl in H. by simplify_eq.
  - destruct (b && _); [done|]. cbn [collector_step] in H. destruct (worker_turn b _) as [job c] eqn:Et.
    cbn [mbind option_bind fst] in H. simplify_eq. set (h := mkHistory _ _ _ _).
    assert (Dc : col_worker c = Ended -> col_ch c = []).
    { unfold worker_turn in Et. repeat case_match; simplify_eq/=; try done. auto. }
    destruct job as [job|]; [|exact Dc].
    by destruct (process_job_spec t job (mkProcess (pc_server p) h (pc_stats p) (pc_phase p))) as (-> & _).
  - destruct (decide _); by simplify_eq/=.
  - destruct (decide _); by simplify_eq/=.
  - destruct (decide _); [|done]. cbn [collector_step] in H. unfold Close in H. destruct (col_closed _); by simplify_eq/=.
  - destruct (decide _); by simplify_eq/=.
Qed.

Lemma run_drained es : forall p p', drained p -> handed HashKey es p = [] -> process_run HashKey es p = Some p' -> drained p'.
Proof.
  induction es as [|e es IH]; intros p p' D Hh H; simpl in H, Hh; [by simplify_eq|].
  apply app_eq_nil in Hh as [H1 H2]. destruct (process_step HashKey e p) as [p1|] eqn:E; [|done].
  by eapply IH; [eapply step_drained|..].
Qed.

Lemma process_run_app es1 es2 p : process_run HashKey (es1 ++ es2) p =
  match process_run HashKey es1 p with Some p1 => process_run HashKey es2 p1 | None => None end.
Proof. revert p. induction es1 as [|e es1 IH]; intros p; [done|]. simpl. by destruct (process_step HashKey e p). Qed.

Lemma handed_app es1 es2 p p1 : process_run HashKey es1 p = Some p1 ->
  handed HashKey (es1 ++ es2) p = handed HashKey es1 p ++ handed HashKey es2 p1.
Proof.
  revert p. induction es1 as [|e es1 IH]; intros p H; simpl in H |- *; [by simplify_eq|].
  destruct (process_step HashKey e p) as [p2|]; [|done]. by rewrite <- (assoc_L app), (IH _ H).
Qed.

(** *** The end *)

Definition farewell (t : Turning) (n : nat) : list ProcessEvent :=
  [Interrupt; ShutdownDone; CloseCollector] ++ repeat (Work true t) n ++ [CloseStore].

Lemma handed_farewell t n p : handed HashKey (farewell t n) p = [].
Proof.
  assert (G : forall es q, Forall (fun e => match e with Serve _ => False | _ => True end) es -> handed HashKey es q = []).
  { induction es as [|e es IH]; intros q Hes; [done|]. apply Forall_cons in Hes as [He Hes]. cbn [handed].
    destruct (process_step HashKey e q); [rewrite (IH _ Hes)|]; by destruct e. }
  apply G. unfold farewell. rewrite !Forall_app. split; [by repeat constructor|]. split; [|by repeat constructor].
  induction n; simpl; by constructor.
Qed.

(** A draining goroutine with [n] jobs ends after [n + 1] turns. *)
Lemma drain_turns t : forall n p, pc_phase p = Closing -> col_worker (hi_collector (pc_history p)) = Draining ->
  length (col_ch (hi_collector (pc_history p))) = n ->
  exists p', process_run HashKey (repeat (Work true t) (S n)) p = Some p' /\ pc_phase p' = Closing /\
    col_worker (hi_collector (pc_history p')) = Ended.
Proof.
  intros n. induction n as [|n IH]; intros p Hp Hw Hn.
  - apply nil_length_inv in Hn. eexists. cbn [repeat process_run process_step]. rewrite Hp. simpl. unfold worker_turn. rewrite Hw, Hn. simpl.
    split; [reflexivity|]. simpl. by destruct (col_closed _).
  - destruct (col_ch (hi_collector (pc_history p))) as [|job ch] eqn:Ec; [done|]. injection Hn as Hn.
    assert (E : exists p1, process_step HashKey (Work true t) p = Some p1 /\ pc_phase p1 = Closing /\
        col_worker (hi_collector (pc_history p1)) = Draining /\ col_ch (hi_collector (pc_history p1)) = ch).
    { eexists. cbn [process_step]. rewrite Hp. simpl. unfold worker_turn. rewrite Hw, Ec. simpl. split; [reflexivity|].
      match goal with |- context [process_job t job ?q] => destruct (process_job_spec t job q) as (-> & -> & _) end. by simpl. }
    destruct E as (p1 & E1 & E2 & E3 & E4). cbn [repeat process_run]. rewrite E1.
    destruct (IH p1 E2 E3 ltac:(by rewrite E4)) as (p' & H1 & H2). by exists p'.
Qed.

Lemma farewell_ends t p : alive p -> pc_phase p = Up ->
  exists p', process_run HashKey (farewell t (length (col_ch (hi_collector (pc_history p))) + 2)) p = Some p' /\ pc_phase p' = Exited.
Proof.
  intros [A1 A2 _] Hp. specialize (A1 Hp). specialize (A2 (or_introl Hp)). unfold farewell. cbn [app process_run].
  unfold process_step at 1. rewrite decide_True by done. unfold process_step at 1. rewrite decide_True by done.
  unfold process_step at 1. rewrite decide_True by done. cbn [collector_step pc_history set_phase]. unfold Close. rewrite A2.
  cbn [mbind option_bind pc_server pc_stats set_phase]. set (h := mkHistory _ _ _ _). set (p1 := mkProcess _ h _ _).
  rewrite process_run_app, Nat.add_comm. cbn [Nat.add repeat]. cbn [process_run].
  assert (E : exists p2, process_step HashKey (Work true t) p1 = Some p2 /\ pc_phase p2 = Closing /\
    col_worker (hi_collector (pc_history p2)) = Draining /\ length (col_ch (hi_collector (pc_history p2))) = length (col_ch (hi_collector (pc_history p)))).
  { eexists. cbn [process_step]. simpl. unfold worker_turn. simpl. rewrite A1. by split_and!. }
  destruct E as (p2 & E1 & E2 & E3 & E4). rewrite E1.
  destruct (drain_turns t _ p2 E2 E3 E4) as (p3 & H1 & H2 & H3). cbn [repeat process_run] in H1. rewrite H1.
  cbn [process_step]. rewrite decide_True by done. by eexists.
Qed.

End Runs.

(** * Properties *)

(** C8: What the reports charge to a key was let in under it.  Take any run of
    the process from well-formed tables: requests, admin calls, purges, turns
    of the collector, faults of the store, the stop of the process.  The logs
    are then those of the start, bodies apart, and rows of jobs the collector
    accepted, in order; each is the log of a request of the run, priced, and
    names the caller, the method, the path and the key of that request.  For
    every key the rows under it have grown by at most the number of requests
    the wrapper let in under it. *)
Theorem usage_counts_granted_requests {R : Type} `{Router_ : !RouterI R} (HashKey : string -> string) (cap : Z)
    (stats : Accumulator) (es : list ProcessEvent) (s : Server R) (p : Process R) :
  let start := mkProcess s (new_history cap) stats Up in
  0 <= cap -> wf (tables_of s) -> Forall fresh_event es -> process_run HashKey es start = Some p ->
  (exists rows picked, without_bodies <$> logs_of p = without_bodies <$> logs_of start ++ rows /\
     Forall2 booked rows picked /\ picked `sublist_of` hi_accepted (pc_history p) /\
     Forall (asked_in HashKey es start) picked) /\
  forall id, id <> EmptyString ->
    (length (keep (under id) (logs_of p)) <= length (keep (under id) (logs_of start)) + granted HashKey id es start)%nat.
Proof.
  intros start Hc W Hf H. destruct (run_writes HashKey es start p W H) as (_ & rows & picked & new & A1 & A2 & A3 & A4).
  assert (K0 : history_ok cap [] (pc_history start)) by (split; simpl; auto; lia).
  pose proof (run_history HashKey cap es [] start p H K0) as [_ Kf _ _ Ko _]. simpl in A4, Ko. subst new.
  assert (Ha : picked `sublist_of` hi_accepted (pc_history p)).
  { etransitivity; [exact A3|]. rewrite <- Kf. by apply sublist_inserts_r. }
  assert (Hh : picked `sublist_of` handed HashKey es start) by (by transitivity (hi_accepted (pc_history p))).
  split.
  - exists rows, picked. split_and!; [done..|]. eapply (Forall_sublist _ _ _ Hh). by apply handed_asked.
  - intros id Hid. rewrite (under_bodies id _ _ A1), keep_app, length_app, (under_booked id _ _ A2).
    pose proof (granted_run HashKey id es start Hid Hf) as G. apply (fmap_sublist job_log), (keep_sublist (under id)) in Hh. lia.
Qed.

(** C9: The end of the process loses no log it had accepted.  Take a run up to
    a moment the process still serves, with a working store and logs of new
    ids.  From there it can always come to its end: told to stop it ends
    within as many turns of the collector's goroutine as logs wait, plus two.
    And however it ends, if no request hands over a log any more, then every
    log the collector accepted is a row, in order, priced; and if no more were
    handed over than the channel holds, these are all the logs of the run. *)
Theorem exit_leaves_nothing_unwritten {R : Type} `{Router_ : !RouterI R} (HashKey : string -> string) (cap : Z)
    (stats : Accumulator) (es : list ProcessEvent) (s : Server R) (p : Process R) :
  let start := mkProcess s (new_history cap) stats Up in
  0 <= cap -> wf (tables_of s) -> Forall reliable es ->
  NoDup ((log_ID <$> logs_of start) ++ (job_id <$> handed HashKey es start)) ->
  process_run HashKey es start = Some p -> pc_phase p = Up ->
  (forall t, exists p', process_run HashKey (farewell t (length (col_ch (hi_collector (pc_history p))) + 2)) p = Some p' /\
     pc_phase p' = Exited) /\
  forall es' p', Forall reliable es' -> handed HashKey es' p = [] -> process_run HashKey es' p = Some p' -> pc_phase p' = Exited ->
    exists rows, without_bodies <$> logs_of p' = without_bodies <$> logs_of start ++ rows /\
      Forall2 booked rows (hi_accepted (pc_history p')) /\
      (Z.of_nat (length (handed HashKey es start)) <= cap -> hi_accepted (pc_history p') = handed HashKey es start).
Proof.
  intros start Hc W Hr Hn H Hp. pose proof (run_alive HashKey es start p (start_alive s stats cap) H) as Al.
  split; [intros t; by apply farewell_ends|]. intros es' p' Hr' Hh' H' He.
  assert (K0 : history_ok cap [] (pc_history start)) by (split; simpl; auto; lia).
  assert (Hrun : process_run HashKey (es ++ es') start = Some p') by (by rewrite process_run_app, H).
  assert (Hhand : handed HashKey (es ++ es') start = handed HashKey es start) by (by rewrite (handed_app _ _ _ _ _ H), Hh', app_nil_r).
  destruct (run_history HashKey cap (es ++ es') [] start p' Hrun K0) as [_ Kf _ Kp Ko Kd]. rewrite Hhand in Kp, Ko, Kd. simpl in Kp, Ko, Kd.
  assert (D : drained p).
  { unfold drained. destruct Al as [A1 _ _]. by rewrite (A1 Hp). }
  pose proof (run_drained HashKey es' p p' D Hh' H') as D'. destruct (run_alive HashKey es' p p' Al H') as [_ _ A3].
  rewrite (D' (A3 He)), app_nil_r in Kf.
  destruct (run_writes_all HashKey cap (log_ID <$> logs_of start) (es ++ es') [] start p') as (rows & picked & new & A1 & A2 & -> & A4);
    [done|done|by rewrite app_nil_r|by rewrite Hhand|by apply Forall_app|done|].
  exists rows. split_and!; [done|by rewrite <- Kf, A4|]. intros Hl. rewrite (Kd Hl), app_nil_r in Kp.
  by apply sublist_full.
Qed.

(** * Witnesses *)

(** Two requests under a key, one row written between them. *)
Definition sample_turning : Turning := mkTurning no_fault None 0 Z.of_nat Z.of_nat sample_uuid.

Definition sample_events : list ProcessEvent :=
  [Serve (Client sample_surroundings ChatCompletions sample_request); Serve (Touch no_fault "k1" 7); Work false sample_turning;
   Serve (Client sample_surroundings ChatCompletions sample_request)].

Abbreviation sample_start := (mkProcess sample_server (new_history 1024) NewAccumulator Up : Process unit).

Lemma sample_run_up : exists p, process_run sample_hash sample_events sample_start = Some p /\ pc_phase p = Up /\
  job_id <$> hi_accepted (pc_history p) = ["u0"; "u1"] /\ length (keep (under "k1") (logs_of p)) = 1%nat.
Proof. eexists. split; [vm_compute; reflexivity|]. repeat split. Qed.

Lemma usage_counts_granted_requests_witness :
  exists p, process_run sample_hash sample_events sample_start = Some p /\ length (keep (under "k1") (logs_of p)) = 1%nat /\
    (length (keep (under "k1") (logs_of p)) <= 0 + granted sample_hash "k1" sample_events sample_start)%nat.
Proof.
  destruct sample_run_up as (p & Hr & _ & _ & Hk). exists p. split; [exact Hr|]. split; [exact Hk|].
  assert (Hf : Forall fresh_event sample_events) by (repeat constructor).
  destruct (usage_counts_granted_requests sample_hash 1024 NewAccumulator sample_events sample_server p
    ltac:(lia) sample_tables_wf Hf Hr) as [_ G].
  exact (G "k1" ltac:(discriminate)).
Defined.

Lemma exit_leaves_nothing_unwritten_witness :
  exists p p', process_run sample_hash sample_events sample_start = Some p /\
    process_run sample_hash (farewell sample_turning (length (col_ch (hi_collector (pc_history p))) + 2)) p = Some p' /\
    exists rows, without_bodies <$> logs_of p' = without_bodies <$> rows /\ Forall2 booked rows (hi_accepted (pc_history p')).
Proof.
  destruct sample_run_up as (p & Hr & Hp & _). exists p.
  assert (Hrel : Forall reliable sample_events) by (repeat constructor).
  assert (Hn : NoDup ((log_ID <$> logs_of sample_start) ++ (job_id <$> handed sample_hash sample_events sample_start))).
  { refine (bool_decide_unpack _ _). vm_compute. exact I. }
  destruct (exit_leaves_nothing_unwritten sample_hash 1024 NewAccumulator sample_events sample_server p ltac:(lia)
    sample_tables_wf Hrel Hn Hr Hp) as [Hend Hrows].
  destruct (Hend sample_turning) as (p' & H1 & H2). exists p'. split; [exact Hr|]. split; [exact H1|].
  assert (Hq : Forall reliable (farewell sample_turning (length (col_ch (hi_collector (pc_history p))) + 2))).
  { unfold farewell. apply Forall_app. split; [repeat constructor|]. apply Forall_app. split; [|repeat constructor].
    apply Forall_forall. intros e He. apply list_elem_of_In, repeat_spec in He as ->. intros n. reflexivity. }
  destruct (Hrows _ _ Hq (handed_farewell sample_hash sample_turning _ p) H1 H2) as (rows & R1 & R2 & _).
  exists rows. split; [exact R1|exact R2].
Defined.
