(* ===== verification/Process.v ===== *)
(** The process of [cmd/gateway]: the pool of outgoing connections
    ([internal/httpx]), the embedded frontend, the opening of the database
    ([internal/db/store.go], [openDB]), and the start of [main] up to the
    server. *)
From S2P Require Import Prelude GoLib Models Http Sql Store Catalog Body Migrate Access Gateway.
Local Open Scope Z_scope.
Local Open Scope go_scope.

(** * Outgoing connections *)

(** What [newTransport] sets of a [http.Transport]. *)
Record Transport := mkTransport { tr_MaxIdleConns : Z; tr_MaxIdleConnsPerHost : Z; tr_IdleConnTimeout : Z }.

Definition newTransport (idleConnTimeout : Z) : Transport := mkTransport 100 10 idleConnTimeout.

(** [PooledClient]: the transports it has made, the last of which its client
    has; each with the number of its idle connections. *)
Record PooledClient := mkPooled { pc_old : list (Transport * nat); pc_transport : Transport; pc_idle : nat }.

Definition NewPooledClient (idleConnTimeout : Z) : PooledClient := mkPooled [] (newTransport idleConnTimeout) 0.

(** [Client()] hands out the one client; a request it sends takes the
    transport it has at that time. *)
Definition Client_ (p : PooledClient) : Transport := pc_transport p.

(** [ApplyIdleConnTimeout]: the idle connections of the previous transport are
    closed. *)
Definition ApplyIdleConnTimeout (idleConnTimeout : Z) (p : PooledClient) : PooledClient :=
  mkPooled (pc_old p ++ [(pc_transport p, 0%nat)]) (newTransport idleConnTimeout) 0.

(** A request sent and a connection that became idle again, and a new
    setting. *)
Inductive PoolEvent := RoundTrip | ConnIdle | Apply_ (idleConnTimeout : Z).

Definition pool_step (e : PoolEvent) (p : PooledClient) : PooledClient :=
  match e with
  | RoundTrip => p
  | ConnIdle => mkPooled (pc_old p) (pc_transport p) (S (pc_idle p))
  | Apply_ d => ApplyIdleConnTimeout d p
  end.

(** The transports the requests of a run take. *)
Fixpoint round_trips (es : list PoolEvent) (p : PooledClient) : list Transport :=
  match es with
  | [] => []
  | e :: es' =>
      match e with RoundTrip => [Client_ p] | _ => [] end ++ round_trips es' (pool_step e p)
  end.

(** * The frontend *)

(** [strings.TrimPrefix(s, p)]. *)
Definition trim_prefix (s p : string) : string := if has_prefix s p then str_drop (String.length p) s else s.

(** [r.Clone(ctx)] with another path. *)
Definition with_path (path : string) (r : Request) : Request :=
  mkRequest (req_Method r) path (req_Header r) (req_ContentLength r) (req_RemoteAddr r) (req_Body r) (req_apiKey r).

(** [frontendHandler]: [opens] tells the paths the embedded files have,
    [fileServer] is [http.FileServer]. *)
Definition frontendHandler {S} (opens : string -> bool) (fileServer : HandlerFunc S) : HandlerFunc S := fun r =>
  let fsPath := trim_prefix (req_Path r) "/" in
  if opens fsPath then fileServer r else fileServer (with_path "/" r).

(** * The logger *)

Inductive Level := LevelDebug | LevelInfo | LevelWarn | LevelError.

Inductive LogFormat := JSONHandler | TextHandler.

(** [buildLogger]; its output is the standard error. *)
Definition buildLogger (getenv : string -> string) (level : string) : Level * LogFormat :=
  let lvl :=
    if String.eqb level "debug" then LevelDebug
    else if String.eqb level "warn" then LevelWarn
    else if String.eqb level "error" then LevelError
    else LevelInfo in
  (lvl, if String.eqb (getenv "LOG_FORMAT") "json" then JSONHandler else TextHandler).

(** * Opening the database *)

Inductive OpenError :=
| ErrDriver
| ErrPath
| ErrOpen
| ErrPragma (pragma : string)
| ErrLegacy (e : LegacyError)
| ErrMigrate (e : MigrateError).

Section Open.
Context {V T : Type} `{Engine T}.
(** [filepath.Abs], what [sql.Open] finds behind a driver and a data source,
    the statements that fail, the clock of the migrations, the legacy file and
    the embedded migrations. *)
Context (abs : string -> option string) (found : string -> string -> option T) (fault : nat -> bool) (clock : nat -> Z).
Context (exec_target : string -> list V -> T -> option T) (user_tables : T -> nat) (stat : string -> Stat) (src : string -> Source V).
Context (dir : option (list Entry)).

(** What [openDB] returns, and whether the handle it had opened is closed
    again; [None] when it had opened none. *)
Record Opened := mkOpened { op_result : OpenError + T; op_closed : option bool }.

Definition Opening (A : Type) : Type := ST (Session T) (OpenError + A).

Definition o_bind {A B} (m : Opening A) (k : A -> Opening B) : Opening B :=
  fun s => match m s with
           | (inl e, s') => (inl e, s')
           | (inr a, s') => k a s'
           end.

(** A PRAGMA is a statement that leaves the content alone. *)
Definition run_pragma (pragma : string) : Opening unit := fun s =>
  (if fault (ss_stmts s) then inl (ErrPragma pragma) else inr tt, mkSession (ss_db s) (S (ss_stmts s)) (ss_log s)).

Fixpoint run_pragmas (ps : list string) : Opening unit :=
  match ps with
  | [] => fun s => (inr tt, s)
  | p :: ps' => o_bind (run_pragma p) (fun _ => run_pragmas ps')
  end.

Definition copy_legacy (driver legacyPath : string) : Opening unit := fun s =>
  if String.eqb driver "libsql" && negb (str_empty legacyPath) then
    let '(r, (t, n)) := migrateLegacySQLite fault exec_target user_tables legacyPath (stat legacyPath) (src legacyPath)
      (ss_db s, ss_stmts s) in
    (match r with inl e => inl (ErrLegacy e) | inr u => inr u end, mkSession t n (ss_log s))
  else (inr tt, s).

Definition migrate_schema : Opening unit := fun s =>
  let '(r, s') := runMigrationsWithLog fault clock dir s in
  (match r with inl e => inl (ErrMigrate e) | inr u => inr u end, s').

(** [openDB]. *)
Definition openDB (driver dbPath legacyPath : string) : Opened :=
  match dsn abs driver dbPath with
  | None => mkOpened (inl (if String.eqb driver "libsql" then ErrPath else ErrDriver)) None
  | Some source =>
      match found driver source with
      | None => mkOpened (inl ErrOpen) None
      | Some t =>
          match o_bind (run_pragmas (pragmas dbPath)) (fun _ => o_bind (copy_legacy driver legacyPath) (fun _ => migrate_schema))
                  (mkSession t 0 []) with
          | (inl e, _) => mkOpened (inl e) (Some true)
          | (inr _, s) => mkOpened (inr (ss_db s)) (Some false)
          end
      end
  end.

Definition NewSQLiteStore (dbPath : string) : Opened := openDB "sqlite" dbPath "".
Definition NewLibSQLStore (dbPath legacyPath : string) : Opened := openDB "libsql" dbPath legacyPath.

(** [NewStore]; an empty driver is an error like any other name. *)
Definition NewStore (driver source legacyPath : string) : Opened :=
  if String.eqb driver "sqlite" then NewSQLiteStore source
  else if String.eqb driver "libsql" then NewLibSQLStore source legacyPath
  else mkOpened (inl ErrDriver) None.

End Open.
Arguments Opened : clear implicits.

(** * The start *)

(** Where [main] stands when the server starts: the configuration, the
    database, the settings, the client and the catalog. *)
Record Running := mkRunning {
  ru_config : Config;
  ru_conn : Conn;
  ru_settings : ConfigSnapshot;
  ru_client : PooledClient;
  ru_catalog : RoutingCatalog;
}.

(** [os.Exit(1)] for want of a configuration, a database or a catalog. *)
Inductive Start := ExitConfig | ExitStore (e : OpenError) | ExitCatalog (e : DBError) | Serving (ru : Running).

Section Boot.
Context {T : Type} `{order : SortSlice}.

(** [Reload] of a catalog, as [main] calls it. *)
Definition Catalog_Reload (fault : nat -> bool) (cat : RoutingCatalog) : Exec RoutingCatalog :=
  sql! data := LoadRoutingData fault in
  eret (mkCatalog (buildRoutingSnapshot data) (cat_reloadCh cat) (cat_worker cat)).

(** [main] up to the server; [tables] are the tables of an opened database. *)
Definition boot_process (load : option Config) (open : Config -> Opened T) (tables : T -> DB) (fault : nat -> bool) : Start :=
  match load with
  | None => ExitConfig
  | Some cfg =>
      match op_result (open cfg) with
      | inl e => ExitStore e
      | inr t =>
          let '((_, settings), c) := ConfigSnapshot_Reload fault NewConfigSnapshot (mkConn (tables t) 0) in
          let idleConnSec := HTTPIdleConnTimeoutSecondsFromConfig (ConfigSnapshot_Get settings) in
          let outboundPool := NewPooledClient (idleConnSec * Second) in
          match Catalog_Reload fault NewRoutingCatalog c with
          | (inl e, _) => ExitCatalog e
          | (inr cat, c) => Serving (mkRunning cfg c settings outboundPool cat)
          end
      end
  end.

End Boot.

(** * Lemmas *)

(** Requests take the transport of the last setting applied before them. *)
Lemma round_trips_last es d p :
  Forall (fun e => match e with Apply_ _ => False | _ => True end) es ->
  Forall (fun t => t = newTransport d) (round_trips es (ApplyIdleConnTimeout d p)).
Proof.
  intros Hes. assert (H : forall q, pc_transport q = newTransport d -> Forall (fun t => t = newTransport d) (round_trips es q)).
  { induction Hes as [|e es He _ IH]; intros q Hq; [constructor|]. simpl. apply Forall_app. split; [|apply IH; by destruct e].
    destruct e; repeat constructor. exact Hq. }
  by apply H.
Qed.

Section OpenLemmas.
Context {V T : Type} `{EngineLaws T}.
Context (abs : string -> option string) (found : string -> string -> option T) (fault : nat -> bool) (clock : nat -> Z).
Context (exec_target : string -> list V -> T -> option T) (user_tables : T -> nat) (stat : string -> Stat) (src : string -> Source V).

Lemma o_bind_inv {A B} (m : Opening A) (k : A -> Opening B) (s : Session T) b s' :
  o_bind m k s = (inr b, s') -> exists a s1, m s = (inr a, s1) /\ k a s1 = (inr b, s').
Proof. unfold o_bind. destruct (m s) as [[e|a] s1]; [done|]. eauto. Qed.

Lemma run_pragmas_ok ps (s : Session T) s' : run_pragmas fault ps s = (inr tt, s') -> ss_db s' = ss_db s.
Proof.
  revert s. induction ps as [|p ps IH]; intros s; simpl; [by intros [= <-]|].
  intros ([] & s1 & H1 & H2)%o_bind_inv. apply IH in H2 as ->. unfold run_pragma in H1. destruct (fault _); [done|].
  by injection H1 as <-.
Qed.

(** The content a legacy copy leaves: that of the target, or of the target
    with the whole plan run. *)
Definition copied (legacyPath : string) (t t1 : T) : Prop :=
  match stat legacyPath with
  | Exists =>
      if negb (str_empty legacyPath) && Nat.eqb (user_tables t) 0
      then exec_plan exec_target (copy_plan (src legacyPath)) t = Some t1 else t1 = t
  | _ => t1 = t
  end.

Lemma copy_legacy_ok driver legacyPath (s s' : Session T) :
  copy_legacy fault exec_target user_tables stat src driver legacyPath s = (inr tt, s') ->
  if String.eqb driver "libsql" then copied legacyPath (ss_db s) (ss_db s') else ss_db s' = ss_db s.
Proof.
  unfold copy_legacy. destruct (String.eqb driver "libsql"); simpl; [|by intros [= <-]].
  unfold copied. destruct (String.eqb_spec legacyPath "") as [->|Hl]; simpl.
  { intros [= <-]. by destruct (stat ""). }
  assert (He : str_empty legacyPath = false) by by apply String.eqb_neq. rewrite He. simpl.
  destruct (migrateLegacySQLite _ _ _ _ _ _ _) as [r [t n]] eqn:E. destruct r as [e|[]]; [done|]. intros [= <-]. simpl.
  apply legacy_copy_runs_its_plan in E as (E1 & _ & E2).
  destruct (stat legacyPath) eqn:Es; [apply E1; by right; right..|].
  destruct (Nat.eqb_spec (user_tables (ss_db s)) 0) as [Hu|Hu]; [by apply E2|apply E1; by left].
Qed.

End OpenLemmas.

Lemma settings_reloaded fault s c : exists e s' c', ConfigSnapshot_Reload fault s c = ((e, s'), c') /\ cn_db c' = cn_db c /\
  (s' = db_config (cn_db c) \/ (exists n, fault n = true) /\ s' = s).
Proof.
  unfold ConfigSnapshot_Reload, bind, GetAllConfig, query, exec. destruct (fault _) eqn:E; do 3 eexists; (split; [reflexivity|]); simpl; eauto.
Qed.

Lemma query_err {A} fault (f : DB -> A) c e c' : query fault f c = (inl e, c') -> exists n, fault n = true.
Proof. unfold query, exec. destruct (fault _) eqn:E; [eauto|done]. Qed.

Lemma ebind_err {A B} (m : Exec A) (k : A -> Exec B) c e c' : ebind m k c = (inl e, c') ->
  (exists c1, m c = (inl e, c1)) \/ exists a c1, k a c1 = (inl e, c').
Proof. unfold ebind. destruct (m c) as [[e1|a] c1]; [intros [= <- <-]; left; eauto|eauto]. Qed.

Lemma load_keeps `{order : SortSlice} fault c data c' : LoadRoutingData fault c = (inr data, c') -> cn_db c' = cn_db c.
Proof.
  unfold LoadRoutingData. intros (ps & c1 & H1 & (ms & c2 & H2 & (al & c3 & H3 & (es & c4 & H4 & H)%ebind_ok)%ebind_ok)%ebind_ok)%ebind_ok.
  injection H as <- <-. apply query_ok in H1 as [_ E1], H2 as [_ E2], H3 as [_ E3], H4 as [_ E4]. congruence.
Qed.

Lemma load_err `{order : SortSlice} fault c e c' : LoadRoutingData fault c = (inl e, c') -> exists n, fault n = true.
Proof.
  unfold LoadRoutingData. do 4 (intros [(c1 & H)|(? & ? & H)]%ebind_err; [by eapply query_err|]; revert H). done.
Qed.

(** * Properties *)

(** C29: A store that opens is migrated; one that does not open leaves no
    handle behind.  When [NewStore] succeeds, its driver is sqlite or libsql,
    the data source was found, an empty libsql target got the whole of an
    existing legacy file, and then the pending migrations were applied in
    order, each completely and recorded; nothing else changed the content.
    When it fails, a handle it had opened is closed. *)
Theorem opened_store_is_migrated {V T : Type} (E : Engine T) (L : EngineLaws T)
    (abs : string -> option string) (found : string -> string -> option T) (fault : nat -> bool) (clock : nat -> Z)
    (exec_target : string -> list V -> T -> option T) (user_tables : T -> nat) (stat : string -> Stat)
    (src : string -> Source V) (entries : list Entry) (driver source legacyPath : string) :
  NoDup (up_files entries) ->
  let o := NewStore abs found fault clock exec_target user_tables stat src (Some entries) driver source legacyPath in
  match op_result o with
  | inl _ => op_closed o <> Some false
  | inr t =>
      op_closed o = Some false /\ driver ∈ ["sqlite"; "libsql"] /\
      exists data t0 t1, dsn abs driver source = Some data /\ found driver data = Some t0 /\
        (if String.eqb driver "libsql" then copied exec_target user_tables stat src legacyPath t0 t1 else t1 = t0) /\
        applies entries (pending_of (db_applied t1) (up_files entries)) (db_create_migrations t1) t
  end.
Proof.
  intros Hn o. subst o.
  assert (K : forall d lp, d ∈ ["sqlite"; "libsql"] -> let o := openDB abs found fault clock exec_target user_tables stat src (Some entries) d source lp in
    match op_result o with
    | inl _ => op_closed o <> Some false
    | inr t => op_closed o = Some false /\ exists data t0 t1, dsn abs d source = Some data /\ found d data = Some t0 /\
        (if String.eqb d "libsql" then copied exec_target user_tables stat src lp t0 t1 else t1 = t0) /\
        applies entries (pending_of (db_applied t1) (up_files entries)) (db_create_migrations t1) t
    end).
  { intros d lp Hd. cbv zeta. unfold openDB. destruct (dsn abs d source) as [data|] eqn:Ed; [|done].
    destruct (found d data) as [t0|] eqn:Ef; [|done]. destruct (o_bind _ _ _) as [[e|[]] s] eqn:Eo; [done|]. simpl. split; [done|].
    apply o_bind_inv in Eo as ([] & s1 & E1 & Eo). apply run_pragmas_ok in E1. simpl in E1.
    apply o_bind_inv in Eo as ([] & s2 & E2 & E3). apply copy_legacy_ok in E2. rewrite E1 in E2.
    exists data, t0, (ss_db s2). split_and!; try done. unfold migrate_schema in E3.
    destruct (runMigrationsWithLog fault clock (Some entries) s2) as [[e|[]] s3] eqn:Em; [done|]. injection E3 as ->.
    assert (H0 : progress entries (ss_db s2) 0 s2) by (by left).
    destruct (boot_progress entries (ss_db s2) 0 s2 (fault, clock) _ _ Hn H0 Em) as (k & _ & Ha). by apply Ha. }
  unfold NewStore, NewSQLiteStore, NewLibSQLStore.
  destruct (String.eqb_spec driver "sqlite") as [->|Hs]; [|destruct (String.eqb_spec driver "libsql") as [->|Hl]; [|done]].
  - specialize (K "sqlite" EmptyString ltac:(constructor)). cbv zeta in K. destruct (op_result _) as [e|t]; [done|].
    destruct K as [K1 K2]. split_and!; [done|constructor|exact K2].
  - specialize (K "libsql" legacyPath ltac:(right; constructor)). cbv zeta in K. destruct (op_result _) as [e|t]; [done|].
    destruct K as [K1 K2]. split_and!; [done|right; constructor|exact K2].
Qed.

(** C30: What the process serves when it starts is what the tables say.  It
    serves only with an access key and a database that opened; the catalog is
    built of the rows of the tables, which the start leaves as they are; the
    settings are those of the table, or the defaults when they could not be
    read, and the client drops idle connections after the time they name,
    between ten seconds and a day. *)
Theorem boot_serves_the_tables {T : Type} (order : SortSlice) (getenv : string -> string) (ParseDuration : string -> option Z)
    (open : Config -> Opened T) (tables : T -> DB) (fault : nat -> bool) :
  match boot_process (Load_ getenv ParseDuration) open tables fault with
  | Serving ru =>
      c_AccessKey (ru_config ru) <> EmptyString /\ c_DBDriver (ru_config ru) ∈ ["sqlite"; "libsql"] /\
      exists t, op_result (open (ru_config ru)) = inr t /\ cn_db (ru_conn ru) = tables t /\
        Gateway.start (ru_conn ru) = mkGateway (ru_conn ru) (ru_catalog ru) 0 false /\
        (ru_settings ru = db_config (tables t) \/ (exists n, fault n = true) /\ ru_settings ru = ∅) /\
        exists sec, tr_IdleConnTimeout (Client_ (ru_client ru)) = sec * Second /\
          MinHTTPIdleConnTimeoutSeconds <= sec <= MaxHTTPIdleConnTimeoutSeconds /\
          sec = HTTPIdleConnTimeoutSecondsFromConfig (ru_settings ru)
  | ExitConfig => getenv "ACCESS_KEY" = EmptyString \/ getenv "DB_DRIVER" <> EmptyString
  | ExitStore e => exists cfg, Load_ getenv ParseDuration = Some cfg /\ op_result (open cfg) = inl e
  | ExitCatalog _ => exists n, fault n = true
  end.
Proof.
  unfold boot_process, Load_. destruct (str_empty (getenv "ACCESS_KEY")) eqn:Ek.
  { left. by apply String.eqb_eq. }
  cbn zeta. set (cfg := mkConfig _ _ _ _ _ _ _ _). case_bool_decide as Hd.
  2: { right. intros Hdb. apply Hd. subst cfg. unfold getEnvOrDefault. cbn. rewrite Hdb. set_solver. }
  destruct (op_result (open cfg)) as [e|t] eqn:Eo; [by exists cfg|].
  destruct (settings_reloaded fault NewConfigSnapshot (mkConn (tables t) 0)) as (e1 & settings & c1 & -> & Hc & Hs).
  unfold Catalog_Reload. destruct (ebind _ _ c1) as [[e|cat] c2] eqn:El.
  { apply ebind_err in El as [(c3 & El)|(? & ? & El)]; [by eapply load_err|done]. }
  apply ebind_ok in El as (data & c3 & El & [= <- <-]). pose proof (load_keeps _ _ _ _ El) as Hdb.
  apply load_is_rows in El as ->. cbn [ru_config ru_conn ru_settings ru_client ru_catalog].
  split; [by apply String.eqb_neq|]. split; [done|]. exists t. rewrite Hdb, Hc. split_and!; try done.
  - unfold Gateway.start. by rewrite Hdb, Hc.
  - eexists. split_and!; [reflexivity| | |done]; unfold HTTPIdleConnTimeoutSecondsFromConfig, ClampHTTPIdleConnTimeoutSeconds,
      DefaultHTTPIdleConnTimeoutSeconds, MinHTTPIdleConnTimeoutSeconds, MaxHTTPIdleConnTimeoutSeconds; repeat case_match; blia.
Qed.

(** * Witnesses *)

(** The first start on libsql next to a legacy file of two tables. *)
Definition log_exec (sql : string) (_ : list nat) (t : bool * list string * list string) : option (bool * list string * list string) :=
  Some (t.1.1, t.1.2, t.2 ++ [sql]).

Abbreviation first_start :=
  (NewStore (fun p => Some (String.append "/" p)) (fun _ _ => Some (false, [], [])) no_fault (fun _ => 0) log_exec (fun t => length t.2)
    (fun _ => Exists) (fun _ => two_tables) (Some sample_files) "libsql" "db" "old.db").

Lemma opened_store_is_migrated_witness :
  exists t, op_result first_start = inr t /\ db_applied t = ["0001_a.up.sql"; "0002_b.up.sql"] /\ length t.2 = 8%nat.
Proof.
  assert (Hn : NoDup (up_files sample_files)).
  { refine (bool_decide_unpack (NoDup (up_files sample_files)) _). vm_compute. exact I. }
  pose proof (opened_store_is_migrated log_Engine log_EngineLaws (fun p => Some (String.append "/" p)) (fun _ _ => Some (false, [], []))
    no_fault (fun _ => 0) log_exec (fun t => length t.2) (fun _ => Exists) (fun _ => two_tables) sample_files "libsql" "db" "old.db" Hn) as K.
  cbv zeta in K.
  assert (Hr : exists t, op_result first_start = inr t /\ length t.2 = 8%nat) by (eexists; split; vm_compute; reflexivity).
  destruct Hr as (t & Hr & Ht).  rewrite Hr in K. destruct K as (_ & _ & data & t0 & t1 & _ & Hf & Hc & Ha).
  exists t. split; [exact Hr|]. split; [|exact Ht]. apply applies_keeps in Ha as [-> _].
  injection Hf as <-. vm_compute in Hc. injection Hc as <-. vm_compute. reflexivity.
Defined.
